(** * A shallow embedding of the segregated-free-list allocator [mm.c]

    The allocator of [malloclab-handout/mm.c] manages one growable heap with
    boundary tags (header and footer words), twenty segregated free lists and
    a "reallocation tag" kept in bit 1 of a header.

    The embedding follows the C text statement by statement.  The machine is
    the 32-bit one the handout is built for: [unsigned int], [u_int32_t] and
    pointers are four bytes wide, memory is a flat little-endian array of
    bytes, and [int] is the two's-complement reading of a 32-bit word.
    Loops that walk a linked free list take a [fuel] argument; running out
    of fuel is reported as [None].

    The file has the model first ([mm_init] to [mm_realloc], and a replayer
    of request traces), then the definition of a well-formed heap (the
    blocks between prologue and epilogue, with every free block threaded on
    the list of its size class), and then the properties: what single calls
    do to a well-formed heap, and what the allocator does on concrete
    traces. *)

From Stdlib Require Import ZArith List Bool Lia.
Import ListNotations.
Open Scope Z_scope.

(** ** Machine words and byte-addressed memory *)

Definition wrap32 (z : Z) : Z := z mod 2 ^ 32.

(** The value of a 32-bit word read as a C [int]. *)
Definition to_int (z : Z) : Z :=
  let w := wrap32 z in if w <? 2 ^ 31 then w else w - 2 ^ 32.

Definition memory := Z -> Z.

Definition load8 (m : memory) (a : Z) : Z := m a mod 256.

Definition store8 (m : memory) (a v : Z) : memory :=
  fun x => if x =? a then v mod 256 else m x.

Definition load32 (m : memory) (a : Z) : Z :=
  load8 m a + 2 ^ 8 * load8 m (a + 1) + 2 ^ 16 * load8 m (a + 2)
  + 2 ^ 24 * load8 m (a + 3).

Definition store32 (m : memory) (a v : Z) : memory :=
  store8 (store8 (store8 (store8 m a v) (a + 1) (v / 2 ^ 8))
                 (a + 2) (v / 2 ^ 16)) (a + 3) (v / 2 ^ 24).

(** [memmove(dst, src, n)]: the [n] bytes at [src] are read before any byte
    at [dst] is written.  Memory is total here, so a copy to an address that
    is not mapped, which faults on the machine, goes through; what is proved
    of a copy is proved for destinations inside the heap. *)
Definition memmove (m : memory) (dst src n : Z) : memory :=
  fun x => if (dst <=? x) && (x <? dst + n) then m (src + (x - dst)) else m x.

(** ** Constants and macros *)

Definition NULL : Z := 0.
Definition WSIZE : Z := 4.
Definition DSIZE : Z := 8.
Definition CHUNKSIZE : Z := Z.shiftl 1 12.
Definition OVERHEAD : Z := 16.
Definition SEG_LISTS : Z := 20.
Definition REALLOC_BUFFER : Z := Z.shiftl 1 7.

Definition MAX (x y : Z) : Z := if x >? y then x else y.
Definition MIN (x y : Z) : Z := if x <? y then x else y.

Definition PACK (size alloc : Z) : Z := Z.lor size alloc.

(** The fields of a boundary-tag word. *)
Definition size_of (w : Z) : Z := Z.land w (Z.lnot 7).
Definition alloc_of (w : Z) : Z := Z.land w 1.
Definition tag_of (w : Z) : Z := Z.land w 2.

(** The allocator's globals together with the heap of memlib. *)
Record state : Type := mkState {
  mem : memory;                (* the bytes of the address space *)
  FREE_SEG_LISTS : Z -> Z;     (* heads of the segregated lists, 0..19 *)
  prologue_block : Z;
  mem_brk : Z;                 (* first byte past the heap *)
  mem_max_addr : Z             (* the heap may not grow past this address *)
}.

Definition with_mem (st : state) (m : memory) : state :=
  mkState m (FREE_SEG_LISTS st) (prologue_block st) (mem_brk st) (mem_max_addr st).

Definition set_list (st : state) (list ptr : Z) : state :=
  mkState (mem st) (fun i => if i =? list then ptr else FREE_SEG_LISTS st i)
          (prologue_block st) (mem_brk st) (mem_max_addr st).

Definition GET (st : state) (p : Z) : Z := load32 (mem st) p.
Definition GET_SIZE (st : state) (p : Z) : Z := size_of (GET st p).
Definition GET_ALLOC (st : state) (p : Z) : Z := alloc_of (GET st p).
Definition GET_TAG (st : state) (p : Z) : Z := tag_of (GET st p).

(** [PUT] keeps the reallocation bit already stored at [p]. *)
Definition PUT (st : state) (p val : Z) : state :=
  with_mem st (store32 (mem st) p (Z.lor val (GET_TAG st p))).
Definition CLEAR_PUT (st : state) (p val : Z) : state :=
  with_mem st (store32 (mem st) p val).
Definition SET_PTR (st : state) (p ptr : Z) : state :=
  with_mem st (store32 (mem st) p ptr).
Definition SET_TAG (st : state) (p : Z) : state :=
  with_mem st (store32 (mem st) p (Z.lor (GET st p) 2)).
Definition UNSET_TAG (st : state) (p : Z) : state :=
  with_mem st (store32 (mem st) p (Z.land (GET st p) (Z.lnot 2))).

Definition HEAD (ptr : Z) : Z := ptr - WSIZE.
Definition FOOT (st : state) (ptr : Z) : Z := ptr + GET_SIZE st (HEAD ptr) - DSIZE.
Definition NEXT (st : state) (ptr : Z) : Z := ptr + GET_SIZE st (ptr - WSIZE).
Definition PREV (st : state) (ptr : Z) : Z := ptr - GET_SIZE st (ptr - DSIZE).

Definition PRECEDE_PTR (ptr : Z) : Z := ptr.
Definition SUCCEED_PTR (ptr : Z) : Z := ptr + WSIZE.
Definition PRECEDE (st : state) (ptr : Z) : Z := GET st ptr.
Definition SUCCEED (st : state) (ptr : Z) : Z := GET st (SUCCEED_PTR ptr).

(** ** The heap-growth primitive *)

(** Modelled from the spec: [mem_sbrk] of memlib.c, the external heap-growth
    primitive, is not among the sources.  It "extends the managed address
    range by exactly byteCount bytes and returns the address of the new
    region, contiguous with the prior end; fails if a platform-imposed
    maximum heap size would be exceeded".  [None] is the failure signal. *)
Definition mem_sbrk (st : state) (incr : Z) : option (state * Z) :=
  if mem_brk st + incr >? mem_max_addr st then None
  else Some (mkState (mem st) (FREE_SEG_LISTS st) (prologue_block st)
                     (mem_brk st + incr) (mem_max_addr st), mem_brk st).

(** ** The free-list index *)

(** [while ((list < SEG_LISTS - 1) && (size > 1)) { size >>= 1; list++; }]
    The loop body runs at most [SEG_LISTS - 1] times; [n] counts them. *)
Fixpoint select_list (n : nat) (list size : Z) : Z * Z :=
  match n with
  | O => (list, size)
  | S n' =>
      if (list <? SEG_LISTS - 1) && (size >? 1)
      then select_list n' (list + 1) (Z.shiftr size 1)
      else (list, size)
  end.

(** [while ((search_ptr != NULL) && (size > GET_SIZE(HEAD(search_ptr))))] *)
Fixpoint insert_scan (fuel : nat) (st : state) (size search_ptr insert_ptr : Z)
  : option (Z * Z) :=
  match fuel with
  | O => None
  | S fuel' =>
      if negb (search_ptr =? NULL) && (size >? GET_SIZE st (HEAD search_ptr))
      then insert_scan fuel' st size (PRECEDE st search_ptr) search_ptr
      else Some (search_ptr, insert_ptr)
  end.

Definition insert_node (fuel : nat) (st : state) (ptr size : Z) : option state :=
  let '(list, size) := select_list 19 0 size in
  match insert_scan fuel st size (FREE_SEG_LISTS st list) NULL with
  | None => None
  | Some (search_ptr, insert_ptr) =>
      Some
        (if negb (search_ptr =? NULL) then
           if negb (insert_ptr =? NULL) then
             let st := SET_PTR st (PRECEDE_PTR ptr) search_ptr in
             let st := SET_PTR st (SUCCEED_PTR search_ptr) ptr in
             let st := SET_PTR st (SUCCEED_PTR ptr) insert_ptr in
             SET_PTR st (PRECEDE_PTR insert_ptr) ptr
           else
             let st := SET_PTR st (PRECEDE_PTR ptr) search_ptr in
             let st := SET_PTR st (SUCCEED_PTR search_ptr) ptr in
             let st := SET_PTR st (SUCCEED_PTR ptr) NULL in
             set_list st list ptr
         else
           if negb (insert_ptr =? NULL) then
             let st := SET_PTR st (PRECEDE_PTR ptr) NULL in
             let st := SET_PTR st (SUCCEED_PTR ptr) insert_ptr in
             SET_PTR st (PRECEDE_PTR insert_ptr) ptr
           else
             let st := SET_PTR st (PRECEDE_PTR ptr) NULL in
             let st := SET_PTR st (SUCCEED_PTR ptr) NULL in
             set_list st list ptr)
  end.

Definition remove_node (st : state) (ptr : Z) : state :=
  let '(list, _) := select_list 19 0 (GET_SIZE st (HEAD ptr)) in
  if negb (PRECEDE st ptr =? NULL) then
    if negb (SUCCEED st ptr =? NULL) then
      let st := SET_PTR st (SUCCEED_PTR (PRECEDE st ptr)) (SUCCEED st ptr) in
      SET_PTR st (PRECEDE_PTR (SUCCEED st ptr)) (PRECEDE st ptr)
    else
      let st := SET_PTR st (SUCCEED_PTR (PRECEDE st ptr)) NULL in
      set_list st list (PRECEDE st ptr)
  else
    if negb (SUCCEED st ptr =? NULL) then
      SET_PTR st (PRECEDE_PTR (SUCCEED st ptr)) NULL
    else
      set_list st list NULL.

(** ** Coalescing *)

(** The three merging branches of [merge]; each yields the state, the
    address of the merged block and its size. *)

(** [prev_alloc && !next_alloc]: merge with the following block. *)
Definition merge_next (st : state) (ptr size : Z) : state * Z * Z :=
  let st := remove_node st (NEXT st ptr) in
  let size := wrap32 (size + GET_SIZE st (HEAD (NEXT st ptr))) in
  let st := PUT st (HEAD ptr) (PACK size 0) in
  let st := PUT st (FOOT st ptr) (PACK size 0) in
  (st, ptr, size).

(** [!prev_alloc && next_alloc]: merge with the preceding block. *)
Definition merge_prev (st : state) (ptr size : Z) : state * Z * Z :=
  let st := remove_node st (PREV st ptr) in
  let size := wrap32 (size + GET_SIZE st (HEAD (PREV st ptr))) in
  let st := PUT st (FOOT st ptr) (PACK size 0) in
  let st := PUT st (HEAD (PREV st ptr)) (PACK size 0) in
  (st, PREV st ptr, size).

(** The final [else]: merge with both neighbours. *)
Definition merge_both (st : state) (ptr size : Z) : state * Z * Z :=
  let st := remove_node st (PREV st ptr) in
  let st := remove_node st (NEXT st ptr) in
  let size := wrap32 (size + wrap32 (GET_SIZE st (HEAD (PREV st ptr))
                                     + GET_SIZE st (HEAD (NEXT st ptr)))) in
  let st := PUT st (HEAD (PREV st ptr)) (PACK size 0) in
  let st := PUT st (FOOT st (NEXT st ptr)) (PACK size 0) in
  (st, PREV st ptr, size).

Definition merge (fuel : nat) (st : state) (ptr : Z) : option (state * Z) :=
  let prev_alloc := GET_ALLOC st (HEAD (PREV st ptr)) in
  let next_alloc := GET_ALLOC st (HEAD (NEXT st ptr)) in
  let size := GET_SIZE st (HEAD ptr) in
  if negb (prev_alloc =? 0) && negb (next_alloc =? 0) then Some (st, ptr)
  else
    let prev_alloc :=
      if negb (GET_TAG st (HEAD (PREV st ptr)) =? 0) then 1 else prev_alloc in
    let st := remove_node st ptr in
    let '(st, ptr, size) :=
      if negb (prev_alloc =? 0) && (next_alloc =? 0) then merge_next st ptr size
      else if (prev_alloc =? 0) && negb (next_alloc =? 0) then merge_prev st ptr size
      else merge_both st ptr size
    in
    match insert_node fuel st ptr size with
    | None => None
    | Some st => Some (st, ptr)
    end.

(** ** Growing the heap *)

(** "Allocate even number of words for alignment purposes". *)
Definition even_words (size : Z) : Z :=
  let words := size / WSIZE in
  if negb (words mod 2 =? 0) then wrap32 ((words + 1) * WSIZE)
  else wrap32 (words * WSIZE).

Definition incr_heap (fuel : nat) (st : state) (size : Z) : option (state * Z) :=
  let size_x := even_words size in
  match mem_sbrk st size_x with
  | None => Some (st, NULL)
  | Some (st, ptr) =>
      let st := CLEAR_PUT st (HEAD ptr) (PACK size_x 0) in
      let st := CLEAR_PUT st (FOOT st ptr) (PACK size_x 0) in
      let st := CLEAR_PUT st (HEAD (NEXT st ptr)) (PACK 0 1) in
      match insert_node fuel st ptr size_x with
      | None => None
      | Some st => merge fuel st ptr
      end
  end.

Definition mm_init (fuel : nat) (st : state) : option (state * Z) :=
  let st := mkState (mem st) (fun _ => NULL) (prologue_block st)
                    (mem_brk st) (mem_max_addr st) in
  match mem_sbrk st (4 * WSIZE) with
  | None => Some (st, -1)
  | Some (st, heap_begin) =>
      let st := CLEAR_PUT st heap_begin 0 in
      let st := CLEAR_PUT st (heap_begin + 1 * WSIZE) (PACK DSIZE 1) in
      let st := CLEAR_PUT st (heap_begin + 2 * WSIZE) (PACK DSIZE 1) in
      let st := CLEAR_PUT st (heap_begin + 3 * WSIZE) (PACK 0 1) in
      let st := mkState (mem st) (FREE_SEG_LISTS st) (heap_begin + DSIZE)
                        (mem_brk st) (mem_max_addr st) in
      match incr_heap fuel st CHUNKSIZE with
      | None => None
      | Some (st, p) => Some (st, if p =? NULL then -1 else 0)
      end
  end.

(** ** Placement *)

Definition place (fuel : nat) (st : state) (ptr size_x : Z) : option state :=
  let ptr_size := GET_SIZE st (HEAD ptr) in
  let remainder := wrap32 (ptr_size - size_x) in
  let st := remove_node st ptr in
  if remainder >=? OVERHEAD then
    let st := PUT st (HEAD ptr) (PACK size_x 1) in
    let st := PUT st (FOOT st ptr) (PACK size_x 1) in
    let st := CLEAR_PUT st (HEAD (NEXT st ptr)) (PACK remainder 0) in
    let st := CLEAR_PUT st (FOOT st (NEXT st ptr)) (PACK remainder 0) in
    insert_node fuel st (NEXT st ptr) remainder
  else
    let st := PUT st (HEAD ptr) (PACK ptr_size 1) in
    let st := PUT st (FOOT st ptr) (PACK ptr_size 1) in
    Some st.

(** ** [mm_malloc] *)

(** The block size for a request of [size] bytes (both branches of the
    "adjust block size" statement). *)
Definition adjust_size (size : Z) : Z :=
  if size <=? DSIZE then 2 * DSIZE
  else wrap32 (DSIZE * (wrap32 (size + DSIZE + (DSIZE - 1)) / DSIZE)).

(** The inner [while] of the search: skip blocks that are too small or
    carry the reallocation tag. *)
Fixpoint scan_list (fuel : nat) (st : state) (size_x ptr : Z) : option Z :=
  match fuel with
  | O => None
  | S fuel' =>
      if negb (ptr =? NULL)
         && ((size_x >? GET_SIZE st (HEAD ptr)) || negb (GET_TAG st (HEAD ptr) =? 0))
      then scan_list fuel' st size_x (PRECEDE st ptr)
      else Some ptr
  end.

(** The outer [while (list < SEG_LISTS)]; [n] bounds its iterations. *)
Fixpoint search_lists (n fuel : nat) (st : state) (size_x size list : Z) : option Z :=
  match n with
  | O => Some NULL
  | S n' =>
      if list <? SEG_LISTS then
        if (list =? SEG_LISTS - 1)
           || ((size <=? 1) && negb (FREE_SEG_LISTS st list =? NULL))
        then
          match scan_list fuel st size_x (FREE_SEG_LISTS st list) with
          | None => None
          | Some ptr =>
              if negb (ptr =? NULL) then Some ptr
              else search_lists n' fuel st size_x (Z.shiftr size 1) (list + 1)
          end
        else search_lists n' fuel st size_x (Z.shiftr size 1) (list + 1)
      else Some NULL
  end.

Definition mm_malloc (fuel : nat) (st : state) (size : Z) : option (state * Z) :=
  if size =? 0 then Some (st, NULL)
  else
    let size_x := adjust_size size in
    match search_lists 20 fuel st size_x size_x 0 with
    | None => None
    | Some ptr =>
        let found :=
          if ptr =? NULL then incr_heap fuel st (MAX size_x CHUNKSIZE)
          else Some (st, ptr) in
        match found with
        | None => None
        | Some (st, ptr) =>
            if ptr =? NULL then Some (st, NULL)
            else
              match place fuel st ptr size_x with
              | None => None
              | Some st => Some (st, ptr)
              end
        end
    end.

(** ** [mm_free] *)

Definition mm_free (fuel : nat) (st : state) (ptr : Z) : option state :=
  let size := GET_SIZE st (HEAD ptr) in
  let st := UNSET_TAG st (HEAD (NEXT st ptr)) in
  let st := PUT st (HEAD ptr) (PACK size 0) in
  let st := PUT st (FOOT st ptr) (PACK size 0) in
  match insert_node fuel st ptr size with
  | None => None
  | Some st =>
      match merge fuel st ptr with
      | None => None
      | Some (st, _) => Some st
      end
  end.

(** ** [mm_realloc] *)

(** The block size [mm_realloc] aims at: the adjusted request plus the
    reallocation buffer. *)
Definition realloc_size (size : Z) : Z := wrap32 (adjust_size size + REALLOC_BUFFER).

(** The final statements of [mm_realloc], shared by all paths. *)
Definition realloc_tag (st : state) (new_ptr block_realloc_buffer : Z) : state * Z :=
  if block_realloc_buffer <? 2 * REALLOC_BUFFER
  then (SET_TAG st (HEAD (NEXT st new_ptr)), new_ptr)
  else (st, new_ptr).

Definition mm_realloc (fuel : nat) (st : state) (ptr size : Z) : option (state * Z) :=
  if size =? 0 then Some (st, NULL)
  else
    let new_size := realloc_size size in
    let block_realloc_buffer := to_int (GET_SIZE st (HEAD ptr) - new_size) in
    if block_realloc_buffer <? 0 then
      if (GET_ALLOC st (HEAD (NEXT st ptr)) =? 0)
         || (GET_SIZE st (HEAD (NEXT st ptr)) =? 0)
      then
        let remainder :=
          to_int (GET_SIZE st (HEAD ptr) + GET_SIZE st (HEAD (NEXT st ptr)) - new_size) in
        let grown :=
          if remainder <? 0 then
            let incr_size := MAX (to_int (- remainder)) CHUNKSIZE in
            match incr_heap fuel st (wrap32 incr_size) with
            | None => None
            | Some (st, p) => Some (st, p =? NULL, to_int (remainder + incr_size))
            end
          else Some (st, false, remainder) in
        match grown with
        | None => None
        | Some (st, failed, remainder) =>
            if failed then Some (st, NULL)
            else
              let st := remove_node st (NEXT st ptr) in
              let st := CLEAR_PUT st (HEAD ptr) (PACK (wrap32 (new_size + remainder)) 1) in
              let st := CLEAR_PUT st (FOOT st ptr) (PACK (wrap32 (new_size + remainder)) 1) in
              Some (realloc_tag st ptr (to_int (GET_SIZE st (HEAD ptr) - new_size)))
        end
      else
        match mm_malloc fuel st (wrap32 (new_size - DSIZE)) with
        | None => None
        | Some (st, new_ptr) =>
            let st := with_mem st (memmove (mem st) new_ptr ptr (MIN size new_size)) in
            match mm_free fuel st ptr with
            | None => None
            | Some st =>
                Some (realloc_tag st new_ptr
                                  (to_int (GET_SIZE st (HEAD new_ptr) - new_size)))
            end
        end
    else Some (realloc_tag st ptr block_realloc_buffer).

(** The call of [memmove] that [mm_realloc] makes, if it makes one: the
    state at the call, then destination, source and byte count.  The call
    is made on the relocation branch, with whatever [mm_malloc] returned. *)
Definition realloc_copy (fuel : nat) (st : state) (ptr size : Z)
  : option (state * Z * Z * Z) :=
  if size =? 0 then None
  else
    let new_size := realloc_size size in
    if to_int (GET_SIZE st (HEAD ptr) - new_size) <? 0 then
      if (GET_ALLOC st (HEAD (NEXT st ptr)) =? 0)
         || (GET_SIZE st (HEAD (NEXT st ptr)) =? 0)
      then None
      else
        match mm_malloc fuel st (wrap32 (new_size - DSIZE)) with
        | None => None
        | Some (st, new_ptr) => Some (st, new_ptr, ptr, MIN size new_size)
        end
    else None.

(** ** Replaying request traces

    The handout's driver replays traces of [a id size], [r id size] and
    [f id] requests, keeping the returned pointers in a table indexed by
    [id].  [Store] stands for the client writing a word into a payload it
    owns. *)

Inductive request : Type :=
| Alloc (id : nat) (size : Z)
| Resize (id : nat) (size : Z)
| Release (id : nat)
| Store (id : nat) (offset val : Z).

Definition table := nat -> Z.

Definition bind_ptr (t : table) (id : nat) (p : Z) : table :=
  fun i => if Nat.eqb i id then p else t i.

Definition serve (fuel : nat) (st : state) (t : table) (r : request)
  : option (state * table) :=
  match r with
  | Alloc id size =>
      match mm_malloc fuel st size with
      | None => None
      | Some (st, p) => Some (st, bind_ptr t id p)
      end
  | Resize id size =>
      match mm_realloc fuel st (t id) size with
      | None => None
      | Some (st, p) => Some (st, bind_ptr t id p)
      end
  | Release id =>
      match mm_free fuel st (t id) with
      | None => None
      | Some st => Some (st, t)
      end
  | Store id offset val => Some (CLEAR_PUT st (t id + offset) val, t)
  end.

Fixpoint replay (fuel : nat) (st : state) (t : table) (tr : list request)
  : option (state * table) :=
  match tr with
  | [] => Some (st, t)
  | r :: tr' =>
      match serve fuel st t r with
      | None => None
      | Some (st, t) => replay fuel st t tr'
      end
  end.

(** An address space of zero bytes with the heap at [lo], allowed to grow
    up to [hi]. *)
Definition boot (lo hi : Z) : state :=
  mkState (fun _ => 0) (fun _ => NULL) NULL lo hi.

(** Initialise a heap at [lo] and replay [tr] on it. *)
Definition session (fuel : nat) (lo hi : Z) (tr : list request)
  : option (state * table) :=
  match mm_init fuel (boot lo hi) with
  | None => None
  | Some (st, _) => replay fuel st (fun _ => NULL) tr
  end.

(** ** Observations on a heap *)

(** The blocks met when walking from [p] with [NEXT] until a header of size
    zero (the epilogue): payload address, size, allocation bit, tag bit. *)
Fixpoint heap_walk (n : nat) (st : state) (p : Z) : list (Z * Z * Z * Z) :=
  match n with
  | O => []
  | S n' =>
      let b := (p, GET_SIZE st (HEAD p), GET_ALLOC st (HEAD p), GET_TAG st (HEAD p)) in
      if GET_SIZE st (HEAD p) =? 0 then [b] else b :: heap_walk n' st (NEXT st p)
  end.

(** Does a walk meet two consecutive blocks that are both marked free? *)
Fixpoint adjacent_free (bs : list (Z * Z * Z * Z)) : bool :=
  match bs with
  | (_, _, a1, _) :: (((_, _, a2, _) :: _) as rest) =>
      ((a1 =? 0) && (a2 =? 0)) || adjacent_free rest
  | _ => false
  end.

(** The entries of a segregated list from its head, with their sizes. *)
Fixpoint list_entries (n : nat) (st : state) (p : Z) : list (Z * Z) :=
  match n with
  | O => []
  | S n' =>
      if p =? NULL then []
      else (p, GET_SIZE st (HEAD p)) :: list_entries n' st (PRECEDE st p)
  end.

(** [f] holds of every index of [FREE_SEG_LISTS]. *)
Definition all_lists (f : Z -> bool) : bool :=
  forallb f (map Z.of_nat (seq 0 20)).

(** The first [n] entries of the list starting at [p] are 8-byte aligned. *)
Fixpoint entries_aligned (n : nat) (st : state) (p : Z) : bool :=
  match n with
  | O => true
  | S n' => (p =? NULL) || ((p mod 8 =? 0) && entries_aligned n' st (PRECEDE st p))
  end.

Definition lists_aligned (n : nat) (st : state) : bool :=
  all_lists (fun i => entries_aligned n st (FREE_SEG_LISTS st i)).

(** ** Boundary-tag words *)

(** An allocation bit and a reallocation-tag bit, as the macros read them. *)
Definition flag (a : Z) : Prop := a = 0 \/ a = 1.
Definition tagbit (t : Z) : Prop := t = 0 \/ t = 2.

(** * The heap invariant: definitions *)

(** ** The heap as a sequence of blocks *)

(** The abstract view of a block: payload address, size in bytes,
    allocation bit (0 or 1) and reallocation tag (0 or 2). *)
Record block : Type := mkBlock { b_ptr : Z; b_size : Z; b_alloc : Z; b_tag : Z }.

Definition header (b : block) : Z := b_size b + b_alloc b + b_tag b.

(** The header of [b] holds exactly its three fields; its footer agrees on
    size and allocation bit. *)
Definition block_ok (st : state) (b : block) : Prop :=
  16 <= b_size b /\ b_size b mod 8 = 0 /\ flag (b_alloc b) /\ tagbit (b_tag b) /\
  GET st (HEAD (b_ptr b)) = header b /\
  size_of (GET st (b_ptr b + b_size b - DSIZE)) = b_size b /\
  alloc_of (GET st (b_ptr b + b_size b - DSIZE)) = b_alloc b.

(** The blocks of [bl] tile the addresses from [a] to [e]. *)
Fixpoint layout (st : state) (a : Z) (bl : list block) (e : Z) : Prop :=
  match bl with
  | [] => a = e
  | b :: bl' => b_ptr b = a /\ block_ok st b /\ layout st (a + b_size b) bl' e
  end.

(** Payload address of the first block after the prologue. *)
Definition first_block (st : state) : Z := prologue_block st + DSIZE.

(** Prologue, blocks and epilogue, inside the limits of the address space. *)
Record heap_layout (st : state) (bl : list block) : Prop := mkHeapLayout {
  hl_low : 16 <= prologue_block st;
  hl_prologue_header : GET st (HEAD (prologue_block st)) = 9;
  hl_prologue_footer : GET st (prologue_block st) = 9;
  hl_blocks : layout st (first_block st) bl (mem_brk st);
  hl_epilogue_size : GET_SIZE st (HEAD (mem_brk st)) = 0;
  hl_epilogue_alloc : GET_ALLOC st (HEAD (mem_brk st)) = 1;
  hl_brk : mem_brk st <= mem_max_addr st;
  hl_max : mem_max_addr st < 2 ^ 31
}.

(** The segregated list a block of [size] bytes belongs to. *)
Definition bucket (size : Z) : Z := fst (select_list 19 0 size).

(** [x] is the payload address of a free block of [s] bytes. *)
Definition free_in (bl : list block) (x s : Z) : Prop :=
  exists t, In (mkBlock x s 0 t) bl.

(** The doubly linked lists over a set [N] of nodes ([N x s]: node [x] of
    size [s]): links are mutual, stay inside [N] and inside one size class,
    a list head is a node without successor, and a node without successor
    is the head of its class. *)
Record links (st : state) (N : Z -> Z -> Prop) : Prop := mkLinks {
  lk_precede : forall x s, N x s -> PRECEDE st x <> NULL ->
    exists s', N (PRECEDE st x) s' /\ SUCCEED st (PRECEDE st x) = x /\ bucket s' = bucket s;
  lk_succeed : forall x s, N x s -> SUCCEED st x <> NULL ->
    exists s', N (SUCCEED st x) s' /\ PRECEDE st (SUCCEED st x) = x;
  lk_head : forall i, 0 <= i < SEG_LISTS -> FREE_SEG_LISTS st i <> NULL ->
    exists s, N (FREE_SEG_LISTS st i) s /\ SUCCEED st (FREE_SEG_LISTS st i) = NULL /\ bucket s = i;
  lk_last : forall x s, N x s -> SUCCEED st x = NULL -> FREE_SEG_LISTS st (bucket s) = x
}.

(** A heap whose free blocks in [N] are threaded on the free lists. *)
Definition heap_with (st : state) (bl : list block) (N : Z -> Z -> Prop) : Prop :=
  heap_layout st bl /\ links st N /\ (forall x s, N x s -> free_in bl x s).

(** A well-formed heap: every free block is on a free list. *)
Definition heap (st : state) (bl : list block) : Prop := heap_with st bl (free_in bl).

(** What the list operations need to know about a set of nodes: addresses
    are valid non-null pointers, sizes are block sizes, and distinct nodes
    are at least a minimal block apart. *)
Record nodes_ok (N : Z -> Z -> Prop) : Prop := mkNodesOk {
  nd_ptr : forall y t, N y t -> 0 < y /\ y + 8 <= 2 ^ 31;
  nd_size : forall y t, N y t -> 16 <= t < 2 ^ 31;
  nd_sep : forall y t z u, N y t -> N z u ->
    (y = z /\ t = u) \/ y + 16 <= z \/ z + 16 <= y
}.

(** [N] without the node [x]. *)
Definition without (N : Z -> Z -> Prop) (x : Z) : Z -> Z -> Prop :=
  fun y t => N y t /\ y <> x.

(** [N] with the node [x] of size [s]. *)
Definition with_node (N : Z -> Z -> Prop) (x s : Z) : Z -> Z -> Prop :=
  fun y t => N y t \/ (y = x /\ t = s).

(** ** Releasing a block, on block sequences *)

(** [b] marked free; [b] without its tag; [b] grown over its successor [c]. *)
Definition freed (b : block) : block := mkBlock (b_ptr b) (b_size b) 0 (b_tag b).
Definition untag (b : block) : block := mkBlock (b_ptr b) (b_size b) (b_alloc b) 0.
Definition joined (b c : block) : block :=
  mkBlock (b_ptr b) (b_size b + b_size c) 0 (b_tag b).

Definition untag_head (l : list block) : list block :=
  match l with
  | n :: r => untag n :: r
  | [] => []
  end.

(** [merge] joins a free block with a free successor, and with a free
    predecessor that carries no tag. *)
Definition next_free (l2 : list block) : bool :=
  match l2 with
  | n :: _ => b_alloc n =? 0
  | [] => false
  end.

Definition prev_mergeable (l1 : list block) : bool :=
  match rev l1 with
  | b :: _ => (b_alloc b =? 0) && (b_tag b =? 0)
  | [] => false
  end.

(** The case the branches of [merge] do not tell apart from "both
    neighbours free": a free tagged predecessor and no free successor. *)
Definition merge_slips (l1 l2 : list block) : bool :=
  match rev l1 with
  | b :: _ => (b_alloc b =? 0) && negb (b_tag b =? 0) && negb (next_free l2)
  | [] => false
  end.

(** The sequence after [merge] on the free block [p] between [l1] and [l2]. *)
Definition coalesced (l1 : list block) (p : block) (l2 : list block) : list block :=
  let p1 := match l2 with
            | n :: _ => if b_alloc n =? 0 then joined p n else p
            | [] => p
            end in
  let l2' := if next_free l2 then tl l2 else l2 in
  if prev_mergeable l1
  then removelast l1 ++ joined (last l1 p) p1 :: l2'
  else l1 ++ p1 :: l2'.

(** The address [merge] returns. *)
Definition coalesced_ptr (l1 : list block) (p : block) : Z :=
  if prev_mergeable l1 then b_ptr (last l1 p) else b_ptr p.

(** The sequence after [mm_free] on the allocated block [p]. *)
Definition released (l1 : list block) (p : block) (l2 : list block) : list block :=
  coalesced l1 (freed p) (untag_head l2).

(** What [merge] reads about the neighbours of a block. *)
Definition prev_alloc_of (l1 : list block) : Z :=
  match rev l1 with c :: _ => b_alloc c | [] => 1 end.
Definition prev_tag_of (l1 : list block) : Z :=
  match rev l1 with c :: _ => b_tag c | [] => 0 end.
Definition next_alloc_of (l2 : list block) : Z :=
  match l2 with n :: _ => b_alloc n | [] => 1 end.

(** ** Walking a heap, on block sequences *)

(** A block as [heap_walk] shows it. *)
Definition block_view (b : block) : Z * Z * Z * Z :=
  (b_ptr b, b_size b, b_alloc b, b_tag b).

(** The prologue and the epilogue, seen as blocks. *)
Definition prologue_of (st : state) : block := mkBlock (prologue_block st) 8 1 0.
Definition epilogue_of (st : state) : block :=
  mkBlock (mem_brk st) 0 1 (GET_TAG st (HEAD (mem_brk st))).

(** Is there a free block right after a free one, the block before the
    sequence being free or not according to [prev_free]? *)
Fixpoint free_run (prev_free : bool) (bl : list block) : bool :=
  match bl with
  | [] => false
  | b :: r => (prev_free && (b_alloc b =? 0)) || free_run (b_alloc b =? 0) r
  end.

(** The block before is free and carries the reallocation tag. *)
Definition prev_tagged_free (l1 : list block) : bool :=
  match rev l1 with
  | c :: _ => (b_alloc c =? 0) && negb (b_tag c =? 0)
  | [] => false
  end.

(** ** Checking a heap by computation *)

Definition block_okb (st : state) (b : block) : bool :=
  (16 <=? b_size b) && (b_size b mod 8 =? 0) &&
  ((b_alloc b =? 0) || (b_alloc b =? 1)) && ((b_tag b =? 0) || (b_tag b =? 2)) &&
  (GET st (HEAD (b_ptr b)) =? header b) &&
  (size_of (GET st (b_ptr b + b_size b - DSIZE)) =? b_size b) &&
  (alloc_of (GET st (b_ptr b + b_size b - DSIZE)) =? b_alloc b).

Fixpoint layoutb (st : state) (a : Z) (bl : list block) (e : Z) : bool :=
  match bl with
  | [] => a =? e
  | b :: bl' => (b_ptr b =? a) && block_okb st b && layoutb st (a + b_size b) bl' e
  end.

Definition heap_layoutb (st : state) (bl : list block) : bool :=
  (16 <=? prologue_block st) &&
  (GET st (HEAD (prologue_block st)) =? 9) && (GET st (prologue_block st) =? 9) &&
  layoutb st (first_block st) bl (mem_brk st) &&
  (GET_SIZE st (HEAD (mem_brk st)) =? 0) && (GET_ALLOC st (HEAD (mem_brk st)) =? 1) &&
  (mem_brk st <=? mem_max_addr st) && (mem_max_addr st <? 2 ^ 31).

(** Address and size of the free blocks of a sequence. *)
Definition free_nodes (bl : list block) : list (Z * Z) :=
  map (fun b => (b_ptr b, b_size b)) (filter (fun b => b_alloc b =? 0) bl).

(** The four conditions of [links], on the nodes [ns]. *)
Definition linksb (st : state) (ns : list (Z * Z)) : bool :=
  forallb (fun n =>
    ((PRECEDE st (fst n) =? NULL)
     || existsb (fun m => (fst m =? PRECEDE st (fst n))
                          && (SUCCEED st (PRECEDE st (fst n)) =? fst n)
                          && (bucket (snd m) =? bucket (snd n))) ns)
    && ((SUCCEED st (fst n) =? NULL)
        || existsb (fun m => (fst m =? SUCCEED st (fst n))
                             && (PRECEDE st (SUCCEED st (fst n)) =? fst n)) ns)
    && (negb (SUCCEED st (fst n) =? NULL)
        || (FREE_SEG_LISTS st (bucket (snd n)) =? fst n))) ns
  && all_lists (fun i =>
       (FREE_SEG_LISTS st i =? NULL)
       || existsb (fun m => (fst m =? FREE_SEG_LISTS st i)
                            && (SUCCEED st (FREE_SEG_LISTS st i) =? NULL)
                            && (bucket (snd m) =? i)) ns).

(** A decision procedure for [heap]. *)
Definition heap_check (st : state) (bl : list block) : bool :=
  heap_layoutb st bl && linksb st (free_nodes bl).

(** ** Placing a request, on block sequences *)

(** What [place] makes of the free block [b] for a request of [size_x]
    bytes: the block is split when the rest can hold a block. *)
Definition placed (b : block) (size_x : Z) : list block :=
  if b_size b - size_x >=? OVERHEAD
  then [mkBlock (b_ptr b) size_x 1 (b_tag b);
        mkBlock (b_ptr b + size_x) (b_size b - size_x) 0 0]
  else [mkBlock (b_ptr b) (b_size b) 1 (b_tag b)].

(** ** Resizing, on block sequences *)

(** The first block of [l] with the reallocation tag set. *)
Definition tag_head (l : list block) : list block :=
  match l with
  | n :: r => mkBlock (b_ptr n) (b_size n) (b_alloc n) 2 :: r
  | [] => []
  end.

(** The size [mm_realloc] reads in the header after a block: that of the
    next block, or 0 in the epilogue. *)
Definition next_size_of (l2 : list block) : Z :=
  match l2 with n :: _ => b_size n | [] => 0 end.

(** ** Payloads *)

(** The blocks of [bl] that are allocated. *)
Definition allocated_in (bl : list block) (b : block) : Prop :=
  In b bl /\ b_alloc b = 1.

(** Every word inside the payload of a block of [A] reads the same in
    [st'] as in [st]. *)
Definition keeps (st st' : state) (A : block -> Prop) : Prop :=
  forall b c, A b -> b_ptr b <= c -> c + 4 <= b_ptr b + b_size b - DSIZE ->
              GET st' c = GET st c.

(** ** Heaps without reallocation tags *)

(** No block of [bl] carries the reallocation tag. *)
Definition untagged (bl : list block) : bool :=
  forallb (fun b => b_tag b =? 0) bl.

(** ** Clients that only allocate and release *)

(** The ids of [live] hold distinct allocated blocks of [bl], at the
    addresses the table gives. *)
Definition holds (bl : list block) (t : table) (live : list nat) : Prop :=
  (forall id, In id live -> exists s, In (mkBlock (t id) s 1 0) bl) /\
  (forall i j, In i live -> In j live -> t i = t j -> i = j).

(** [tr] is a trace of [Alloc] and [Release] requests that a client may
    issue from the state [st] when the ids of [live] hold a block: sizes
    are positive and do not overflow, an id is given a block only while it
    holds none and is released only while it holds one.  An id holds a
    block after an [Alloc] that did not return NULL. *)
Fixpoint legalb (fuel : nat) (st : state) (t : table) (live : list nat)
         (tr : list request) : bool :=
  match tr with
  | [] => true
  | Alloc id n :: tr' =>
      (0 <? n) && (n + 15 <? 2 ^ 32) && negb (existsb (Nat.eqb id) live) &&
      match mm_malloc fuel st n with
      | Some (st', q) =>
          legalb fuel st' (bind_ptr t id q) (if q =? NULL then live else id :: live) tr'
      | None => true
      end
  | Release id :: tr' =>
      existsb (Nat.eqb id) live &&
      match mm_free fuel st (t id) with
      | Some st' => legalb fuel st' t (filter (fun j => negb (Nat.eqb id j)) live) tr'
      | None => true
      end
  | _ => false
  end.

(** The ids that hold a block after the trace [tr]: those of [live]
    and those given a block by an [Alloc] that did not return NULL, less
    those released. *)
Fixpoint held (fuel : nat) (st : state) (t : table) (live : list nat)
         (tr : list request) : list nat :=
  match tr with
  | [] => live
  | Alloc id n :: tr' =>
      match mm_malloc fuel st n with
      | Some (st', q) =>
          held fuel st' (bind_ptr t id q) (if q =? NULL then live else id :: live) tr'
      | None => live
      end
  | Release id :: tr' =>
      match mm_free fuel st (t id) with
      | Some st' => held fuel st' t (filter (fun j => negb (Nat.eqb id j)) live) tr'
      | None => live
      end
  | _ :: _ => live
  end.

(** * Properties *)

(** ** Memory *)

Lemma load8_range m a : 0 <= load8 m a < 256.
Proof. unfold load8. apply Z.mod_pos_bound. lia. Qed.

Lemma load32_range m a : 0 <= load32 m a < 2 ^ 32.
Proof.
  unfold load32.
  pose proof (load8_range m a). pose proof (load8_range m (a + 1)).
  pose proof (load8_range m (a + 2)). pose proof (load8_range m (a + 3)).
  change (2 ^ 8) with 256. change (2 ^ 16) with 65536.
  change (2 ^ 24) with 16777216. change (2 ^ 32) with 4294967296. lia.
Qed.

Lemma bytes_of_word v :
  v mod 256 + 2 ^ 8 * ((v / 2 ^ 8) mod 256) + 2 ^ 16 * ((v / 2 ^ 16) mod 256)
  + 2 ^ 24 * ((v / 2 ^ 24) mod 256) = v mod 2 ^ 32.
Proof.
  change (2 ^ 8) with 256. change (2 ^ 16) with (256 * 256).
  change (2 ^ 24) with (256 * 256 * 256). change (2 ^ 32) with (256 * (256 * (256 * 256))).
  rewrite <- !Z.div_div by lia.
  rewrite !Z.rem_mul_r by lia.
  rewrite !Z.div_div by lia. rewrite <- !Z.div_div by lia. lia.
Qed.

Lemma load8_store8_same m a v : load8 (store8 m a v) a = v mod 256.
Proof. unfold load8, store8. rewrite Z.eqb_refl. apply Z.mod_mod. lia. Qed.

Lemma load8_store8_other m a v b : a <> b -> load8 (store8 m a v) b = load8 m b.
Proof. intros H. unfold load8, store8. destruct (Z.eqb_spec b a); [congruence|reflexivity]. Qed.

Lemma load32_store32_same m a v : load32 (store32 m a v) a = wrap32 v.
Proof.
  unfold load32, store32, wrap32.
  rewrite (load8_store8_other _ (a+3)), (load8_store8_other _ (a+2)), (load8_store8_other _ (a+1)), load8_store8_same by lia.
  rewrite (load8_store8_other _ (a+3)), (load8_store8_other _ (a+2)), load8_store8_same by lia.
  rewrite (load8_store8_other _ (a+3)), load8_store8_same by lia.
  rewrite load8_store8_same.
  apply bytes_of_word.
Qed.

Lemma load32_store32_other m a v b :
  a + 4 <= b \/ b + 4 <= a -> load32 (store32 m a v) b = load32 m b.
Proof.
  intros H. unfold load32, store32.
  rewrite !load8_store8_other by lia. reflexivity.
Qed.

(** ** Bit fields of a boundary tag *)

Lemma size_of_eq w : size_of w = w - w mod 8.
Proof.
  unfold size_of. rewrite <- Z.sub_land_same_l.
  change 7 with (Z.ones 3). rewrite Z.land_ones by lia. reflexivity.
Qed.

Lemma alloc_of_eq w : alloc_of w = w mod 2.
Proof. unfold alloc_of. change 1 with (Z.ones 1). rewrite Z.land_ones by lia. reflexivity. Qed.

Lemma tag_of_eq w : tag_of w = if w mod 4 <? 2 then 0 else 2.
Proof.
  unfold tag_of. change 2 with (Z.land 3 2) at 1.
  rewrite Z.land_assoc. change 3 with (Z.ones 2). rewrite Z.land_ones by lia.
  change (2 ^ 2) with 4.
  pose proof (Z.mod_pos_bound w 4 ltac:(lia)) as H.
  assert (C : w mod 4 = 0 \/ w mod 4 = 1 \/ w mod 4 = 2 \/ w mod 4 = 3) by lia.
  destruct C as [C|[C|[C|C]]]; rewrite C; reflexivity.
Qed.

Lemma land_low s x : s mod 8 = 0 -> 0 <= x < 8 -> Z.land s x = 0.
Proof.
  intros Hs Hx.
  rewrite <- (Z.mod_small x 8) by lia.
  change 8 with (2 ^ 3) at 1. rewrite <- Z.land_ones by lia.
  rewrite (Z.land_comm x), Z.land_assoc, Z.land_ones by lia.
  change (2 ^ 3) with 8. rewrite Hs. reflexivity.
Qed.

Lemma lor_low s x : s mod 8 = 0 -> 0 <= x < 8 -> Z.lor s x = s + x.
Proof.
  intros Hs Hx. pose proof (Z.add_lor_land s x) as H.
  rewrite (land_low s x Hs Hx) in H. lia.
Qed.

Lemma size_of_word s a t : s mod 8 = 0 -> flag a -> tagbit t -> size_of (s + a + t) = s.
Proof.
  intros Hs Ha Ht. rewrite size_of_eq.
  replace (s + a + t) with ((a + t) + (s / 8) * 8) by (pose proof (Z.div_mod s 8 ltac:(lia)); lia).
  rewrite Z.mod_add by lia. rewrite Z.mod_small by (destruct Ha, Ht; lia).
  pose proof (Z.div_mod s 8 ltac:(lia)). lia.
Qed.

Lemma alloc_of_word s a t : s mod 8 = 0 -> flag a -> tagbit t -> alloc_of (s + a + t) = a.
Proof.
  intros Hs Ha Ht. rewrite alloc_of_eq.
  pose proof (Z.div_mod s 8 ltac:(lia)) as E.
  assert (exists k, s + a + t = a + k * 2) as [k ->].
  { destruct Ht; subst t; [exists (s / 8 * 4)|exists (s / 8 * 4 + 1)]; lia. }
  rewrite Z.mod_add by lia. apply Z.mod_small. destruct Ha; lia.
Qed.

Lemma tag_of_word s a t : s mod 8 = 0 -> flag a -> tagbit t -> tag_of (s + a + t) = t.
Proof.
  intros Hs Ha Ht. rewrite tag_of_eq.
  replace (s + a + t) with ((a + t) + (s / 8 * 2) * 4) by (pose proof (Z.div_mod s 8 ltac:(lia)); lia).
  rewrite Z.mod_add by lia. rewrite Z.mod_small by (destruct Ha, Ht; lia).
  destruct Ha, Ht; subst; reflexivity.
Qed.

Lemma tag_of_bit w : tagbit (tag_of w).
Proof. rewrite tag_of_eq. destruct (_ <? _); [left|right]; reflexivity. Qed.

Lemma alloc_of_bit w : flag (alloc_of w).
Proof. rewrite alloc_of_eq. pose proof (Z.mod_pos_bound w 2 ltac:(lia)). unfold flag. lia. Qed.

Lemma size_of_mod8 w : size_of w mod 8 = 0.
Proof.
  rewrite size_of_eq. pose proof (Z.div_mod w 8 ltac:(lia)).
  replace (w - w mod 8) with (w / 8 * 8) by lia. apply Z.mod_mul. lia.
Qed.

Lemma PACK_word s a t : s mod 8 = 0 -> flag a -> tagbit t -> Z.lor (PACK s a) t = s + a + t.
Proof.
  intros Hs Ha Ht. unfold PACK. rewrite <- Z.lor_assoc.
  assert (Z.lor a t = a + t) as -> by (destruct Ha, Ht; subst; reflexivity).
  rewrite lor_low; [lia|assumption|destruct Ha, Ht; lia].
Qed.

(** Case analysis on the test of a conditional in hypothesis [H]. *)
Ltac case_if H :=
  match type of H with
  | (if ?c then _ else _) = _ => destruct c eqn:?
  end.

(** ** The free-list search of [mm_malloc] *)

Lemma scan_list_sound fuel st size_x p r :
  scan_list fuel st size_x p = Some r -> r <> NULL ->
  size_x <= GET_SIZE st (HEAD r) /\ GET_TAG st (HEAD r) = 0.
Proof.
  revert p. induction fuel as [|fuel IH]; intros p H Hr; simpl in H; [discriminate|].
  destruct (negb (p =? NULL)) eqn:Hp; simpl in H.
  - destruct (size_x >? GET_SIZE st (HEAD p)) eqn:Hs; simpl in H; [eauto|].
    destruct (GET_TAG st (HEAD p) =? 0) eqn:Ht; simpl in H; [|eauto].
    injection H as <-. split; [lia|]. apply Z.eqb_eq. assumption.
  - injection H as <-. apply negb_false_iff, Z.eqb_eq in Hp. contradiction.
Qed.

Lemma search_lists_sound n fuel st size_x size list r :
  search_lists n fuel st size_x size list = Some r -> r <> NULL ->
  size_x <= GET_SIZE st (HEAD r) /\ GET_TAG st (HEAD r) = 0.
Proof.
  revert size list. induction n as [|n IH]; intros size list H Hr; simpl in H.
  - injection H as <-. contradiction.
  - destruct (list <? SEG_LISTS); [|injection H as <-; contradiction].
    case_if H; [|eauto].
    destruct (scan_list fuel st size_x (FREE_SEG_LISTS st list)) as [p|] eqn:Hscan; [|discriminate].
    case_if H; [|eauto].
    injection H as <-. eapply scan_list_sound; eauto.
Qed.

(** ** Alignment *)

Lemma scan_list_aligned fuel st size_x p r :
  entries_aligned fuel st p = true ->
  scan_list fuel st size_x p = Some r -> r mod 8 = 0.
Proof.
  revert p. induction fuel as [|fuel IH]; intros p Ha H; simpl in H; [discriminate|].
  simpl in Ha. destruct (Z.eqb_spec p NULL) as [Hp|Hp]; simpl in *.
  - injection H as <-. rewrite Hp. reflexivity.
  - apply andb_prop in Ha as [Ha1 Ha2]. apply Z.eqb_eq in Ha1.
    case_if H; [eauto|]. injection H as <-. assumption.
Qed.

Lemma all_lists_spec f i :
  all_lists f = true -> 0 <= i < SEG_LISTS -> f i = true.
Proof.
  unfold all_lists, SEG_LISTS. intros H Hi. rewrite forallb_forall in H.
  apply H. apply in_map_iff. exists (Z.to_nat i). split; [lia|].
  apply in_seq. lia.
Qed.

Lemma search_lists_aligned n fuel st size_x size list r :
  lists_aligned fuel st = true -> 0 <= list ->
  search_lists n fuel st size_x size list = Some r -> r mod 8 = 0.
Proof.
  intros Ha. revert size list. induction n as [|n IH]; intros size list Hl H; simpl in H.
  - injection H as <-. reflexivity.
  - destruct (Z.ltb_spec list SEG_LISTS); [|injection H as <-; reflexivity].
    case_if H; [|eapply IH; [|eassumption]; lia].
    destruct (scan_list fuel st size_x (FREE_SEG_LISTS st list)) as [p|] eqn:Hscan; [|discriminate].
    case_if H; [|eapply IH; [|eassumption]; lia].
    injection H as <-. eapply scan_list_aligned; [|eassumption].
    apply (all_lists_spec _ list Ha). lia.
Qed.

Lemma size_of_aligned p w : p mod 8 = 0 -> (p - size_of w) mod 8 = 0.
Proof.
  intros Hp. pose proof (size_of_mod8 w) as Hs.
  rewrite Zminus_mod, Hp, Hs. reflexivity.
Qed.

Lemma merge_aligned fuel st ptr st' r :
  merge fuel st ptr = Some (st', r) -> ptr mod 8 = 0 -> r mod 8 = 0.
Proof.
  unfold merge. intros H Hp. cbv zeta in H.
  case_if H; [injection H as _ <-; assumption|].
  match type of H with
  | match ?b with _ => _ end = _ =>
      assert (Hb : (snd (fst b)) mod 8 = 0);
      [|destruct b as [[st1 q] sz]; cbn [fst snd] in Hb]
  end.
  - repeat (match goal with
            | |- context [if ?c then _ else _] => destruct c eqn:?
            end; cbv iota);
      unfold merge_next, merge_prev, merge_both; cbn [fst snd];
      try assumption; apply size_of_aligned; assumption.
  - destruct (insert_node fuel st1 q sz); [|discriminate].
    injection H as _ <-. assumption.
Qed.

Lemma incr_heap_aligned fuel st size st' r :
  mem_brk st mod 8 = 0 -> incr_heap fuel st size = Some (st', r) -> r mod 8 = 0.
Proof.
  unfold incr_heap, mem_sbrk. intros Hb H.
  destruct (mem_brk st + even_words size >? mem_max_addr st).
  - injection H as _ <-. reflexivity.
  - match type of H with
    | match insert_node ?f ?s ?q ?z with _ => _ end = _ =>
        destruct (insert_node f s q z); [|discriminate]
    end.
    eapply merge_aligned; eassumption.
Qed.

Lemma mm_malloc_aligned fuel st n st' q :
  mem_brk st mod 8 = 0 -> lists_aligned fuel st = true ->
  mm_malloc fuel st n = Some (st', q) -> q mod 8 = 0.
Proof.
  unfold mm_malloc. intros Hb Ha H.
  destruct (n =? 0); [injection H as _ <-; reflexivity|].
  destruct (search_lists 20 fuel st (adjust_size n) (adjust_size n) 0) as [p|] eqn:Hs; [|discriminate].
  apply search_lists_aligned in Hs; [|assumption|lia].
  destruct (p =? NULL).
  - destruct (incr_heap fuel st (MAX (adjust_size n) CHUNKSIZE)) as [[st1 r]|] eqn:Hi; [|discriminate].
    apply incr_heap_aligned in Hi; [|assumption].
    destruct (r =? NULL); [injection H as _ <-; reflexivity|].
    destruct (place fuel st1 r (adjust_size n)); [|discriminate].
    injection H as _ <-. assumption.
  - destruct (p =? NULL); [injection H as _ <-; reflexivity|].
    destruct (place fuel st p (adjust_size n)); [|discriminate].
    injection H as _ <-. assumption.
Qed.

Lemma realloc_tag_ptr st q b : snd (realloc_tag st q b) = q.
Proof. unfold realloc_tag. destruct (b <? _); reflexivity. Qed.

Lemma mm_realloc_aligned fuel st p n st' q :
  mem_brk st mod 8 = 0 -> lists_aligned fuel st = true -> p mod 8 = 0 ->
  mm_realloc fuel st p n = Some (st', q) -> q mod 8 = 0.
Proof.
  unfold mm_realloc. intros Hb Ha Hp H.
  destruct (n =? 0); [injection H as _ <-; reflexivity|].
  destruct (_ <? 0).
  - destruct (_ || _).
    + match type of H with
      | match ?g with _ => _ end = _ => destruct g as [[[st1 failed] rem]|]; [|discriminate]
      end.
      destruct failed; [injection H as _ <-; reflexivity|].
      injection H as H. apply (f_equal snd) in H. rewrite realloc_tag_ptr in H.
      simpl in H. subst q. assumption.
    + destruct (mm_malloc fuel st (wrap32 (realloc_size n - DSIZE))) as [[st1 r]|] eqn:Hm; [|discriminate].
      apply mm_malloc_aligned in Hm; try assumption.
      destruct (mm_free fuel _ p); [|discriminate].
      injection H as H. apply (f_equal snd) in H. rewrite realloc_tag_ptr in H.
      simpl in H. subst q. assumption.
  - injection H as H. apply (f_equal snd) in H. rewrite realloc_tag_ptr in H.
    simpl in H. subst q. assumption.
Qed.

Lemma wrap32_mod8 z : z mod 8 = 0 -> wrap32 z mod 8 = 0.
Proof.
  unfold wrap32. intros H. change (2 ^ 32) with (8 * 536870912).
  rewrite Z.rem_mul_r by lia. rewrite H.
  rewrite Z.add_comm, Z.mul_comm. rewrite Z.add_0_r. apply Z.mod_mul. lia.
Qed.

Lemma adjust_size_mod8 n : adjust_size n mod 8 = 0.
Proof.
  unfold adjust_size, DSIZE. destruct (n <=? 8); [reflexivity|].
  apply wrap32_mod8. rewrite Z.mul_comm. apply Z.mod_mul. lia.
Qed.

Lemma even_words_mod8 n : even_words n mod 8 = 0.
Proof.
  unfold even_words, WSIZE.
  pose proof (Z.div_mod (n / 4) 2 ltac:(lia)) as E.
  pose proof (Z.mod_pos_bound (n / 4) 2 ltac:(lia)) as B.
  destruct (Z.eqb_spec ((n / 4) mod 2) 0) as [H0|H1]; simpl; apply wrap32_mod8.
  - replace (n / 4 * 4) with ((n / 4 / 2) * 8) by lia. apply Z.mod_mul. lia.
  - replace ((n / 4 + 1) * 4) with ((n / 4 / 2 + 1) * 8) by lia. apply Z.mod_mul. lia.
Qed.

(** ** Zero-size requests *)

(** C6. [mm_malloc(0)] returns NULL and leaves the whole state (heap bytes,
    free-list heads, break) as it was; [mm_realloc(p, 0)] returns NULL,
    releases nothing and changes nothing either. *)
Theorem zero_size_is_noop fuel st p :
  mm_malloc fuel st 0 = Some (st, NULL) /\ mm_realloc fuel st p 0 = Some (st, NULL).
Proof. split; reflexivity. Qed.

(** ** Alignment of results *)

(** One call keeps results aligned: in a state whose break and free-list
    entries are 8-byte aligned, every address returned by [mm_malloc] or
    [mm_realloc] is 8-byte aligned (NULL included); the size read from any
    header is a multiple of 8, and
    so are the sizes the allocator computes for a request and for a heap
    extension before storing them in a header. *)
Theorem results_aligned fuel st p n :
  mem_brk st mod 8 = 0 -> lists_aligned fuel st = true -> p mod 8 = 0 ->
  match mm_malloc fuel st n with
  | Some (st', q) => q mod 8 = 0 /\ GET_SIZE st' (HEAD q) mod 8 = 0
  | None => True
  end /\
  match mm_realloc fuel st p n with
  | Some (st', q) => q mod 8 = 0 /\ GET_SIZE st' (HEAD q) mod 8 = 0
  | None => True
  end /\
  adjust_size n mod 8 = 0 /\ even_words n mod 8 = 0.
Proof.
  intros Hb Ha Hp. repeat split.
  - destruct (mm_malloc fuel st n) as [[st' q]|] eqn:H; [|exact I].
    split; [eapply mm_malloc_aligned; eassumption|apply size_of_mod8].
  - destruct (mm_realloc fuel st p n) as [[st' q]|] eqn:H; [|exact I].
    split; [eapply mm_realloc_aligned; eassumption|apply size_of_mod8].
  - apply adjust_size_mod8.
  - apply even_words_mod8.
Qed.

Lemma results_aligned_witness :
  match session 8 65536 1048576
          [Alloc 0 8; Alloc 1 8; Alloc 2 16; Alloc 3 8; Release 0; Release 2] with
  | Some (st, t) =>
      (mem_brk st mod 8 = 0 /\ lists_aligned 8 st = true /\ t 1%nat mod 8 = 0) /\
      match mm_malloc 8 st 12 with
      | Some (st', q) => q mod 8 = 0 /\ GET_SIZE st' (HEAD q) mod 8 = 0
      | None => True
      end /\
      match mm_realloc 8 st (t 1%nat) 12 with
      | Some (st', q) => q mod 8 = 0 /\ GET_SIZE st' (HEAD q) mod 8 = 0
      | None => True
      end /\
      adjust_size 12 mod 8 = 0 /\ even_words 12 mod 8 = 0
  | None => False
  end.
Proof.
  destruct (session 8 65536 1048576 _) as [[st t]|] eqn:E;
    vm_compute in E; [injection E as <- <-|discriminate E].
  match goal with
  | |- ?A /\ _ => assert (H : A) by (vm_compute; repeat split)
  end.
  split; [exact H|].
  destruct H as (H1 & H2 & H3). exact (results_aligned 8 _ _ 12 H1 H2 H3).
Defined.

(** ** Resizing a block that is large enough for the request *)


Ltac evaluate :=
  vm_compute; repeat split; first [reflexivity | discriminate | intro; discriminate].

(** * The heap invariant *)

(** ** Reading and writing a state *)

Lemma PUT_eq st p v : PUT st p v = CLEAR_PUT st p (Z.lor v (GET_TAG st p)).
Proof. reflexivity. Qed.
Lemma SET_PTR_eq st p v : SET_PTR st p v = CLEAR_PUT st p v.
Proof. reflexivity. Qed.
Lemma SET_TAG_eq st p : SET_TAG st p = CLEAR_PUT st p (Z.lor (GET st p) 2).
Proof. reflexivity. Qed.
Lemma UNSET_TAG_eq st p : UNSET_TAG st p = CLEAR_PUT st p (Z.land (GET st p) (Z.lnot 2)).
Proof. reflexivity. Qed.

Lemma GET_range st p : 0 <= GET st p < 2 ^ 32.
Proof. apply load32_range. Qed.

Lemma GET_CLEAR_PUT_same st p v : GET (CLEAR_PUT st p v) p = wrap32 v.
Proof. apply load32_store32_same. Qed.

Lemma GET_CLEAR_PUT_other st p v q :
  p + 4 <= q \/ q + 4 <= p -> GET (CLEAR_PUT st p v) q = GET st q.
Proof. apply load32_store32_other. Qed.

Lemma GET_set_list st l p q : GET (set_list st l p) q = GET st q.
Proof. reflexivity. Qed.

Lemma lists_CLEAR_PUT st p v i : FREE_SEG_LISTS (CLEAR_PUT st p v) i = FREE_SEG_LISTS st i.
Proof. reflexivity. Qed.

Lemma lists_set_list st l p i :
  FREE_SEG_LISTS (set_list st l p) i = if i =? l then p else FREE_SEG_LISTS st i.
Proof. reflexivity. Qed.

Lemma wrap32_small z : 0 <= z < 2 ^ 32 -> wrap32 z = z.
Proof. apply Z.mod_small. Qed.

Lemma to_int_small z : - 2 ^ 31 <= z < 2 ^ 31 -> to_int z = z.
Proof.
  intros H. unfold to_int, wrap32. change (2 ^ 32) with 4294967296 in *.
  change (2 ^ 31) with 2147483648 in *.
  pose proof (Z.div_mod z 4294967296 ltac:(lia)) as E.
  pose proof (Z.mod_pos_bound z 4294967296 ltac:(lia)) as B.
  destruct (Z.ltb_spec (z mod 4294967296) 2147483648); lia.
Qed.

(** ** Block sequences *)

Lemma layout_app st bl1 : forall a bl2 e,
  layout st a (bl1 ++ bl2) e <-> exists m, layout st a bl1 m /\ layout st m bl2 e.
Proof.
  induction bl1 as [|b bl1 IH]; intros a bl2 e; simpl.
  - split; [intros H; exists a; auto|intros (m & -> & H); exact H].
  - rewrite IH. split.
    + intros (Hp & Hb & m & H1 & H2). exists m. auto.
    + intros (m & (Hp & Hb & H1) & H2). eauto.
Qed.

Lemma layout_bounds st bl : forall a e,
  layout st a bl e ->
  a <= e /\ forall b, In b bl -> a <= b_ptr b /\ b_ptr b + b_size b <= e.
Proof.
  induction bl as [|b0 bl IH]; intros a e H; simpl in H.
  - subst. split; [lia|intros b []].
  - destruct H as (Hp & Hb & H). apply IH in H as [Hle Hin].
    destruct Hb as (Hs & _). split; [lia|].
    intros b [<-|Hb]; [lia|]. apply Hin in Hb. lia.
Qed.

Lemma layout_block st bl : forall a e b,
  layout st a bl e -> In b bl -> block_ok st b.
Proof.
  induction bl as [|b0 bl IH]; intros a e b H Hin; simpl in H; [destruct Hin|].
  destruct H as (_ & Hb & H). destruct Hin as [<-|Hin]; eauto.
Qed.

(** Two blocks of a sequence are the same block or do not overlap. *)
Lemma layout_sep st bl : forall a e b1 b2,
  layout st a bl e -> In b1 bl -> In b2 bl ->
  b1 = b2 \/ b_ptr b1 + b_size b1 <= b_ptr b2 \/ b_ptr b2 + b_size b2 <= b_ptr b1.
Proof.
  induction bl as [|b0 bl IH]; intros a e b1 b2 H H1 H2; simpl in H; [destruct H1|].
  destruct H as (Hp & Hb & H).
  pose proof (layout_bounds _ _ _ _ H) as [_ Hin].
  destruct H1 as [<-|H1], H2 as [<-|H2]; auto.
  - apply Hin in H2. right. left. lia.
  - apply Hin in H1. right. right. lia.
  - eauto.
Qed.

Lemma layout_ptr_inj st bl a e b1 b2 :
  layout st a bl e -> In b1 bl -> In b2 bl -> b_ptr b1 = b_ptr b2 -> b1 = b2.
Proof.
  intros H H1 H2 Hp.
  pose proof (layout_block _ _ _ _ _ H H1) as (Hs1 & _).
  pose proof (layout_block _ _ _ _ _ H H2) as (Hs2 & _).
  destruct (layout_sep _ _ _ _ _ _ H H1 H2) as [E|[E|E]]; [exact E|lia|lia].
Qed.

(** A state that agrees with [st] on the boundary tags of a sequence holds
    the same sequence. *)
Lemma layout_agree st st' bl : forall a e,
  (forall b, In b bl ->
     GET st' (HEAD (b_ptr b)) = GET st (HEAD (b_ptr b)) /\
     GET st' (b_ptr b + b_size b - DSIZE) = GET st (b_ptr b + b_size b - DSIZE)) ->
  layout st a bl e -> layout st' a bl e.
Proof.
  induction bl as [|b0 bl IH]; intros a e Hag H; simpl in *; [exact H|].
  destruct H as (Hp & Hb & H). split; [exact Hp|]. split.
  - destruct (Hag b0 (or_introl eq_refl)) as [E1 E2].
    unfold block_ok in *. rewrite E1, E2. exact Hb.
  - apply IH; [|exact H]. intros b Hin. apply Hag. right. exact Hin.
Qed.

(** Writing a word that lies outside the range [lo, hi) of a sequence. *)
Lemma layout_write_outside st bl a e c v :
  layout st a bl e -> c + 4 <= a - 4 \/ e - 4 <= c ->
  layout (CLEAR_PUT st c v) a bl e.
Proof.
  intros H Hc. apply layout_agree with (st := st); [|exact H].
  pose proof (layout_bounds _ _ _ _ H) as [_ Hin].
  intros b Hb. pose proof (layout_block _ _ _ _ _ H Hb) as (Hs & _).
  apply Hin in Hb. unfold HEAD, WSIZE, DSIZE.
  split; apply GET_CLEAR_PUT_other; lia.
Qed.

(** Writing a word inside the payload of one of the blocks. *)
Lemma layout_write_payload st bl a e b0 c v :
  layout st a bl e -> In b0 bl ->
  b_ptr b0 <= c -> c + 4 <= b_ptr b0 + b_size b0 - DSIZE ->
  layout (CLEAR_PUT st c v) a bl e.
Proof.
  intros H H0 Hc1 Hc2. apply layout_agree with (st := st); [|exact H].
  intros b Hb. pose proof (layout_block _ _ _ _ _ H Hb) as (Hs & _).
  pose proof (layout_block _ _ _ _ _ H H0) as (Hs0 & _).
  unfold HEAD, WSIZE, DSIZE in *.
  destruct (layout_sep _ _ _ _ _ _ H H0 Hb) as [<-|[E|E]];
    split; apply GET_CLEAR_PUT_other; lia.
Qed.

(** ** Size classes *)

Lemma select_list_spec n : forall list size,
  0 <= size -> 0 <= list -> list + Z.of_nat n = 19 ->
  list <= fst (select_list n list size) <= 19 /\
  snd (select_list n list size) = size / 2 ^ (fst (select_list n list size) - list) /\
  (fst (select_list n list size) < 19 -> snd (select_list n list size) <= 1) /\
  (list < fst (select_list n list size) ->
   2 ^ (fst (select_list n list size) - list) <= size).
Proof.
  induction n as [|n IH]; intros list size Hs Hl Hn.
  - simpl. replace (list - list) with 0 by lia. rewrite Z.div_1_r.
    repeat split; lia.
  - cbn [select_list]. unfold SEG_LISTS.
    destruct (Z.ltb_spec list (20 - 1)) as [Hlt|Hge]; cbn [andb].
    + destruct (Z.gtb_spec size 1) as [Hgt|Hle].
      * assert (Hs' : 0 <= Z.shiftr size 1) by (apply Z.shiftr_nonneg; lia).
        specialize (IH (list + 1) (Z.shiftr size 1) Hs' ltac:(lia) ltac:(lia)).
        destruct (select_list n (list + 1) (Z.shiftr size 1)) as [l z]; cbn [fst snd] in *.
        destruct IH as (H1 & H2 & H3 & H4).
        assert (E : Z.shiftr size 1 = size / 2) by (rewrite Z.shiftr_div_pow2 by lia; reflexivity).
        rewrite E in *.
        assert (P : 2 ^ (l - list) = 2 * 2 ^ (l - (list + 1))).
        { replace (l - list) with (Z.succ (l - (list + 1))) by lia.
          apply Z.pow_succ_r. lia. }
        repeat split; try lia.
        -- rewrite H2, P. rewrite Z.div_div by (try apply Z.pow_pos_nonneg; lia). reflexivity.
        -- intros _. rewrite P.
           destruct (Z.eq_dec l (list + 1)) as [->|Hne].
           ++ replace (list + 1 - (list + 1)) with 0 by lia. simpl. lia.
           ++ specialize (H4 ltac:(lia)).
              pose proof (Z.div_mod size 2 ltac:(lia)).
              pose proof (Z.mod_pos_bound size 2 ltac:(lia)). lia.
      * cbn [fst snd]. replace (list - list) with 0 by lia. rewrite Z.div_1_r.
        repeat split; lia.
    + cbn [fst snd]. replace (list - list) with 0 by lia. rewrite Z.div_1_r.
      repeat split; lia.
Qed.

Lemma bucket_range s : 0 <= s -> 0 <= bucket s < SEG_LISTS.
Proof.
  intros Hs. unfold bucket, SEG_LISTS.
  pose proof (select_list_spec 19 0 s Hs ltac:(lia) ltac:(lia)) as (H & _). lia.
Qed.

(** The size that reaches the ordered scan of [insert_node] never exceeds
    the size of a block of the same class. *)
Lemma shifted_size_small s s' :
  0 <= s < 2 ^ 32 -> 16 <= s' -> bucket s' = bucket s ->
  snd (select_list 19 0 s) <= s'.
Proof.
  intros Hs Hs' Hb. unfold bucket in Hb.
  pose proof (select_list_spec 19 0 s ltac:(lia) ltac:(lia) ltac:(lia)) as (H1 & H2 & H3 & _).
  pose proof (select_list_spec 19 0 s' ltac:(lia) ltac:(lia) ltac:(lia)) as (H1' & _ & _ & H4').
  rewrite Hb in *. rewrite Z.sub_0_r in *.
  destruct (Z.eq_dec (fst (select_list 19 0 s)) 19) as [E|E].
  - rewrite E in *. specialize (H4' ltac:(lia)).
    rewrite H2. change (2 ^ 19) with 524288 in *. change (2 ^ 32) with 4294967296 in *.
    assert (s / 524288 < 8192) by (apply Z.div_lt_upper_bound; lia). lia.
  - specialize (H3 ltac:(lia)). lia.
Qed.

(** ** Unlinking a node *)

Ltac links_unfold :=
  unfold PRECEDE, SUCCEED, SUCCEED_PTR, PRECEDE_PTR, WSIZE, NULL in *.

Ltac get_simpl :=
  repeat first
    [ rewrite GET_set_list
    | rewrite lists_CLEAR_PUT
    | rewrite GET_CLEAR_PUT_same
    | rewrite GET_CLEAR_PUT_other by lia ].

Lemma wrap32_node N y t : nodes_ok N -> N y t -> wrap32 y = y.
Proof.
  intros HN Hy. apply wrap32_small. apply (nd_ptr N HN) in Hy.
  change (2 ^ 31) with 2147483648 in Hy. change (2 ^ 32) with 4294967296. lia.
Qed.

Lemma wrap32_0 : wrap32 0 = 0.
Proof. reflexivity. Qed.

(** Nodes are identified by their address. *)
Lemma node_size_unique N y t u : nodes_ok N -> N y t -> N y u -> t = u.
Proof.
  intros HN H1 H2. destruct (nd_sep N HN _ _ _ _ H1 H2) as [[_ E]|[E|E]]; [exact E|lia|lia].
Qed.

Lemma node_nonnull N y t : nodes_ok N -> N y t -> y <> 0.
Proof. intros HN Hy. apply (nd_ptr N HN) in Hy. lia. Qed.

(** Compare two nodes: equal, or far apart. *)
Ltac node_cmp HN Hy Hz :=
  let E := fresh "E" in
  destruct (nd_sep _ HN _ _ _ _ Hy Hz) as [[E ?]|[E|E]].

(** Neither link of the removed node is set: it was alone on its list. *)
Lemma links_remove_alone st N x s :
  links st N -> nodes_ok N -> N x s ->
  PRECEDE st x = NULL -> SUCCEED st x = NULL ->
  links (set_list st (bucket s) NULL) (without N x).
Proof.
  intros [Kp Ks Kh Kl] HN Hx HP HS.
  pose proof (Kl x s Hx HS) as KLx.
  links_unfold. constructor; links_unfold.
  - intros y t [Hy Hyx] Hne. rewrite !GET_set_list in *.
    destruct (Kp y t Hy Hne) as (s' & Hp & Hsp & Hb).
    exists s'. repeat split; auto.
    intros E. rewrite E in Hsp. pose proof (node_nonnull _ _ _ HN Hy). congruence.
  - intros y t [Hy Hyx] Hne. rewrite !GET_set_list in *.
    destruct (Ks y t Hy Hne) as (s' & Hp & Hsp).
    exists s'. repeat split; auto.
    intros E. rewrite E in Hsp. pose proof (node_nonnull _ _ _ HN Hy). congruence.
  - intros i Hi Hne. rewrite lists_set_list in *. rewrite GET_set_list.
    destruct (Z.eqb_spec i (bucket s)) as [->|Hib]; [congruence|].
    destruct (Kh i Hi Hne) as (s' & Hh & Hs0 & Hb).
    exists s'. repeat split; auto.
    intros E. rewrite E in Hh. pose proof (node_size_unique _ _ _ _ HN Hx Hh). congruence.
  - intros y t [Hy Hyx] Hs0. rewrite lists_set_list. rewrite GET_set_list in Hs0.
    pose proof (Kl y t Hy Hs0) as Hh.
    destruct (Z.eqb_spec (bucket t) (bucket s)) as [Eb|Hb]; [|exact Hh].
    rewrite Eb in Hh. congruence.
Qed.

(** Only the successor link is set: the node was last on its list. *)
Lemma links_remove_last st N x s :
  links st N -> nodes_ok N -> N x s ->
  PRECEDE st x = NULL -> SUCCEED st x <> NULL ->
  links (CLEAR_PUT st (SUCCEED st x) NULL) (without N x).
Proof.
  intros [Kp Ks Kh Kl] HN Hx HP HS.
  destruct (Ks x s Hx HS) as (sS & HNS & HSx).
  links_unfold. set (S := GET st (x + 4)) in *.
  assert (HSne : S <> x) by (intros E; rewrite E in HSx; pose proof (node_nonnull _ _ _ HN Hx); congruence).
  constructor; links_unfold.
  - intros y t [Hy Hyx] Hne.
    node_cmp HN Hy HNS.
    + subst y. rewrite GET_CLEAR_PUT_same, wrap32_0 in Hne. congruence.
    + rewrite GET_CLEAR_PUT_other in * by lia.
      destruct (Kp y t Hy Hne) as (s' & Hp & Hsp & Hb).
      exists s'. split; [split; [exact Hp|]|split; [|exact Hb]].
      * intros E'. rewrite E' in Hsp. fold S in Hsp. lia.
      * node_cmp HN Hp HNS; rewrite GET_CLEAR_PUT_other by lia; exact Hsp.
    + rewrite GET_CLEAR_PUT_other in * by lia.
      destruct (Kp y t Hy Hne) as (s' & Hp & Hsp & Hb).
      exists s'. split; [split; [exact Hp|]|split; [|exact Hb]].
      * intros E'. rewrite E' in Hsp. fold S in Hsp. lia.
      * node_cmp HN Hp HNS; rewrite GET_CLEAR_PUT_other by lia; exact Hsp.
  - intros y t [Hy Hyx] Hne.
    assert (Hc : GET (CLEAR_PUT st S 0) (y + 4) = GET st (y + 4))
      by (node_cmp HN Hy HNS; apply GET_CLEAR_PUT_other; lia).
    rewrite Hc in *.
    destruct (Ks y t Hy Hne) as (s' & Hp & Hsp).
    exists s'. split; [split; [exact Hp|]|].
    + intros E'. rewrite E' in Hsp. pose proof (node_nonnull _ _ _ HN Hy). congruence.
    + node_cmp HN Hp HNS; [|rewrite GET_CLEAR_PUT_other by lia; exact Hsp ..].
      rewrite E in Hsp. congruence.
  - intros i Hi Hne. rewrite lists_CLEAR_PUT in *.
    destruct (Kh i Hi Hne) as (s' & Hh & Hs0 & Hb).
    exists s'. split; [split; [exact Hh|]|split; [|exact Hb]].
    + intros E'. rewrite E' in Hs0. fold S in Hs0. congruence.
    + node_cmp HN Hh HNS; rewrite GET_CLEAR_PUT_other by lia; exact Hs0.
  - intros y t [Hy Hyx] Hs0. rewrite lists_CLEAR_PUT.
    apply (Kl y t Hy).
    node_cmp HN Hy HNS; rewrite GET_CLEAR_PUT_other in Hs0 by lia; exact Hs0.
Qed.

(** Only the predecessor link is set: the node was the head of its list. *)
Lemma links_remove_head st N x s :
  links st N -> nodes_ok N -> N x s ->
  PRECEDE st x <> NULL -> SUCCEED st x = NULL ->
  links (set_list (CLEAR_PUT st (PRECEDE st x + 4) NULL) (bucket s) (PRECEDE st x))
        (without N x).
Proof.
  intros [Kp Ks Kh Kl] HN Hx HP HS.
  destruct (Kp x s Hx HP) as (sP & HNP & HPx & HbP).
  pose proof (Kl x s Hx HS) as KLx.
  pose proof (node_nonnull _ _ _ HN Hx) as Hx0.
  links_unfold. set (P := GET st x) in *.
  assert (HPne : P <> x) by (intros E; rewrite E in HPx; congruence).
  constructor; links_unfold.
  - intros y t [Hy Hyx] Hne. rewrite !GET_set_list in *.
    assert (Hc : GET (CLEAR_PUT st (P + 4) 0) y = GET st y)
      by (node_cmp HN Hy HNP; apply GET_CLEAR_PUT_other; lia).
    rewrite Hc in *.
    destruct (Kp y t Hy Hne) as (s' & Hp & Hsp & Hb).
    exists s'. split; [split; [exact Hp|]|split; [|exact Hb]].
    + intros E'. rewrite E' in Hsp. pose proof (node_nonnull _ _ _ HN Hy). congruence.
    + node_cmp HN Hp HNP; [|rewrite GET_CLEAR_PUT_other by lia; exact Hsp ..].
      rewrite E in Hsp. congruence.
  - intros y t [Hy Hyx] Hne. rewrite !GET_set_list in *.
    node_cmp HN Hy HNP.
    + subst y. rewrite GET_CLEAR_PUT_same, wrap32_0 in Hne. congruence.
    + rewrite GET_CLEAR_PUT_other in * by lia.
      destruct (Ks y t Hy Hne) as (s' & Hp & Hsp).
      exists s'. split; [split; [exact Hp|]|].
      * intros E'. rewrite E' in Hsp. fold P in Hsp. lia.
      * node_cmp HN Hp HNP; rewrite GET_CLEAR_PUT_other by lia; exact Hsp.
    + rewrite GET_CLEAR_PUT_other in * by lia.
      destruct (Ks y t Hy Hne) as (s' & Hp & Hsp).
      exists s'. split; [split; [exact Hp|]|].
      * intros E'. rewrite E' in Hsp. fold P in Hsp. lia.
      * node_cmp HN Hp HNP; rewrite GET_CLEAR_PUT_other by lia; exact Hsp.
  - intros i Hi Hne. rewrite lists_set_list, lists_CLEAR_PUT in *. rewrite GET_set_list.
    destruct (Z.eqb_spec i (bucket s)) as [->|Hib].
    + exists sP. split; [split; [exact HNP|exact HPne]|split; [|exact HbP]].
      rewrite GET_CLEAR_PUT_same. apply wrap32_0.
    + destruct (Kh i Hi Hne) as (s' & Hh & Hs0 & Hb).
      exists s'. split; [split; [exact Hh|]|split; [|exact Hb]].
      * intros E'. rewrite E' in Hh.
        pose proof (node_size_unique _ _ _ _ HN Hx Hh). congruence.
      * node_cmp HN Hh HNP; [|rewrite GET_CLEAR_PUT_other by lia; exact Hs0 ..].
        rewrite E. rewrite GET_CLEAR_PUT_same. apply wrap32_0.
  - intros y t [Hy Hyx] Hs0. rewrite lists_set_list, lists_CLEAR_PUT.
    rewrite GET_set_list in Hs0.
    node_cmp HN Hy HNP.
    + subst y t. rewrite HbP, Z.eqb_refl. reflexivity.
    + rewrite GET_CLEAR_PUT_other in Hs0 by lia.
      pose proof (Kl y t Hy Hs0) as Hh.
      destruct (Z.eqb_spec (bucket t) (bucket s)) as [Eb|Hb]; [|exact Hh].
      rewrite Eb in Hh. congruence.
    + rewrite GET_CLEAR_PUT_other in Hs0 by lia.
      pose proof (Kl y t Hy Hs0) as Hh.
      destruct (Z.eqb_spec (bucket t) (bucket s)) as [Eb|Hb]; [|exact Hh].
      rewrite Eb in Hh. congruence.
Qed.

(** Both links are set: the neighbours are linked to each other. *)
Lemma links_remove_inner st N x s :
  links st N -> nodes_ok N -> N x s ->
  PRECEDE st x <> NULL -> SUCCEED st x <> NULL ->
  links (CLEAR_PUT (CLEAR_PUT st (PRECEDE st x + 4) (SUCCEED st x))
                   (SUCCEED st x) (PRECEDE st x))
        (without N x).
Proof.
  intros [Kp Ks Kh Kl] HN Hx HP HS.
  destruct (Kp x s Hx HP) as (sP & HNP & HPx & HbP).
  destruct (Ks x s Hx HS) as (sS & HNS & HSx).
  pose proof (node_nonnull _ _ _ HN Hx) as Hx0.
  links_unfold. set (P := GET st x) in *. set (S := GET st (x + 4)) in *.
  assert (HbS : bucket sS = bucket s).
  { destruct (Kp S sS HNS) as (s' & Hx' & _ & Hb'); links_unfold; [rewrite HSx; exact Hx0|].
    rewrite HSx in Hx'. rewrite (node_size_unique _ _ _ _ HN Hx Hx'). symmetry. exact Hb'. }
  assert (WP : wrap32 P = P) by (eapply wrap32_node; eauto).
  assert (WS : wrap32 S = S) by (eapply wrap32_node; eauto).
  (* the cells of the state after both writes *)
  assert (RS : GET (CLEAR_PUT (CLEAR_PUT st (P + 4) S) S P) S = P)
    by (rewrite GET_CLEAR_PUT_same; exact WP).
  assert (RP : GET (CLEAR_PUT (CLEAR_PUT st (P + 4) S) S P) (P + 4) = S).
  { node_cmp HN HNP HNS; rewrite GET_CLEAR_PUT_other by lia;
      rewrite GET_CLEAR_PUT_same; exact WS. }
  assert (Rp : forall y t, N y t -> y <> S ->
            GET (CLEAR_PUT (CLEAR_PUT st (P + 4) S) S P) y = GET st y).
  { intros y t Hy Hne. node_cmp HN Hy HNS; [congruence| |];
      rewrite GET_CLEAR_PUT_other by lia;
      node_cmp HN Hy HNP; apply GET_CLEAR_PUT_other; lia. }
  assert (Rs : forall y t, N y t -> y <> P ->
            GET (CLEAR_PUT (CLEAR_PUT st (P + 4) S) S P) (y + 4) = GET st (y + 4)).
  { intros y t Hy Hne. node_cmp HN Hy HNP; [congruence| |];
      node_cmp HN Hy HNS; rewrite !GET_CLEAR_PUT_other by lia; reflexivity. }
  set (st' := CLEAR_PUT (CLEAR_PUT st (P + 4) S) S P) in *.
  assert (Hl : forall i, FREE_SEG_LISTS st' i = FREE_SEG_LISTS st i) by reflexivity.
  assert (HPS : P = x <-> S = x).
  { split; intros E.
    - rewrite E in HPx. exact HPx.
    - rewrite E in HSx. exact HSx. }
  constructor; links_unfold.
  - intros y t [Hy Hyx] Hne.
    destruct (Z.eq_dec y S) as [->|HyS].
    + rewrite RS in *. exists sP.
      rewrite (node_size_unique _ _ _ _ HN Hy HNS).
      split; [split; [exact HNP|tauto]|split; [exact RP|congruence]].
    + rewrite (Rp y t Hy HyS) in *.
      destruct (Kp y t Hy Hne) as (s' & Hp & Hsp & Hb).
      assert (HPy : GET st y <> P) by (intros E; rewrite E in Hsp; congruence).
      exists s'. split; [split; [exact Hp|]|split; [|exact Hb]].
      * intros E. rewrite E in Hsp. fold S in Hsp. congruence.
      * rewrite (Rs _ _ Hp HPy). exact Hsp.
  - intros y t [Hy Hyx] Hne.
    destruct (Z.eq_dec y P) as [->|HyP].
    + rewrite RP in *. exists sS.
      split; [split; [exact HNS|tauto]|exact RS].
    + rewrite (Rs y t Hy HyP) in *.
      destruct (Ks y t Hy Hne) as (s' & Hp & Hsp).
      assert (HSy : GET st (y + 4) <> S) by (intros E; rewrite E in Hsp; congruence).
      exists s'. split; [split; [exact Hp|]|].
      * intros E. rewrite E in Hsp. fold P in Hsp. congruence.
      * rewrite (Rp _ _ Hp HSy). exact Hsp.
  - intros i Hi Hne. rewrite Hl in *.
    destruct (Kh i Hi Hne) as (s' & Hh & Hs0 & Hb).
    assert (HhP : FREE_SEG_LISTS st i <> P) by (intros E; rewrite E in Hs0; congruence).
    exists s'. split; [split; [exact Hh|]|split; [|exact Hb]].
    + intros E. rewrite E in Hs0. fold S in Hs0. congruence.
    + rewrite (Rs _ _ Hh HhP). exact Hs0.
  - intros y t [Hy Hyx] Hs0. rewrite Hl.
    destruct (Z.eq_dec y P) as [->|HyP]; [rewrite RP in Hs0; congruence|].
    rewrite (Rs y t Hy HyP) in Hs0. exact (Kl y t Hy Hs0).
Qed.

(** The state [remove_node] produces, spelled out for a node of a
    well-formed list structure. *)
Lemma remove_node_eq st N x s :
  links st N -> nodes_ok N -> N x s -> GET_SIZE st (HEAD x) = s ->
  remove_node st x =
    if PRECEDE st x =? NULL then
      if SUCCEED st x =? NULL then set_list st (bucket s) NULL
      else CLEAR_PUT st (SUCCEED st x) NULL
    else
      if SUCCEED st x =? NULL
      then set_list (CLEAR_PUT st (PRECEDE st x + 4) NULL) (bucket s) (PRECEDE st x)
      else CLEAR_PUT (CLEAR_PUT st (PRECEDE st x + 4) (SUCCEED st x))
                     (SUCCEED st x) (PRECEDE st x).
Proof.
  intros HL HN Hx Hsz. unfold remove_node. rewrite Hsz.
  fold (bucket s). destruct (select_list 19 0 s) as [l z] eqn:Esel.
  assert (El : l = bucket s) by (unfold bucket; rewrite Esel; reflexivity). subst l. clear Esel z.
  cbv zeta. change SET_PTR with CLEAR_PUT.
  pose proof (node_nonnull _ _ _ HN Hx) as Hx0.
  destruct (Z.eqb_spec (PRECEDE st x) NULL) as [HP|HP]; cbn [negb];
    destruct (Z.eqb_spec (SUCCEED st x) NULL) as [HS|HS]; cbn [negb]; try reflexivity.
  - (* head of its list *)
    destruct (lk_precede st N HL x s Hx HP) as (sP & HNP & HPx & _).
    links_unfold.
    assert (HPne : GET st x <> x) by (intros E; rewrite E in HPx; congruence).
    replace (GET (CLEAR_PUT st (GET st x + 4) 0) x) with (GET st x); [reflexivity|].
    symmetry. node_cmp HN Hx HNP; [congruence| |]; apply GET_CLEAR_PUT_other; lia.
  - (* inner node *)
    destruct (lk_precede st N HL x s Hx HP) as (sP & HNP & HPx & _).
    destruct (lk_succeed st N HL x s Hx HS) as (sS & HNS & HSx).
    links_unfold.
    assert (E1 : GET (CLEAR_PUT st (GET st x + 4) (GET st (x + 4))) (x + 4) = GET st (x + 4)).
    { node_cmp HN Hx HNP.
      - rewrite <- E at 1. rewrite GET_CLEAR_PUT_same. eapply wrap32_node; eauto.
      - apply GET_CLEAR_PUT_other; lia.
      - apply GET_CLEAR_PUT_other; lia. }
    assert (E2 : GET (CLEAR_PUT st (GET st x + 4) (GET st (x + 4))) x = GET st x)
      by (node_cmp HN Hx HNP; apply GET_CLEAR_PUT_other; lia).
    rewrite E1, E2. reflexivity.
Qed.

Lemma links_remove st N x s :
  links st N -> nodes_ok N -> N x s -> GET_SIZE st (HEAD x) = s ->
  links (remove_node st x) (without N x).
Proof.
  intros HL HN Hx Hsz. rewrite (remove_node_eq st N x s HL HN Hx Hsz).
  destruct (Z.eqb_spec (PRECEDE st x) NULL) as [HP|HP];
    destruct (Z.eqb_spec (SUCCEED st x) NULL) as [HS|HS].
  - apply (links_remove_alone st N x s); assumption.
  - apply (links_remove_last st N x s); assumption.
  - apply (links_remove_head st N x s); assumption.
  - apply (links_remove_inner st N x s); assumption.
Qed.

(** ** The heap layout under writes *)

Lemma heap_layout_agree st st' bl :
  prologue_block st' = prologue_block st -> mem_brk st' = mem_brk st ->
  mem_max_addr st' = mem_max_addr st ->
  (forall c, first_block st - 16 <= c -> c <= mem_brk st - 4 ->
             (c = HEAD (prologue_block st) \/ c = prologue_block st \/
              c = HEAD (mem_brk st) \/
              exists b, In b bl /\ (c = HEAD (b_ptr b) \/ c = b_ptr b + b_size b - DSIZE)) ->
             GET st' c = GET st c) ->
  heap_layout st bl -> heap_layout st' bl.
Proof.
  intros Ep Eb Em Hag [H1 H2 H3 H4 H5 H6 H7 H8].
  pose proof (layout_bounds _ _ _ _ H4) as [Hle Hin].
  unfold first_block, HEAD, WSIZE, DSIZE, GET_SIZE, GET_ALLOC in *.
  constructor; unfold first_block, HEAD, WSIZE, DSIZE, GET_SIZE, GET_ALLOC;
    rewrite ?Ep, ?Eb, ?Em; try assumption.
  - rewrite Hag; [assumption|lia|lia|auto].
  - rewrite Hag; [assumption|lia|lia|auto].
  - apply layout_agree with (st := st); [|assumption].
    intros b Hb. pose proof (layout_block _ _ _ _ _ H4 Hb) as (Hs & _).
    pose proof (Hin b Hb). unfold HEAD, WSIZE, DSIZE.
    split; (apply Hag; [lia|lia|]); right; right; right; exists b; auto.
  - rewrite Hag; [assumption|lia|lia|auto].
  - rewrite Hag; [assumption|lia|lia|auto].
Qed.

Lemma heap_layout_set_list st bl l p :
  heap_layout st bl -> heap_layout (set_list st l p) bl.
Proof. apply heap_layout_agree; try reflexivity. Qed.

(** Writing a word inside the payload of a block leaves every boundary
    tag alone. *)
Lemma heap_layout_write_payload st bl b0 c v :
  heap_layout st bl -> In b0 bl ->
  b_ptr b0 <= c -> c + 4 <= b_ptr b0 + b_size b0 - DSIZE ->
  heap_layout (CLEAR_PUT st c v) bl.
Proof.
  intros HL H0 Hc1 Hc2. apply heap_layout_agree with (st := st); try reflexivity; [|exact HL].
  destruct HL as [H1 H2 H3 H4 H5 H6 H7 H8].
  pose proof (layout_bounds _ _ _ _ H4) as [Hle Hin].
  pose proof (layout_block _ _ _ _ _ H4 H0) as (Hs0 & _).
  pose proof (Hin b0 H0) as Hb0.
  unfold first_block, HEAD, WSIZE, DSIZE in *.
  intros c' _ _ [->|[->|[->|(b & Hb & Hc')]]]; try (apply GET_CLEAR_PUT_other; lia).
  pose proof (layout_block _ _ _ _ _ H4 Hb) as (Hs & _).
  destruct (layout_sep _ _ _ _ _ _ H4 H0 Hb) as [<-|[E|E]];
    destruct Hc' as [->| ->]; apply GET_CLEAR_PUT_other; lia.
Qed.

(** The free blocks of a heap form a proper node set. *)
Lemma heap_nodes_ok st bl N :
  heap_layout st bl -> (forall x s, N x s -> free_in bl x s) -> nodes_ok N.
Proof.
  intros [H1 H2 H3 H4 H5 H6 H7 H8] HN.
  pose proof (layout_bounds _ _ _ _ H4) as [Hle Hin].
  unfold first_block, DSIZE in *.
  constructor.
  - intros y t Hy. apply HN in Hy as [tg Hy].
    pose proof (layout_block _ _ _ _ _ H4 Hy) as (Hs & _).
    apply Hin in Hy. cbn [b_ptr b_size] in *. lia.
  - intros y t Hy. apply HN in Hy as [tg Hy].
    pose proof (layout_block _ _ _ _ _ H4 Hy) as (Hs & _).
    apply Hin in Hy. cbn [b_ptr b_size] in *. lia.
  - intros y t z u Hy Hz. apply HN in Hy as [tg Hy]. apply HN in Hz as [tg' Hz].
    pose proof (layout_block _ _ _ _ _ H4 Hy) as (Hs & _).
    pose proof (layout_block _ _ _ _ _ H4 Hz) as (Hs' & _).
    destruct (layout_sep _ _ _ _ _ _ H4 Hy Hz) as [E|[E|E]]; cbn [b_ptr b_size] in *.
    + injection E as -> -> _. left. auto.
    + right. left. lia.
    + right. right. lia.
Qed.

(** ** Linking a node *)

(** In a well-formed list the ordered scan of [insert_node] stops at once:
    the list head is never smaller than the shifted size. *)
Lemma insert_scan_stops fuel st N s r :
  links st N -> nodes_ok N -> 0 <= s < 2 ^ 32 ->
  (forall h sh, N h sh -> GET_SIZE st (HEAD h) = sh) ->
  insert_scan fuel st (snd (select_list 19 0 s)) (FREE_SEG_LISTS st (bucket s)) NULL = Some r ->
  r = (FREE_SEG_LISTS st (bucket s), NULL).
Proof.
  intros HL HN Hs Hsz H. destruct fuel as [|fuel]; [discriminate|].
  cbn [insert_scan] in H.
  destruct (Z.eqb_spec (FREE_SEG_LISTS st (bucket s)) NULL) as [E|E]; cbn [negb andb] in H.
  - injection H as <-. reflexivity.
  - destruct (lk_head st N HL (bucket s) (bucket_range s ltac:(lia)) E) as (sh & Hh & _ & Hb).
    rewrite (Hsz _ _ Hh) in H.
    pose proof (nd_size N HN _ _ Hh) as Hsh.
    pose proof (shifted_size_small s sh Hs ltac:(lia) Hb) as Hle.
    destruct (Z.gtb_spec (snd (select_list 19 0 s)) sh); [lia|].
    injection H as <-. reflexivity.
Qed.

Lemma insert_node_eq fuel st N x s st' :
  links st N -> nodes_ok N -> 0 <= s < 2 ^ 32 ->
  (forall h sh, N h sh -> GET_SIZE st (HEAD h) = sh) ->
  insert_node fuel st x s = Some st' ->
  st' =
    if FREE_SEG_LISTS st (bucket s) =? NULL
    then set_list (CLEAR_PUT (CLEAR_PUT st x NULL) (x + 4) NULL) (bucket s) x
    else set_list (CLEAR_PUT (CLEAR_PUT (CLEAR_PUT st x (FREE_SEG_LISTS st (bucket s)))
                                        (FREE_SEG_LISTS st (bucket s) + 4) x)
                             (x + 4) NULL) (bucket s) x.
Proof.
  intros HL HN Hs Hsz H. unfold insert_node in H.
  pose proof (insert_scan_stops fuel st N s) as Hscan.
  unfold bucket in *. destruct (select_list 19 0 s) as [l z]. cbn [fst snd] in *.
  destruct (insert_scan fuel st z (FREE_SEG_LISTS st l) NULL) as [r|]; [|discriminate].
  rewrite (Hscan r HL HN Hs Hsz eq_refl) in H.
  change (NULL =? NULL) with true in H. cbn [negb] in H.
  injection H as <-.
  destruct (FREE_SEG_LISTS st l =? NULL); reflexivity.
Qed.

Lemma links_insert_empty st N x s :
  links st N -> nodes_ok (with_node N x s) -> (forall t, ~ N x t) ->
  FREE_SEG_LISTS st (bucket s) = NULL ->
  links (set_list (CLEAR_PUT (CLEAR_PUT st x NULL) (x + 4) NULL) (bucket s) x)
        (with_node N x s).
Proof.
  intros [Kp Ks Kh Kl] HN Hnx Hh.
  assert (Hx : with_node N x s x s) by (right; auto).
  assert (Rp : forall y t, N y t ->
            GET (CLEAR_PUT (CLEAR_PUT st x 0) (x + 4) 0) y = GET st y).
  { intros y t Hy. assert (Hy' : with_node N x s y t) by (left; exact Hy).
    node_cmp HN Hy' Hx; [subst; exfalso; eapply Hnx; eauto| |];
      rewrite !GET_CLEAR_PUT_other by lia; reflexivity. }
  assert (Rs : forall y t, N y t ->
            GET (CLEAR_PUT (CLEAR_PUT st x 0) (x + 4) 0) (y + 4) = GET st (y + 4)).
  { intros y t Hy. assert (Hy' : with_node N x s y t) by (left; exact Hy).
    node_cmp HN Hy' Hx; [subst; exfalso; eapply Hnx; eauto| |];
      rewrite !GET_CLEAR_PUT_other by lia; reflexivity. }
  assert (Rx : GET (CLEAR_PUT (CLEAR_PUT st x 0) (x + 4) 0) x = 0).
  { rewrite GET_CLEAR_PUT_other by lia. rewrite GET_CLEAR_PUT_same. apply wrap32_0. }
  assert (Rx4 : GET (CLEAR_PUT (CLEAR_PUT st x 0) (x + 4) 0) (x + 4) = 0).
  { rewrite GET_CLEAR_PUT_same. apply wrap32_0. }
  links_unfold. set (st1 := CLEAR_PUT (CLEAR_PUT st x 0) (x + 4) 0) in *.
  constructor; links_unfold; rewrite ?GET_set_list.
  - intros y t [Hy|[-> ->]] Hne; rewrite ?GET_set_list in *; [|congruence].
    rewrite (Rp y t Hy) in *.
    destruct (Kp y t Hy Hne) as (s' & Hp & Hsp & Hb).
    exists s'. split; [left; exact Hp|split; [|exact Hb]].
    rewrite (Rs _ _ Hp). exact Hsp.
  - intros y t [Hy|[-> ->]] Hne; rewrite ?GET_set_list in *; [|congruence].
    rewrite (Rs y t Hy) in *.
    destruct (Ks y t Hy Hne) as (s' & Hp & Hsp).
    exists s'. split; [left; exact Hp|].
    rewrite (Rp _ _ Hp). exact Hsp.
  - intros i Hi Hne. rewrite lists_set_list in *. rewrite ?GET_set_list.
    destruct (Z.eqb_spec i (bucket s)) as [->|Hib].
    + exists s. split; [exact Hx|split; [exact Rx4|reflexivity]].
    + change (FREE_SEG_LISTS st1 i) with (FREE_SEG_LISTS st i) in *.
      destruct (Kh i Hi Hne) as (s' & Hp & Hs0 & Hb).
      exists s'. split; [left; exact Hp|split; [|exact Hb]].
      rewrite (Rs _ _ Hp). exact Hs0.
  - intros y t [Hy|[-> ->]] Hs0; rewrite lists_set_list; rewrite GET_set_list in Hs0.
    + rewrite (Rs y t Hy) in Hs0. pose proof (Kl y t Hy Hs0) as Hhy.
      destruct (Z.eqb_spec (bucket t) (bucket s)) as [Eb|Hb]; [|exact Hhy].
      rewrite Eb, Hh in Hhy. assert (Hy' : with_node N x s y t) by (left; exact Hy).
      pose proof (node_nonnull _ _ _ HN Hy'). congruence.
    + rewrite Z.eqb_refl. reflexivity.
Qed.

Lemma links_insert_head st N x s :
  links st N -> nodes_ok (with_node N x s) -> (forall t, ~ N x t) ->
  FREE_SEG_LISTS st (bucket s) <> NULL ->
  links (set_list (CLEAR_PUT (CLEAR_PUT (CLEAR_PUT st x (FREE_SEG_LISTS st (bucket s)))
                                        (FREE_SEG_LISTS st (bucket s) + 4) x)
                             (x + 4) NULL) (bucket s) x)
        (with_node N x s).
Proof.
  intros [Kp Ks Kh Kl] HN Hnx Hh0.
  assert (Hx : with_node N x s x s) by (right; auto).
  assert (Hs : 0 <= s) by (pose proof (nd_size _ HN _ _ Hx); lia).
  destruct (Kh (bucket s) (bucket_range s Hs) Hh0) as (sh & Hh & Hhs & Hhb).
  set (h := FREE_SEG_LISTS st (bucket s)) in *.
  assert (Hh' : with_node N x s h sh) by (left; exact Hh).
  assert (Hhx : h <> x) by (intros E; rewrite E in Hh; eapply Hnx; eauto).
  assert (Wh : wrap32 h = h) by (eapply wrap32_node; eauto).
  assert (Wx : wrap32 x = x) by (eapply wrap32_node; eauto).
  links_unfold.
  set (st1 := CLEAR_PUT (CLEAR_PUT (CLEAR_PUT st x h) (h + 4) x) (x + 4) 0).
  assert (Rp : forall y t, N y t -> GET st1 y = GET st y).
  { intros y t Hy. assert (Hy' : with_node N x s y t) by (left; exact Hy). unfold st1.
    node_cmp HN Hy' Hx; [subst; exfalso; eapply Hnx; eauto| |];
      (rewrite GET_CLEAR_PUT_other by lia);
      (node_cmp HN Hy' Hh'; rewrite !GET_CLEAR_PUT_other by lia; reflexivity). }
  assert (Rs : forall y t, N y t -> y <> h -> GET st1 (y + 4) = GET st (y + 4)).
  { intros y t Hy Hyh. assert (Hy' : with_node N x s y t) by (left; exact Hy). unfold st1.
    node_cmp HN Hy' Hx; [subst; exfalso; eapply Hnx; eauto| |];
      (rewrite GET_CLEAR_PUT_other by lia);
      (node_cmp HN Hy' Hh'; [congruence| |]; rewrite !GET_CLEAR_PUT_other by lia; reflexivity). }
  assert (Rx : GET st1 x = h).
  { unfold st1. node_cmp HN Hx Hh'; [congruence| |];
      rewrite !GET_CLEAR_PUT_other by lia; rewrite GET_CLEAR_PUT_same; exact Wh. }
  assert (Rx4 : GET st1 (x + 4) = 0).
  { unfold st1. rewrite GET_CLEAR_PUT_same. apply wrap32_0. }
  assert (Rh4 : GET st1 (h + 4) = x).
  { unfold st1. node_cmp HN Hx Hh'; [congruence| |];
      rewrite GET_CLEAR_PUT_other by lia; rewrite GET_CLEAR_PUT_same; exact Wx. }
  assert (Hl : forall i, FREE_SEG_LISTS st1 i = FREE_SEG_LISTS st i) by reflexivity.
  pose proof (node_nonnull _ _ _ HN Hx) as Hx0.
  links_unfold. clearbody st1.
  constructor; links_unfold; rewrite ?GET_set_list.
  - intros y t [Hy|[-> ->]] Hne; rewrite ?GET_set_list in *.
    + rewrite (Rp y t Hy) in *.
      destruct (Kp y t Hy Hne) as (s' & Hp & Hsp & Hb).
      exists s'. split; [left; exact Hp|split; [|exact Hb]].
      assert (Hph : GET st y <> h).
      { intros E. rewrite E in Hsp. assert (Hy' : with_node N x s y t) by (left; exact Hy).
        pose proof (node_nonnull _ _ _ HN Hy'). congruence. }
      rewrite (Rs _ _ Hp Hph). exact Hsp.
    + rewrite Rx. exists sh. split; [exact Hh'|split; [exact Rh4|exact Hhb]].
  - intros y t [Hy|[-> ->]] Hne; rewrite ?GET_set_list in *; [|congruence].
    destruct (Z.eq_dec y h) as [->|Hyh].
    + rewrite Rh4. exists s. split; [exact Hx|exact Rx].
    + rewrite (Rs y t Hy Hyh) in *.
      destruct (Ks y t Hy Hne) as (s' & Hp & Hsp).
      exists s'. split; [left; exact Hp|].
      rewrite (Rp _ _ Hp). exact Hsp.
  - intros i Hi Hne. rewrite lists_set_list in *. rewrite ?GET_set_list.
    destruct (Z.eqb_spec i (bucket s)) as [->|Hib].
    + exists s. split; [exact Hx|split; [exact Rx4|reflexivity]].
    + rewrite Hl in *.
      destruct (Kh i Hi Hne) as (s' & Hp & Hs0 & Hb).
      exists s'. split; [left; exact Hp|split; [|exact Hb]].
      assert (Hne' : FREE_SEG_LISTS st i <> h).
      { intros E. rewrite E in Hp.
        pose proof (node_size_unique _ _ _ _ HN Hh' (or_introl Hp)). congruence. }
      rewrite (Rs _ _ Hp Hne'). exact Hs0.
  - intros y t [Hy|[-> ->]] Hs0; rewrite lists_set_list; rewrite GET_set_list in Hs0.
    + destruct (Z.eq_dec y h) as [->|Hyh]; [rewrite Rh4 in Hs0; congruence|].
      rewrite (Rs y t Hy Hyh) in Hs0. rewrite Hl. pose proof (Kl y t Hy Hs0) as Hhy.
      destruct (Z.eqb_spec (bucket t) (bucket s)) as [Eb|Hb]; [|exact Hhy].
      rewrite Eb in Hhy. fold h in Hhy. congruence.
    + rewrite Z.eqb_refl. reflexivity.
Qed.

Lemma links_insert fuel st N x s st' :
  links st N -> nodes_ok (with_node N x s) -> (forall t, ~ N x t) ->
  (forall h sh, N h sh -> GET_SIZE st (HEAD h) = sh) ->
  insert_node fuel st x s = Some st' ->
  links st' (with_node N x s).
Proof.
  intros HL HN Hnx Hsz H.
  assert (HN0 : nodes_ok N).
  { destruct HN as [A B C]. constructor; intros; eauto; (eapply A || eapply B || eapply C);
      left; eassumption. }
  assert (Hs : 0 <= s < 2 ^ 32).
  { pose proof (nd_size _ HN x s (or_intror (conj eq_refl eq_refl))).
    change (2 ^ 31) with 2147483648 in *. change (2 ^ 32) with 4294967296. lia. }
  rewrite (insert_node_eq fuel st N x s st' HL HN0 Hs Hsz H).
  destruct (Z.eqb_spec (FREE_SEG_LISTS st (bucket s)) NULL) as [E|E].
  - apply links_insert_empty; assumption.
  - apply links_insert_head; assumption.
Qed.

(** ** List operations on a heap *)

Lemma links_ext st N N' :
  (forall x s, N x s <-> N' x s) -> links st N -> links st N'.
Proof.
  intros E [Kp Ks Kh Kl]. constructor.
  - intros x s Hx Hne. apply E in Hx. destruct (Kp x s Hx Hne) as (s' & H1 & H2).
    exists s'. split; [apply E; exact H1|exact H2].
  - intros x s Hx Hne. apply E in Hx. destruct (Ks x s Hx Hne) as (s' & H1 & H2).
    exists s'. split; [apply E; exact H1|exact H2].
  - intros i Hi Hne. destruct (Kh i Hi Hne) as (s' & H1 & H2).
    exists s'. split; [apply E; exact H1|exact H2].
  - intros x s Hx. apply E in Hx. apply Kl. exact Hx.
Qed.

Lemma heap_with_ext st bl N N' :
  (forall x s, N x s <-> N' x s) -> heap_with st bl N -> heap_with st bl N'.
Proof.
  intros E (HL & HK & HN). split; [exact HL|]. split.
  - eapply links_ext; eauto.
  - intros x s Hx. apply HN. apply E. exact Hx.
Qed.

(** Links only depend on the link words of the nodes and on the heads. *)
Lemma links_agree st st' N :
  (forall x s, N x s -> GET st' x = GET st x /\ GET st' (x + 4) = GET st (x + 4)) ->
  (forall i, FREE_SEG_LISTS st' i = FREE_SEG_LISTS st i) ->
  links st N -> links st' N.
Proof.
  intros Hag Hl [Kp Ks Kh Kl]. constructor; links_unfold.
  - intros x s Hx Hne. destruct (Hag x s Hx) as [E1 E2]. rewrite E1 in *.
    destruct (Kp x s Hx Hne) as (s' & H1 & H2 & H3).
    exists s'. destruct (Hag _ _ H1) as [_ E4]. rewrite E4. auto.
  - intros x s Hx Hne. destruct (Hag x s Hx) as [E1 E2]. rewrite E2 in *.
    destruct (Ks x s Hx Hne) as (s' & H1 & H2).
    exists s'. destruct (Hag _ _ H1) as [E3 _]. rewrite E3. auto.
  - intros i Hi Hne. rewrite Hl in *.
    destruct (Kh i Hi Hne) as (s' & H1 & H2 & H3).
    exists s'. destruct (Hag _ _ H1) as [_ E4]. rewrite E4. auto.
  - intros x s Hx Hs0. destruct (Hag x s Hx) as [E1 E2]. rewrite E2 in Hs0.
    rewrite Hl. eauto.
Qed.

Lemma block_header_fields st b :
  block_ok st b ->
  GET_SIZE st (HEAD (b_ptr b)) = b_size b /\
  GET_ALLOC st (HEAD (b_ptr b)) = b_alloc b /\
  GET_TAG st (HEAD (b_ptr b)) = b_tag b.
Proof.
  intros (Hs & Hm & Ha & Ht & Hh & _). unfold GET_SIZE, GET_ALLOC, GET_TAG.
  rewrite Hh. unfold header.
  split; [apply size_of_word|split; [apply alloc_of_word|apply tag_of_word]]; assumption.
Qed.

Lemma heap_block st bl b :
  heap_layout st bl -> In b bl -> block_ok st b.
Proof. intros HL Hb. eapply layout_block; [apply (hl_blocks st bl HL)|exact Hb]. Qed.

Lemma heap_node_size st bl N x s :
  heap_with st bl N -> N x s -> GET_SIZE st (HEAD x) = s.
Proof.
  intros (HL & _ & HN) Hx. apply HN in Hx as [t Hx].
  apply (heap_block _ _ _ HL) in Hx. apply block_header_fields in Hx as [E _]. exact E.
Qed.

Lemma heap_with_nodes_ok st bl N : heap_with st bl N -> nodes_ok N.
Proof. intros (HL & _ & HN). eapply heap_nodes_ok; eauto. Qed.

(** A link word of a free block lies in its payload. *)
Lemma heap_layout_write_link st bl x s c v :
  heap_layout st bl -> free_in bl x s -> c = x \/ c = x + 4 ->
  heap_layout (CLEAR_PUT st c v) bl.
Proof.
  intros HL [t Hx] Hc. pose proof (heap_block _ _ _ HL Hx) as (Hs & _).
  eapply heap_layout_write_payload; [exact HL|exact Hx| |];
    cbn [b_ptr b_size] in *; unfold DSIZE; lia.
Qed.

Lemma remove_node_heap st bl N x s :
  heap_with st bl N -> N x s ->
  heap_with (remove_node st x) bl (without N x).
Proof.
  intros HW Hx. pose proof (heap_with_nodes_ok _ _ _ HW) as HNok.
  pose proof (heap_node_size _ _ _ _ _ HW Hx) as Hsz.
  destruct HW as (HL & HK & HN).
  split; [|split].
  - rewrite (remove_node_eq st N x s HK HNok Hx Hsz).
    destruct (Z.eqb_spec (PRECEDE st x) NULL) as [HP|HP];
      destruct (Z.eqb_spec (SUCCEED st x) NULL) as [HS|HS].
    + apply heap_layout_set_list. exact HL.
    + destruct (lk_succeed st N HK x s Hx HS) as (sS & HNS & _).
      eapply heap_layout_write_link; [exact HL|apply HN; exact HNS|auto].
    + destruct (lk_precede st N HK x s Hx HP) as (sP & HNP & _).
      apply heap_layout_set_list.
      eapply heap_layout_write_link; [exact HL|apply HN; exact HNP|auto].
    + destruct (lk_precede st N HK x s Hx HP) as (sP & HNP & _).
      destruct (lk_succeed st N HK x s Hx HS) as (sS & HNS & _).
      eapply heap_layout_write_link; [|apply HN; exact HNS|auto].
      eapply heap_layout_write_link; [exact HL|apply HN; exact HNP|auto].
  - apply (links_remove st N x s); assumption.
  - intros y t [Hy _]. apply HN. exact Hy.
Qed.

Lemma insert_node_heap fuel st bl N x s st' :
  heap_with st bl N -> free_in bl x s -> (forall t, ~ N x t) ->
  insert_node fuel st x s = Some st' ->
  heap_with st' bl (with_node N x s).
Proof.
  intros HW Hx Hnx H. pose proof (heap_with_nodes_ok _ _ _ HW) as HNok.
  pose proof (fun h sh => heap_node_size st bl N h sh HW) as Hsz.
  destruct HW as (HL & HK & HN).
  assert (HN' : forall y t, with_node N x s y t -> free_in bl y t).
  { intros y t [Hy|[-> ->]]; [apply HN; exact Hy|exact Hx]. }
  pose proof (heap_nodes_ok _ _ _ HL HN') as HNok'.
  assert (Hs : 0 <= s < 2 ^ 32).
  { pose proof (nd_size _ HNok' x s (or_intror (conj eq_refl eq_refl))).
    change (2 ^ 31) with 2147483648 in *. change (2 ^ 32) with 4294967296. lia. }
  split; [|split].
  - rewrite (insert_node_eq fuel st N x s st' HK HNok Hs Hsz H).
    destruct (Z.eqb_spec (FREE_SEG_LISTS st (bucket s)) NULL) as [E|E];
      apply heap_layout_set_list.
    + eapply heap_layout_write_link; [|exact Hx|auto].
      eapply heap_layout_write_link; [exact HL|exact Hx|auto].
    + destruct (lk_head st N HK (bucket s) (bucket_range s ltac:(lia)) E) as (sh & Hh & _).
      eapply heap_layout_write_link; [|exact Hx|auto].
      eapply heap_layout_write_link; [|apply HN; exact Hh|auto].
      eapply heap_layout_write_link; [exact HL|exact Hx|auto].
  - eapply links_insert; eauto.
  - exact HN'.
Qed.

(** With one unit of fuel the scan of [insert_node] already answers. *)
Lemma insert_scan_head fuel st N s :
  links st N -> nodes_ok N -> 0 <= s < 2 ^ 32 ->
  (forall h sh, N h sh -> GET_SIZE st (HEAD h) = sh) ->
  insert_scan (S fuel) st (snd (select_list 19 0 s)) (FREE_SEG_LISTS st (bucket s)) NULL =
  Some (FREE_SEG_LISTS st (bucket s), NULL).
Proof.
  intros HL HN Hs Hsz. cbn [insert_scan].
  destruct (Z.eqb_spec (FREE_SEG_LISTS st (bucket s)) NULL) as [E|E]; cbn [negb andb].
  - reflexivity.
  - destruct (lk_head st N HL (bucket s) (bucket_range s ltac:(lia)) E) as (sh & Hh & _ & Hb).
    rewrite (Hsz _ _ Hh).
    pose proof (nd_size N HN _ _ Hh) as Hsh.
    pose proof (shifted_size_small s sh Hs ltac:(lia) Hb) as Hle.
    destruct (Z.gtb_spec (snd (select_list 19 0 s)) sh); [lia|]. reflexivity.
Qed.

Lemma insert_node_total fuel st bl N x s :
  (0 < fuel)%nat -> heap_with st bl N -> free_in bl x s ->
  exists st', insert_node fuel st x s = Some st'.
Proof.
  intros Hf HW Hx. pose proof (heap_with_nodes_ok _ _ _ HW) as HNok.
  pose proof (fun h sh => heap_node_size st bl N h sh HW) as Hsz.
  destruct HW as (HL & HK & HN).
  assert (Hs : 0 <= s < 2 ^ 32).
  { pose proof (nd_size _ (heap_nodes_ok _ _ _ HL (fun y t H => H)) x s Hx).
    change (2 ^ 31) with 2147483648 in *. change (2 ^ 32) with 4294967296. lia. }
  destruct fuel as [|fuel]; [lia|].
  pose proof (insert_scan_head fuel st N s HK HNok Hs Hsz) as Hscan.
  unfold insert_node. unfold bucket in Hscan.
  destruct (select_list 19 0 s) as [l z]. cbn [fst snd] in Hscan.
  rewrite Hscan. eexists. reflexivity.
Qed.

(** ** Rewriting boundary tags *)

Lemma GET_PUT_same st p s a :
  s mod 8 = 0 -> flag a -> 0 <= s < 2 ^ 31 ->
  GET (PUT st p (PACK s a)) p = s + a + GET_TAG st p.
Proof.
  intros Hm Ha Hs. rewrite PUT_eq, GET_CLEAR_PUT_same.
  pose proof (tag_of_bit (GET st p)) as Ht. unfold GET_TAG.
  rewrite PACK_word by assumption. apply wrap32_small.
  change (2 ^ 31) with 2147483648 in *. change (2 ^ 32) with 4294967296.
  destruct Ha, Ht; lia.
Qed.

Lemma GET_PUT_other st p v q :
  p + 4 <= q \/ q + 4 <= p -> GET (PUT st p v) q = GET st q.
Proof. intros H. rewrite PUT_eq. apply GET_CLEAR_PUT_other. exact H. Qed.

Lemma GET_CLEAR_PUT_PACK st p s a :
  s mod 8 = 0 -> flag a -> 0 <= s < 2 ^ 31 ->
  GET (CLEAR_PUT st p (PACK s a)) p = s + a + 0.
Proof.
  intros Hm Ha Hs. rewrite GET_CLEAR_PUT_same.
  rewrite <- (PACK_word s a 0) by (auto; left; reflexivity).
  rewrite Z.lor_0_r. apply wrap32_small.
  replace (PACK s a) with (s + a + 0)
    by (rewrite <- (PACK_word s a 0) by (auto; left; reflexivity); rewrite Z.lor_0_r; reflexivity).
  change (2 ^ 31) with 2147483648 in *. change (2 ^ 32) with 4294967296.
  destruct Ha; lia.
Qed.

(** A footer word written by [PUT] or [CLEAR_PUT]: size and allocation
    bit are as packed, whatever the other bits. *)
Lemma footer_fields s a t :
  s mod 8 = 0 -> flag a -> tagbit t ->
  size_of (s + a + t) = s /\ alloc_of (s + a + t) = a.
Proof.
  intros. split; [apply size_of_word|apply alloc_of_word]; assumption.
Qed.

(** ** Changing a stretch of the heap

    The blocks [mid] between addresses [a] and [e] are replaced by [mid'];
    the state changes only in the boundary tags of that stretch. *)
Lemma heap_layout_change st st' l1 mid mid' l2 a e :
  heap_layout st (l1 ++ mid ++ l2) ->
  layout st (first_block st) l1 a -> a <= e -> layout st e l2 (mem_brk st) ->
  prologue_block st' = prologue_block st -> mem_brk st' = mem_brk st ->
  mem_max_addr st' = mem_max_addr st ->
  (forall c, c + 4 <= a - 4 \/ e - 4 <= c -> GET st' c = GET st c) ->
  layout st' a mid' e ->
  heap_layout st' (l1 ++ mid' ++ l2).
Proof.
  intros HL L1 Hae L2 Ep Eb Em Hag Lm.
  destruct HL as [H1 H2 H3 H4 H5 H6 H7 H8].
  pose proof (layout_bounds _ _ _ _ L1) as [Hle1 Hin1].
  pose proof (layout_bounds _ _ _ _ L2) as [Hle2 Hin2].
  unfold first_block, HEAD, WSIZE, DSIZE, GET_SIZE, GET_ALLOC in *.
  constructor; unfold first_block, HEAD, WSIZE, DSIZE, GET_SIZE, GET_ALLOC;
    rewrite ?Ep, ?Eb, ?Em; try assumption.
  - rewrite Hag by lia. assumption.
  - rewrite Hag by lia. assumption.
  - apply layout_app. exists a. split; [|apply layout_app; exists e; split; [exact Lm|]].
    + apply layout_agree with (st := st); [|exact L1].
      intros b Hb. pose proof (layout_block _ _ _ _ _ L1 Hb) as (Hs & _).
      apply Hin1 in Hb. unfold HEAD, WSIZE, DSIZE. split; apply Hag; lia.
    + apply layout_agree with (st := st); [|exact L2].
      intros b Hb. pose proof (layout_block _ _ _ _ _ L2 Hb) as (Hs & _).
      apply Hin2 in Hb. unfold HEAD, WSIZE, DSIZE. split; apply Hag; lia.
  - rewrite Hag by lia. assumption.
  - rewrite Hag by lia. assumption.
Qed.

(** The same when no node of [N] lies in the stretch. *)
Lemma heap_with_change st st' l1 mid mid' l2 N a e :
  heap_with st (l1 ++ mid ++ l2) N ->
  layout st (first_block st) l1 a -> a <= e -> layout st e l2 (mem_brk st) ->
  prologue_block st' = prologue_block st -> mem_brk st' = mem_brk st ->
  mem_max_addr st' = mem_max_addr st ->
  (forall i, FREE_SEG_LISTS st' i = FREE_SEG_LISTS st i) ->
  (forall c, c + 4 <= a - 4 \/ e - 4 <= c -> GET st' c = GET st c) ->
  layout st' a mid' e ->
  (forall x s, N x s -> free_in (l1 ++ l2) x s) ->
  heap_with st' (l1 ++ mid' ++ l2) N.
Proof.
  intros (HL & HK & HN) L1 Hae L2 Ep Eb Em El Hag Lm HN'.
  pose proof (layout_bounds _ _ _ _ L1) as [Hle1 Hin1].
  pose proof (layout_bounds _ _ _ _ L2) as [Hle2 Hin2].
  split; [|split].
  - eapply heap_layout_change; eauto.
  - apply links_agree with (st := st); [|exact El|exact HK].
    intros x s Hx. apply HN' in Hx as [t Hx]. apply in_app_or in Hx as [Hx|Hx].
    + pose proof (layout_block _ _ _ _ _ L1 Hx) as (Hs & _).
      apply Hin1 in Hx. cbn [b_ptr b_size] in *. split; apply Hag; lia.
    + pose proof (layout_block _ _ _ _ _ L2 Hx) as (Hs & _).
      apply Hin2 in Hx. cbn [b_ptr b_size] in *. split; apply Hag; lia.
  - intros x s Hx. apply HN' in Hx as [t Hx]. exists t.
    apply in_app_or in Hx as [Hx|Hx]; apply in_or_app; [left; exact Hx|].
    right. apply in_or_app. right. exact Hx.
Qed.

(** Splitting the layout of a heap around one block. *)
Lemma heap_layout_split st l1 b l2 :
  heap_layout st (l1 ++ b :: l2) ->
  layout st (first_block st) l1 (b_ptr b) /\ block_ok st b /\
  layout st (b_ptr b + b_size b) l2 (mem_brk st).
Proof.
  intros HL. pose proof (hl_blocks _ _ HL) as H.
  apply layout_app in H as (m & L1 & L2). cbn [layout] in L2.
  destruct L2 as (Hp & Hb & L2). subst m. auto.
Qed.

(** ** Free blocks of a sequence *)

Lemma free_in_app l l' x s : free_in (l ++ l') x s <-> free_in l x s \/ free_in l' x s.
Proof.
  unfold free_in. split.
  - intros [t H]. apply in_app_or in H as [H|H]; [left|right]; exists t; exact H.
  - intros [[t H]|[t H]]; exists t; apply in_or_app; auto.
Qed.

Lemma free_in_cons b l x s :
  free_in (b :: l) x s <->
  (b_ptr b = x /\ b_size b = s /\ b_alloc b = 0) \/ free_in l x s.
Proof.
  unfold free_in. split.
  - intros [t [H|H]]; [left; subst b; auto|right; exists t; exact H].
  - intros [(E1 & E2 & E3)|[t H]].
    + exists (b_tag b). left. destruct b; cbn in *; subst; reflexivity.
    + exists t. right. exact H.
Qed.

Lemma free_in_nil x s : ~ free_in [] x s.
Proof. intros [t []]. Qed.

(** The blocks before a stretch end below it, those after start above. *)
Lemma layout_before st l a e x s : layout st a l e -> free_in l x s -> a <= x /\ x + s <= e /\ 16 <= s.
Proof.
  intros L [t H]. pose proof (layout_block _ _ _ _ _ L H) as (Hs & _).
  apply (proj2 (layout_bounds _ _ _ _ L)) in H. cbn [b_ptr b_size] in *. lia.
Qed.

Lemma list_last_cases {A} (l : list A) : l = [] \/ exists l0 b, l = l0 ++ [b].
Proof.
  destruct l as [|a l]; [left; reflexivity|right].
  destruct (exists_last (l := a :: l) ltac:(discriminate)) as (l0 & b & E). eauto.
Qed.

(** ** Bits of a retagged word *)

Lemma unset_tag_word s a t :
  s mod 8 = 0 -> flag a -> tagbit t -> Z.land (s + a + t) (Z.lnot 2) = s + a + 0.
Proof.
  intros Hs Ha Ht. rewrite <- !PACK_word by (auto; left; reflexivity).
  unfold PACK. rewrite !Z.land_lor_distr_l.
  assert (E1 : Z.land s (Z.lnot 2) = s).
  { pose proof (size_of_eq s) as E. unfold size_of in E. rewrite Hs, Z.sub_0_r in E.
    rewrite <- E at 1. rewrite <- Z.land_assoc. exact E. }
  assert (E2 : Z.land a (Z.lnot 2) = a) by (destruct Ha; subst; reflexivity).
  assert (E3 : Z.land t (Z.lnot 2) = 0) by (destruct Ht; subst; reflexivity).
  rewrite E1, E2, E3. reflexivity.
Qed.

Lemma set_tag_word s a t :
  s mod 8 = 0 -> flag a -> tagbit t -> Z.lor (s + a + t) 2 = s + a + 2.
Proof.
  intros Hs Ha Ht. rewrite <- !PACK_word by (auto; right; reflexivity).
  rewrite <- Z.lor_assoc. destruct Ht; subst; reflexivity.
Qed.

Lemma unset_tag_fields w :
  size_of (Z.land w (Z.lnot 2)) = size_of w /\ alloc_of (Z.land w (Z.lnot 2)) = alloc_of w.
Proof.
  unfold size_of, alloc_of. rewrite <- !Z.land_assoc. split; reflexivity.
Qed.

Lemma set_tag_fields w :
  size_of (Z.lor w 2) = size_of w /\ alloc_of (Z.lor w 2) = alloc_of w.
Proof.
  unfold size_of, alloc_of. rewrite !Z.land_lor_distr_l.
  change (Z.land 2 (Z.lnot 7)) with 0. change (Z.land 2 1) with 0.
  rewrite !Z.lor_0_r. split; reflexivity.
Qed.

(** ** The first steps of [mm_free] *)

Lemma layout_single st a b e :
  layout st a [b] e <-> b_ptr b = a /\ block_ok st b /\ a + b_size b = e.
Proof. cbn [layout]. tauto. Qed.

(** Rewriting the header of one block with another tag. *)
Lemma retag_heap st l1 b l2 N t' :
  heap_with st (l1 ++ b :: l2) N -> tagbit t' ->
  heap_with (CLEAR_PUT st (HEAD (b_ptr b)) (b_size b + b_alloc b + t'))
            (l1 ++ mkBlock (b_ptr b) (b_size b) (b_alloc b) t' :: l2) N.
Proof.
  intros (HL & HK & HN) Ht'.
  destruct (heap_layout_split _ _ _ _ HL) as (L1 & Hb & L2).
  pose proof Hb as (Hs & Hm & Ha & Ht & Hh & Hf1 & Hf2).
  pose proof (layout_bounds _ _ _ _ L2) as [Hle2 _].
  assert (Hmax : b_ptr b + b_size b < 2 ^ 31)
    by (pose proof (hl_brk _ _ HL); pose proof (hl_max _ _ HL); lia).
  pose proof (layout_bounds _ _ _ _ L1) as [Hle1 _].
  pose proof (hl_low _ _ HL) as Hlow. unfold first_block, DSIZE in *.
  set (st' := CLEAR_PUT st (HEAD (b_ptr b)) (b_size b + b_alloc b + t')).
  assert (Hag : forall c, c + 4 <= b_ptr b - 4 \/ b_ptr b <= c -> GET st' c = GET st c).
  { intros c Hc. unfold st', HEAD, WSIZE. apply GET_CLEAR_PUT_other. lia. }
  split; [|split].
  - change (l1 ++ mkBlock (b_ptr b) (b_size b) (b_alloc b) t' :: l2)
      with (l1 ++ [mkBlock (b_ptr b) (b_size b) (b_alloc b) t'] ++ l2).
    eapply heap_layout_change with (st := st) (mid := [b]);
      [exact HL|exact L1| |exact L2|reflexivity|reflexivity|reflexivity| |].
    + lia.
    + intros c Hc. apply Hag. lia.
    + apply layout_single. cbn [b_ptr b_size]. split; [reflexivity|split; [|reflexivity]].
      unfold block_ok, header. cbn [b_ptr b_size b_alloc b_tag].
      repeat split; try assumption.
      * unfold st'. rewrite GET_CLEAR_PUT_same. apply wrap32_small.
        change (2 ^ 31) with 2147483648 in *. change (2 ^ 32) with 4294967296.
        destruct Ha, Ht'; lia.
      * rewrite Hag by (unfold DSIZE; lia). exact Hf1.
      * rewrite Hag by (unfold DSIZE; lia). exact Hf2.
  - apply links_agree with (st := st); [|reflexivity|exact HK].
    intros x s Hx. apply HN in Hx. apply free_in_app in Hx as [Hx|Hx].
    + apply (layout_before _ _ _ _ _ _ L1) in Hx. split; apply Hag; lia.
    + apply free_in_cons in Hx as [(E1 & E2 & E3)|Hx].
      * split; apply Hag; lia.
      * apply (layout_before _ _ _ _ _ _ L2) in Hx. split; apply Hag; lia.
  - intros x s Hx. apply HN in Hx. apply free_in_app in Hx as [Hx|Hx];
      apply free_in_app; [left; exact Hx|right].
    apply free_in_cons in Hx as [Hx|Hx]; apply free_in_cons; [left; exact Hx|right; exact Hx].
Qed.

(** Setting or clearing the tag bit of the epilogue header. *)
Lemma epilogue_word_heap st bl N w :
  heap_with st bl N -> size_of w = 0 -> alloc_of w = 1 -> 0 <= w < 2 ^ 32 ->
  heap_with (CLEAR_PUT st (HEAD (mem_brk st)) w) bl N.
Proof.
  intros (HL & HK & HN) Hw1 Hw2 Hw.
  pose proof (hl_blocks _ _ HL) as L.
  split; [|split; [|exact HN]].
  - destruct HL as [H1 H2 H3 H4 H5 H6 H7 H8].
    pose proof (layout_bounds _ _ _ _ H4) as [Hle Hin].
    unfold first_block, HEAD, WSIZE, DSIZE, GET_SIZE, GET_ALLOC in *.
    constructor; unfold first_block, HEAD, WSIZE, DSIZE, GET_SIZE, GET_ALLOC;
      cbn [prologue_block mem_brk mem_max_addr CLEAR_PUT with_mem]; try assumption.
    + rewrite GET_CLEAR_PUT_other by lia. assumption.
    + rewrite GET_CLEAR_PUT_other by lia. assumption.
    + apply layout_agree with (st := st); [|exact H4].
      intros b Hb. pose proof (layout_block _ _ _ _ _ H4 Hb) as (Hs & _).
      apply Hin in Hb. unfold HEAD, WSIZE, DSIZE.
      split; apply GET_CLEAR_PUT_other; lia.
    + rewrite GET_CLEAR_PUT_same, wrap32_small by assumption. exact Hw1.
    + rewrite GET_CLEAR_PUT_same, wrap32_small by assumption. exact Hw2.
  - apply links_agree with (st := st); [|reflexivity|exact HK].
    intros x s Hx. apply HN in Hx. apply (layout_before _ _ _ _ _ _ L) in Hx.
    unfold HEAD, WSIZE. split; apply GET_CLEAR_PUT_other; lia.
Qed.

Lemma next_ptr st l1 b l2 :
  heap_layout st (l1 ++ b :: l2) -> NEXT st (b_ptr b) = b_ptr b + b_size b.
Proof.
  intros HL. destruct (heap_layout_split _ _ _ _ HL) as (_ & Hb & _).
  apply block_header_fields in Hb as [E _]. unfold NEXT. fold (HEAD (b_ptr b)).
  rewrite E. reflexivity.
Qed.

(** "Adjust the reallocation tag on the next block". *)
Lemma unset_tag_next_heap st l1 b l2 N :
  heap_with st (l1 ++ b :: l2) N ->
  heap_with (UNSET_TAG st (HEAD (NEXT st (b_ptr b)))) (l1 ++ b :: untag_head l2) N.
Proof.
  intros HW. pose proof HW as (HL & _).
  rewrite (next_ptr _ _ _ _ HL), UNSET_TAG_eq.
  destruct (heap_layout_split _ _ _ _ HL) as (_ & _ & L2).
  destruct l2 as [|n r]; cbn [untag_head].
  - cbn [layout] in L2. rewrite L2.
    apply epilogue_word_heap; [exact HW| | |].
    + rewrite (proj1 (unset_tag_fields _)). apply (hl_epilogue_size _ _ HL).
    + rewrite (proj2 (unset_tag_fields _)). apply (hl_epilogue_alloc _ _ HL).
    + pose proof (GET_range st (HEAD (mem_brk st))) as R.
      split; [apply Z.land_nonneg; lia|].
      assert (Z.land (GET st (HEAD (mem_brk st))) (Z.lnot 2) <= GET st (HEAD (mem_brk st))); [|lia].
      rewrite <- Z.sub_land_same_l.
      assert (0 <= Z.land (GET st (HEAD (mem_brk st))) 2) by (apply Z.land_nonneg; lia). lia.
  - cbn [layout] in L2. destruct L2 as (Hp & Hn & _). rewrite <- Hp.
    pose proof Hn as (Hs & Hm & Ha & Ht & Hh & _).
    rewrite Hh. unfold header. rewrite unset_tag_word by assumption.
    change (l1 ++ b :: n :: r) with (l1 ++ [b] ++ n :: r) in HW.
    rewrite app_assoc in HW.
    change (l1 ++ b :: untag n :: r) with (l1 ++ [b] ++ untag n :: r).
    rewrite app_assoc.
    apply (retag_heap st (l1 ++ [b]) n r N 0 HW). left. reflexivity.
Qed.

(** "Adjust the allocation status in boundary tags": the two [PUT]s of
    [mm_free] on an allocated block. *)
Lemma mark_free_heap st l1 b l2 N :
  heap_with st (l1 ++ b :: l2) N -> b_alloc b = 1 ->
  let st1 := PUT st (HEAD (b_ptr b)) (PACK (b_size b) 0) in
  heap_with (PUT st1 (FOOT st1 (b_ptr b)) (PACK (b_size b) 0)) (l1 ++ freed b :: l2) N.
Proof.
  intros HW Hal st1. pose proof HW as (HL & HK & HN).
  destruct (heap_layout_split _ _ _ _ HL) as (L1 & Hb & L2).
  pose proof Hb as (Hs & Hm & Ha & Ht & Hh & Hf1 & Hf2).
  pose proof (layout_bounds _ _ _ _ L2) as [Hle2 _].
  assert (Hmax : b_ptr b + b_size b < 2 ^ 31)
    by (pose proof (hl_brk _ _ HL); pose proof (hl_max _ _ HL); lia).
  pose proof (layout_bounds _ _ _ _ L1) as [Hle1 _].
  pose proof (hl_low _ _ HL) as Hlow. unfold first_block, DSIZE in *.
  assert (Hsz : 0 <= b_size b < 2 ^ 31) by lia.
  assert (H0 : flag 0) by (left; reflexivity).
  assert (R1 : GET st1 (HEAD (b_ptr b)) = b_size b + 0 + b_tag b).
  { unfold st1. rewrite GET_PUT_same by assumption.
    rewrite (proj2 (proj2 (block_header_fields _ _ Hb))). reflexivity. }
  assert (EF : FOOT st1 (b_ptr b) = b_ptr b + b_size b - 8).
  { unfold FOOT, GET_SIZE, DSIZE. rewrite R1. rewrite size_of_word by assumption. reflexivity. }
  rewrite EF.
  set (st2 := PUT st1 (b_ptr b + b_size b - 8) (PACK (b_size b) 0)).
  assert (Hag : forall c, c + 4 <= b_ptr b - 4 \/ b_ptr b + b_size b - 4 <= c ->
                          GET st2 c = GET st c).
  { intros c Hc. unfold st2, st1, HEAD, WSIZE. rewrite !GET_PUT_other by lia. reflexivity. }
  change (l1 ++ freed b :: l2) with (l1 ++ [freed b] ++ l2).
  eapply heap_with_change with (st := st) (mid := [b]);
    [exact HW|exact L1| |exact L2|reflexivity|reflexivity|reflexivity|reflexivity| | |].
  - lia.
  - exact Hag.
  - apply layout_single. cbn [freed b_ptr b_size]. split; [reflexivity|split; [|reflexivity]].
    unfold block_ok, header. cbn [freed b_ptr b_size b_alloc b_tag]. unfold DSIZE.
    split; [assumption|]. split; [assumption|]. split; [assumption|]. split; [assumption|].
    split; [|].
    + unfold st2. rewrite GET_PUT_other by (unfold HEAD, WSIZE; lia). exact R1.
    + unfold st2. rewrite GET_PUT_same by assumption.
      apply footer_fields; [assumption|assumption|apply tag_of_bit].
  - intros x s Hx. apply HN in Hx. apply free_in_app in Hx as [Hx|Hx];
      apply free_in_app; [left; exact Hx|].
    apply free_in_cons in Hx as [(_ & _ & E)|Hx]; [congruence|right; exact Hx].
Qed.

(** ** Neighbours of a block *)

Lemma prev_ptr_first st b l2 :
  heap_layout st (b :: l2) ->
  PREV st (b_ptr b) = prologue_block st /\
  GET_ALLOC st (HEAD (PREV st (b_ptr b))) = 1 /\ GET_TAG st (HEAD (PREV st (b_ptr b))) = 0.
Proof.
  intros HL. pose proof (hl_blocks _ _ HL) as L. cbn [layout] in L. destruct L as (Hp & _).
  assert (E : PREV st (b_ptr b) = prologue_block st).
  { unfold PREV, GET_SIZE. rewrite Hp. unfold first_block, DSIZE.
    replace (prologue_block st + 8 - 8) with (prologue_block st) by lia.
    rewrite (hl_prologue_footer _ _ HL). change (size_of 9) with 8. lia. }
  rewrite E. unfold GET_ALLOC, GET_TAG. rewrite (hl_prologue_header _ _ HL).
  repeat split.
Qed.

Lemma prev_ptr_block st l0 c b l2 :
  heap_layout st (l0 ++ c :: b :: l2) -> PREV st (b_ptr b) = b_ptr c.
Proof.
  intros HL. destruct (heap_layout_split _ _ _ _ HL) as (_ & Hc & L2).
  cbn [layout] in L2. destruct L2 as (Hp & _).
  destruct Hc as (_ & _ & _ & _ & _ & Hf & _).
  unfold PREV, GET_SIZE. rewrite Hp. unfold DSIZE in *.
  rewrite Hf. lia.
Qed.

Lemma next_header_last st l1 b :
  heap_layout st (l1 ++ [b]) ->
  NEXT st (b_ptr b) = mem_brk st /\ GET_ALLOC st (HEAD (NEXT st (b_ptr b))) = 1.
Proof.
  intros HL. rewrite (next_ptr _ _ _ _ HL).
  destruct (heap_layout_split _ _ _ _ HL) as (_ & _ & L2). cbn [layout] in L2.
  rewrite L2. split; [reflexivity|apply (hl_epilogue_alloc _ _ HL)].
Qed.

Lemma next_header_block st l1 b n l2 :
  heap_layout st (l1 ++ b :: n :: l2) ->
  NEXT st (b_ptr b) = b_ptr n /\ block_ok st n.
Proof.
  intros HL. rewrite (next_ptr _ _ _ _ HL).
  destruct (heap_layout_split _ _ _ _ HL) as (_ & _ & L2). cbn [layout] in L2.
  destruct L2 as (Hp & Hn & _). auto.
Qed.

(** The nodes left when the blocks of a stretch are taken out. *)
Lemma free_in_without_mid st a l1 mid l2 e x s :
  layout st a (l1 ++ mid ++ l2) e ->
  (free_in (l1 ++ mid ++ l2) x s /\ ~ (exists b, In b mid /\ b_ptr b = x)) <->
  free_in (l1 ++ l2) x s.
Proof.
  intros L. apply layout_app in L as (m1 & L1 & L). apply layout_app in L as (m2 & Lm & L2).
  split.
  - intros [H Hn]. apply free_in_app in H as [H|H]; apply free_in_app; [left; exact H|].
    apply free_in_app in H as [[t H]|H]; [|right; exact H].
    exfalso. apply Hn. exists (mkBlock x s 0 t). auto.
  - intros H. split.
    + apply free_in_app in H as [H|H]; apply free_in_app; [left; exact H|right].
      apply free_in_app. right. exact H.
    + intros (b & Hb & <-).
      pose proof (layout_block _ _ _ _ _ Lm Hb) as (Hs & _).
      apply (proj2 (layout_bounds _ _ _ _ Lm)) in Hb.
      apply free_in_app in H as [H|H].
      * apply (layout_before _ _ _ _ _ _ L1) in H. lia.
      * apply (layout_before _ _ _ _ _ _ L2) in H. lia.
Qed.

Lemma block_bounds st l1 b l2 :
  heap_layout st (l1 ++ b :: l2) ->
  24 <= b_ptr b /\ b_ptr b + b_size b <= mem_brk st /\ mem_brk st < 2 ^ 31 /\
  16 <= b_size b /\ b_size b mod 8 = 0.
Proof.
  intros HL. destruct (heap_layout_split _ _ _ _ HL) as (L1 & Hb & L2).
  pose proof (layout_bounds _ _ _ _ L1) as [H1 _].
  pose proof (layout_bounds _ _ _ _ L2) as [H2 _].
  pose proof (hl_low _ _ HL). pose proof (hl_brk _ _ HL). pose proof (hl_max _ _ HL).
  destruct Hb as (Hs & Hm & _). unfold first_block, DSIZE in *. lia.
Qed.

(** ** The branches of [merge] *)

(** Forward merge: the block [p], already unlinked, absorbs its free
    successor [n]. *)
Lemma merge_next_heap st l1 p n r :
  heap_with st (l1 ++ p :: n :: r) (without (free_in (l1 ++ p :: n :: r)) (b_ptr p)) ->
  b_alloc p = 0 -> b_alloc n = 0 ->
  heap_with (fst (fst (merge_next st (b_ptr p) (b_size p))))
            (l1 ++ joined p n :: r) (free_in (l1 ++ r)) /\
  snd (fst (merge_next st (b_ptr p) (b_size p))) = b_ptr p /\
  snd (merge_next st (b_ptr p) (b_size p)) = b_size p + b_size n.
Proof.
  intros HW Hp Hn. pose proof HW as (HL & HK & HN).
  destruct (next_header_block _ _ _ _ _ HL) as [En Hnok].
  pose proof (block_bounds _ _ _ _ HL) as (Bp1 & Bp2 & Bp3 & Bp4 & Bp5).
  assert (HL' : heap_layout st ((l1 ++ [p]) ++ n :: r))
    by (rewrite <- app_assoc; exact HL).
  pose proof (block_bounds _ _ _ _ HL') as (Bn1 & Bn2 & Bn3 & Bn4 & Bn5).
  destruct (heap_layout_split _ _ _ _ HL) as (L1 & Hpok & L2).
  cbn [layout] in L2. destruct L2 as (Hnp & _ & L2).
  unfold merge_next. cbv zeta. rewrite En.
  (* unlink the successor *)
  assert (Nn : without (free_in (l1 ++ p :: n :: r)) (b_ptr p) (b_ptr n) (b_size n)).
  { split; [|lia]. apply free_in_app. right. apply free_in_cons. right.
    apply free_in_cons. left. auto. }
  pose proof (remove_node_heap _ _ _ _ _ HW Nn) as HW1.
  generalize dependent (remove_node st (b_ptr n)). intros st1 HW1.
  pose proof HW1 as (HL1 & _).
  destruct (next_header_block _ _ _ _ _ HL1) as [En1 Hnok1].
  rewrite En1. rewrite (proj1 (block_header_fields _ _ Hnok1)).
  rewrite wrap32_small by (change (2 ^ 32) with 4294967296; change (2 ^ 31) with 2147483648 in *; lia).
  set (size := b_size p + b_size n).
  assert (Hsz : 0 <= size < 2 ^ 31) by (unfold size; lia).
  assert (Hsm : size mod 8 = 0).
  { unfold size. rewrite Z.add_mod, Bp5, Bn5 by lia. reflexivity. }
  assert (H0 : flag 0) by (left; reflexivity).
  destruct (heap_layout_split _ _ _ _ HL1) as (L1' & Hpok1 & L2').
  cbn [layout] in L2'. destruct L2' as (_ & Hnok1' & L2').
  set (st2 := PUT st1 (HEAD (b_ptr p)) (PACK size 0)).
  assert (R1 : GET st2 (HEAD (b_ptr p)) = size + 0 + b_tag p).
  { unfold st2. rewrite GET_PUT_same by assumption.
    rewrite (proj2 (proj2 (block_header_fields _ _ Hpok1))). reflexivity. }
  assert (Tp : tagbit (b_tag p)) by (destruct Hpok as (_ & _ & _ & T & _); exact T).
  assert (EF : FOOT st2 (b_ptr p) = b_ptr p + size - 8).
  { unfold FOOT, GET_SIZE, DSIZE. rewrite R1. rewrite size_of_word by assumption. reflexivity. }
  rewrite EF. set (st3 := PUT st2 (b_ptr p + size - 8) (PACK size 0)).
  cbn [fst snd]. split; [|split; reflexivity].
  assert (HWc : heap_with st3 (l1 ++ [joined p n] ++ r)
                          (without (without (free_in (l1 ++ p :: n :: r)) (b_ptr p)) (b_ptr n))).
  { change (l1 ++ p :: n :: r) with (l1 ++ [p; n] ++ r) in HW1.
    eapply heap_with_change with (st := st1) (mid := [p; n]) (a := b_ptr p)
                                 (e := b_ptr n + b_size n);
      [exact HW1|exact L1'| |rewrite Hnp; exact L2'
      |reflexivity|reflexivity|reflexivity|reflexivity| | |].
    - lia.
    - intros c Hc. unfold st3, st2, HEAD, WSIZE. unfold size.
      rewrite !GET_PUT_other by lia. reflexivity.
    - apply layout_single. cbn [joined b_ptr b_size]. fold size.
      split; [reflexivity|split; [|unfold size; lia]].
      unfold block_ok, header. cbn [joined b_ptr b_size b_alloc b_tag]. fold size.
      unfold DSIZE.
      split; [unfold size; lia|]. split; [assumption|]. split; [assumption|].
      split; [assumption|]. split.
      + unfold st3. rewrite GET_PUT_other by (unfold HEAD, WSIZE, size; lia). exact R1.
      + unfold st3. rewrite GET_PUT_same by assumption.
        apply footer_fields; [assumption|assumption|apply tag_of_bit].
    - intros x s [[Hx Hxp] Hxn].
      apply (free_in_without_mid st (first_block st) l1 [p; n] r (mem_brk st) x s
               (hl_blocks _ _ HL)).
      split; [exact Hx|]. intros (b & [<-|[<-|[]]] & E); auto using eq_sym. }
  eapply heap_with_ext; [|exact HWc].
  intros x s. rewrite <- (free_in_without_mid st (first_block st) l1 [p; n] r (mem_brk st) x s
                            (hl_blocks _ _ HL)).
  unfold without. split.
  - intros [[Hx Hxp] Hxn]. split; [exact Hx|].
    intros (b & [<-|[<-|[]]] & E); auto using eq_sym.
  - intros [Hx Hne]. repeat split; [exact Hx| |]; intros E; apply Hne;
      [exists p|exists n]; cbn [In]; auto.
Qed.

(** Backward merge: the block [p], already unlinked, is absorbed by its
    free predecessor [c]. *)
Lemma merge_prev_heap st l0 c p l2 :
  heap_with st (l0 ++ c :: p :: l2) (without (free_in (l0 ++ c :: p :: l2)) (b_ptr p)) ->
  b_alloc c = 0 -> b_alloc p = 0 ->
  heap_with (fst (fst (merge_prev st (b_ptr p) (b_size p))))
            (l0 ++ joined c p :: l2) (free_in (l0 ++ l2)) /\
  snd (fst (merge_prev st (b_ptr p) (b_size p))) = b_ptr c /\
  snd (merge_prev st (b_ptr p) (b_size p)) = b_size c + b_size p.
Proof.
  intros HW Hc Hp. pose proof HW as (HL & HK & HN).
  pose proof (prev_ptr_block _ _ _ _ _ HL) as Ec.
  pose proof (block_bounds _ _ _ _ HL) as (Bc1 & Bc2 & Bc3 & Bc4 & Bc5).
  assert (HL' : heap_layout st ((l0 ++ [c]) ++ p :: l2))
    by (rewrite <- app_assoc; exact HL).
  pose proof (block_bounds _ _ _ _ HL') as (Bp1 & Bp2 & Bp3 & Bp4 & Bp5).
  destruct (heap_layout_split _ _ _ _ HL) as (L1 & Hcok & L2).
  cbn [layout] in L2. destruct L2 as (Hpc & Hpok & L2).
  unfold merge_prev. cbv zeta. rewrite Ec.
  (* unlink the predecessor *)
  assert (Nc : without (free_in (l0 ++ c :: p :: l2)) (b_ptr p) (b_ptr c) (b_size c)).
  { split; [|lia]. apply free_in_app. right. apply free_in_cons. left. auto. }
  pose proof (remove_node_heap _ _ _ _ _ HW Nc) as HW1.
  generalize dependent (remove_node st (b_ptr c)). intros st1 HW1.
  pose proof HW1 as (HL1 & _).
  rewrite (prev_ptr_block _ _ _ _ _ HL1).
  destruct (heap_layout_split _ _ _ _ HL1) as (L1' & Hcok1 & L2').
  cbn [layout] in L2'. destruct L2' as (_ & Hpok1 & L2').
  rewrite (proj1 (block_header_fields _ _ Hcok1)).
  rewrite wrap32_small by (change (2 ^ 32) with 4294967296; change (2 ^ 31) with 2147483648 in *; lia).
  set (size := b_size p + b_size c).
  assert (Hsz : 0 <= size < 2 ^ 31) by (unfold size; lia).
  assert (Hsm : size mod 8 = 0).
  { unfold size. rewrite Z.add_mod, Bc5, Bp5 by lia. reflexivity. }
  assert (H0 : flag 0) by (left; reflexivity).
  assert (EF : FOOT st1 (b_ptr p) = b_ptr p + b_size p - 8).
  { unfold FOOT, DSIZE. rewrite (proj1 (block_header_fields _ _ Hpok1)). reflexivity. }
  rewrite EF. set (st2 := PUT st1 (b_ptr p + b_size p - 8) (PACK size 0)).
  assert (Fc : size_of (GET st1 (b_ptr p - 8)) = b_size c).
  { destruct Hcok1 as (_ & _ & _ & _ & _ & Hf & _). unfold DSIZE in Hf.
    replace (b_ptr p - 8) with (b_ptr c + b_size c - 8) by lia. exact Hf. }
  assert (EP2 : PREV st2 (b_ptr p) = b_ptr c).
  { unfold PREV, GET_SIZE, DSIZE, st2. rewrite GET_PUT_other by lia. rewrite Fc. lia. }
  rewrite EP2. set (st3 := PUT st2 (HEAD (b_ptr c)) (PACK size 0)).
  assert (EP3 : PREV st3 (b_ptr p) = b_ptr c).
  { unfold PREV, GET_SIZE, DSIZE, st3, st2, HEAD, WSIZE.
    rewrite !GET_PUT_other by lia. rewrite Fc. lia. }
  rewrite EP3. cbn [fst snd]. split; [|split; [reflexivity|unfold size; lia]].
  assert (Tc : tagbit (b_tag c)) by (destruct Hcok as (_ & _ & _ & T & _); exact T).
  assert (HWc : heap_with st3 (l0 ++ [joined c p] ++ l2)
                          (without (without (free_in (l0 ++ c :: p :: l2)) (b_ptr p)) (b_ptr c))).
  { change (l0 ++ c :: p :: l2) with (l0 ++ [c; p] ++ l2) in HW1.
    eapply heap_with_change with (st := st1) (mid := [c; p]) (a := b_ptr c)
                                 (e := b_ptr p + b_size p);
      [exact HW1|exact L1'| |rewrite Hpc; exact L2'
      |reflexivity|reflexivity|reflexivity|reflexivity| | |].
    - lia.
    - intros x Hx. unfold st3, st2, HEAD, WSIZE.
      rewrite !GET_PUT_other by lia. reflexivity.
    - apply layout_single. cbn [joined b_ptr b_size].
      split; [reflexivity|split; [|lia]].
      unfold block_ok, header. cbn [joined b_ptr b_size b_alloc b_tag].
      replace (b_size c + b_size p) with size by (unfold size; lia).
      unfold DSIZE.
      split; [unfold size; lia|]. split; [assumption|]. split; [assumption|].
      split; [assumption|]. split.
      + unfold st3. rewrite GET_PUT_same by assumption.
        unfold st2, GET_TAG. rewrite GET_PUT_other by (unfold HEAD, WSIZE; lia).
        fold (GET_TAG st1 (HEAD (b_ptr c))).
        rewrite (proj2 (proj2 (block_header_fields _ _ Hcok1))). reflexivity.
      + replace (b_ptr c + size - 8) with (b_ptr p + b_size p - 8) by (unfold size; lia).
        unfold st3. rewrite GET_PUT_other by (unfold HEAD, WSIZE; lia).
        unfold st2. rewrite GET_PUT_same by assumption.
        apply footer_fields; [assumption|assumption|apply tag_of_bit].
    - intros x s [[Hx Hxp] Hxn].
      apply (free_in_without_mid st (first_block st) l0 [c; p] l2 (mem_brk st) x s
               (hl_blocks _ _ HL)).
      split; [exact Hx|]. intros (b & [<-|[<-|[]]] & E); auto using eq_sym. }
  eapply heap_with_ext; [|exact HWc].
  intros x s. rewrite <- (free_in_without_mid st (first_block st) l0 [c; p] l2 (mem_brk st) x s
                            (hl_blocks _ _ HL)).
  unfold without. split.
  - intros [[Hx Hxp] Hxn]. split; [exact Hx|].
    intros (b & [<-|[<-|[]]] & E); auto using eq_sym.
  - intros [Hx Hne]. repeat split; [exact Hx| |]; intros E; apply Hne;
      [exists p|exists c]; cbn [In]; auto.
Qed.

(** Merge with both neighbours, each of them free. *)
Lemma merge_both_eq st l0 c p n r :
  heap_with st (l0 ++ c :: p :: n :: r)
            (without (free_in (l0 ++ c :: p :: n :: r)) (b_ptr p)) ->
  b_alloc c = 0 -> b_alloc p = 0 -> b_alloc n = 0 ->
  exists st2,
    heap_with st2 (l0 ++ c :: p :: n :: r)
      (without (without (without (free_in (l0 ++ c :: p :: n :: r)) (b_ptr p)) (b_ptr c))
               (b_ptr n)) /\
    merge_both st (b_ptr p) (b_size p) =
      (PUT (PUT st2 (HEAD (b_ptr c)) (PACK (b_size p + (b_size c + b_size n)) 0))
           (b_ptr n + b_size n - 8) (PACK (b_size p + (b_size c + b_size n)) 0),
       b_ptr c, b_size p + (b_size c + b_size n)).
Proof.
  intros HW Hc Hp Hn. pose proof HW as (HL & HK & HN).
  pose proof (prev_ptr_block _ _ _ _ _ HL) as Ec.
  pose proof (block_bounds _ _ _ _ HL) as (Bc1 & Bc2 & Bc3 & Bc4 & Bc5).
  assert (HL' : heap_layout st ((l0 ++ [c]) ++ p :: n :: r))
    by (rewrite <- app_assoc; exact HL).
  pose proof (block_bounds _ _ _ _ HL') as (Bp1 & Bp2 & Bp3 & Bp4 & Bp5).
  assert (HL'' : heap_layout st ((l0 ++ [c; p]) ++ n :: r))
    by (rewrite <- app_assoc; exact HL).
  pose proof (block_bounds _ _ _ _ HL'') as (Bn1 & Bn2 & Bn3 & Bn4 & Bn5).
  destruct (heap_layout_split _ _ _ _ HL) as (L1 & Hcok & L2).
  cbn [layout] in L2. destruct L2 as (Hpc & Hpok & Hnp & Hnok & L2).
  unfold merge_both. cbv zeta. rewrite Ec. clear Ec.
  (* unlink the predecessor *)
  assert (Nc : without (free_in (l0 ++ c :: p :: n :: r)) (b_ptr p) (b_ptr c) (b_size c)).
  { split; [|lia]. apply free_in_app. right. apply free_in_cons. left. auto. }
  pose proof (remove_node_heap _ _ _ _ _ HW Nc) as HW1.
  clear HW HL HL' HL'' HK HN L1 L2 Hcok Hpok Hnok Nc.
  generalize dependent (remove_node st (b_ptr c)). intros st1 HW1.
  pose proof HW1 as (HL1 & _).
  (* unlink the successor *)
  assert (HL1' : heap_layout st1 ((l0 ++ [c]) ++ p :: n :: r))
    by (rewrite <- app_assoc; exact HL1).
  destruct (next_header_block _ _ _ _ _ HL1') as [En1 _]. rewrite En1. clear En1.
  assert (Nn : without (without (free_in (l0 ++ c :: p :: n :: r)) (b_ptr p)) (b_ptr c)
                       (b_ptr n) (b_size n)).
  { split; [split|]; [|lia|lia]. apply free_in_app. right. apply free_in_cons. right.
    apply free_in_cons. right. apply free_in_cons. left. auto. }
  pose proof (remove_node_heap _ _ _ _ _ HW1 Nn) as HW2.
  clear HW1 HL1 HL1' Nn.
  generalize dependent (remove_node st1 (b_ptr n)). intros st2 HW2.
  exists st2. split; [exact HW2|].
  pose proof HW2 as (HL2 & _).
  assert (HL2' : heap_layout st2 ((l0 ++ [c]) ++ p :: n :: r))
    by (rewrite <- app_assoc; exact HL2).
  destruct (next_header_block _ _ _ _ _ HL2') as [En2 Hnok2].
  destruct (heap_layout_split _ _ _ _ HL2) as (L1' & Hcok2 & L2').
  cbn [layout] in L2'. destruct L2' as (_ & Hpok2 & _ & _ & L2').
  pose proof (proj1 (block_header_fields _ _ Hpok2)) as Gp.
  pose proof (proj1 (block_header_fields _ _ Hnok2)) as Gn.
  pose proof (proj1 (block_header_fields _ _ Hcok2)) as Gc.
  assert (Fc : size_of (GET st2 (b_ptr p - 8)) = b_size c).
  { destruct Hcok2 as (_ & _ & _ & _ & _ & Hf & _). unfold DSIZE in Hf.
    replace (b_ptr p - 8) with (b_ptr c + b_size c - 8) by lia. exact Hf. }
  rewrite En2, (prev_ptr_block _ _ _ _ _ HL2), Gc, Gn.
  rewrite (wrap32_small (b_size c + b_size n))
    by (change (2 ^ 32) with 4294967296; change (2 ^ 31) with 2147483648 in *; lia).
  rewrite wrap32_small
    by (change (2 ^ 32) with 4294967296; change (2 ^ 31) with 2147483648 in *; lia).
  unfold GET_SIZE, HEAD, WSIZE in Gp, Gn.
  generalize dependent (b_size p + (b_size c + b_size n)). intros size.
  assert (EN3 : NEXT (PUT st2 (HEAD (b_ptr c)) (PACK size 0)) (b_ptr p) = b_ptr n).
  { unfold NEXT, GET_SIZE, HEAD, WSIZE. rewrite GET_PUT_other by lia.
    rewrite Gp. lia. }
  rewrite EN3.
  assert (EF : FOOT (PUT st2 (HEAD (b_ptr c)) (PACK size 0)) (b_ptr n)
               = b_ptr n + b_size n - 8).
  { unfold FOOT, GET_SIZE, DSIZE, HEAD, WSIZE. rewrite GET_PUT_other by lia.
    rewrite Gn. reflexivity. }
  rewrite EF.
  assert (EP4 : PREV (PUT (PUT st2 (HEAD (b_ptr c)) (PACK size 0))
                          (b_ptr n + b_size n - 8) (PACK size 0)) (b_ptr p) = b_ptr c).
  { unfold PREV, GET_SIZE, DSIZE, HEAD, WSIZE.
    rewrite !GET_PUT_other by lia. rewrite Fc. lia. }
  rewrite EP4. reflexivity.
Qed.

Lemma merge_both_heap st l0 c p n r :
  heap_with st (l0 ++ c :: p :: n :: r)
            (without (free_in (l0 ++ c :: p :: n :: r)) (b_ptr p)) ->
  b_alloc c = 0 -> b_alloc p = 0 -> b_alloc n = 0 ->
  heap_with (fst (fst (merge_both st (b_ptr p) (b_size p))))
            (l0 ++ joined c (joined p n) :: r) (free_in (l0 ++ r)) /\
  snd (fst (merge_both st (b_ptr p) (b_size p))) = b_ptr c /\
  snd (merge_both st (b_ptr p) (b_size p)) = b_size c + (b_size p + b_size n).
Proof.
  intros HW Hc Hp Hn.
  destruct (merge_both_eq st l0 c p n r HW Hc Hp Hn) as (st2 & HW2 & Eq).
  rewrite Eq. clear Eq. cbn [fst snd]. split; [|split; [reflexivity|lia]].
  pose proof HW as (HL & _).
  pose proof (block_bounds _ _ _ _ HL) as (Bc1 & Bc2 & Bc3 & Bc4 & Bc5).
  assert (HL' : heap_layout st ((l0 ++ [c]) ++ p :: n :: r))
    by (rewrite <- app_assoc; exact HL).
  pose proof (block_bounds _ _ _ _ HL') as (Bp1 & Bp2 & Bp3 & Bp4 & Bp5).
  assert (HL'' : heap_layout st ((l0 ++ [c; p]) ++ n :: r))
    by (rewrite <- app_assoc; exact HL).
  pose proof (block_bounds _ _ _ _ HL'') as (Bn1 & Bn2 & Bn3 & Bn4 & Bn5).
  destruct (heap_layout_split _ _ _ _ HL) as (_ & Hcok & L2).
  cbn [layout] in L2. destruct L2 as (Hpc & _ & Hnp & _ & _).
  pose proof HW2 as (HL2 & _).
  destruct (heap_layout_split _ _ _ _ HL2) as (L1' & Hcok2 & L2').
  cbn [layout] in L2'. destruct L2' as (_ & Hpok2 & _ & Hnok2 & L2').
  set (size := b_size p + (b_size c + b_size n)).
  assert (Hsz : 0 <= size < 2 ^ 31) by (unfold size; lia).
  assert (Hsm : size mod 8 = 0).
  { unfold size. rewrite Z.add_mod, (Z.add_mod (b_size c)), Bc5, Bp5, Bn5 by lia. reflexivity. }
  clear Bc5 Bp5 Bn5.
  assert (H0 : flag 0) by (left; reflexivity).
  assert (Tc : tagbit (b_tag c)) by (destruct Hcok as (_ & _ & _ & T & _); exact T).
  set (st3 := PUT st2 (HEAD (b_ptr c)) (PACK size 0)).
  set (st4 := PUT st3 (b_ptr n + b_size n - 8) (PACK size 0)).
  assert (HWc : heap_with st4 (l0 ++ [joined c (joined p n)] ++ r)
                  (without (without (without (free_in (l0 ++ c :: p :: n :: r)) (b_ptr p))
                                    (b_ptr c)) (b_ptr n))).
  { change (l0 ++ c :: p :: n :: r) with (l0 ++ [c; p; n] ++ r) in HW2.
    eapply heap_with_change with (st := st2) (mid := [c; p; n]) (a := b_ptr c)
                                 (e := b_ptr n + b_size n);
      [exact HW2|exact L1'| |rewrite Hnp; exact L2'
      |reflexivity|reflexivity|reflexivity|reflexivity| | |].
    - lia.
    - intros x Hx. unfold st4, st3, HEAD, WSIZE.
      rewrite !GET_PUT_other by lia. reflexivity.
    - apply layout_single. cbn [joined b_ptr b_size].
      split; [reflexivity|split; [|lia]].
      unfold block_ok, header. cbn [joined b_ptr b_size b_alloc b_tag].
      replace (b_size c + (b_size p + b_size n)) with size by (unfold size; lia).
      unfold DSIZE.
      split; [unfold size; lia|]. split; [assumption|]. split; [assumption|].
      split; [assumption|]. split.
      + unfold st4. rewrite GET_PUT_other by (unfold HEAD, WSIZE; lia).
        unfold st3. rewrite GET_PUT_same by assumption.
        rewrite (proj2 (proj2 (block_header_fields _ _ Hcok2))). reflexivity.
      + replace (b_ptr c + size - 8) with (b_ptr n + b_size n - 8) by (unfold size; lia).
        unfold st4. rewrite GET_PUT_same by assumption.
        apply footer_fields; [assumption|assumption|apply tag_of_bit].
    - intros x s [[[Hx Hxp] Hxc] Hxn].
      apply (free_in_without_mid st (first_block st) l0 [c; p; n] r (mem_brk st) x s
               (hl_blocks _ _ HL)).
      split; [exact Hx|]. intros (b & [<-|[<-|[<-|[]]]] & E); auto using eq_sym. }
  eapply heap_with_ext; [|exact HWc].
  intros x s. rewrite <- (free_in_without_mid st (first_block st) l0 [c; p; n] r (mem_brk st) x s
                            (hl_blocks _ _ HL)).
  unfold without. split.
  - intros [[[Hx Hxp] Hxc] Hxn]. split; [exact Hx|].
    intros (b & [<-|[<-|[<-|[]]]] & E); auto using eq_sym.
  - intros [Hx Hne]. split; [split; [split; [exact Hx|]|]|]; intros E; apply Hne;
      [exists p|exists c|exists n]; (split; [cbn [In]; tauto|symmetry; exact E]).
Qed.

(** ** [merge] on a heap *)

(** Linking a free block that is the only one not yet on a list. *)
Lemma insert_mid_heap fuel st l1 b l2 st' :
  heap_with st (l1 ++ b :: l2) (free_in (l1 ++ l2)) -> b_alloc b = 0 ->
  insert_node fuel st (b_ptr b) (b_size b) = Some st' ->
  heap st' (l1 ++ b :: l2).
Proof.
  intros HW Hb H. pose proof HW as (HL & _).
  destruct (heap_layout_split _ _ _ _ HL) as (L1 & Hbok & L2).
  destruct Hbok as (Hs & _).
  assert (Hfree : free_in (l1 ++ b :: l2) (b_ptr b) (b_size b)).
  { apply free_in_app. right. apply free_in_cons. left. auto. }
  assert (Hfresh : forall t, ~ free_in (l1 ++ l2) (b_ptr b) t).
  { intros t Ht. apply free_in_app in Ht as [Ht|Ht].
    - apply (layout_before _ _ _ _ _ _ L1) in Ht. lia.
    - apply (layout_before _ _ _ _ _ _ L2) in Ht. lia. }
  pose proof (insert_node_heap fuel st _ _ _ _ st' HW Hfree Hfresh H) as HW'.
  eapply heap_with_ext; [|exact HW'].
  intros x s. unfold with_node. rewrite !free_in_app, free_in_cons. split.
  - intros [[Hx|Hx]|[-> ->]]; auto.
  - intros [Hx|[(E1 & E2 & _)|Hx]]; auto.
Qed.

(** Unlinking a free block of a well-formed heap. *)
Lemma remove_mid_heap st l1 b l2 :
  heap st (l1 ++ b :: l2) -> b_alloc b = 0 ->
  heap_with (remove_node st (b_ptr b)) (l1 ++ b :: l2)
            (without (free_in (l1 ++ b :: l2)) (b_ptr b)).
Proof.
  intros HW Hb. apply (remove_node_heap st _ _ (b_ptr b) (b_size b) HW).
  apply free_in_app. right. apply free_in_cons. left. auto.
Qed.

Lemma prev_mergeable_nil : prev_mergeable [] = false.
Proof. reflexivity. Qed.

Lemma prev_mergeable_snoc l0 c :
  prev_mergeable (l0 ++ [c]) = (b_alloc c =? 0) && (b_tag c =? 0).
Proof. unfold prev_mergeable. rewrite rev_unit. reflexivity. Qed.

Lemma merge_slips_snoc l0 c l2 :
  merge_slips (l0 ++ [c]) l2 = (b_alloc c =? 0) && negb (b_tag c =? 0) && negb (next_free l2).
Proof. unfold merge_slips. rewrite rev_unit. reflexivity. Qed.

Lemma merge_reads st l1 p l2 :
  heap_layout st (l1 ++ p :: l2) ->
  GET_ALLOC st (HEAD (PREV st (b_ptr p))) = prev_alloc_of l1 /\
  GET_TAG st (HEAD (PREV st (b_ptr p))) = prev_tag_of l1 /\
  GET_ALLOC st (HEAD (NEXT st (b_ptr p))) = next_alloc_of l2 /\
  GET_SIZE st (HEAD (b_ptr p)) = b_size p /\
  flag (prev_alloc_of l1) /\ tagbit (prev_tag_of l1) /\ flag (next_alloc_of l2).
Proof.
  intros HL. destruct (heap_layout_split _ _ _ _ HL) as (_ & Hp & _).
  assert (Prev : GET_ALLOC st (HEAD (PREV st (b_ptr p))) = prev_alloc_of l1 /\
                 GET_TAG st (HEAD (PREV st (b_ptr p))) = prev_tag_of l1 /\
                 flag (prev_alloc_of l1) /\ tagbit (prev_tag_of l1)).
  { destruct (list_last_cases l1) as [->|(l0 & c & ->)].
    - destruct (prev_ptr_first _ _ _ HL) as (_ & E1 & E2).
      unfold prev_alloc_of, prev_tag_of. cbn [rev].
      repeat split; [exact E1|exact E2|right; reflexivity|left; reflexivity].
    - rewrite <- app_assoc in HL. cbn [app] in HL.
      rewrite (prev_ptr_block _ _ _ _ _ HL).
      destruct (heap_layout_split _ _ _ _ HL) as (_ & Hc & _).
      destruct (block_header_fields _ _ Hc) as (_ & E1 & E2).
      unfold prev_alloc_of, prev_tag_of. rewrite rev_unit.
      destruct Hc as (_ & _ & Fa & Ft & _). auto. }
  assert (Next : GET_ALLOC st (HEAD (NEXT st (b_ptr p))) = next_alloc_of l2 /\
                 flag (next_alloc_of l2)).
  { destruct l2 as [|n r].
    - destruct (next_header_last _ _ _ HL) as [_ E]. split; [exact E|right; reflexivity].
    - destruct (next_header_block _ _ _ _ _ HL) as [E Hn]. rewrite E.
      destruct (block_header_fields _ _ Hn) as (_ & E1 & _).
      destruct Hn as (_ & _ & Fa & _). split; [exact E1|exact Fa]. }
  destruct Prev as (A & B & C & D), Next as (E & F).
  pose proof (proj1 (block_header_fields _ _ Hp)). auto 10.
Qed.

Lemma prev_alloc_free l1 :
  prev_alloc_of l1 = 0 ->
  exists l0 c, l1 = l0 ++ [c] /\ b_alloc c = 0 /\ b_tag c = prev_tag_of l1.
Proof.
  intros H. destruct (list_last_cases l1) as [->|(l0 & c & ->)]; [discriminate|].
  unfold prev_alloc_of, prev_tag_of in *. rewrite rev_unit in *. eauto.
Qed.

Lemma next_alloc_free l2 :
  next_alloc_of l2 = 0 -> exists n r, l2 = n :: r /\ b_alloc n = 0.
Proof. destruct l2 as [|n r]; [discriminate|]. cbn. eauto. Qed.

Lemma prev_mergeable_eq l1 :
  prev_mergeable l1 = (prev_alloc_of l1 =? 0) && (prev_tag_of l1 =? 0).
Proof.
  unfold prev_mergeable, prev_alloc_of, prev_tag_of. destruct (rev l1); reflexivity.
Qed.

Lemma next_free_eq l2 : next_free l2 = (next_alloc_of l2 =? 0).
Proof. destruct l2; reflexivity. Qed.

Lemma merge_slips_eq l1 l2 :
  merge_slips l1 l2 =
  (prev_alloc_of l1 =? 0) && negb (prev_tag_of l1 =? 0) && negb (next_alloc_of l2 =? 0).
Proof.
  unfold merge_slips, prev_alloc_of, prev_tag_of. rewrite next_free_eq.
  destruct (rev l1); reflexivity.
Qed.

(** The last step of [merge]: link the merged block. *)
Lemma merge_finish fuel st l1 b l2 ptr size :
  (0 < fuel)%nat ->
  heap_with st (l1 ++ b :: l2) (free_in (l1 ++ l2)) -> b_alloc b = 0 ->
  ptr = b_ptr b -> size = b_size b ->
  exists st',
    match insert_node fuel st ptr size with
    | Some st => Some (st, ptr)
    | None => None
    end = Some (st', b_ptr b) /\
    heap st' (l1 ++ b :: l2).
Proof.
  intros Hf HW Hb -> ->.
  assert (Hfree : free_in (l1 ++ b :: l2) (b_ptr b) (b_size b)).
  { apply free_in_app. right. apply free_in_cons. left. auto. }
  destruct (insert_node_total fuel st _ _ _ _ Hf HW Hfree) as (st2 & E).
  rewrite E. exists st2. split; [reflexivity|].
  eapply insert_mid_heap; eauto.
Qed.

(** [merge] on a free, listed block [p] of a well-formed heap, outside the
    case [merge_slips]: the block is joined with its free successor and its
    free untagged predecessor, and the result is a well-formed heap. *)
Lemma merge_heap fuel st l1 p l2 :
  (0 < fuel)%nat ->
  heap st (l1 ++ p :: l2) -> b_alloc p = 0 -> merge_slips l1 l2 = false ->
  exists st',
    merge fuel st (b_ptr p) = Some (st', coalesced_ptr l1 p) /\
    heap st' (coalesced l1 p l2).
Proof.
  intros Hf HW Hp Hslip. pose proof HW as (HL & _).
  destruct (merge_reads _ _ _ _ HL) as (Epa & Ept & Ena & Esz & Fpa & Fpt & Fna).
  unfold merge. cbv zeta. rewrite Epa, Ept, Ena, Esz.
  pose proof (remove_mid_heap _ _ _ _ HW Hp) as HW1.
  clear Epa Ept Ena Esz.
  generalize dependent (remove_node st (b_ptr p)). intros st1 HW1.
  unfold coalesced, coalesced_ptr.
  rewrite merge_slips_eq in Hslip. rewrite prev_mergeable_eq, next_free_eq.
  assert (E : (if negb (prev_tag_of l1 =? 0) then 1 else 1) = 1)
    by (destruct (negb (prev_tag_of l1 =? 0)); reflexivity).
  destruct Fna as [Ena|Ena]; rewrite Ena in *.
  - (* a free successor *)
    destruct (next_alloc_free _ Ena) as (n & r & -> & Hn). rewrite Hn.
    change (0 =? 0) with true in *. cbn [negb andb tl] in *.
    destruct Fpa as [Epa|Epa]; rewrite Epa in *;
      [destruct Fpt as [Ept|Ept]; rewrite Ept in *|].
    + (* free untagged predecessor: merge both *)
      change (0 =? 0) with true in *. cbn [negb andb] in *.
      destruct (prev_alloc_free _ Epa) as (l0 & c & -> & Hc & Hct).
      rewrite removelast_last, last_last.
      rewrite <- app_assoc in HW1. cbn [app] in HW1.
      destruct (merge_both_heap st1 l0 c p n r HW1 Hc Hp Hn) as (HW3 & E1 & E2).
      destruct (merge_both st1 (b_ptr p) (b_size p)) as [[st3 ptr] size].
      cbn [fst snd] in *.
      apply (merge_finish fuel st3 l0 (joined c (joined p n)) r ptr size Hf HW3);
        [reflexivity|exact E1|exact E2].
    + (* free tagged predecessor: merge forward *)
      change (0 =? 0) with true in *. change (2 =? 0) with false in *.
      cbn [negb andb] in *. change (1 =? 0) with false. cbn [negb andb].
      destruct (merge_next_heap st1 l1 p n r HW1 Hp Hn) as (HW3 & E1 & E2).
      destruct (merge_next st1 (b_ptr p) (b_size p)) as [[st3 ptr] size].
      cbn [fst snd] in *.
      apply (merge_finish fuel st3 l1 (joined p n) r ptr size Hf HW3);
        [reflexivity|exact E1|exact E2].
    + (* allocated predecessor: merge forward *)
      change (1 =? 0) with false in *. cbn [negb andb] in *.
      rewrite E. change (1 =? 0) with false. cbn [negb andb].
      destruct (merge_next_heap st1 l1 p n r HW1 Hp Hn) as (HW3 & E1 & E2).
      destruct (merge_next st1 (b_ptr p) (b_size p)) as [[st3 ptr] size].
      cbn [fst snd] in *.
      apply (merge_finish fuel st3 l1 (joined p n) r ptr size Hf HW3);
        [reflexivity|exact E1|exact E2].
  - (* no free successor *)
    change (1 =? 0) with false in *. cbn [negb andb] in *.
    assert (Ep1 : match l2 with
                  | n :: _ => if b_alloc n =? 0 then joined p n else p
                  | [] => p
                  end = p).
    { destruct l2 as [|n r]; [reflexivity|]. cbn in Ena. rewrite Ena. reflexivity. }
    rewrite Ep1. clear Ep1.
    destruct Fpa as [Epa|Epa]; rewrite Epa in *;
      [destruct Fpt as [Ept|Ept]; rewrite Ept in *|].
    + (* free untagged predecessor: merge backward *)
      change (0 =? 0) with true in *. cbn [negb andb] in *.
      destruct (prev_alloc_free _ Epa) as (l0 & c & -> & Hc & Hct).
      rewrite removelast_last, last_last.
      rewrite <- app_assoc in HW1. cbn [app] in HW1.
      destruct (merge_prev_heap st1 l0 c p l2 HW1 Hc Hp) as (HW3 & E1 & E2).
      destruct (merge_prev st1 (b_ptr p) (b_size p)) as [[st3 ptr] size].
      cbn [fst snd] in *.
      apply (merge_finish fuel st3 l0 (joined c p) l2 ptr size Hf HW3);
        [reflexivity|exact E1|exact E2].
    + (* free tagged predecessor, no free successor: excluded *)
      change (0 =? 0) with true in *. change (2 =? 0) with false in *.
      cbn [negb andb] in *. discriminate Hslip.
    + (* both neighbours allocated *)
      change (1 =? 0) with false in *. cbn [negb andb] in *.
      exists st. split; [reflexivity|exact HW].
Qed.

(** ** [mm_free] on a heap *)

Lemma free_in_untag_head l x s : free_in (untag_head l) x s <-> free_in l x s.
Proof.
  destruct l as [|n r]; [reflexivity|]. cbn [untag_head].
  rewrite !free_in_cons. reflexivity.
Qed.

Lemma next_free_untag_head l : next_free (untag_head l) = next_free l.
Proof. destruct l; reflexivity. Qed.

Lemma merge_slips_untag_head l1 l2 : merge_slips l1 (untag_head l2) = merge_slips l1 l2.
Proof. unfold merge_slips. rewrite next_free_untag_head. reflexivity. Qed.

(** [mm_free] on an allocated block [p] of a well-formed heap, outside the
    case [merge_slips]: the call returns, and leaves the well-formed heap
    [released l1 p l2]. *)
Lemma mm_free_heap fuel st l1 p l2 :
  (0 < fuel)%nat ->
  heap st (l1 ++ p :: l2) -> b_alloc p = 1 -> merge_slips l1 l2 = false ->
  exists st', mm_free fuel st (b_ptr p) = Some st' /\ heap st' (released l1 p l2).
Proof.
  intros Hf HW Hp Hslip. pose proof HW as (HL & _).
  destruct (heap_layout_split _ _ _ _ HL) as (_ & Hb & _).
  destruct (block_header_fields _ _ Hb) as (Esz & _).
  unfold mm_free. cbv zeta. rewrite Esz.
  pose proof (unset_tag_next_heap _ _ _ _ _ HW) as HW1.
  generalize dependent (UNSET_TAG st (HEAD (NEXT st (b_ptr p)))). intros st1 HW1.
  pose proof (mark_free_heap _ _ _ _ _ HW1 Hp) as HW2. cbv zeta in HW2.
  generalize dependent
    (PUT (PUT st1 (HEAD (b_ptr p)) (PACK (b_size p) 0))
         (FOOT (PUT st1 (HEAD (b_ptr p)) (PACK (b_size p) 0)) (b_ptr p))
         (PACK (b_size p) 0)).
  intros st2 HW2.
  assert (HW3 : heap_with st2 (l1 ++ freed p :: untag_head l2)
                          (free_in (l1 ++ untag_head l2))).
  { eapply heap_with_ext; [|exact HW2].
    intros x s. rewrite !free_in_app, free_in_cons, free_in_untag_head. split.
    - intros [H|[(_ & _ & H)|H]]; [auto|congruence|auto].
    - intros [H|H]; auto. }
  assert (Hfree : free_in (l1 ++ freed p :: untag_head l2) (b_ptr p) (b_size p)).
  { apply free_in_app. right. apply free_in_cons. left. auto. }
  destruct (insert_node_total fuel st2 _ _ _ _ Hf HW3 Hfree) as (st3 & E).
  rewrite E.
  pose proof (insert_mid_heap fuel st2 l1 (freed p) (untag_head l2) st3 HW3 eq_refl E) as HW4.
  rewrite <- merge_slips_untag_head in Hslip.
  destruct (merge_heap fuel st3 l1 (freed p) (untag_head l2) Hf HW4 eq_refl Hslip)
    as (st4 & E4 & HW5).
  cbn [freed b_ptr] in E4. rewrite E4. exists st4. split; [reflexivity|exact HW5].
Qed.

(** ** Walking a heap *)

Lemma adjacent_free_cons b r :
  adjacent_free (map block_view (b :: r)) = free_run (b_alloc b =? 0) r.
Proof.
  revert b. induction r as [|c r IH]; intros b; [reflexivity|].
  change (adjacent_free (map block_view (b :: c :: r)))
    with (((b_alloc b =? 0) && (b_alloc c =? 0)) || adjacent_free (map block_view (c :: r))).
  rewrite IH. reflexivity.
Qed.

Lemma adjacent_free_run bl : adjacent_free (map block_view bl) = free_run false bl.
Proof. destruct bl as [|b r]; [reflexivity|]. rewrite adjacent_free_cons. reflexivity. Qed.

Lemma free_run_split f l v r :
  free_run f (l ++ v :: r) = free_run f (l ++ [v]) || free_run (b_alloc v =? 0) r.
Proof.
  revert f. induction l as [|a l IH]; intros f; cbn [app free_run].
  - rewrite orb_false_r. reflexivity.
  - rewrite IH, orb_assoc. reflexivity.
Qed.

Lemma free_run_snoc_alloc f l v :
  b_alloc v = 1 -> free_run f (l ++ [v]) = free_run f l.
Proof.
  intros Hv. revert f. induction l as [|a l IH]; intros f; cbn [app free_run].
  - rewrite Hv. change (1 =? 0) with false. rewrite andb_false_r. reflexivity.
  - rewrite IH. reflexivity.
Qed.

Lemma free_run_snoc_flag f l v v' :
  b_alloc v = b_alloc v' -> free_run f (l ++ [v]) = free_run f (l ++ [v']).
Proof.
  intros Hv. revert f. induction l as [|a l IH]; intros f; cbn [app free_run].
  - rewrite Hv. reflexivity.
  - rewrite IH. reflexivity.
Qed.

Lemma free_run_firstn n f l : free_run f l = false -> free_run f (firstn n l) = false.
Proof.
  revert n f. induction l as [|a l IH]; intros n f H; destruct n as [|n]; try reflexivity.
  cbn [firstn free_run] in *. apply orb_false_iff in H as [H1 H2].
  rewrite H1, (IH n _ H2). reflexivity.
Qed.

(** A walk from the first block of a stretch lists its blocks, then the
    block of size zero that ends it. *)
Lemma heap_walk_layout n st a bl e :
  layout st a bl e -> GET_SIZE st (HEAD e) = 0 ->
  heap_walk n st a =
  firstn n (map block_view bl ++ [(e, 0, GET_ALLOC st (HEAD e), GET_TAG st (HEAD e))]).
Proof.
  intros L He. revert n a L. induction bl as [|b bl IH]; intros n a L; cbn [layout] in L.
  - subst a. destruct n as [|n]; [reflexivity|].
    cbn [heap_walk map app firstn]. rewrite He. cbv zeta. change (0 =? 0) with true.
    cbv iota. destruct n; reflexivity.
  - destruct L as (Hp & Hb & L). destruct n as [|n]; [reflexivity|].
    destruct (block_header_fields _ _ Hb) as (E1 & E2 & E3).
    destruct Hb as (Hs & _). rewrite Hp in *.
    cbn [heap_walk map app firstn]. cbv zeta. rewrite E1, E2, E3.
    destruct (Z.eqb_spec (b_size b) 0) as [E|_]; [lia|].
    unfold block_view at 1. rewrite Hp. f_equal.
    unfold NEXT. change (a - WSIZE) with (HEAD a). rewrite E1. apply IH. exact L.
Qed.

Lemma heap_walk_heap n st bl :
  heap_layout st bl ->
  heap_walk n st (prologue_block st) =
  firstn n (map block_view (prologue_of st :: bl ++ [epilogue_of st])).
Proof.
  intros HL. destruct n as [|n]; [reflexivity|].
  pose proof (hl_prologue_header _ _ HL) as Hh.
  assert (E1 : GET_SIZE st (HEAD (prologue_block st)) = 8)
    by (unfold GET_SIZE; rewrite Hh; reflexivity).
  assert (E2 : GET_ALLOC st (HEAD (prologue_block st)) = 1)
    by (unfold GET_ALLOC; rewrite Hh; reflexivity).
  assert (E3 : GET_TAG st (HEAD (prologue_block st)) = 0)
    by (unfold GET_TAG; rewrite Hh; reflexivity).
  cbn [heap_walk map firstn]. cbv zeta. rewrite E1, E2, E3.
  change (8 =? 0) with false. cbv iota. f_equal.
  unfold NEXT. change (prologue_block st - WSIZE) with (HEAD (prologue_block st)).
  rewrite E1. rewrite map_app. cbn [map].
  change (prologue_block st + 8) with (first_block st).
  rewrite (heap_walk_layout n st _ bl (mem_brk st) (hl_blocks _ _ HL) (hl_epilogue_size _ _ HL)).
  unfold epilogue_of, block_view. cbn [b_ptr b_size b_alloc b_tag].
  rewrite (hl_epilogue_alloc _ _ HL). reflexivity.
Qed.

(** A complete walk meets two consecutive free blocks exactly when the
    sequence of blocks has two. *)
Lemma walk_all_run st bl :
  heap_layout st bl ->
  adjacent_free (heap_walk (length bl + 2) st (prologue_block st)) = free_run false bl.
Proof.
  intros HL. rewrite (heap_walk_heap _ _ _ HL).
  rewrite firstn_all2.
  - rewrite adjacent_free_cons. cbn [prologue_of b_alloc]. change (1 =? 0) with false.
    apply free_run_snoc_alloc. reflexivity.
  - rewrite length_map. cbn [length]. rewrite length_app. cbn [length]. lia.
Qed.

Lemma walk_no_run n st bl :
  heap_layout st bl -> free_run false bl = false ->
  adjacent_free (heap_walk n st (prologue_block st)) = false.
Proof.
  intros HL H. rewrite (heap_walk_heap _ _ _ HL), firstn_map, adjacent_free_run.
  apply free_run_firstn. cbn [free_run prologue_of b_alloc]. change (1 =? 0) with false.
  cbn [andb orb]. rewrite free_run_snoc_alloc by reflexivity. exact H.
Qed.

(** ** Releasing keeps free blocks apart *)

Lemma prev_tagged_free_eq l1 :
  prev_tagged_free l1 = (prev_alloc_of l1 =? 0) && negb (prev_tag_of l1 =? 0).
Proof.
  unfold prev_tagged_free, prev_alloc_of, prev_tag_of. destruct (rev l1); reflexivity.
Qed.

Lemma merge_slips_tagged l1 l2 : prev_tagged_free l1 = false -> merge_slips l1 l2 = false.
Proof. intros H. rewrite merge_slips_eq, <- prev_tagged_free_eq, H. reflexivity. Qed.

Lemma released_no_run l1 p l2 :
  b_alloc p = 1 -> prev_tagged_free l1 = false ->
  free_run false (l1 ++ p :: l2) = false ->
  free_run false (released l1 p l2) = false.
Proof.
  intros Hp Ht H. rewrite free_run_split, Hp in H. change (1 =? 0) with false in H.
  apply orb_false_iff in H as [H1 H2]. rewrite free_run_snoc_alloc in H1 by exact Hp.
  unfold released, coalesced.
  (* the released block, grown over a free successor, and what follows it *)
  set (p1 := match untag_head l2 with
             | n :: _ => if b_alloc n =? 0 then joined (freed p) n else freed p
             | [] => freed p
             end).
  set (l2' := if next_free (untag_head l2) then tl (untag_head l2) else untag_head l2).
  assert (Hp1 : b_alloc p1 = 0).
  { subst p1. destruct (untag_head l2) as [|n r]; [reflexivity|].
    destruct (b_alloc n =? 0); reflexivity. }
  assert (H2' : free_run true l2' = false).
  { subst l2'. destruct l2 as [|n r]; [reflexivity|].
    cbn [untag_head next_free untag b_alloc tl]. cbn [free_run] in H2.
    destruct (b_alloc n =? 0) eqn:En; cbn [andb orb] in *.
    - exact H2.
    - cbn [free_run untag b_alloc]. rewrite En. cbn [andb orb]. exact H2. }
  clearbody p1 l2'.
  rewrite prev_mergeable_eq. rewrite prev_tagged_free_eq in Ht.
  destruct (prev_alloc_of l1 =? 0) eqn:Epa; cbn [andb] in *.
  - apply Z.eqb_eq in Epa.
    destruct (prev_alloc_free _ Epa) as (l0 & c & -> & Hc & Hct).
    apply negb_false_iff in Ht. rewrite Ht.
    rewrite removelast_last, last_last.
    rewrite free_run_split. cbn [joined b_alloc]. change (0 =? 0) with true.
    rewrite H2', orb_false_r.
    rewrite (free_run_snoc_flag false l0 (joined c p1) c); [exact H1|].
    cbn [joined b_alloc]. auto.
  - rewrite free_run_split, Hp1. change (0 =? 0) with true. rewrite H2', orb_false_r.
    destruct (list_last_cases l1) as [->|(l0 & c & ->)]; [reflexivity|].
    unfold prev_alloc_of in Epa. rewrite rev_unit in Epa.
    rewrite <- app_assoc. cbn [app]. rewrite free_run_split, H1, Epa. reflexivity.
Qed.

(** ** Checking a heap *)

Lemma block_okb_sound st b : block_okb st b = true -> block_ok st b.
Proof.
  unfold block_okb, block_ok, flag, tagbit. rewrite !andb_true_iff, !orb_true_iff.
  rewrite !Z.eqb_eq, Z.leb_le. tauto.
Qed.

Lemma layoutb_sound st a bl e : layoutb st a bl e = true -> layout st a bl e.
Proof.
  revert a. induction bl as [|b bl IH]; intros a; cbn [layoutb layout].
  - apply Z.eqb_eq.
  - rewrite !andb_true_iff, Z.eqb_eq. intros [[H1 H2] H3].
    auto using block_okb_sound.
Qed.

Lemma heap_layoutb_sound st bl : heap_layoutb st bl = true -> heap_layout st bl.
Proof.
  unfold heap_layoutb. rewrite !andb_true_iff, !Z.eqb_eq, !Z.leb_le, Z.ltb_lt.
  intros [[[[[[[H1 H2] H3] H4] H5] H6] H7] H8].
  constructor; auto using layoutb_sound.
Qed.

Lemma free_nodes_spec bl x s : In (x, s) (free_nodes bl) <-> free_in bl x s.
Proof.
  unfold free_nodes, free_in. rewrite in_map_iff. split.
  - intros (b & E & Hb). apply filter_In in Hb as [Hb Ha]. apply Z.eqb_eq in Ha.
    injection E as <- <-. exists (b_tag b). rewrite <- Ha. destruct b; exact Hb.
  - intros [t H]. exists (mkBlock x s 0 t). split; [reflexivity|].
    apply filter_In. split; [exact H|reflexivity].
Qed.

Lemma linksb_sound st bl : linksb st (free_nodes bl) = true -> links st (free_in bl).
Proof.
  unfold linksb. rewrite andb_true_iff, forallb_forall. intros [Hn Hl].
  pose proof (fun i => all_lists_spec _ i Hl) as Hl'. clear Hl. cbv beta in Hl'.
  assert (Hn' : forall x s, free_in bl x s ->
    (PRECEDE st x <> NULL ->
     exists s', free_in bl (PRECEDE st x) s' /\ SUCCEED st (PRECEDE st x) = x /\
                bucket s' = bucket s) /\
    (SUCCEED st x <> NULL ->
     exists s', free_in bl (SUCCEED st x) s' /\ PRECEDE st (SUCCEED st x) = x) /\
    (SUCCEED st x = NULL -> FREE_SEG_LISTS st (bucket s) = x)).
  { intros x s Hx. apply free_nodes_spec in Hx. apply Hn in Hx. cbn [fst snd] in Hx.
    rewrite !andb_true_iff, !orb_true_iff, negb_true_iff, !Z.eqb_eq, Z.eqb_neq in Hx.
    destruct Hx as [[Hp Hs] Hh]. split; [|split].
    - intros Hne. destruct Hp as [Hp|Hp]; [contradiction|].
      apply existsb_exists in Hp as ([y t] & Hy & Hc). cbn [fst snd] in Hc.
      rewrite !andb_true_iff, !Z.eqb_eq in Hc. destruct Hc as [[E1 E2] E3]. subst y.
      exists t. rewrite <- free_nodes_spec. auto.
    - intros Hne. destruct Hs as [Hs|Hs]; [contradiction|].
      apply existsb_exists in Hs as ([y t] & Hy & Hc). cbn [fst snd] in Hc.
      rewrite !andb_true_iff, !Z.eqb_eq in Hc. destruct Hc as [E1 E2]. subst y.
      exists t. rewrite <- free_nodes_spec. auto.
    - intros E. destruct Hh as [Hh|Hh]; [contradiction|exact Hh]. }
  constructor.
  - intros x s Hx. apply (Hn' x s Hx).
  - intros x s Hx. apply (Hn' x s Hx).
  - intros i Hi Hne. specialize (Hl' i Hi).
    rewrite orb_true_iff, Z.eqb_eq in Hl'. destruct Hl' as [Hl'|Hl']; [contradiction|].
    apply existsb_exists in Hl' as ([y t] & Hy & Hc). cbn [fst snd] in Hc.
    rewrite !andb_true_iff, !Z.eqb_eq in Hc. destruct Hc as [[E1 E2] E3]. subst y.
    exists t. rewrite <- free_nodes_spec. auto.
  - intros x s Hx. apply (Hn' x s Hx).
Qed.

Lemma heap_check_sound st bl : heap_check st bl = true -> heap st bl.
Proof.
  unfold heap_check. rewrite andb_true_iff. intros [H1 H2].
  split; [apply heap_layoutb_sound; exact H1|].
  split; [apply linksb_sound; exact H2|auto].
Qed.

(** ** Releasing a block *)

(** Take a well-formed heap in which a complete walk meets no
    two consecutive free blocks, and an allocated block [p] whose
    predecessor is not a free block carrying the reallocation tag.  Then
    [mm_free(p)] returns and leaves a well-formed heap, whose blocks are
    [released l1 p l2] ([p] joined with a free successor and a free
    predecessor), and no walk of it meets two consecutive free blocks. *)
Theorem release_keeps_free_blocks_apart fuel st l1 p l2 :
  (0 < fuel)%nat ->
  heap st (l1 ++ p :: l2) -> b_alloc p = 1 ->
  prev_tagged_free l1 = false ->
  adjacent_free (heap_walk (length (l1 ++ p :: l2) + 2) st (prologue_block st)) = false ->
  exists st',
    mm_free fuel st (b_ptr p) = Some st' /\
    heap st' (released l1 p l2) /\
    forall n, adjacent_free (heap_walk n st' (prologue_block st')) = false.
Proof.
  intros Hf HW Hp Ht Hadj.
  rewrite (walk_all_run _ _ (proj1 HW)) in Hadj.
  destruct (mm_free_heap fuel st l1 p l2 Hf HW Hp (merge_slips_tagged _ _ Ht))
    as (st' & E & HW').
  exists st'. split; [exact E|]. split; [exact HW'|].
  intros n. apply (walk_no_run n st' _ (proj1 HW')).
  apply released_no_run; assumption.
Qed.

Lemma release_keeps_free_blocks_apart_witness :
  match session 8 65536 1048576 [Alloc 0 16; Alloc 1 16; Alloc 2 16; Release 1] with
  | Some (st, t) =>
      let l1 := [mkBlock 65552 24 1 0; mkBlock 65576 24 0 0] in
      let p := mkBlock (t 2%nat) 24 1 0 in
      let l2 := [mkBlock 65624 4024 0 0] in
      ((0 < 8)%nat /\ heap st (l1 ++ p :: l2) /\ b_alloc p = 1 /\
       prev_tagged_free l1 = false /\
       adjacent_free (heap_walk (length (l1 ++ p :: l2) + 2) st (prologue_block st))
         = false) /\
      exists st',
        mm_free 8 st (b_ptr p) = Some st' /\
        heap st' (released l1 p l2) /\
        forall n, adjacent_free (heap_walk n st' (prologue_block st')) = false
  | None => False
  end.
Proof.
  destruct (session 8 65536 1048576 _) as [[st t]|] eqn:E;
    vm_compute in E; [injection E as <- <-|discriminate E].
  cbv zeta.
  match goal with
  | |- ?A /\ _ => assert (H : A)
  end.
  { split; [repeat constructor|].
    split; [apply heap_check_sound; vm_compute; reflexivity|].
    repeat split; vm_compute; reflexivity. }
  split; [exact H|]. destruct H as (H0 & H1 & H2 & H3 & H4).
  exact (release_keeps_free_blocks_apart 8 _ _ _ _ H0 H1 H2 H3 H4).
Defined.

(** ** Behaviour on concrete traces *)

(** Blocks 0, 1, 2 are allocated in a row, block 1 is
    released and then tagged by a resize of block 0; releasing block 2
    merges it with the free space after it but not with the tagged free
    block 1 before it, so two free blocks are neighbours. *)
Lemma release_leaves_free_neighbours :
  match session 8 65536 1048576
          [Alloc 0 200; Alloc 1 16; Alloc 2 16; Release 1; Resize 0 50] with
  | Some (st, t) =>
      adjacent_free (heap_walk 16 st (prologue_block st)) = false /\
      GET_ALLOC st (HEAD (t 2%nat)) = 1 /\
      match mm_free 8 st (t 2%nat) with
      | Some st' =>
          heap_walk 16 st' (prologue_block st') =
            [(65544, 8, 1, 0); (65552, 208, 1, 0); (65760, 24, 0, 2);
             (65784, 3864, 0, 0); (69648, 0, 1, 0)] /\
          adjacent_free (heap_walk 16 st' (prologue_block st')) = true
      | None => False
      end
  | None => False
  end.
Proof. evaluate. Qed.

(** C1.  Five blocks are allocated in a row; blocks 1, 3 and 4 are
    released, which leaves a well-formed heap without tags: block 0, a free
    block of 24 bytes, block 2 and the free space at the end, no two free
    blocks side by side.  Resizing block 0 to 100 bytes grows the heap by
    4096 bytes at its end and gives all of them to block 0, although the
    free block after block 0 is not the last block.  Block 0 then reaches
    over block 2 into the free space, and the walk from the prologue meets
    three free blocks in a row. *)
Theorem resize_leaves_free_neighbours :
  match session 16 65536 1048576
          [Alloc 0 16; Alloc 1 16; Alloc 2 4064; Alloc 3 16; Alloc 4 16;
           Release 1; Release 3; Release 4] with
  | Some (st, t) =>
      heap_check st [mkBlock 65552 24 1 0; mkBlock 65576 24 0 0;
                     mkBlock 65600 4072 1 0; mkBlock 69672 4072 0 0] = true /\
      adjacent_free (heap_walk 16 st (prologue_block st)) = false /\
      t 0%nat = 65552 /\ t 2%nat = 65600 /\
      match mm_realloc 16 st (t 0%nat) 100 with
      | Some (st', q) =>
          q = t 0%nat /\
          heap_walk 16 st' (prologue_block st') =
            [(65544, 8, 1, 0); (65552, 4144, 1, 0); (69696, 24, 0, 0);
             (69720, 4024, 0, 0); (73744, 4096, 0, 0); (77840, 0, 1, 0)] /\
          adjacent_free (heap_walk 16 st' (prologue_block st')) = true /\
          GET_ALLOC st' (HEAD (t 2%nat)) = 1
      | None => False
      end
  | None => False
  end.
Proof. evaluate. Qed.

(** C3.  Block 0 has a 16-byte payload and is resized to 100 bytes while
    its successor is allocated.  The word at offset 24 of the new payload
    then holds what the client stored in block 1: the copy ran over 100
    bytes, past the 16 bytes of the old payload. *)
Theorem relocation_copies_requested_size :
  match session 8 65536 1048576 [Alloc 0 16; Alloc 1 16; Store 1 0 305419896] with
  | Some (st, t) =>
      GET_SIZE st (HEAD (t 0%nat)) - DSIZE = 16 /\
      GET_ALLOC st (HEAD (NEXT st (t 0%nat))) = 1 /\
      match mm_realloc 8 st (t 0%nat) 100 with
      | Some (st', q) =>
          q <> t 0%nat /\ GET st (q + 24) = 0 /\ GET st' (q + 24) = 305419896
      | None => False
      end
  | None => False
  end.
Proof. evaluate. Qed.

(** C4.  A 16-byte block and then a 24-byte block are released into the
    same size class.  The list, read from its head, holds the 24-byte block
    before the 16-byte one: the later, larger block was put at the head, not
    after the smaller one. *)
Theorem insertion_is_at_the_head :
  match session 8 65536 1048576
          [Alloc 0 8; Alloc 1 8; Alloc 2 16; Alloc 3 8; Release 0] with
  | Some (st, t) =>
      list_entries 8 st (FREE_SEG_LISTS st 4) = [(t 0%nat, 16)] /\
      GET_SIZE st (HEAD (t 2%nat)) = 24 /\
      match mm_free 8 st (t 2%nat) with
      | Some st' =>
          list_entries 8 st' (FREE_SEG_LISTS st' 4) = [(t 2%nat, 24); (t 0%nat, 16)]
      | None => False
      end
  | None => False
  end.
Proof. evaluate. Qed.

(** C5.  After a resize has tagged the free block that follows block 0,
    the next [mm_malloc] finds no untagged fit, extends the heap, and
    [merge] joins the new space to the tagged free block: the address
    returned is that of the tagged free block. *)
Theorem malloc_returns_tagged_block :
  match session 8 65536 1048576 [Alloc 0 200; Resize 0 50] with
  | Some (st, t) =>
      heap_walk 16 st (prologue_block st) =
        [(65544, 8, 1, 0); (65552, 208, 1, 0); (65760, 3888, 0, 2); (69648, 0, 1, 0)] /\
      search_lists 20 8 st (adjust_size 16) (adjust_size 16) 0 = Some NULL /\
      match mm_malloc 8 st 16 with
      | Some (st', q) =>
          q = 65760 /\
          heap_walk 16 st' (prologue_block st') =
            [(65544, 8, 1, 0); (65552, 208, 1, 0); (65760, 24, 1, 2);
             (65784, 7960, 0, 0); (73744, 0, 1, 0)]
      | None => False
      end
  | None => False
  end.
Proof. evaluate. Qed.

(** [mm_realloc] continues from that call with [mm_free] and the tag. *)
Lemma mm_realloc_copy fuel st ptr size st1 dst src k :
  realloc_copy fuel st ptr size = Some (st1, dst, src, k) ->
  src = ptr /\
  mm_realloc fuel st ptr size =
    match mm_free fuel (with_mem st1 (memmove (mem st1) dst src k)) ptr with
    | None => None
    | Some st2 =>
        Some (realloc_tag st2 dst (to_int (GET_SIZE st2 (HEAD dst) - realloc_size size)))
    end.
Proof.
  unfold realloc_copy, mm_realloc. intros H.
  destruct (size =? 0); [discriminate H|]. cbv zeta in *.
  destruct (to_int (GET_SIZE st (HEAD ptr) - realloc_size size) <? 0); [|discriminate H].
  destruct ((GET_ALLOC st (HEAD (NEXT st ptr)) =? 0)
            || (GET_SIZE st (HEAD (NEXT st ptr)) =? 0)); [discriminate H|].
  destruct (mm_malloc fuel st (wrap32 (realloc_size size - DSIZE))) as [[st' q]|];
    [|discriminate H].
  injection H as -> -> -> ->. split; reflexivity.
Qed.

(** C7.  The heap cannot grow.  Block 0, whose successor is allocated, is
    resized to 5000 bytes.  [mem_sbrk] fails for the space the inner
    [mm_malloc] asks for, and [mm_malloc] returns NULL with the state
    unchanged.  [mm_realloc] does not return then: it calls [memmove] with
    NULL as destination, to copy 5000 bytes to the addresses from 0, all
    below the heap, while block 0 is still allocated. *)
Theorem failed_resize_copies_to_null :
  match session 8 65536 (65536 + 16 + 4096) [Alloc 0 16; Alloc 1 16] with
  | Some (st, t) =>
      let m := wrap32 (realloc_size 5000 - DSIZE) in
      GET_ALLOC st (HEAD (NEXT st (t 0%nat))) = 1 /\
      mem_sbrk st (even_words (MAX (adjust_size m) CHUNKSIZE)) = None /\
      mm_malloc 8 st m = Some (st, NULL) /\
      realloc_copy 8 st (t 0%nat) 5000 = Some (st, NULL, t 0%nat, 5000) /\
      NULL + 5000 <= prologue_block st - DSIZE /\
      GET_ALLOC st (HEAD (t 0%nat)) = 1
  | None => False
  end.
Proof.
  destruct (session 8 65536 _ _) as [[st t]|] eqn:E;
    vm_compute in E; [injection E as <- <-|discriminate E].
  cbv zeta.
  match goal with
  | |- _ /\ _ /\ ?M = ?R /\ _ => assert (HM : M = R)
  end.
  { unfold mm_malloc.
    match goal with
    | |- (if ?c then _ else _) = _ => replace c with false by (vm_compute; reflexivity)
    end.
    cbv zeta.
    match goal with
    | |- match ?s with _ => _ end = _ => replace s with (Some NULL) by (vm_compute; reflexivity)
    end.
    cbv iota beta.
    match goal with
    | |- match (if ?c then _ else _) with _ => _ end = _ =>
        replace c with true by (vm_compute; reflexivity)
    end.
    unfold incr_heap, mem_sbrk. cbv zeta.
    match goal with
    | |- match (match (if ?c then _ else _) with _ => _ end) with _ => _ end = _ =>
        replace c with true by (vm_compute; reflexivity)
    end.
    reflexivity. }
  split; [vm_compute; reflexivity|]. split; [vm_compute; reflexivity|].
  split; [exact HM|]. split; [|split; [vm_compute; discriminate|vm_compute; reflexivity]].
  unfold realloc_copy.
  match goal with
  | |- (if ?c then _ else _) = _ => replace c with false by (vm_compute; reflexivity)
  end.
  cbv zeta.
  match goal with
  | |- (if ?c then _ else _) = _ => replace c with true by (vm_compute; reflexivity)
  end.
  match goal with
  | |- (if ?c then _ else _) = _ => replace c with false by (vm_compute; reflexivity)
  end.
  rewrite HM. reflexivity.
Qed.

(** C8.  Block 1 is free and tagged, blocks 2 and 3 are allocated.
    Releasing block 2 takes the last branch of [merge]: the tagged block 1
    is merged, and so is the allocated block 3. *)
Theorem merge_absorbs_tagged_and_allocated :
  match session 8 65536 1048576
          [Alloc 0 200; Alloc 1 16; Alloc 2 16; Alloc 3 16; Release 1; Resize 0 50] with
  | Some (st, t) =>
      heap_walk 16 st (prologue_block st) =
        [(65544, 8, 1, 0); (65552, 208, 1, 0); (65760, 24, 0, 2); (65784, 24, 1, 0);
         (65808, 24, 1, 0); (65832, 3816, 0, 0); (69648, 0, 1, 0)] /\
      t 2%nat = 65784 /\
      match mm_free 8 st (t 2%nat) with
      | Some st' =>
          heap_walk 16 st' (prologue_block st') =
            [(65544, 8, 1, 0); (65552, 208, 1, 0); (65760, 72, 0, 2);
             (65832, 3816, 0, 0); (69648, 0, 1, 0)]
      | None => False
      end
  | None => False
  end.
Proof. evaluate. Qed.

(** C9.  The heap is well formed; block 1 is free and tagged, blocks 2 and
    3 are allocated.  The client has written the word 64 at offset 8 of
    block 0 and the address of offset 12 of block 0 into block 3.
    Releasing block 2 takes the last branch of [merge], which unlinks the
    allocated block 3 and so makes the client's address a list head; the
    next [mm_malloc] returns it, and it is not 8-byte aligned. *)
Theorem malloc_returns_unaligned_address :
  match session 8 65536 1048576
          [Alloc 0 200; Alloc 1 16; Alloc 2 16; Alloc 3 16; Release 1; Resize 0 50;
           Store 0 8 64; Store 3 0 65564] with
  | Some (st, t) =>
      heap_check st [mkBlock 65552 208 1 0; mkBlock 65760 24 0 2; mkBlock 65784 24 1 0;
                     mkBlock 65808 24 1 0; mkBlock 65832 3816 0 0] = true /\
      t 0%nat = 65552 /\ t 2%nat = 65784 /\ t 3%nat = 65808 /\
      match mm_free 8 st (t 2%nat) with
      | Some st1 =>
          FREE_SEG_LISTS st1 4 = t 0%nat + 12 /\
          match mm_malloc 8 st1 16 with
          | Some (_, q) => q = t 0%nat + 12 /\ q mod 8 = 4
          | None => False
          end
      | None => False
      end
  | None => False
  end.
Proof. evaluate. Qed.

(** C10.  The same heap; the client has written the address of the header
    that follows block 3 into block 3.  Resizing block 2 (24 bytes) moves
    it to the space after block 3 and releases the old block; the last
    branch of [merge] unlinks the allocated block 3 and thereby clears the
    header of the new block: the address returned is not NULL and the size
    in its header is 0. *)
Theorem resize_returns_emptied_block :
  match session 8 65536 1048576
          [Alloc 0 200; Alloc 1 16; Alloc 2 16; Alloc 3 16; Release 1; Resize 0 50;
           Store 3 4 65828] with
  | Some (st, t) =>
      heap_check st [mkBlock 65552 208 1 0; mkBlock 65760 24 0 2; mkBlock 65784 24 1 0;
                     mkBlock 65808 24 1 0; mkBlock 65832 3816 0 0] = true /\
      t 2%nat = 65784 /\ t 3%nat = 65808 /\
      GET_ALLOC st (HEAD (t 2%nat)) = 1 /\ GET_SIZE st (HEAD (t 2%nat)) = 24 /\
      match mm_realloc 8 st (t 2%nat) 16 with
      | Some (st', q) => q = 65832 /\ GET_SIZE st' (HEAD q) = 0
      | None => False
      end
  | None => False
  end.
Proof. evaluate. Qed.

(** * What the functions do on a well-formed heap *)

(** Instances of the theorems are stated on the heap that a short session
    leaves, which [heap_check] validates. *)
Ltac on_session :=
  match goal with
  | |- match ?s with _ => _ end =>
      let E := fresh "E" in
      destruct s as [[? ?]|] eqn:E; vm_compute in E;
      [injection E as <- <-|discriminate E]
  end; cbv zeta.

Ltac checked := apply heap_check_sound; vm_compute; reflexivity.

(** ** Boundary tags: what is written is what is read *)

Lemma pack_word_range s a t :
  s mod 8 = 0 -> 0 <= s < 2 ^ 32 -> flag a -> tagbit t -> 0 <= s + a + t < 2 ^ 32.
Proof.
  intros Hm Hs Ha Ht. pose proof (Z.div_mod s 8 ltac:(lia)) as D.
  change (2 ^ 32) with 4294967296 in *.
  assert (s / 8 < 536870912) by (apply Z.div_lt_upper_bound; lia).
  unfold flag, tagbit in *. lia.
Qed.

Lemma header_fields_PUT st p s a :
  s mod 8 = 0 -> 0 <= s < 2 ^ 32 -> flag a ->
  GET (PUT st p (PACK s a)) p = s + a + GET_TAG st p.
Proof.
  intros Hm Hs Ha. rewrite PUT_eq, GET_CLEAR_PUT_same.
  rewrite PACK_word by (auto; apply tag_of_bit).
  apply wrap32_small. apply pack_word_range; auto. apply tag_of_bit.
Qed.

Lemma header_fields_CLEAR_PUT st p s a :
  s mod 8 = 0 -> 0 <= s < 2 ^ 32 -> flag a ->
  GET (CLEAR_PUT st p (PACK s a)) p = s + a + 0.
Proof.
  intros Hm Hs Ha. rewrite GET_CLEAR_PUT_same.
  rewrite <- (PACK_word s a 0) by (auto; left; reflexivity).
  rewrite Z.lor_0_r. apply wrap32_small.
  rewrite <- (Z.lor_0_r (PACK s a)), PACK_word by (auto; left; reflexivity).
  apply pack_word_range; auto. left; reflexivity.
Qed.

Lemma set_tag_range w : 0 <= w < 2 ^ 32 -> 0 <= Z.lor w 2 < 2 ^ 32.
Proof.
  intros Hw. pose proof (Z.add_lor_land w 2) as E.
  pose proof (tag_of_eq w) as T. unfold tag_of in T.
  pose proof (Z.div_mod w 4 ltac:(lia)) as D.
  pose proof (Z.mod_pos_bound w 4 ltac:(lia)) as M.
  change (2 ^ 32) with 4294967296 in *.
  destruct (w mod 4 <? 2) eqn:C; [apply Z.ltb_lt in C|apply Z.ltb_ge in C]; lia.
Qed.

Lemma unset_tag_range w : 0 <= w < 2 ^ 32 -> 0 <= Z.land w (Z.lnot 2) < 2 ^ 32.
Proof.
  intros Hw. rewrite <- Z.sub_land_same_l.
  pose proof (tag_of_bit w) as T. unfold tagbit, tag_of in T.
  pose proof (tag_of_eq w) as T'. unfold tag_of in T'.
  pose proof (Z.mod_pos_bound w 4 ltac:(lia)) as M.
  pose proof (Z.div_mod w 4 ltac:(lia)) as D.
  assert (0 <= w / 4) by (apply Z.div_pos; lia).
  destruct (w mod 4 <? 2) eqn:C; [apply Z.ltb_lt in C|apply Z.ltb_ge in C]; lia.
Qed.

Lemma tag_of_set w : tag_of (Z.lor w 2) = 2.
Proof.
  unfold tag_of. rewrite Z.land_lor_distr_l. change (Z.land 2 2) with 2.
  destruct (tag_of_bit w) as [E|E]; unfold tag_of in E; rewrite E; reflexivity.
Qed.

Lemma tag_of_unset w : tag_of (Z.land w (Z.lnot 2)) = 0.
Proof.
  unfold tag_of. rewrite <- Z.land_assoc. change (Z.land (Z.lnot 2) 2) with 0.
  apply Z.land_0_r.
Qed.

Lemma GET_SET_TAG st p : GET (SET_TAG st p) p = Z.lor (GET st p) 2.
Proof.
  rewrite SET_TAG_eq, GET_CLEAR_PUT_same. apply wrap32_small, set_tag_range, GET_range.
Qed.

Lemma GET_UNSET_TAG st p : GET (UNSET_TAG st p) p = Z.land (GET st p) (Z.lnot 2).
Proof.
  rewrite UNSET_TAG_eq, GET_CLEAR_PUT_same. apply wrap32_small, unset_tag_range, GET_range.
Qed.

(** X1.  A size and an allocation bit packed and stored with [PUT] or
    [CLEAR_PUT] are read back by [GET_SIZE] and [GET_ALLOC]; [PUT] keeps the
    reallocation tag that was stored there, [CLEAR_PUT] clears it. *)
Theorem boundary_tag_round_trip st p s a :
  s mod 8 = 0 -> 0 <= s < 2 ^ 32 -> flag a ->
  (GET_SIZE (PUT st p (PACK s a)) p = s /\
   GET_ALLOC (PUT st p (PACK s a)) p = a /\
   GET_TAG (PUT st p (PACK s a)) p = GET_TAG st p) /\
  (GET_SIZE (CLEAR_PUT st p (PACK s a)) p = s /\
   GET_ALLOC (CLEAR_PUT st p (PACK s a)) p = a /\
   GET_TAG (CLEAR_PUT st p (PACK s a)) p = 0).
Proof.
  intros Hm Hs Ha. unfold GET_SIZE, GET_ALLOC, GET_TAG.
  rewrite header_fields_PUT, header_fields_CLEAR_PUT by assumption.
  pose proof (tag_of_bit (load32 (mem st) p)) as Ht.
  assert (T0 : tagbit 0) by (left; reflexivity).
  rewrite !size_of_word, !alloc_of_word, !tag_of_word by assumption.
  repeat split; reflexivity.
Qed.

Lemma boundary_tag_round_trip_witness :
  (24 mod 8 = 0 /\ 0 <= 24 < 2 ^ 32 /\ flag 1) /\
  (GET_SIZE (PUT (boot 65536 1048576) 65540 (PACK 24 1)) 65540 = 24 /\
   GET_ALLOC (PUT (boot 65536 1048576) 65540 (PACK 24 1)) 65540 = 1 /\
   GET_TAG (PUT (boot 65536 1048576) 65540 (PACK 24 1)) 65540
     = GET_TAG (boot 65536 1048576) 65540) /\
  (GET_SIZE (CLEAR_PUT (boot 65536 1048576) 65540 (PACK 24 1)) 65540 = 24 /\
   GET_ALLOC (CLEAR_PUT (boot 65536 1048576) 65540 (PACK 24 1)) 65540 = 1 /\
   GET_TAG (CLEAR_PUT (boot 65536 1048576) 65540 (PACK 24 1)) 65540 = 0).
Proof.
  assert (H : 24 mod 8 = 0 /\ 0 <= 24 < 2 ^ 32 /\ flag 1).
  { split; [reflexivity|]. split; [split; [discriminate|reflexivity]|right; reflexivity]. }
  split; [exact H|]. destruct H as (H1 & H2 & H3).
  exact (boundary_tag_round_trip (boot 65536 1048576) 65540 24 1 H1 H2 H3).
Defined.

(** X2.  [SET_TAG] and [UNSET_TAG] set and clear the reallocation tag of a
    word and leave its size and allocation bit as they were. *)
Theorem tag_bit_round_trip st p :
  (GET_TAG (SET_TAG st p) p = 2 /\
   GET_SIZE (SET_TAG st p) p = GET_SIZE st p /\
   GET_ALLOC (SET_TAG st p) p = GET_ALLOC st p) /\
  (GET_TAG (UNSET_TAG st p) p = 0 /\
   GET_SIZE (UNSET_TAG st p) p = GET_SIZE st p /\
   GET_ALLOC (UNSET_TAG st p) p = GET_ALLOC st p).
Proof.
  unfold GET_TAG, GET_SIZE, GET_ALLOC. rewrite GET_SET_TAG, GET_UNSET_TAG.
  rewrite tag_of_set, tag_of_unset.
  destruct (set_tag_fields (GET st p)) as [-> ->].
  destruct (unset_tag_fields (GET st p)) as [-> ->].
  repeat split; reflexivity.
Qed.

(** ** Size classes *)

(** X3.  The list [insert_node] and [remove_node] select for a block of
    [s] bytes is the one numbered by the binary logarithm of [s], the last
    list (19) taking every larger size. *)
Theorem size_class_is_log2 s :
  0 <= s -> fst (select_list 19 0 s) = Z.min 19 (Z.log2 s).
Proof.
  intros Hs. change (bucket s = Z.min 19 (Z.log2 s)).
  destruct (select_list_spec 19 0 s Hs ltac:(lia) eq_refl) as (Hk & Hsnd & Hlt & Hge).
  unfold bucket. set (k := fst (select_list 19 0 s)) in *. rewrite Z.sub_0_r in *.
  destruct (Z.eq_dec s 0) as [->|Hs0].
  - assert (k = 0).
    { destruct (Z.eq_dec k 0); [assumption|]. specialize (Hge ltac:(lia)).
      pose proof (Z.pow_pos_nonneg 2 k ltac:(lia) ltac:(lia)). lia. }
    subst k. rewrite H. reflexivity.
  - assert (H2k : 2 ^ k <= s).
    { destruct (Z.eq_dec k 0) as [E|E]; [rewrite E; change (2 ^ 0) with 1; lia|].
      apply Hge. lia. }
    destruct (Z.eq_dec k 19) as [E|E].
    + rewrite E in *. apply Z.log2_le_pow2 in H2k; [|lia]. lia.
    + specialize (Hlt ltac:(lia)). rewrite Hsnd in Hlt.
      pose proof (Z.pow_pos_nonneg 2 k ltac:(lia) ltac:(lia)) as Hp.
      assert (Hlt' : s < 2 ^ (k + 1)).
      { replace (k + 1) with (Z.succ k) by lia. rewrite Z.pow_succ_r by lia.
        pose proof (Z.div_mod s (2 ^ k) ltac:(lia)) as D.
        pose proof (Z.mod_pos_bound s (2 ^ k) ltac:(lia)) as M. nia. }
      rewrite (Z.log2_unique s k) by lia. lia.
Qed.

Lemma size_class_is_log2_witness :
  0 <= 4072 /\ fst (select_list 19 0 4072) = Z.min 19 (Z.log2 4072).
Proof. split; [discriminate|]. apply (size_class_is_log2 4072). discriminate. Defined.

(** ** The adjusted block size *)

Lemma adjust_size_bounds n :
  0 < n -> n + 15 < 2 ^ 32 ->
  adjust_size n mod 8 = 0 /\ 16 <= adjust_size n /\
  n + DSIZE <= adjust_size n /\ adjust_size n <= Z.max 16 (n + 15).
Proof.
  intros Hn Hb. split; [apply adjust_size_mod8|].
  unfold adjust_size, DSIZE. destruct (Z.leb_spec n 8) as [C|C]; [lia|].
  rewrite (wrap32_small (n + 8 + (8 - 1))) by lia.
  pose proof (Z.div_mod (n + 8 + (8 - 1)) 8 ltac:(lia)) as D.
  pose proof (Z.mod_pos_bound (n + 8 + (8 - 1)) 8 ltac:(lia)) as M.
  rewrite wrap32_small by lia. lia.
Qed.

(** X4.  For a request of [n] bytes that does not overflow, the adjusted
    block size is a multiple of 8, at least 16, holds the payload and the 8
    bytes of header and footer, and wastes less than 8 bytes beyond them. *)
Theorem adjusted_size_fits n :
  0 < n -> n + 15 < 2 ^ 32 ->
  adjust_size n mod 8 = 0 /\ 16 <= adjust_size n /\
  n + DSIZE <= adjust_size n /\ adjust_size n <= Z.max 16 (n + 15).
Proof. intros Hn Hb. apply (adjust_size_bounds n Hn Hb). Qed.

Lemma adjusted_size_fits_witness :
  (0 < 100 /\ 100 + 15 < 2 ^ 32) /\
  adjust_size 100 mod 8 = 0 /\ 16 <= adjust_size 100 /\
  100 + DSIZE <= adjust_size 100 /\ adjust_size 100 <= Z.max 16 (100 + 15).
Proof.
  assert (H : 0 < 100 /\ 100 + 15 < 2 ^ 32) by (split; reflexivity).
  split; [exact H|]. destruct H as (H1 & H2). exact (adjusted_size_fits 100 H1 H2).
Defined.

(** X5.  For a request within 15 bytes of 2^32 the 32-bit sum wraps around:
    the adjusted size is 0 or 8, less than any block. *)
Theorem adjusted_size_wraps n :
  2 ^ 32 - 15 <= n < 2 ^ 32 -> adjust_size n = 0 \/ adjust_size n = 8.
Proof.
  intros Hn. unfold adjust_size, DSIZE. change (2 ^ 32) with 4294967296 in *.
  destruct (Z.leb_spec n 8) as [C|_]; [lia|].
  assert (E : wrap32 (n + 8 + (8 - 1)) = n + 15 - 4294967296).
  { unfold wrap32. change (2 ^ 32) with 4294967296.
    replace (n + 8 + (8 - 1)) with ((n + 15 - 4294967296) + 1 * 4294967296) by lia.
    rewrite Z.mod_add by lia. apply Z.mod_small. lia. }
  rewrite E.
  assert (H : (n + 15 - 4294967296) / 8 = 0 \/ (n + 15 - 4294967296) / 8 = 1).
  { pose proof (Z.div_mod (n + 15 - 4294967296) 8 ltac:(lia)) as D.
    pose proof (Z.mod_pos_bound (n + 15 - 4294967296) 8 ltac:(lia)) as M. lia. }
  destruct H as [-> | ->]; [left|right]; reflexivity.
Qed.

Lemma adjusted_size_wraps_witness :
  2 ^ 32 - 15 <= 4294967295 < 2 ^ 32 /\
  (adjust_size 4294967295 = 0 \/ adjust_size 4294967295 = 8).
Proof.
  assert (H : 2 ^ 32 - 15 <= 4294967295 < 2 ^ 32) by (split; [discriminate|reflexivity]).
  split; [exact H|]. exact (adjusted_size_wraps 4294967295 H).
Defined.

(** ** The payloads of allocated blocks are left alone *)

Lemma keeps_refl st A : keeps st st A.
Proof. intros b c _ _ _. reflexivity. Qed.

Lemma keeps_trans st1 st2 st3 A : keeps st1 st2 A -> keeps st2 st3 A -> keeps st1 st3 A.
Proof. intros H1 H2 b c Hb H3 H4. rewrite (H2 b c), (H1 b c); auto. Qed.

Lemma keeps_sub st st' (A B : block -> Prop) :
  (forall b, B b -> A b) -> keeps st st' A -> keeps st st' B.
Proof. intros HAB H b c Hb. apply H. auto. Qed.

Lemma keeps_set_list st l p A : keeps st (set_list st l p) A.
Proof. intros b c _ _ _. apply GET_set_list. Qed.

(** A word written outside the payloads of [A]. *)
Lemma keeps_write st w v A :
  (forall b, A b -> w + 4 <= b_ptr b \/ b_ptr b + b_size b - DSIZE <= w) ->
  keeps st (CLEAR_PUT st w v) A.
Proof.
  intros H b c Hb H1 H2. apply GET_CLEAR_PUT_other. specialize (H b Hb). lia.
Qed.

Lemma keeps_PUT st w v A :
  (forall b, A b -> w + 4 <= b_ptr b \/ b_ptr b + b_size b - DSIZE <= w) ->
  keeps st (PUT st w v) A.
Proof. intros H. rewrite PUT_eq. apply keeps_write. exact H. Qed.

(** The words of a block, from its header to the header of the next
    block, are outside the payloads of the other blocks. *)
Lemma window_outside st bl f b w :
  heap_layout st bl -> In f bl -> In b bl -> b <> f ->
  b_ptr f - 4 <= w -> w + 4 <= b_ptr f + b_size f ->
  w + 4 <= b_ptr b \/ b_ptr b + b_size b - DSIZE <= w.
Proof.
  intros HL Hf Hb Hne H1 H2. unfold DSIZE.
  destruct (layout_sep _ _ _ _ _ _ (hl_blocks _ _ HL) Hb Hf) as [E|[E|E]];
    [contradiction|lia|lia].
Qed.

(** The link words of a free block are outside the payloads of the
    allocated blocks. *)
Lemma link_outside st bl x s w b :
  heap_layout st bl -> free_in bl x s -> w = x \/ w = x + 4 ->
  allocated_in bl b -> w + 4 <= b_ptr b \/ b_ptr b + b_size b - DSIZE <= w.
Proof.
  intros HL [t Hx] Hw [Hb Ha].
  pose proof (heap_block _ _ _ HL Hx) as (Hs & _). cbn [b_size] in Hs.
  apply (window_outside st bl (mkBlock x s 0 t) b w HL Hx Hb).
  - intros E. subst b. discriminate Ha.
  - cbn [b_ptr]. lia.
  - cbn [b_ptr b_size]. lia.
Qed.

Lemma remove_node_keeps st bl N x s :
  heap_with st bl N -> N x s -> keeps st (remove_node st x) (allocated_in bl).
Proof.
  intros HW Hx. pose proof (heap_with_nodes_ok _ _ _ HW) as HNok.
  pose proof (heap_node_size _ _ _ _ _ HW Hx) as Hsz.
  destruct HW as (HL & HK & HN).
  rewrite (remove_node_eq st N x s HK HNok Hx Hsz).
  assert (Hp : PRECEDE st x <> NULL -> forall b, allocated_in bl b ->
               PRECEDE st x + 4 + 4 <= b_ptr b \/ b_ptr b + b_size b - DSIZE <= PRECEDE st x + 4).
  { intros Hne b Hb. destruct (lk_precede _ _ HK x s Hx Hne) as (s' & Hs' & _).
    apply (link_outside st bl (PRECEDE st x) s' _ b HL (HN _ _ Hs')); auto. }
  assert (Hs : SUCCEED st x <> NULL -> forall b, allocated_in bl b ->
               SUCCEED st x + 4 <= b_ptr b \/ b_ptr b + b_size b - DSIZE <= SUCCEED st x).
  { intros Hne b Hb. destruct (lk_succeed _ _ HK x s Hx Hne) as (s' & Hs' & _).
    apply (link_outside st bl (SUCCEED st x) s' _ b HL (HN _ _ Hs')); auto. }
  destruct (Z.eqb_spec (PRECEDE st x) NULL) as [Ep|Ep];
    destruct (Z.eqb_spec (SUCCEED st x) NULL) as [Es|Es].
  - apply keeps_set_list.
  - apply keeps_write. auto.
  - eapply keeps_trans; [apply keeps_write; auto|apply keeps_set_list].
  - eapply keeps_trans; apply keeps_write; auto.
Qed.

Lemma insert_node_keeps fuel st bl N x s st' :
  heap_with st bl N -> free_in bl x s -> insert_node fuel st x s = Some st' ->
  keeps st st' (allocated_in bl).
Proof.
  intros HW Hx H. pose proof (heap_with_nodes_ok _ _ _ HW) as HNok.
  pose proof (fun h sh => heap_node_size st bl N h sh HW) as Hsz.
  destruct HW as (HL & HK & HN).
  assert (Hs : 0 <= s < 2 ^ 32).
  { pose proof (nd_size _ (heap_nodes_ok _ _ _ HL (fun y t H => H)) x s Hx).
    change (2 ^ 31) with 2147483648 in *. change (2 ^ 32) with 4294967296. lia. }
  rewrite (insert_node_eq fuel st N x s st' HK HNok Hs Hsz H).
  assert (Hw : forall w, w = x \/ w = x + 4 -> forall b, allocated_in bl b ->
               w + 4 <= b_ptr b \/ b_ptr b + b_size b - DSIZE <= w).
  { intros w Hw b Hb. apply (link_outside st bl x s w b HL Hx Hw Hb). }
  destruct (Z.eqb_spec (FREE_SEG_LISTS st (bucket s)) NULL) as [E|E].
  - eapply keeps_trans; [|apply keeps_set_list].
    eapply keeps_trans; apply keeps_write; apply Hw; auto.
  - destruct (lk_head st N HK (bucket s) (bucket_range s ltac:(lia)) E) as (sh & Hh & _).
    eapply keeps_trans; [|apply keeps_set_list].
    eapply keeps_trans; [eapply keeps_trans|]; apply keeps_write.
    + apply Hw; auto.
    + intros b Hb.
      apply (link_outside st bl (FREE_SEG_LISTS st (bucket s)) sh _ b HL (HN _ _ Hh)); auto.
    + apply Hw; auto.
Qed.

(** *** The branches of [merge], as writes *)

Ltac word_side :=
  first [ assumption | left; reflexivity | right; reflexivity | apply tag_of_bit
        | change (2 ^ 32) with 4294967296; change (2 ^ 31) with 2147483648 in *; lia ].

Lemma merge_next_eq st l1 p n r :
  heap_with st (l1 ++ p :: n :: r) (without (free_in (l1 ++ p :: n :: r)) (b_ptr p)) ->
  b_alloc p = 0 -> b_alloc n = 0 ->
  fst (fst (merge_next st (b_ptr p) (b_size p))) =
  PUT (PUT (remove_node st (b_ptr n)) (HEAD (b_ptr p)) (PACK (b_size p + b_size n) 0))
      (b_ptr p + (b_size p + b_size n) - 8) (PACK (b_size p + b_size n) 0).
Proof.
  intros HW Hp Hn. pose proof HW as (HL & HK & HN).
  destruct (next_header_block _ _ _ _ _ HL) as [En Hnok].
  pose proof (block_bounds _ _ _ _ HL) as (Bp1 & Bp2 & Bp3 & Bp4 & Bp5).
  assert (HL' : heap_layout st ((l1 ++ [p]) ++ n :: r))
    by (rewrite <- app_assoc; exact HL).
  pose proof (block_bounds _ _ _ _ HL') as (Bn1 & Bn2 & Bn3 & Bn4 & Bn5).
  unfold merge_next. cbv zeta. rewrite En.
  assert (Nn : without (free_in (l1 ++ p :: n :: r)) (b_ptr p) (b_ptr n) (b_size n)).
  { destruct (heap_layout_split _ _ _ _ HL) as (_ & _ & L2).
    cbn [layout] in L2. destruct L2 as (Hnp & _).
    split; [|lia]. apply free_in_app. right. apply free_in_cons. right.
    apply free_in_cons. left. auto. }
  pose proof (remove_node_heap _ _ _ _ _ HW Nn) as HW1.
  generalize dependent (remove_node st (b_ptr n)). intros st1 HW1.
  pose proof HW1 as (HL1 & _).
  destruct (next_header_block _ _ _ _ _ HL1) as [En1 Hnok1].
  rewrite En1. rewrite (proj1 (block_header_fields _ _ Hnok1)).
  rewrite wrap32_small
    by (change (2 ^ 32) with 4294967296; change (2 ^ 31) with 2147483648 in *; lia).
  destruct (heap_layout_split _ _ _ _ HL1) as (_ & Hpok1 & _).
  assert (Hsm : (b_size p + b_size n) mod 8 = 0).
  { rewrite Z.add_mod, Bp5, Bn5 by lia. reflexivity. }
  assert (Tp : tagbit (b_tag p)) by (destruct Hpok1 as (_ & _ & _ & T & _); exact T).
  assert (EF : FOOT (PUT st1 (HEAD (b_ptr p)) (PACK (b_size p + b_size n) 0)) (b_ptr p)
               = b_ptr p + (b_size p + b_size n) - 8).
  { unfold FOOT, GET_SIZE, DSIZE.
    rewrite header_fields_PUT by word_side.
    rewrite size_of_word by word_side. reflexivity. }
  rewrite EF. reflexivity.
Qed.

Lemma merge_prev_eq st l0 c p l2 :
  heap_with st (l0 ++ c :: p :: l2) (without (free_in (l0 ++ c :: p :: l2)) (b_ptr p)) ->
  b_alloc c = 0 -> b_alloc p = 0 ->
  fst (fst (merge_prev st (b_ptr p) (b_size p))) =
  PUT (PUT (remove_node st (b_ptr c)) (b_ptr p + b_size p - 8)
           (PACK (b_size p + b_size c) 0))
      (HEAD (b_ptr c)) (PACK (b_size p + b_size c) 0).
Proof.
  intros HW Hc Hp. pose proof HW as (HL & HK & HN).
  pose proof (prev_ptr_block _ _ _ _ _ HL) as Ec.
  pose proof (block_bounds _ _ _ _ HL) as (Bc1 & Bc2 & Bc3 & Bc4 & Bc5).
  assert (HL' : heap_layout st ((l0 ++ [c]) ++ p :: l2))
    by (rewrite <- app_assoc; exact HL).
  pose proof (block_bounds _ _ _ _ HL') as (Bp1 & Bp2 & Bp3 & Bp4 & Bp5).
  destruct (heap_layout_split _ _ _ _ HL) as (_ & _ & L2).
  cbn [layout] in L2. destruct L2 as (Hpc & _).
  unfold merge_prev. cbv zeta. rewrite Ec.
  assert (Nc : without (free_in (l0 ++ c :: p :: l2)) (b_ptr p) (b_ptr c) (b_size c)).
  { split; [|lia]. apply free_in_app. right. apply free_in_cons. left. auto. }
  pose proof (remove_node_heap _ _ _ _ _ HW Nc) as HW1.
  generalize dependent (remove_node st (b_ptr c)). intros st1 HW1.
  pose proof HW1 as (HL1 & _).
  rewrite (prev_ptr_block _ _ _ _ _ HL1).
  destruct (heap_layout_split _ _ _ _ HL1) as (_ & Hcok1 & L2').
  cbn [layout] in L2'. destruct L2' as (_ & Hpok1 & _).
  rewrite (proj1 (block_header_fields _ _ Hcok1)).
  rewrite wrap32_small
    by (change (2 ^ 32) with 4294967296; change (2 ^ 31) with 2147483648 in *; lia).
  assert (EF : FOOT st1 (b_ptr p) = b_ptr p + b_size p - 8).
  { unfold FOOT, DSIZE. rewrite (proj1 (block_header_fields _ _ Hpok1)). reflexivity. }
  rewrite EF.
  assert (Fc : size_of (GET st1 (b_ptr p - 8)) = b_size c).
  { destruct Hcok1 as (_ & _ & _ & _ & _ & Hf & _). unfold DSIZE in Hf.
    replace (b_ptr p - 8) with (b_ptr c + b_size c - 8) by lia. exact Hf. }
  assert (EP2 : PREV (PUT st1 (b_ptr p + b_size p - 8) (PACK (b_size p + b_size c) 0))
                     (b_ptr p) = b_ptr c).
  { unfold PREV, GET_SIZE, DSIZE. rewrite GET_PUT_other by lia. rewrite Fc. lia. }
  rewrite EP2. reflexivity.
Qed.

Lemma merge_both_write st l0 c p n r :
  heap_with st (l0 ++ c :: p :: n :: r)
            (without (free_in (l0 ++ c :: p :: n :: r)) (b_ptr p)) ->
  b_alloc c = 0 -> b_alloc p = 0 -> b_alloc n = 0 ->
  exists st2,
    keeps st st2 (allocated_in (l0 ++ c :: p :: n :: r)) /\
    fst (fst (merge_both st (b_ptr p) (b_size p))) =
      PUT (PUT st2 (HEAD (b_ptr c)) (PACK (b_size p + (b_size c + b_size n)) 0))
          (b_ptr n + b_size n - 8) (PACK (b_size p + (b_size c + b_size n)) 0).
Proof.
  intros HW Hc Hp Hn. pose proof HW as (HL & HK & HN).
  pose proof (prev_ptr_block _ _ _ _ _ HL) as Ec.
  pose proof (block_bounds _ _ _ _ HL) as (Bc1 & Bc2 & Bc3 & Bc4 & Bc5).
  assert (HL' : heap_layout st ((l0 ++ [c]) ++ p :: n :: r))
    by (rewrite <- app_assoc; exact HL).
  pose proof (block_bounds _ _ _ _ HL') as (Bp1 & Bp2 & Bp3 & Bp4 & Bp5).
  assert (HL'' : heap_layout st ((l0 ++ [c; p]) ++ n :: r))
    by (rewrite <- app_assoc; exact HL).
  pose proof (block_bounds _ _ _ _ HL'') as (Bn1 & Bn2 & Bn3 & Bn4 & Bn5).
  destruct (heap_layout_split _ _ _ _ HL) as (L1 & Hcok & L2).
  cbn [layout] in L2. destruct L2 as (Hpc & Hpok & Hnp & Hnok & L2).
  unfold merge_both. cbv zeta. rewrite Ec. clear Ec.
  (* unlink the predecessor *)
  assert (Nc : without (free_in (l0 ++ c :: p :: n :: r)) (b_ptr p) (b_ptr c) (b_size c)).
  { split; [|lia]. apply free_in_app. right. apply free_in_cons. left. auto. }
  pose proof (remove_node_heap _ _ _ _ _ HW Nc) as HW1.
  pose proof (remove_node_keeps _ _ _ _ _ HW Nc) as K1.
  clear HW HL HL' HL'' HK HN L1 L2 Hcok Hpok Hnok Nc.
  generalize dependent (remove_node st (b_ptr c)). intros st1 HW1 K1.
  pose proof HW1 as (HL1 & _).
  (* unlink the successor *)
  assert (HL1' : heap_layout st1 ((l0 ++ [c]) ++ p :: n :: r))
    by (rewrite <- app_assoc; exact HL1).
  destruct (next_header_block _ _ _ _ _ HL1') as [En1 _]. rewrite En1. clear En1.
  assert (Nn : without (without (free_in (l0 ++ c :: p :: n :: r)) (b_ptr p)) (b_ptr c)
                       (b_ptr n) (b_size n)).
  { split; [split|]; [|lia|lia]. apply free_in_app. right. apply free_in_cons. right.
    apply free_in_cons. right. apply free_in_cons. left. auto. }
  pose proof (remove_node_heap _ _ _ _ _ HW1 Nn) as HW2.
  pose proof (remove_node_keeps _ _ _ _ _ HW1 Nn) as K2.
  clear HW1 HL1 HL1' Nn.
  generalize dependent (remove_node st1 (b_ptr n)). intros st2 HW2 K2.
  exists st2. split; [exact (keeps_trans _ _ _ _ K1 K2)|].
  pose proof HW2 as (HL2 & _).
  assert (HL2' : heap_layout st2 ((l0 ++ [c]) ++ p :: n :: r))
    by (rewrite <- app_assoc; exact HL2).
  destruct (next_header_block _ _ _ _ _ HL2') as [En2 Hnok2].
  destruct (heap_layout_split _ _ _ _ HL2) as (L1' & Hcok2 & L2').
  cbn [layout] in L2'. destruct L2' as (_ & Hpok2 & _ & _ & L2').
  pose proof (proj1 (block_header_fields _ _ Hpok2)) as Gp.
  pose proof (proj1 (block_header_fields _ _ Hnok2)) as Gn.
  pose proof (proj1 (block_header_fields _ _ Hcok2)) as Gc.
  assert (Fc : size_of (GET st2 (b_ptr p - 8)) = b_size c).
  { destruct Hcok2 as (_ & _ & _ & _ & _ & Hf & _). unfold DSIZE in Hf.
    replace (b_ptr p - 8) with (b_ptr c + b_size c - 8) by lia. exact Hf. }
  rewrite En2, (prev_ptr_block _ _ _ _ _ HL2), Gc, Gn.
  rewrite (wrap32_small (b_size c + b_size n))
    by (change (2 ^ 32) with 4294967296; change (2 ^ 31) with 2147483648 in *; lia).
  rewrite wrap32_small
    by (change (2 ^ 32) with 4294967296; change (2 ^ 31) with 2147483648 in *; lia).
  unfold GET_SIZE, HEAD, WSIZE in Gp, Gn.
  generalize dependent (b_size p + (b_size c + b_size n)). intros size.
  assert (EN3 : NEXT (PUT st2 (HEAD (b_ptr c)) (PACK size 0)) (b_ptr p) = b_ptr n).
  { unfold NEXT, GET_SIZE, HEAD, WSIZE. rewrite GET_PUT_other by lia.
    rewrite Gp. lia. }
  rewrite EN3.
  assert (EF : FOOT (PUT st2 (HEAD (b_ptr c)) (PACK size 0)) (b_ptr n)
               = b_ptr n + b_size n - 8).
  { unfold FOOT, GET_SIZE, DSIZE, HEAD, WSIZE. rewrite GET_PUT_other by lia.
    rewrite Gn. reflexivity. }
  rewrite EF.
  assert (EP4 : PREV (PUT (PUT st2 (HEAD (b_ptr c)) (PACK size 0))
                          (b_ptr n + b_size n - 8) (PACK size 0)) (b_ptr p) = b_ptr c).
  { unfold PREV, GET_SIZE, DSIZE, HEAD, WSIZE.
    rewrite !GET_PUT_other by lia. rewrite Fc. lia. }
  rewrite EP4. reflexivity.
Qed.

(** *** [merge] and [mm_free] *)

Ltac alloc_sub :=
  let b := fresh "b" in
  let Hin := fresh "Hin" in
  let Ha := fresh "Ha" in
  unfold allocated_in; intros b [Hin Ha]; split; [|exact Ha];
  repeat rewrite in_app_iff in *; cbn [In] in *;
  intuition (subst; cbn [b_alloc] in *; congruence).

Lemma not_free_block b f : allocated_in [b] b -> b_alloc f = 0 -> b <> f.
Proof. intros [_ Ha] Hf E. subst. congruence. Qed.

Lemma merge_next_keeps st l1 p n r :
  heap_with st (l1 ++ p :: n :: r) (without (free_in (l1 ++ p :: n :: r)) (b_ptr p)) ->
  b_alloc p = 0 -> b_alloc n = 0 ->
  keeps st (fst (fst (merge_next st (b_ptr p) (b_size p))))
        (allocated_in (l1 ++ p :: n :: r)).
Proof.
  intros HW Hp Hn. rewrite (merge_next_eq _ _ _ _ _ HW Hp Hn).
  pose proof HW as (HL & _).
  destruct (heap_layout_split _ _ _ _ HL) as (_ & (Hps & _) & L2).
  cbn [layout] in L2. destruct L2 as (Hnp & (Hns & _) & _).
  assert (Nn : without (free_in (l1 ++ p :: n :: r)) (b_ptr p) (b_ptr n) (b_size n)).
  { split; [|lia]. apply free_in_app. right. apply free_in_cons. right.
    apply free_in_cons. left. auto. }
  eapply keeps_trans; [apply (remove_node_keeps _ _ _ _ _ HW Nn)|].
  eapply keeps_trans; apply keeps_PUT; intros b [Hb Ha].
  - apply (window_outside st _ p b _ HL); [apply in_elt|exact Hb| | |];
      [intros E; subst; congruence|unfold HEAD, WSIZE; lia|unfold HEAD, WSIZE; lia].
  - apply (window_outside st _ n b _ HL);
      [apply in_or_app; right; right; left; reflexivity|exact Hb| | |];
      [intros E; subst; congruence|lia|lia].
Qed.

Lemma merge_prev_keeps st l0 c p l2 :
  heap_with st (l0 ++ c :: p :: l2) (without (free_in (l0 ++ c :: p :: l2)) (b_ptr p)) ->
  b_alloc c = 0 -> b_alloc p = 0 ->
  keeps st (fst (fst (merge_prev st (b_ptr p) (b_size p))))
        (allocated_in (l0 ++ c :: p :: l2)).
Proof.
  intros HW Hc Hp. rewrite (merge_prev_eq _ _ _ _ _ HW Hc Hp).
  pose proof HW as (HL & _).
  destruct (heap_layout_split _ _ _ _ HL) as (_ & (Hcs & _) & L2).
  cbn [layout] in L2. destruct L2 as (Hpc & (Hps & _) & _).
  assert (Nc : without (free_in (l0 ++ c :: p :: l2)) (b_ptr p) (b_ptr c) (b_size c)).
  { split; [|lia]. apply free_in_app. right. apply free_in_cons. left. auto. }
  eapply keeps_trans; [apply (remove_node_keeps _ _ _ _ _ HW Nc)|].
  eapply keeps_trans; apply keeps_PUT; intros b [Hb Ha].
  - apply (window_outside st _ p b _ HL);
      [apply in_or_app; right; right; left; reflexivity|exact Hb| | |];
      [intros E; subst; congruence|lia|lia].
  - apply (window_outside st _ c b _ HL); [apply in_elt|exact Hb| | |];
      [intros E; subst; congruence|unfold HEAD, WSIZE; lia|unfold HEAD, WSIZE; lia].
Qed.

Lemma merge_both_keeps st l0 c p n r :
  heap_with st (l0 ++ c :: p :: n :: r)
            (without (free_in (l0 ++ c :: p :: n :: r)) (b_ptr p)) ->
  b_alloc c = 0 -> b_alloc p = 0 -> b_alloc n = 0 ->
  keeps st (fst (fst (merge_both st (b_ptr p) (b_size p))))
        (allocated_in (l0 ++ c :: p :: n :: r)).
Proof.
  intros HW Hc Hp Hn.
  destruct (merge_both_write _ _ _ _ _ _ HW Hc Hp Hn) as (st2 & K2 & ->).
  pose proof HW as (HL & _).
  destruct (heap_layout_split _ _ _ _ HL) as (_ & (Hcs & _) & L2).
  cbn [layout] in L2. destruct L2 as (Hpc & (Hps & _) & Hnp & (Hns & _) & _).
  eapply keeps_trans; [exact K2|].
  eapply keeps_trans; apply keeps_PUT; intros b [Hb Ha].
  - apply (window_outside st _ c b _ HL); [apply in_elt|exact Hb| | |];
      [intros E; subst; congruence|unfold HEAD, WSIZE; lia|unfold HEAD, WSIZE; lia].
  - apply (window_outside st _ n b _ HL);
      [apply in_or_app; right; right; right; left; reflexivity|exact Hb| | |];
      [intros E; subst; congruence|lia|lia].
Qed.

Lemma merge_finish_keeps fuel st l1 b l2 ptr size st' q :
  heap_with st (l1 ++ b :: l2) (free_in (l1 ++ l2)) -> b_alloc b = 0 ->
  ptr = b_ptr b -> size = b_size b ->
  match insert_node fuel st ptr size with
  | Some st => Some (st, ptr)
  | None => None
  end = Some (st', q) ->
  keeps st st' (allocated_in (l1 ++ l2)).
Proof.
  intros HW Hb -> -> H.
  destruct (insert_node fuel st (b_ptr b) (b_size b)) as [st2|] eqn:E; [|discriminate].
  injection H as <- <-.
  assert (Hfree : free_in (l1 ++ b :: l2) (b_ptr b) (b_size b)).
  { apply free_in_app. right. apply free_in_cons. left. auto. }
  eapply keeps_sub; [|apply (insert_node_keeps _ _ _ _ _ _ _ HW Hfree E)].
  alloc_sub.
Qed.

Lemma merge_keeps fuel st l1 p l2 st' q :
  heap st (l1 ++ p :: l2) -> b_alloc p = 0 -> merge_slips l1 l2 = false ->
  merge fuel st (b_ptr p) = Some (st', q) ->
  keeps st st' (allocated_in (l1 ++ p :: l2)).
Proof.
  intros HW Hp Hslip H. pose proof HW as (HL & _).
  destruct (merge_reads _ _ _ _ HL) as (Epa & Ept & Ena & Esz & Fpa & Fpt & Fna).
  unfold merge in H. cbv zeta in H. rewrite Epa, Ept, Ena, Esz in H.
  pose proof (remove_mid_heap _ _ _ _ HW Hp) as HW1.
  assert (K1 : keeps st (remove_node st (b_ptr p)) (allocated_in (l1 ++ p :: l2))).
  { apply (remove_node_keeps st _ _ (b_ptr p) (b_size p) HW).
    apply free_in_app. right. apply free_in_cons. left. auto. }
  clear Epa Ept Ena Esz.
  generalize dependent (remove_node st (b_ptr p)). intros st1 H HW1 K1.
  rewrite merge_slips_eq in Hslip.
  assert (E : (if negb (prev_tag_of l1 =? 0) then 1 else 1) = 1)
    by (destruct (negb (prev_tag_of l1 =? 0)); reflexivity).
  destruct Fna as [Ena|Ena]; rewrite Ena in *.
  - destruct (next_alloc_free _ Ena) as (n & r & -> & Hn).
    change (0 =? 0) with true in *. cbn [negb andb] in *.
    destruct Fpa as [Epa|Epa]; rewrite Epa in *;
      [destruct Fpt as [Ept|Ept]; rewrite Ept in *|].
    + change (0 =? 0) with true in *. cbn [negb andb] in *.
      destruct (prev_alloc_free _ Epa) as (l0 & c & -> & Hc & Hct).
      rewrite <- app_assoc in *. cbn [app] in *.
      destruct (merge_both_heap st1 l0 c p n r HW1 Hc Hp Hn) as (HW3 & E1 & E2).
      pose proof (merge_both_keeps st1 l0 c p n r HW1 Hc Hp Hn) as K3.
      destruct (merge_both st1 (b_ptr p) (b_size p)) as [[st3 ptr] size].
      cbn [fst snd] in *.
      pose proof (merge_finish_keeps fuel st3 l0 (joined c (joined p n)) r ptr size st' q
                    HW3 eq_refl E1 E2 H) as K4.
      eapply keeps_trans; [exact (keeps_trans _ _ _ _ K1 K3)|].
      eapply keeps_sub; [|exact K4]. alloc_sub.
    + change (0 =? 0) with true in *. change (2 =? 0) with false in *.
      cbn [negb andb] in *. change (1 =? 0) with false in H. cbn [negb andb] in H.
      destruct (merge_next_heap st1 l1 p n r HW1 Hp Hn) as (HW3 & E1 & E2).
      pose proof (merge_next_keeps st1 l1 p n r HW1 Hp Hn) as K3.
      destruct (merge_next st1 (b_ptr p) (b_size p)) as [[st3 ptr] size].
      cbn [fst snd] in *.
      pose proof (merge_finish_keeps fuel st3 l1 (joined p n) r ptr size st' q
                    HW3 eq_refl E1 E2 H) as K4.
      eapply keeps_trans; [exact (keeps_trans _ _ _ _ K1 K3)|].
      eapply keeps_sub; [|exact K4]. alloc_sub.
    + change (1 =? 0) with false in *. cbn [negb andb] in *.
      rewrite E in H. change (1 =? 0) with false in H. cbn [negb andb] in H.
      destruct (merge_next_heap st1 l1 p n r HW1 Hp Hn) as (HW3 & E1 & E2).
      pose proof (merge_next_keeps st1 l1 p n r HW1 Hp Hn) as K3.
      destruct (merge_next st1 (b_ptr p) (b_size p)) as [[st3 ptr] size].
      cbn [fst snd] in *.
      pose proof (merge_finish_keeps fuel st3 l1 (joined p n) r ptr size st' q
                    HW3 eq_refl E1 E2 H) as K4.
      eapply keeps_trans; [exact (keeps_trans _ _ _ _ K1 K3)|].
      eapply keeps_sub; [|exact K4]. alloc_sub.
  - change (1 =? 0) with false in *. cbn [negb andb] in *.
    destruct Fpa as [Epa|Epa]; rewrite Epa in *;
      [destruct Fpt as [Ept|Ept]; rewrite Ept in *|].
    + change (0 =? 0) with true in *. cbn [negb andb] in *.
      destruct (prev_alloc_free _ Epa) as (l0 & c & -> & Hc & Hct).
      rewrite <- app_assoc in *. cbn [app] in *.
      destruct (merge_prev_heap st1 l0 c p l2 HW1 Hc Hp) as (HW3 & E1 & E2).
      pose proof (merge_prev_keeps st1 l0 c p l2 HW1 Hc Hp) as K3.
      destruct (merge_prev st1 (b_ptr p) (b_size p)) as [[st3 ptr] size].
      cbn [fst snd] in *.
      pose proof (merge_finish_keeps fuel st3 l0 (joined c p) l2 ptr size st' q
                    HW3 eq_refl E1 E2 H) as K4.
      eapply keeps_trans; [exact (keeps_trans _ _ _ _ K1 K3)|].
      eapply keeps_sub; [|exact K4]. alloc_sub.
    + change (0 =? 0) with true in *. change (2 =? 0) with false in *.
      cbn [negb andb] in *. discriminate Hslip.
    + change (1 =? 0) with false in *. cbn [negb andb] in *.
      injection H as <- <-. apply keeps_refl.
Qed.

Lemma keeps_region st st' (A B : block -> Prop) :
  (forall b, B b -> exists b', A b' /\ b_ptr b' = b_ptr b /\ b_size b' = b_size b) ->
  keeps st st' A -> keeps st st' B.
Proof.
  intros HAB H b c Hb H1 H2. destruct (HAB b Hb) as (b' & Hb' & E1 & E2).
  apply (H b' c Hb'); rewrite ?E1, ?E2; assumption.
Qed.

(** The words of a block are outside the payloads of the blocks around it. *)
Lemma around_outside st l1 p l2 b w :
  heap_layout st (l1 ++ p :: l2) -> In b (l1 ++ l2) ->
  b_ptr p - 4 <= w -> w + 4 <= b_ptr p + b_size p ->
  w + 4 <= b_ptr b \/ b_ptr b + b_size b - DSIZE <= w.
Proof.
  intros HL Hb H1 H2. destruct (heap_layout_split _ _ _ _ HL) as (L1 & _ & L2).
  unfold DSIZE. apply in_app_or in Hb as [Hb|Hb].
  - pose proof (proj2 (layout_bounds _ _ _ _ L1) b Hb). lia.
  - pose proof (proj2 (layout_bounds _ _ _ _ L2) b Hb). lia.
Qed.

Lemma allocated_untag_head l1 p l2 b :
  allocated_in (l1 ++ l2) b ->
  exists b', allocated_in (l1 ++ freed p :: untag_head l2) b' /\
             b_ptr b' = b_ptr b /\ b_size b' = b_size b.
Proof.
  intros [Hb Ha]. apply in_app_or in Hb as [Hb|Hb].
  - exists b. split; [split; [apply in_or_app; auto|exact Ha]|auto].
  - destruct l2 as [|n r]; [destruct Hb|]. destruct Hb as [<-|Hb].
    + exists (untag n). split; [split|auto].
      * apply in_or_app. right. right. left. reflexivity.
      * exact Ha.
    + exists b. split; [split; [|exact Ha]|auto].
      apply in_or_app. right. right. right. exact Hb.
Qed.

(** [mm_free] leaves the payloads of the other allocated blocks alone. *)
Lemma mm_free_keeps fuel st l1 p l2 st' :
  heap st (l1 ++ p :: l2) -> b_alloc p = 1 -> merge_slips l1 l2 = false ->
  mm_free fuel st (b_ptr p) = Some st' ->
  keeps st st' (allocated_in (l1 ++ l2)).
Proof.
  intros HW Hp Hslip H. pose proof HW as (HL & _).
  destruct (heap_layout_split _ _ _ _ HL) as (_ & Hb & _).
  destruct (block_header_fields _ _ Hb) as (Esz & _).
  pose proof (block_bounds _ _ _ _ HL) as (B1 & B2 & B3 & B4 & B5).
  assert (Hout : forall w, b_ptr p - 4 <= w -> w + 4 <= b_ptr p + b_size p ->
                 forall b, allocated_in (l1 ++ l2) b ->
                 w + 4 <= b_ptr b \/ b_ptr b + b_size b - DSIZE <= w).
  { intros w H1 H2 b [Hin _]. apply (around_outside st l1 p l2 b w HL Hin H1 H2). }
  unfold mm_free in H. cbv zeta in H. rewrite Esz in H.
  pose proof (unset_tag_next_heap _ _ _ _ _ HW) as HW1.
  assert (K1 : keeps st (UNSET_TAG st (HEAD (NEXT st (b_ptr p)))) (allocated_in (l1 ++ l2))).
  { rewrite (next_ptr _ _ _ _ HL), UNSET_TAG_eq. apply keeps_write.
    apply Hout; unfold HEAD, WSIZE; lia. }
  generalize dependent (UNSET_TAG st (HEAD (NEXT st (b_ptr p)))). intros st1 H HW1 K1.
  pose proof (mark_free_heap _ _ _ _ _ HW1 Hp) as HW2. cbv zeta in HW2.
  assert (K2 : keeps st1
                 (PUT (PUT st1 (HEAD (b_ptr p)) (PACK (b_size p) 0))
                      (FOOT (PUT st1 (HEAD (b_ptr p)) (PACK (b_size p) 0)) (b_ptr p))
                      (PACK (b_size p) 0))
                 (allocated_in (l1 ++ l2))).
  { assert (EF : FOOT (PUT st1 (HEAD (b_ptr p)) (PACK (b_size p) 0)) (b_ptr p)
                 = b_ptr p + b_size p - 8).
    { unfold FOOT, GET_SIZE, DSIZE. rewrite header_fields_PUT by word_side.
      rewrite size_of_word by word_side. reflexivity. }
    rewrite EF. eapply keeps_trans; apply keeps_PUT; apply Hout; unfold HEAD, WSIZE; lia. }
  generalize dependent
    (PUT (PUT st1 (HEAD (b_ptr p)) (PACK (b_size p) 0))
         (FOOT (PUT st1 (HEAD (b_ptr p)) (PACK (b_size p) 0)) (b_ptr p))
         (PACK (b_size p) 0)).
  intros st2 H HW2 K2.
  assert (HW3 : heap_with st2 (l1 ++ freed p :: untag_head l2)
                          (free_in (l1 ++ untag_head l2))).
  { eapply heap_with_ext; [|exact HW2].
    intros x s. rewrite !free_in_app, free_in_cons, free_in_untag_head. split.
    - intros [Hx|[(_ & _ & Hx)|Hx]]; [auto|congruence|auto].
    - intros [Hx|Hx]; auto. }
  assert (Hfree : free_in (l1 ++ freed p :: untag_head l2) (b_ptr p) (b_size p)).
  { apply free_in_app. right. apply free_in_cons. left. auto. }
  destruct (insert_node fuel st2 (b_ptr p) (b_size p)) as [st3|] eqn:E3; [|discriminate].
  pose proof (insert_node_keeps _ _ _ _ _ _ _ HW3 Hfree E3) as K3.
  pose proof (insert_mid_heap fuel st2 l1 (freed p) (untag_head l2) st3 HW3 eq_refl E3) as HW4.
  destruct (merge fuel st3 (b_ptr p)) as [[st4 q]|] eqn:E4; [|discriminate].
  injection H as <-.
  rewrite <- merge_slips_untag_head in Hslip.
  pose proof (merge_keeps fuel st3 l1 (freed p) (untag_head l2) st4 q HW4 eq_refl Hslip E4)
    as K4.
  eapply keeps_trans; [exact (keeps_trans _ _ _ _ K1 K2)|].
  eapply keeps_region; [apply allocated_untag_head|].
  exact (keeps_trans _ _ _ _ K3 K4).
Qed.

(** [insert_node] makes the block the head of the list of its class. *)
Lemma insert_node_head fuel st bl N x s st' :
  heap_with st bl N -> free_in bl x s -> insert_node fuel st x s = Some st' ->
  FREE_SEG_LISTS st' (bucket s) = x /\
  forall i, i <> bucket s -> FREE_SEG_LISTS st' i = FREE_SEG_LISTS st i.
Proof.
  intros HW Hx H. pose proof (heap_with_nodes_ok _ _ _ HW) as HNok.
  pose proof (fun h sh => heap_node_size st bl N h sh HW) as Hsz.
  destruct HW as (HL & HK & HN).
  assert (Hs : 0 <= s < 2 ^ 32).
  { pose proof (nd_size _ (heap_nodes_ok _ _ _ HL (fun y t H => H)) x s Hx).
    change (2 ^ 31) with 2147483648 in *. change (2 ^ 32) with 4294967296. lia. }
  rewrite (insert_node_eq fuel st N x s st' HK HNok Hs Hsz H).
  destruct (FREE_SEG_LISTS st (bucket s) =? NULL); rewrite lists_set_list, Z.eqb_refl;
    (split; [reflexivity|]); intros i Hi; rewrite lists_set_list;
    (destruct (Z.eqb_spec i (bucket s)); [contradiction|]);
    rewrite ?lists_CLEAR_PUT; reflexivity.
Qed.

(** Releasing a block keeps the other allocated blocks in the sequence. *)
Lemma released_allocated l1 p l2 a :
  In a (l1 ++ l2) -> b_alloc a = 1 ->
  exists a', In a' (released l1 p l2) /\
             b_ptr a' = b_ptr a /\ b_size a' = b_size a /\ b_alloc a' = 1.
Proof.
  intros Ha Hal. unfold released, coalesced.
  set (p1 := match untag_head l2 with
             | n :: _ => if b_alloc n =? 0 then joined (freed p) n else freed p
             | [] => freed p
             end).
  clearbody p1.
  assert (H2 : In a l2 ->
               exists a', In a' (if next_free (untag_head l2) then tl (untag_head l2)
                                 else untag_head l2) /\
                          b_ptr a' = b_ptr a /\ b_size a' = b_size a /\ b_alloc a' = 1).
  { intros Hin. destruct l2 as [|n r]; [destruct Hin|].
    cbn [untag_head next_free untag b_alloc tl]. destruct Hin as [<-|Hin].
    - rewrite Hal. change (1 =? 0) with false. cbv iota.
      exists (untag n). split; [left; reflexivity|auto].
    - exists a. split; [|auto]. destruct (b_alloc n =? 0); [exact Hin|right; exact Hin]. }
  rewrite prev_mergeable_eq.
  destruct (prev_alloc_of l1 =? 0) eqn:Epa; cbn [andb].
  - apply Z.eqb_eq in Epa. destruct (prev_alloc_free _ Epa) as (l0 & c & -> & Hc & _).
    assert (H1 : In a (l0 ++ [c]) -> In a l0).
    { intros Hin. apply in_app_or in Hin as [Hin|[<-|[]]]; [exact Hin|congruence]. }
    destruct (prev_tag_of (l0 ++ [c]) =? 0).
    + rewrite removelast_last. apply in_app_or in Ha as [Ha|Ha].
      * exists a. split; [apply in_or_app; left; auto|auto].
      * destruct (H2 Ha) as (a' & Ha' & E). exists a'.
        split; [apply in_or_app; right; right; exact Ha'|exact E].
    + apply in_app_or in Ha as [Ha|Ha].
      * exists a. split; [apply in_or_app; left; auto|auto].
      * destruct (H2 Ha) as (a' & Ha' & E). exists a'.
        split; [apply in_or_app; right; right; exact Ha'|exact E].
  - apply in_app_or in Ha as [Ha|Ha].
    + exists a. split; [apply in_or_app; left; auto|auto].
    + destruct (H2 Ha) as (a' & Ha' & E). exists a'.
      split; [apply in_or_app; right; right; exact Ha'|exact E].
Qed.

(** *** Unlinking and linking again *)

Lemma free_in_unlisted st l1 b l2 x s :
  heap_layout st (l1 ++ b :: l2) ->
  without (free_in (l1 ++ b :: l2)) (b_ptr b) x s <-> free_in (l1 ++ l2) x s.
Proof.
  intros HL. pose proof (hl_blocks _ _ HL) as Lb.
  change (l1 ++ b :: l2) with (l1 ++ [b] ++ l2) in *.
  rewrite <- (free_in_without_mid _ _ _ _ _ _ x s Lb). unfold without. split.
  - intros [H1 H2]. split; [exact H1|]. intros (b' & [<-|[]] & E). auto.
  - intros [H1 H2]. split; [exact H1|]. intros E. apply H2. exists b. split; [left; auto|auto].
Qed.

(** X6.  Unlinking a free block with [remove_node] and linking it again
    with [insert_node] leaves a well-formed heap with the same blocks; the
    block is then the head of the list of its size class, and no payload of
    an allocated block has been touched. *)
Theorem relinking_puts_block_at_head fuel st l1 b l2 :
  heap st (l1 ++ b :: l2) -> b_alloc b = 0 -> (0 < fuel)%nat ->
  exists st',
    insert_node fuel (remove_node st (b_ptr b)) (b_ptr b) (b_size b) = Some st' /\
    heap st' (l1 ++ b :: l2) /\
    FREE_SEG_LISTS st' (fst (select_list 19 0 (b_size b))) = b_ptr b /\
    keeps st st' (allocated_in (l1 ++ b :: l2)).
Proof.
  intros HW Hb Hf.
  assert (Hfree : free_in (l1 ++ b :: l2) (b_ptr b) (b_size b)).
  { apply free_in_app. right. apply free_in_cons. left. auto. }
  pose proof (remove_mid_heap _ _ _ _ HW Hb) as HW1.
  pose proof (remove_node_keeps st _ _ _ _ HW Hfree) as K1.
  generalize dependent (remove_node st (b_ptr b)). intros st1 HW1 K1.
  assert (HW2 : heap_with st1 (l1 ++ b :: l2) (free_in (l1 ++ l2))).
  { eapply heap_with_ext; [|exact HW1].
    intros x s. apply (free_in_unlisted st _ _ _ x s (proj1 HW)). }
  destruct (insert_node_total fuel st1 _ _ _ _ Hf HW2 Hfree) as (st2 & E2).
  exists st2. split; [exact E2|]. split; [exact (insert_mid_heap _ _ _ _ _ _ HW2 Hb E2)|].
  split; [apply (insert_node_head _ _ _ _ _ _ _ HW2 Hfree E2)|].
  exact (keeps_trans _ _ _ _ K1 (insert_node_keeps _ _ _ _ _ _ _ HW2 Hfree E2)).
Qed.

Lemma relinking_puts_block_at_head_witness :
  match session 8 65536 1048576 [Alloc 0 200; Alloc 1 16; Alloc 2 16; Release 1;
                                 Resize 0 50; Release 2] with
  | Some (st, t) =>
      let l1 := [mkBlock 65552 208 1 0; mkBlock 65760 24 0 2] in
      let b := mkBlock 65784 3864 0 0 in
      (heap st (l1 ++ b :: []) /\ b_alloc b = 0 /\ (0 < 8)%nat) /\
      exists st',
        insert_node 8 (remove_node st (b_ptr b)) (b_ptr b) (b_size b) = Some st' /\
        heap st' (l1 ++ b :: []) /\
        FREE_SEG_LISTS st' (fst (select_list 19 0 (b_size b))) = b_ptr b /\
        keeps st st' (allocated_in (l1 ++ b :: []))
  | None => False
  end.
Proof.
  on_session.
  match goal with
  | |- ?A /\ _ => assert (H : A) by (split; [checked|split; [reflexivity|repeat constructor]])
  end.
  split; [exact H|]. destruct H as (H1 & H2 & H3).
  exact (relinking_puts_block_at_head 8 _ _ _ _ H1 H2 H3).
Defined.

(** *** Coalescing and releasing *)

(** X7.  [merge] on a free, listed block [p] of a well-formed heap, when
    [p] does not follow a tagged free block while an allocated block or the
    epilogue follows it: the call returns the address of the block that now
    holds [p], which is [p] joined with a free successor and with a free
    predecessor that carries no tag; the heap is well formed again and the
    payloads of the allocated blocks are untouched. *)
Theorem merge_joins_free_neighbours fuel st l1 p l2 :
  (0 < fuel)%nat -> heap st (l1 ++ p :: l2) -> b_alloc p = 0 ->
  merge_slips l1 l2 = false ->
  exists st',
    merge fuel st (b_ptr p) = Some (st', coalesced_ptr l1 p) /\
    heap st' (coalesced l1 p l2) /\
    keeps st st' (allocated_in (l1 ++ p :: l2)).
Proof.
  intros Hf HW Hp Hslip.
  destruct (merge_heap fuel st l1 p l2 Hf HW Hp Hslip) as (st' & E & HW').
  exists st'. split; [exact E|]. split; [exact HW'|].
  exact (merge_keeps fuel st l1 p l2 st' _ HW Hp Hslip E).
Qed.

Lemma merge_joins_free_neighbours_witness :
  match session 8 65536 1048576 [Alloc 0 200; Alloc 1 16; Alloc 2 16; Release 1;
                                 Resize 0 50; Release 2] with
  | Some (st, t) =>
      let l1 := [mkBlock 65552 208 1 0] in
      let p := mkBlock 65760 24 0 2 in
      let l2 := [mkBlock 65784 3864 0 0] in
      ((0 < 8)%nat /\ heap st (l1 ++ p :: l2) /\ b_alloc p = 0 /\
       merge_slips l1 l2 = false) /\
      exists st',
        merge 8 st (b_ptr p) = Some (st', coalesced_ptr l1 p) /\
        heap st' (coalesced l1 p l2) /\
        keeps st st' (allocated_in (l1 ++ p :: l2))
  | None => False
  end.
Proof.
  on_session.
  match goal with
  | |- ?A /\ _ =>
      assert (H : A)
        by (split; [repeat constructor|split; [checked|split; reflexivity]])
  end.
  split; [exact H|]. destruct H as (H0 & H1 & H2 & H3).
  exact (merge_joins_free_neighbours 8 _ _ _ _ H0 H1 H2 H3).
Defined.

(** X8.  [mm_free] on an allocated block [p] of a well-formed heap, when
    [p] does not follow a tagged free block while an allocated block or the
    epilogue follows it: the call returns and the heap is well formed; every
    other allocated block is still an allocated block at the same address
    and of the same size, and every word of its payload reads as before. *)
Theorem free_keeps_other_blocks fuel st l1 p l2 :
  (0 < fuel)%nat -> heap st (l1 ++ p :: l2) -> b_alloc p = 1 ->
  merge_slips l1 l2 = false ->
  exists st',
    mm_free fuel st (b_ptr p) = Some st' /\
    heap st' (released l1 p l2) /\
    (forall a, In a (l1 ++ l2) -> b_alloc a = 1 ->
       exists a', In a' (released l1 p l2) /\
                  b_ptr a' = b_ptr a /\ b_size a' = b_size a /\ b_alloc a' = 1) /\
    keeps st st' (allocated_in (l1 ++ l2)).
Proof.
  intros Hf HW Hp Hslip.
  destruct (mm_free_heap fuel st l1 p l2 Hf HW Hp Hslip) as (st' & E & HW').
  exists st'. split; [exact E|]. split; [exact HW'|]. split.
  - intros a Ha Hal. apply released_allocated; assumption.
  - exact (mm_free_keeps fuel st l1 p l2 st' HW Hp Hslip E).
Qed.

Lemma free_keeps_other_blocks_witness :
  match session 8 65536 1048576 [Alloc 0 16; Alloc 1 16; Alloc 2 16; Release 1] with
  | Some (st, t) =>
      let l1 := [mkBlock 65552 24 1 0; mkBlock 65576 24 0 0] in
      let p := mkBlock 65600 24 1 0 in
      let l2 := [mkBlock 65624 4024 0 0] in
      ((0 < 8)%nat /\ heap st (l1 ++ p :: l2) /\ b_alloc p = 1 /\
       merge_slips l1 l2 = false) /\
      exists st',
        mm_free 8 st (b_ptr p) = Some st' /\
        heap st' (released l1 p l2) /\
        (forall a, In a (l1 ++ l2) -> b_alloc a = 1 ->
           exists a', In a' (released l1 p l2) /\
                      b_ptr a' = b_ptr a /\ b_size a' = b_size a /\ b_alloc a' = 1) /\
        keeps st st' (allocated_in (l1 ++ l2))
  | None => False
  end.
Proof.
  on_session.
  match goal with
  | |- ?A /\ _ =>
      assert (H : A)
        by (split; [repeat constructor|split; [checked|split; reflexivity]])
  end.
  split; [exact H|]. destruct H as (H0 & H1 & H2 & H3).
  exact (free_keeps_other_blocks 8 _ _ _ _ H0 H1 H2 H3).
Defined.

(** ** The size of a heap extension *)

(** X9.  [incr_heap] turns the requested size into a multiple of 8 by
    counting whole words: the size is rounded down when it exceeds a
    multiple of 8 by less than a word, and up otherwise. *)
Theorem even_words_rounds size :
  0 <= size -> size + 8 < 2 ^ 32 ->
  even_words size mod 8 = 0 /\
  (size mod 8 < 4 -> even_words size = size - size mod 8) /\
  (4 <= size mod 8 -> even_words size = size - size mod 8 + 8).
Proof.
  intros H0 Hb. split; [apply even_words_mod8|].
  unfold even_words, WSIZE. cbv zeta. change (2 ^ 32) with 4294967296 in *.
  pose proof (Z.div_mod size 8 ltac:(lia)) as D.
  pose proof (Z.mod_pos_bound size 8 ltac:(lia)) as M.
  pose proof (Z.div_mod size 4 ltac:(lia)) as D4.
  pose proof (Z.mod_pos_bound size 4 ltac:(lia)) as M4.
  pose proof (Z.div_mod (size / 4) 2 ltac:(lia)) as D2.
  pose proof (Z.mod_pos_bound (size / 4) 2 ltac:(lia)) as M2.
  assert (0 <= size / 8) by (apply Z.div_pos; lia).
  assert (0 <= size / 4) by (apply Z.div_pos; lia).
  destruct (Z.eqb_spec ((size / 4) mod 2) 0) as [E|E]; cbn [negb];
    rewrite wrap32_small by (change (2 ^ 32) with 4294967296; lia); lia.
Qed.

Lemma even_words_rounds_witness :
  (0 <= 10 /\ 10 + 8 < 2 ^ 32) /\
  even_words 10 mod 8 = 0 /\
  (10 mod 8 < 4 -> even_words 10 = 10 - 10 mod 8) /\
  (4 <= 10 mod 8 -> even_words 10 = 10 - 10 mod 8 + 8).
Proof.
  assert (H : 0 <= 10 /\ 10 + 8 < 2 ^ 32) by (split; [discriminate|reflexivity]).
  split; [exact H|]. destruct H as (H1 & H2). exact (even_words_rounds 10 H1 H2).
Defined.

(** ** Growing a heap *)

(** The three words [incr_heap] writes after a successful [mem_sbrk]: the
    new space becomes one free block, not yet on a list, followed by the
    new epilogue. *)
Lemma extend_heap st bl N size_x :
  heap_with st bl N -> 16 <= size_x -> size_x mod 8 = 0 ->
  mem_brk st + size_x <= mem_max_addr st ->
  let e := mem_brk st in
  let st1 := mkState (mem st) (FREE_SEG_LISTS st) (prologue_block st)
                     (e + size_x) (mem_max_addr st) in
  let st2 := CLEAR_PUT st1 (HEAD e) (PACK size_x 0) in
  let st3 := CLEAR_PUT st2 (FOOT st2 e) (PACK size_x 0) in
  heap_with (CLEAR_PUT st3 (HEAD (NEXT st3 e)) (PACK 0 1))
            (bl ++ [mkBlock e size_x 0 0]) N /\
  keeps st (CLEAR_PUT st3 (HEAD (NEXT st3 e)) (PACK 0 1)) (allocated_in bl).
Proof.
  intros (HL & HK & HN) Hs Hm Hfit e st1 st2 st3.
  pose proof (hl_blocks _ _ HL) as Lb.
  pose proof (layout_bounds _ _ _ _ Lb) as [Hfe _].
  pose proof (hl_low _ _ HL) as Hlow. pose proof (hl_brk _ _ HL) as Hbrk.
  pose proof (hl_max _ _ HL) as Hmax. unfold first_block, DSIZE in Hfe.
  fold e in Hfe, Hfit, Hbrk.
  assert (Hr : 0 <= size_x < 2 ^ 32)
    by (change (2 ^ 32) with 4294967296; change (2 ^ 31) with 2147483648 in *; lia).
  assert (F0 : flag 0) by (left; reflexivity).
  assert (R2 : GET st2 (HEAD e) = size_x + 0 + 0)
    by (apply header_fields_CLEAR_PUT; assumption).
  assert (S2 : GET_SIZE st2 (HEAD e) = size_x).
  { unfold GET_SIZE. rewrite R2. apply size_of_word; auto. left; reflexivity. }
  assert (EF : FOOT st2 e = e + size_x - 8) by (unfold FOOT, DSIZE; rewrite S2; reflexivity).
  assert (R3 : GET st3 (HEAD e) = size_x + 0 + 0).
  { unfold st3. rewrite EF, GET_CLEAR_PUT_other by (unfold HEAD, WSIZE; lia). exact R2. }
  assert (EN : NEXT st3 e = e + size_x).
  { unfold NEXT. change (e - WSIZE) with (HEAD e). unfold GET_SIZE. rewrite R3.
    rewrite size_of_word; auto. left; reflexivity. }
  rewrite EN. unfold st3. rewrite EF. clear R3 EN EF st3.
  set (st4 := CLEAR_PUT (CLEAR_PUT st2 (e + size_x - 8) (PACK size_x 0))
                        (HEAD (e + size_x)) (PACK 0 1)).
  assert (Hlow4 : forall c, c + 4 <= e - 4 -> GET st4 c = GET st c).
  { intros c Hc. unfold st4, st2, HEAD, WSIZE.
    rewrite !GET_CLEAR_PUT_other by lia. reflexivity. }
  assert (G1 : GET st4 (HEAD e) = size_x + 0 + 0).
  { unfold st4. rewrite !GET_CLEAR_PUT_other by (unfold HEAD, WSIZE; lia). exact R2. }
  assert (G2 : GET st4 (e + size_x - 8) = size_x + 0 + 0).
  { unfold st4. rewrite GET_CLEAR_PUT_other by (unfold HEAD, WSIZE; lia).
    apply header_fields_CLEAR_PUT; assumption. }
  assert (G3 : GET st4 (HEAD (e + size_x)) = 1).
  { unfold st4. rewrite GET_CLEAR_PUT_same. reflexivity. }
  assert (P4 : prologue_block st4 = prologue_block st) by reflexivity.
  assert (B4 : mem_brk st4 = e + size_x) by reflexivity.
  assert (M4 : mem_max_addr st4 = mem_max_addr st) by reflexivity.
  assert (L4 : forall i, FREE_SEG_LISTS st4 i = FREE_SEG_LISTS st i) by reflexivity.
  clearbody st4. clear R2 S2 st2 st1.
  assert (T0 : tagbit 0) by (left; reflexivity).
  split; [|intros b c [Hb _] H1 H2;
           pose proof (proj2 (layout_bounds _ _ _ _ Lb) b Hb) as Bb; fold e in Bb;
           unfold DSIZE in H2; apply Hlow4; lia].
  split; [|split].
  - constructor.
    + rewrite P4. exact Hlow.
    + rewrite P4, Hlow4 by (unfold HEAD, WSIZE; lia). apply (hl_prologue_header _ _ HL).
    + rewrite P4, Hlow4 by lia. apply (hl_prologue_footer _ _ HL).
    + unfold first_block. rewrite P4, B4. apply layout_app. exists e. split.
      * apply (layout_agree st st4); [|exact Lb].
        intros b Hb. pose proof (proj2 (layout_bounds _ _ _ _ Lb) b Hb) as Bb.
        pose proof (layout_block _ _ _ _ _ Lb Hb) as (Hbs & _).
        unfold first_block, DSIZE, HEAD, WSIZE in *. fold e in Bb.
        split; apply Hlow4; lia.
      * apply layout_single. cbn [b_ptr b_size]. split; [reflexivity|split; [|reflexivity]].
        unfold block_ok, header, DSIZE. cbn [b_ptr b_size b_alloc b_tag].
        rewrite G1, G2. rewrite size_of_word, alloc_of_word by assumption.
        repeat split; auto.
    + rewrite B4. unfold GET_SIZE. rewrite G3. reflexivity.
    + rewrite B4. unfold GET_ALLOC. rewrite G3. reflexivity.
    + rewrite B4, M4. exact Hfit.
    + rewrite M4. exact Hmax.
  - apply (links_agree st st4); [|exact L4|exact HK].
    intros x s Hx. apply HN in Hx.
    pose proof (layout_before _ _ _ _ _ _ Lb Hx) as (Hx1 & Hx2 & Hx3). fold e in Hx2.
    split; apply Hlow4; lia.
  - intros x s Hx. apply free_in_app. left. apply HN. exact Hx.
Qed.

Lemma incr_heap_fails fuel st size :
  mem_brk st + even_words size > mem_max_addr st ->
  incr_heap fuel st size = Some (st, NULL).
Proof.
  intros H. unfold incr_heap, mem_sbrk. cbv zeta.
  destruct (Z.gtb_spec (mem_brk st + even_words size) (mem_max_addr st)); [reflexivity|lia].
Qed.

(** [incr_heap] on a well-formed heap that can grow: the new space is a
    free block, joined with the last block if that one is free and carries
    no tag.  The case [merge_slips] is a last block that is free and
    tagged. *)
Lemma incr_heap_heap fuel st bl size :
  (0 < fuel)%nat -> heap st bl -> 16 <= even_words size ->
  merge_slips bl [] = false ->
  mem_brk st + even_words size <= mem_max_addr st ->
  exists st',
    incr_heap fuel st size =
      Some (st', coalesced_ptr bl (mkBlock (mem_brk st) (even_words size) 0 0)) /\
    heap st' (coalesced bl (mkBlock (mem_brk st) (even_words size) 0 0) []) /\
    keeps st st' (allocated_in bl).
Proof.
  intros Hf HW Hs Hslip Hfit.
  pose proof (extend_heap st bl _ (even_words size) HW Hs (even_words_mod8 size) Hfit) as HW1.
  cbv zeta in HW1. destruct HW1 as [HW1 K1].
  unfold incr_heap, mem_sbrk. cbv zeta.
  destruct (Z.gtb_spec (mem_brk st + even_words size) (mem_max_addr st)) as [C|_]; [lia|].
  cbv beta iota.
  match type of HW1 with
  | heap_with ?s _ _ => generalize dependent s
  end.
  intros st4 HW1 K1.
  set (p := mkBlock (mem_brk st) (even_words size) 0 0) in *.
  assert (HW2 : heap_with st4 (bl ++ p :: []) (free_in (bl ++ []))).
  { eapply heap_with_ext; [|exact HW1]. intros x s. rewrite app_nil_r. reflexivity. }
  assert (Hfree : free_in (bl ++ p :: []) (b_ptr p) (b_size p)).
  { apply free_in_app. right. apply free_in_cons. left. auto. }
  destruct (insert_node_total fuel st4 _ _ _ _ Hf HW2 Hfree) as (st5 & E5).
  change (mem_brk st) with (b_ptr p) at 1 2. change (even_words size) with (b_size p) at 1.
  rewrite E5.
  pose proof (insert_mid_heap fuel st4 bl p [] st5 HW2 eq_refl E5) as HW5.
  pose proof (insert_node_keeps _ _ _ _ _ _ _ HW2 Hfree E5) as K5.
  destruct (merge_heap fuel st5 bl p [] Hf HW5 eq_refl Hslip) as (st6 & E6 & HW6).
  exists st6. split; [exact E6|]. split; [exact HW6|].
  pose proof (merge_keeps fuel st5 bl p [] st6 _ HW5 eq_refl Hslip E6) as K6.
  eapply keeps_trans; [exact K1|].
  eapply keeps_sub; [|exact (keeps_trans _ _ _ _ K5 K6)]. alloc_sub.
Qed.

(** X10.  [incr_heap] on a well-formed heap whose last block is not a
    tagged free block.  If the break cannot move by the (even-worded) size,
    the call returns NULL and changes nothing.  Otherwise the new space
    becomes a free block, joined with the last block when that one is free;
    the call returns its address, the heap is well formed and the payloads
    of the allocated blocks are untouched. *)
Theorem incr_heap_grows_or_fails fuel st bl size :
  (0 < fuel)%nat -> heap st bl -> 16 <= even_words size ->
  prev_tagged_free bl = false ->
  (mem_brk st + even_words size > mem_max_addr st ->
   incr_heap fuel st size = Some (st, NULL)) /\
  (mem_brk st + even_words size <= mem_max_addr st ->
   exists st',
     incr_heap fuel st size =
       Some (st', coalesced_ptr bl (mkBlock (mem_brk st) (even_words size) 0 0)) /\
     heap st' (coalesced bl (mkBlock (mem_brk st) (even_words size) 0 0) []) /\
     keeps st st' (allocated_in bl)).
Proof.
  intros Hf HW Hs Ht. split.
  - apply incr_heap_fails.
  - apply (incr_heap_heap fuel st bl size Hf HW Hs (merge_slips_tagged _ _ Ht)).
Qed.

Lemma incr_heap_grows_or_fails_witness :
  match session 8 65536 1048576 [Alloc 0 16] with
  | Some (st, t) =>
      let bl := [mkBlock 65552 24 1 0; mkBlock 65576 4072 0 0] in
      ((0 < 8)%nat /\ heap st bl /\ 16 <= even_words 4096 /\
       prev_tagged_free bl = false) /\
      (mem_brk st + even_words 4096 > mem_max_addr st ->
       incr_heap 8 st 4096 = Some (st, NULL)) /\
      (mem_brk st + even_words 4096 <= mem_max_addr st ->
       exists st',
         incr_heap 8 st 4096 =
           Some (st', coalesced_ptr bl (mkBlock (mem_brk st) (even_words 4096) 0 0)) /\
         heap st' (coalesced bl (mkBlock (mem_brk st) (even_words 4096) 0 0) []) /\
         keeps st st' (allocated_in bl))
  | None => False
  end.
Proof.
  on_session.
  match goal with
  | |- ?A /\ _ =>
      assert (H : A)
        by (split; [repeat constructor
                   |split; [checked|split; [vm_compute; congruence|reflexivity]]])
  end.
  split; [exact H|]. destruct H as (H0 & H1 & H2 & H3).
  exact (incr_heap_grows_or_fails 8 _ _ 4096 H0 H1 H2 H3).
Defined.

(** ** [place] on a heap *)

Lemma place_heap fuel st l1 b l2 size_x :
  (0 < fuel)%nat -> heap st (l1 ++ b :: l2) -> b_alloc b = 0 ->
  16 <= size_x <= b_size b -> size_x mod 8 = 0 ->
  exists st',
    place fuel st (b_ptr b) size_x = Some st' /\
    heap st' (l1 ++ placed b size_x ++ l2) /\
    keeps st st' (allocated_in (l1 ++ l2)).
Proof.
  intros Hf HW Hb Hsx Hsm. pose proof HW as (HL & _).
  pose proof (block_bounds _ _ _ _ HL) as (B1 & B2 & B3 & B4 & B5).
  destruct (heap_layout_split _ _ _ _ HL) as (_ & Hbok & _).
  destruct (block_header_fields _ _ Hbok) as (Esz & _).
  assert (Tb : tagbit (b_tag b)) by (destruct Hbok as (_ & _ & _ & T & _); exact T).
  unfold place. cbv zeta. rewrite Esz.
  rewrite wrap32_small
    by (change (2 ^ 32) with 4294967296; change (2 ^ 31) with 2147483648 in *; lia).
  pose proof (remove_mid_heap _ _ _ _ HW Hb) as HW1.
  assert (K1 : keeps st (remove_node st (b_ptr b)) (allocated_in (l1 ++ l2))).
  { eapply keeps_sub; [|apply (remove_node_keeps st _ _ (b_ptr b) (b_size b) HW)].
    - alloc_sub.
    - apply free_in_app. right. apply free_in_cons. left. auto. }
  assert (Hout : forall w, b_ptr b - 4 <= w -> w + 4 <= b_ptr b + b_size b ->
                 forall a, allocated_in (l1 ++ l2) a ->
                 w + 4 <= b_ptr a \/ b_ptr a + b_size a - DSIZE <= w).
  { intros w H1 H2 a [Hin _]. apply (around_outside st l1 b l2 a w HL Hin H1 H2). }
  generalize dependent (remove_node st (b_ptr b)). intros st1 HW1 K1.
  pose proof HW1 as (HL1 & _).
  destruct (heap_layout_split _ _ _ _ HL1) as (L1 & Hbok1 & L2).
  destruct (block_header_fields _ _ Hbok1) as (_ & _ & Etag1).
  assert (HN1 : forall x s, without (free_in (l1 ++ b :: l2)) (b_ptr b) x s <->
                            free_in (l1 ++ l2) x s)
    by (intros x s; apply (free_in_unlisted _ _ _ _ _ _ HL)).
  assert (F1 : flag 1) by (right; reflexivity).
  assert (F0 : flag 0) by (left; reflexivity).
  assert (T0 : tagbit 0) by (left; reflexivity).
  set (ptr := b_ptr b) in *. set (size := b_size b) in *.
  assert (R32 : forall z, 0 <= z <= size -> 0 <= z < 2 ^ 32)
    by (intros z Hz; change (2 ^ 32) with 4294967296;
        change (2 ^ 31) with 2147483648 in *; lia).
  unfold placed. fold ptr size. unfold OVERHEAD.
  destruct (Z.geb_spec (size - size_x) 16) as [Hrem|Hrem].
  - (* split *)
    set (rem := size - size_x) in *.
    assert (Hrm : rem mod 8 = 0).
    { unfold rem. rewrite Zminus_mod, B5, Hsm. reflexivity. }
    set (st2 := PUT st1 (HEAD ptr) (PACK size_x 1)).
    assert (R2 : GET st2 (HEAD ptr) = size_x + 1 + b_tag b).
    { unfold st2. rewrite header_fields_PUT by (auto; apply R32; lia).
      rewrite Etag1. reflexivity. }
    assert (EF : FOOT st2 ptr = ptr + size_x - 8).
    { unfold FOOT, GET_SIZE, DSIZE. rewrite R2, size_of_word by assumption. reflexivity. }
    rewrite EF. set (st3 := PUT st2 (ptr + size_x - 8) (PACK size_x 1)).
    assert (R3 : GET st3 (HEAD ptr) = size_x + 1 + b_tag b).
    { unfold st3. rewrite GET_PUT_other by (unfold HEAD, WSIZE; lia). exact R2. }
    assert (EN : NEXT st3 ptr = ptr + size_x).
    { unfold NEXT. change (ptr - WSIZE) with (HEAD ptr). unfold GET_SIZE.
      rewrite R3, size_of_word by assumption. reflexivity. }
    rewrite EN. set (st4 := CLEAR_PUT st3 (HEAD (ptr + size_x)) (PACK rem 0)).
    assert (R4 : GET st4 (HEAD (ptr + size_x)) = rem + 0 + 0).
    { unfold st4. apply header_fields_CLEAR_PUT; auto. apply R32. unfold rem. lia. }
    assert (EN4 : NEXT st4 ptr = ptr + size_x).
    { unfold NEXT. change (ptr - WSIZE) with (HEAD ptr). unfold GET_SIZE, st4.
      rewrite GET_CLEAR_PUT_other by (unfold HEAD, WSIZE; lia).
      rewrite R3, size_of_word by assumption. reflexivity. }
    rewrite EN4.
    assert (EF4 : FOOT st4 (ptr + size_x) = ptr + size - 8).
    { unfold FOOT, GET_SIZE, DSIZE. rewrite R4, size_of_word by assumption.
      unfold rem. lia. }
    rewrite EF4. set (st5 := CLEAR_PUT st4 (ptr + size - 8) (PACK rem 0)).
    assert (R5 : GET st5 (HEAD ptr) = size_x + 1 + b_tag b).
    { unfold st5, st4. rewrite !GET_CLEAR_PUT_other by (unfold HEAD, WSIZE; lia). exact R3. }
    assert (EN5 : NEXT st5 ptr = ptr + size_x).
    { unfold NEXT. change (ptr - WSIZE) with (HEAD ptr). unfold GET_SIZE.
      rewrite R5, size_of_word by assumption. reflexivity. }
    rewrite EN5.
    set (A := mkBlock ptr size_x 1 (b_tag b)).
    set (R := mkBlock (ptr + size_x) rem 0 0).
    assert (HWc : heap_with st5 (l1 ++ [A; R] ++ l2)
                            (without (free_in (l1 ++ b :: l2)) ptr)).
    { change (l1 ++ b :: l2) with (l1 ++ [b] ++ l2) in HW1.
      eapply heap_with_change with (st := st1) (mid := [b]) (a := ptr) (e := ptr + size);
        [exact HW1|exact L1| |exact L2
        |reflexivity|reflexivity|reflexivity|reflexivity| |
        |intros x s; apply HN1].
      - lia.
      - intros c Hc. unfold st5, st4, st3, st2, HEAD, WSIZE.
        rewrite !GET_CLEAR_PUT_other, !GET_PUT_other by lia. reflexivity.
      - cbn [layout]. unfold A, R. cbn [b_ptr b_size].
        split; [reflexivity|]. split; [|split; [reflexivity|split; [|unfold rem; lia]]].
        + unfold block_ok, header, DSIZE. cbn [b_ptr b_size b_alloc b_tag].
          rewrite R5.
          assert (G : GET st5 (ptr + size_x - 8)
                      = size_x + 1 + GET_TAG st2 (ptr + size_x - 8)).
          { unfold st5, st4. rewrite !GET_CLEAR_PUT_other by (unfold HEAD, WSIZE; lia).
            unfold st3. apply header_fields_PUT; auto. apply R32. lia. }
          rewrite G. rewrite size_of_word, alloc_of_word by (auto; apply tag_of_bit).
          repeat split; auto; lia.
        + unfold block_ok, header, DSIZE. cbn [b_ptr b_size b_alloc b_tag].
          assert (G1 : GET st5 (HEAD (ptr + size_x)) = rem + 0 + 0).
          { unfold st5. rewrite GET_CLEAR_PUT_other by (unfold HEAD, WSIZE, rem; lia).
            exact R4. }
          assert (G2 : GET st5 (ptr + size_x + rem - 8) = rem + 0 + 0).
          { replace (ptr + size_x + rem - 8) with (ptr + size - 8) by (unfold rem; lia).
            unfold st5. apply header_fields_CLEAR_PUT; auto. apply R32. unfold rem. lia. }
          rewrite G1, G2. rewrite size_of_word, alloc_of_word by assumption.
          repeat split; auto. }
    assert (K5 : keeps st1 st5 (allocated_in (l1 ++ l2))).
    { unfold st5, st4, st3, st2.
      eapply keeps_trans; [eapply keeps_trans; [eapply keeps_trans|]|];
        [apply keeps_PUT|apply keeps_PUT|apply keeps_write|apply keeps_write];
        apply Hout; unfold HEAD, WSIZE; fold ptr size; unfold rem; lia. }
    clearbody st5. clear R2 R3 R4 EF EN EN4 EF4 st4 st3 st2.
    assert (HW5 : heap_with st5 ((l1 ++ [A]) ++ R :: l2) (free_in ((l1 ++ [A]) ++ l2))).
    { rewrite <- app_assoc. cbn [app]. eapply heap_with_ext; [|exact HWc].
      intros x s. rewrite (HN1 x s).
      rewrite !free_in_app, free_in_cons. cbn [b_alloc A]. split; [tauto|].
      intros [[H|[(_ & _ & H)|H]]|H];
        [auto|discriminate|destruct (free_in_nil _ _ H)|auto]. }
    assert (Hfree : free_in ((l1 ++ [A]) ++ R :: l2) (b_ptr R) (b_size R)).
    { apply free_in_app. right. apply free_in_cons. left. auto. }
    destruct (insert_node_total fuel st5 _ _ _ _ Hf HW5 Hfree) as (st6 & E6).
    pose proof (insert_node_keeps _ _ _ _ _ _ _ HW5 Hfree E6) as K6.
    cbn [b_ptr b_size R] in E6. rewrite E6. exists st6. split; [reflexivity|].
    pose proof (insert_mid_heap fuel st5 (l1 ++ [A]) R l2 st6 HW5 eq_refl E6) as HW6.
    rewrite <- app_assoc in HW6. split; [exact HW6|].
    eapply keeps_trans; [exact (keeps_trans _ _ _ _ K1 K5)|].
    eapply keeps_sub; [|exact K6]. alloc_sub.
  - (* no split *)
    set (st2 := PUT st1 (HEAD ptr) (PACK size 1)).
    assert (R2 : GET st2 (HEAD ptr) = size + 1 + b_tag b).
    { unfold st2. rewrite header_fields_PUT by (auto; apply R32; lia).
      rewrite Etag1. reflexivity. }
    assert (EF : FOOT st2 ptr = ptr + size - 8).
    { unfold FOOT, GET_SIZE, DSIZE. rewrite R2, size_of_word by assumption. reflexivity. }
    rewrite EF. set (st3 := PUT st2 (ptr + size - 8) (PACK size 1)).
    set (A := mkBlock ptr size 1 (b_tag b)).
    assert (HWc : heap_with st3 (l1 ++ [A] ++ l2)
                            (without (free_in (l1 ++ b :: l2)) ptr)).
    { change (l1 ++ b :: l2) with (l1 ++ [b] ++ l2) in HW1.
      eapply heap_with_change with (st := st1) (mid := [b]) (a := ptr) (e := ptr + size);
        [exact HW1|exact L1| |exact L2
        |reflexivity|reflexivity|reflexivity|reflexivity| |
        |intros x s; apply HN1].
      - lia.
      - intros c Hc. unfold st3, st2, HEAD, WSIZE.
        rewrite !GET_PUT_other by lia. reflexivity.
      - apply layout_single. unfold A. cbn [b_ptr b_size].
        split; [reflexivity|split; [|reflexivity]].
        unfold block_ok, header, DSIZE. cbn [b_ptr b_size b_alloc b_tag].
        assert (G1 : GET st3 (HEAD ptr) = size + 1 + b_tag b).
        { unfold st3. rewrite GET_PUT_other by (unfold HEAD, WSIZE; lia). exact R2. }
        assert (G2 : GET st3 (ptr + size - 8) = size + 1 + GET_TAG st2 (ptr + size - 8)).
        { unfold st3. apply header_fields_PUT; auto. apply R32. lia. }
        rewrite G1, G2. rewrite size_of_word, alloc_of_word by (auto; apply tag_of_bit).
        repeat split; auto. }
    assert (K3 : keeps st1 st3 (allocated_in (l1 ++ l2))).
    { unfold st3, st2. eapply keeps_trans; apply keeps_PUT;
        apply Hout; unfold HEAD, WSIZE; fold ptr size; lia. }
    exists st3. split; [reflexivity|].
    clearbody st3. clear R2 EF st2.
    split; [|exact (keeps_trans _ _ _ _ K1 K3)].
    eapply heap_with_ext; [|exact HWc].
    intros x s. rewrite (HN1 x s).
    rewrite !free_in_app, free_in_cons. cbn [b_alloc A]. split; [tauto|].
    intros [H|[[(_ & _ & H)|H]|H]];
      [auto|discriminate|destruct (free_in_nil _ _ H)|auto].
Qed.

(** X11.  [place] on a free block [b] of a well-formed heap, for an
    adjusted size that [b] can hold: [b] becomes an allocated block of that
    size followed by a free block with the rest when the rest is at least 16
    bytes, and one allocated block of its full size otherwise.  The heap is
    well formed and the payloads of the other allocated blocks are
    untouched. *)
Theorem place_splits_or_fills fuel st l1 b l2 size_x :
  (0 < fuel)%nat -> heap st (l1 ++ b :: l2) -> b_alloc b = 0 ->
  16 <= size_x <= b_size b -> size_x mod 8 = 0 ->
  exists st',
    place fuel st (b_ptr b) size_x = Some st' /\
    heap st' (l1 ++ placed b size_x ++ l2) /\
    keeps st st' (allocated_in (l1 ++ l2)).
Proof. intros Hf HW Hb Hs Hm. apply (place_heap fuel st l1 b l2 size_x Hf HW Hb Hs Hm). Qed.

Lemma place_splits_or_fills_witness :
  match session 8 65536 1048576 [Alloc 0 16] with
  | Some (st, t) =>
      let l1 := [mkBlock 65552 24 1 0] in
      let b := mkBlock 65576 4072 0 0 in
      ((0 < 8)%nat /\ heap st (l1 ++ b :: []) /\ b_alloc b = 0 /\
       16 <= 24 <= b_size b /\ 24 mod 8 = 0) /\
      exists st',
        place 8 st (b_ptr b) 24 = Some st' /\
        heap st' (l1 ++ placed b 24 ++ []) /\
        keeps st st' (allocated_in (l1 ++ []))
  | None => False
  end.
Proof.
  on_session.
  match goal with
  | |- ?A /\ _ =>
      assert (H : A)
        by (split; [repeat constructor
                   |split; [checked
                           |split; [reflexivity
                                   |split; [split; vm_compute; congruence|reflexivity]]]])
  end.
  split; [exact H|]. destruct H as (H0 & H1 & H2 & H3 & H4).
  exact (place_splits_or_fills 8 _ _ _ _ 24 H0 H1 H2 H3 H4).
Defined.

(** ** The free-list search on a heap *)

(** The search only ever looks at listed free blocks. *)
Lemma scan_list_node fuel st N size_x : forall p r,
  links st N -> p = NULL \/ (exists s, N p s) ->
  scan_list fuel st size_x p = Some r -> r = NULL \/ exists s, N r s.
Proof.
  induction fuel as [|fuel IH]; intros p r HK Hp H; [discriminate|].
  cbn [scan_list] in H.
  destruct (negb (p =? NULL)
            && ((size_x >? GET_SIZE st (HEAD p)) || negb (GET_TAG st (HEAD p) =? 0))) eqn:C.
  - apply (IH _ _ HK) in H; [exact H|].
    apply andb_true_iff in C as [C _]. apply negb_true_iff, Z.eqb_neq in C.
    destruct Hp as [Hp|[s Hp]]; [contradiction|].
    destruct (Z.eq_dec (PRECEDE st p) NULL) as [E|E]; [left; exact E|right].
    destruct (lk_precede _ _ HK p s Hp E) as (s' & Hs' & _). eauto.
  - injection H as <-. exact Hp.
Qed.

Lemma list_head_node st N list :
  links st N -> 0 <= list < SEG_LISTS ->
  FREE_SEG_LISTS st list = NULL \/ exists s, N (FREE_SEG_LISTS st list) s.
Proof.
  intros HK Hl. destruct (Z.eq_dec (FREE_SEG_LISTS st list) NULL) as [E|E]; [left; exact E|].
  right. destruct (lk_head _ _ HK list Hl E) as (s & Hs & _). eauto.
Qed.

Lemma search_lists_node n fuel st N size_x : forall size list r,
  links st N -> 0 <= list ->
  search_lists n fuel st size_x size list = Some r -> r = NULL \/ exists s, N r s.
Proof.
  induction n as [|n IH]; intros size list r HK Hl H; cbn [search_lists] in H.
  - injection H as <-. left. reflexivity.
  - destruct (Z.ltb_spec list SEG_LISTS) as [Hlt|_]; [|injection H as <-; left; reflexivity].
    destruct ((list =? SEG_LISTS - 1)
              || ((size <=? 1) && negb (FREE_SEG_LISTS st list =? NULL))).
    + destruct (scan_list fuel st size_x (FREE_SEG_LISTS st list)) as [q|] eqn:Es;
        [|discriminate].
      pose proof (scan_list_node _ _ _ _ _ _ HK (list_head_node _ _ _ HK (conj Hl Hlt)) Es)
        as Hq.
      destruct (negb (q =? NULL)).
      * injection H as <-. exact Hq.
      * apply (IH _ _ _ HK) in H; [exact H|lia].
    + apply (IH _ _ _ HK) in H; [exact H|lia].
Qed.

(** On a well-formed heap the search returns NULL or a free block of the
    heap that is large enough and carries no tag. *)
Lemma search_lists_heap fuel st bl size_x r :
  heap st bl -> search_lists 20 fuel st size_x size_x 0 = Some r -> r <> NULL ->
  exists s, In (mkBlock r s 0 0) bl /\ size_x <= s.
Proof.
  intros HW H Hr. pose proof HW as (HL & HK & _).
  destruct (search_lists_sound _ _ _ _ _ _ _ H Hr) as [Hs Ht].
  destruct (search_lists_node 20 fuel st _ size_x size_x 0 r HK (Z.le_refl 0) H)
    as [E|[s [t Hin]]];
    [contradiction|].
  pose proof (heap_block _ _ _ HL Hin) as Hb.
  destruct (block_header_fields _ _ Hb) as (E1 & _ & E3). cbn [b_ptr b_size b_tag] in *.
  rewrite E1 in Hs. rewrite E3 in Ht. subst t. exists s. auto.
Qed.

(** *** The search returns *)

(** Walking down a list from its head meets listed blocks, each the
    successor of the next. *)
Lemma chain_nodes st N h k :
  links st N -> (exists s, N h s) ->
  (forall i, (i <= k)%nat -> Nat.iter i (PRECEDE st) h <> NULL) ->
  forall i, (i <= k)%nat ->
    (exists s, N (Nat.iter i (PRECEDE st) h) s) /\
    (forall j, i = S j ->
       SUCCEED st (Nat.iter i (PRECEDE st) h) = Nat.iter j (PRECEDE st) h).
Proof.
  intros HK Hh Hnn. induction i as [|i IH]; intros Hi.
  - split; [exact Hh|discriminate].
  - destruct (IH ltac:(lia)) as [[s Hs] _].
    pose proof (Hnn (S i) Hi) as Hne. cbn [Nat.iter] in *.
    destruct (lk_precede _ _ HK _ _ Hs Hne) as (s' & Hs' & Hsucc & _).
    split; [eauto|]. intros j E. injection E as <-. exact Hsucc.
Qed.

(** No block is met twice. *)
Lemma chain_inj st N h k :
  links st N -> nodes_ok N -> (exists s, N h s) -> SUCCEED st h = NULL ->
  (forall i, (i <= k)%nat -> Nat.iter i (PRECEDE st) h <> NULL) ->
  forall i j, (i < j)%nat -> (j <= k)%nat ->
    Nat.iter i (PRECEDE st) h <> Nat.iter j (PRECEDE st) h.
Proof.
  intros HK HN Hh Hlast Hnn.
  pose proof (chain_nodes st N h k HK Hh Hnn) as Hc.
  induction i as [|i IH]; intros j Hij Hj E.
  - destruct j as [|j]; [lia|].
    destruct (Hc (S j) Hj) as [_ Hs]. specialize (Hs j eq_refl).
    rewrite <- E in Hs. change (Nat.iter 0 (PRECEDE st) h) with h in Hs.
    rewrite Hlast in Hs. apply (Hnn j ltac:(lia)). symmetry. exact Hs.
  - destruct j as [|j]; [lia|].
    destruct (Hc (S j) Hj) as [_ Hs]. specialize (Hs j eq_refl).
    destruct (Hc (S i) ltac:(lia)) as [_ Hs']. specialize (Hs' i eq_refl).
    rewrite <- E, Hs' in Hs. apply (IH j ltac:(lia) ltac:(lia) Hs).
Qed.

Lemma NoDup_map_on {A B} (f : A -> B) (l : list A) :
  (forall a b, In a l -> In b l -> f a = f b -> a = b) -> NoDup l -> NoDup (map f l).
Proof.
  induction l as [|a l IH]; intros Hinj Hnd; [constructor|].
  inversion Hnd as [|? ? Ha Hl]; subst. cbn [map]. constructor.
  - intros Hin. apply in_map_iff in Hin as (b & E & Hb).
    apply Ha. rewrite (Hinj a b); [exact Hb|left; reflexivity|right; exact Hb|auto].
  - apply IH; [|exact Hl]. intros x y Hx Hy. apply Hinj; right; assumption.
Qed.

(** So a walk down a list is no longer than the heap has blocks. *)
Lemma chain_short st bl h k :
  heap st bl -> (exists s, free_in bl h s) -> SUCCEED st h = NULL ->
  (forall i, (i <= k)%nat -> Nat.iter i (PRECEDE st) h <> NULL) ->
  (S k <= length bl)%nat.
Proof.
  intros HW Hh Hlast Hnn. pose proof HW as (HL & HK & _).
  pose proof (heap_with_nodes_ok _ _ _ HW) as HN.
  pose proof (chain_nodes st _ h k HK Hh Hnn) as Hc.
  pose proof (chain_inj st _ h k HK HN Hh Hlast Hnn) as Hi.
  set (y := fun i => Nat.iter i (PRECEDE st) h) in *.
  assert (Hnd : NoDup (map y (seq 0 (S k)))).
  { apply NoDup_map_on; [|apply seq_NoDup].
    intros a b Ha Hb E. apply in_seq in Ha, Hb.
    destruct (Nat.lt_trichotomy a b) as [C|[C|C]]; [|exact C|].
    - exfalso. apply (Hi a b C ltac:(lia) E).
    - exfalso. apply (Hi b a C ltac:(lia)). symmetry. exact E. }
  assert (Hincl : incl (map y (seq 0 (S k))) (map fst (free_nodes bl))).
  { intros x Hx. apply in_map_iff in Hx as (i & <- & Hin). apply in_seq in Hin.
    destruct (Hc i ltac:(lia)) as [[s Hs] _]. apply free_nodes_spec in Hs.
    apply in_map_iff. exists (y i, s). auto. }
  pose proof (NoDup_incl_length Hnd Hincl) as Hlen.
  rewrite !length_map, length_seq in Hlen. unfold free_nodes in Hlen.
  rewrite length_map in Hlen.
  pose proof (filter_length_le (fun b => b_alloc b =? 0) bl). lia.
Qed.

Lemma scan_list_none fuel st size_x : forall p,
  scan_list fuel st size_x p = None ->
  forall i, (i < fuel)%nat -> Nat.iter i (PRECEDE st) p <> NULL.
Proof.
  induction fuel as [|fuel IH]; intros p H i Hi; [lia|].
  cbn [scan_list] in H.
  destruct (negb (p =? NULL)
            && ((size_x >? GET_SIZE st (HEAD p)) || negb (GET_TAG st (HEAD p) =? 0))) eqn:C;
    [|discriminate].
  apply andb_true_iff in C as [C _]. apply negb_true_iff, Z.eqb_neq in C.
  destruct i as [|i]; [exact C|].
  rewrite Nat.iter_succ_r. apply (IH _ H). lia.
Qed.

Lemma scan_list_total fuel st bl size_x h :
  heap st bl -> (length bl < fuel)%nat ->
  h = NULL \/ ((exists s, free_in bl h s) /\ SUCCEED st h = NULL) ->
  exists r, scan_list fuel st size_x h = Some r.
Proof.
  intros HW Hf Hh. destruct (scan_list fuel st size_x h) as [r|] eqn:E; [eauto|].
  exfalso. pose proof (scan_list_none _ _ _ _ E) as Hnn.
  destruct Hh as [Hh|[Hh Hlast]].
  - apply (Hnn 0%nat ltac:(lia)). exact Hh.
  - destruct fuel as [|k]; [lia|].
    pose proof (chain_short st bl h k HW Hh Hlast
                  (fun i Hi => Hnn i ltac:(lia))). lia.
Qed.

Lemma search_lists_total n fuel st bl size_x : forall size list,
  heap st bl -> (length bl < fuel)%nat -> 0 <= list ->
  exists r, search_lists n fuel st size_x size list = Some r.
Proof.
  induction n as [|n IH]; intros size list HW Hf Hl; cbn [search_lists]; [eauto|].
  destruct (Z.ltb_spec list SEG_LISTS) as [Hlt|_]; [|eauto].
  destruct ((list =? SEG_LISTS - 1)
            || ((size <=? 1) && negb (FREE_SEG_LISTS st list =? NULL))).
  - assert (Hh : FREE_SEG_LISTS st list = NULL \/
                 ((exists s, free_in bl (FREE_SEG_LISTS st list) s) /\
                  SUCCEED st (FREE_SEG_LISTS st list) = NULL)).
    { destruct (Z.eq_dec (FREE_SEG_LISTS st list) NULL) as [E|E]; [left; exact E|right].
      destruct HW as (_ & HK & _).
      destruct (lk_head _ _ HK list (conj Hl Hlt) E) as (s & Hs & Hsucc & _). eauto. }
    destruct (scan_list_total fuel st bl size_x _ HW Hf Hh) as [q ->].
    destruct (negb (q =? NULL)); [eauto|]. apply IH; auto. lia.
  - apply IH; auto. lia.
Qed.

(** X12.  On a well-formed heap, with more fuel than the heap has blocks,
    the search of [mm_malloc] returns; what it returns is NULL or a free
    block of the heap that carries no tag and is at least as large as the
    adjusted size. *)
Theorem search_finds_listed_block fuel st bl size_x :
  heap st bl -> (length bl < fuel)%nat ->
  exists r,
    search_lists 20 fuel st size_x size_x 0 = Some r /\
    (r = NULL \/ exists s, In (mkBlock r s 0 0) bl /\ size_x <= s).
Proof.
  intros HW Hf.
  destruct (search_lists_total 20 fuel st bl size_x size_x 0 HW Hf (Z.le_refl 0)) as [r Er].
  exists r. split; [exact Er|].
  destruct (Z.eq_dec r NULL) as [E|E]; [left; exact E|right].
  apply (search_lists_heap fuel st bl size_x r HW Er E).
Qed.

Lemma search_finds_listed_block_witness :
  match session 8 65536 1048576 [Alloc 0 16] with
  | Some (st, t) =>
      let bl := [mkBlock 65552 24 1 0; mkBlock 65576 4072 0 0] in
      (heap st bl /\ (length bl < 8)%nat) /\
      exists r,
        search_lists 20 8 st 24 24 0 = Some r /\
        (r = NULL \/ exists s, In (mkBlock r s 0 0) bl /\ 24 <= s)
  | None => False
  end.
Proof.
  on_session.
  match goal with
  | |- ?A /\ _ => assert (H : A) by (split; [checked|repeat constructor])
  end.
  split; [exact H|]. destruct H as (H1 & H2).
  exact (search_finds_listed_block 8 _ _ 24 H1 H2).
Defined.

(** ** [mm_malloc] on a heap *)

Lemma even_words_id z : z mod 8 = 0 -> 0 <= z < 2 ^ 32 -> even_words z = z.
Proof.
  intros Hm Hz. unfold even_words, WSIZE. cbv zeta.
  pose proof (Z.div_mod z 8 ltac:(lia)) as D.
  assert (E : z / 4 = 2 * (z / 8)).
  { rewrite D at 1. rewrite Hm, Z.add_0_r.
    replace (8 * (z / 8)) with ((2 * (z / 8)) * 4) by lia. apply Z.div_mul. lia. }
  rewrite E.
  replace ((2 * (z / 8)) mod 2) with 0
    by (rewrite Z.mul_comm, Z.mod_mul by lia; reflexivity).
  change (0 =? 0) with true. cbn [negb]. rewrite wrap32_small by lia. lia.
Qed.

Lemma MAX_cases x y : (MAX x y = x /\ y <= x) \/ (MAX x y = y /\ x <= y).
Proof. unfold MAX. destruct (Z.gtb_spec x y); [left|right]; lia. Qed.

(** The allocated block [place] leaves is the first of [placed]. *)
Lemma placed_head b sx :
  sx <= b_size b ->
  exists s tl,
    placed b sx = mkBlock (b_ptr b) s 1 (b_tag b) :: tl /\ sx <= s /\
    prev_tagged_free (mkBlock (b_ptr b) s 1 (b_tag b) :: tl) = false /\
    forall m, In m tl -> b_alloc m = 0.
Proof.
  intros H. unfold placed. destruct (b_size b - sx >=? OVERHEAD).
  - eexists _, _. split; [reflexivity|]. split; [lia|]. split; [reflexivity|].
    intros m [<-|[]]. reflexivity.
  - eexists _, _. split; [reflexivity|]. split; [lia|]. split; [reflexivity|].
    intros m [].
Qed.

(** A block of a stretch is not a block around it. *)
Lemma stretch_apart st l1 mid l2 a A :
  heap_layout st (l1 ++ mid ++ l2) -> In a (l1 ++ l2) -> In A mid -> b_ptr a <> b_ptr A.
Proof.
  intros HL Ha HA. pose proof (hl_blocks _ _ HL) as Lb.
  apply layout_app in Lb as (m1 & L1 & Lb). apply layout_app in Lb as (m2 & Lm & L2).
  pose proof (proj2 (layout_bounds _ _ _ _ Lm) A HA) as BA.
  pose proof (layout_block _ _ _ _ _ Lm HA) as (HAs & _).
  apply in_app_or in Ha as [Ha|Ha].
  - pose proof (proj2 (layout_bounds _ _ _ _ L1) a Ha).
    pose proof (layout_block _ _ _ _ _ L1 Ha) as (Has & _). lia.
  - pose proof (proj2 (layout_bounds _ _ _ _ L2) a Ha). lia.
Qed.

(** The free block [incr_heap] hands to [mm_malloc]: the last block of the
    grown heap. *)
Lemma coalesced_last st bl p :
  heap_layout st bl -> b_alloc p = 0 -> b_tag p = 0 ->
  exists l0 B,
    coalesced bl p [] = l0 ++ [B] /\ b_ptr B = coalesced_ptr bl p /\
    b_alloc B = 0 /\ b_tag B = 0 /\ b_size p <= b_size B /\
    (exists mid, bl = l0 ++ mid /\ (forall m, In m mid -> b_alloc m = 0) /\
                 (length mid <= 1)%nat).
Proof.
  intros HL Hp Ht. unfold coalesced, coalesced_ptr. cbn [next_free].
  rewrite prev_mergeable_eq.
  destruct (prev_alloc_of bl =? 0) eqn:Epa; cbn [andb].
  - apply Z.eqb_eq in Epa. destruct (prev_alloc_free _ Epa) as (l0 & c & -> & Hc & _).
    destruct (prev_tag_of (l0 ++ [c]) =? 0) eqn:Ept.
    + rewrite removelast_last, last_last. exists l0, (joined c p).
      pose proof (heap_block _ _ _ HL (in_elt c l0 [])) as (Hcs & _).
      unfold prev_tag_of in Ept. rewrite rev_unit in Ept. apply Z.eqb_eq in Ept.
      cbn [joined b_ptr b_size b_alloc b_tag]. repeat split; try lia.
      exists [c]. split; [reflexivity|]. split; [|cbn [length]; lia].
      intros m [<-|[]]. exact Hc.
    + exists (l0 ++ [c]), p. repeat split; auto; [lia|].
      exists []. split; [rewrite app_nil_r; reflexivity|].
      split; [intros m []|cbn [length]; lia].
  - exists bl, p. repeat split; auto; [lia|].
    exists []. split; [rewrite app_nil_r; reflexivity|].
    split; [intros m []|cbn [length]; lia].
Qed.

(** [mm_malloc] on a well-formed heap returns.  Either it fails, and then
    nothing has changed, no listed block fits and the heap cannot grow; or
    it has placed the request in a free block [b], found by the search or
    made by growing the heap, and the blocks that were allocated are the
    blocks around [b]. *)
Lemma mm_malloc_heap fuel st bl n :
  heap st bl -> (length bl < fuel)%nat -> 0 < n -> n + 15 < 2 ^ 32 ->
  merge_slips bl [] = false ->
  exists st' q,
    mm_malloc fuel st n = Some (st', q) /\
    ((q = NULL /\ st' = st /\
      search_lists 20 fuel st (adjust_size n) (adjust_size n) 0 = Some NULL /\
      mem_brk st + MAX (adjust_size n) CHUNKSIZE > mem_max_addr st) \/
     (exists l1 b l2,
        q = b_ptr b /\ q <> NULL /\ b_alloc b = 0 /\ adjust_size n <= b_size b /\
        b_tag b = 0 /\
        (exists mid, bl = l1 ++ mid ++ l2 /\ (forall m, In m mid -> b_alloc m = 0) /\
                     (length mid <= 1)%nat /\ (mid = [] -> l2 = [])) /\
        heap st' (l1 ++ placed b (adjust_size n) ++ l2) /\
        keeps st st' (allocated_in bl))).
Proof.
  intros HW Hf Hn Hb Hslip.
  destruct (adjust_size_bounds n Hn Hb) as (Am & A16 & An & Amax).
  assert (Hf0 : (0 < fuel)%nat) by lia.
  unfold mm_malloc. destruct (Z.eqb_spec n 0) as [E|_]; [lia|]. cbv zeta.
  set (size_x := adjust_size n) in *.
  destruct (search_lists_total 20 fuel st bl size_x size_x 0 HW Hf (Z.le_refl 0)) as [r Er].
  rewrite Er. destruct (Z.eqb_spec r NULL) as [Hr|Hr].
  - (* nothing found: grow the heap *)
    subst r.
    assert (Hev : even_words (MAX size_x CHUNKSIZE) = MAX size_x CHUNKSIZE).
    { apply even_words_id.
      - destruct (MAX_cases size_x CHUNKSIZE) as [[-> _]|[-> _]]; [exact Am|reflexivity].
      - change (2 ^ 32) with 4294967296 in *.
        destruct (MAX_cases size_x CHUNKSIZE) as [[-> _]|[-> _]];
          change CHUNKSIZE with 4096 in *; lia. }
    assert (Hge : size_x <= MAX size_x CHUNKSIZE /\ 16 <= MAX size_x CHUNKSIZE).
    { destruct (MAX_cases size_x CHUNKSIZE) as [[-> H]|[-> H]];
        change CHUNKSIZE with 4096 in *; lia. }
    destruct (Z_gt_le_dec (mem_brk st + MAX size_x CHUNKSIZE) (mem_max_addr st)) as [C|C].
    + rewrite incr_heap_fails by (rewrite Hev; exact C).
      change (NULL =? NULL) with true. cbv iota.
      exists st, NULL. split; [reflexivity|]. left. auto.
    + destruct (incr_heap_heap fuel st bl (MAX size_x CHUNKSIZE) Hf0 HW
                  ltac:(rewrite Hev; lia) Hslip ltac:(rewrite Hev; exact C))
        as (st1 & E1 & HW1 & K1).
      rewrite E1. rewrite Hev in *.
      set (p := mkBlock (mem_brk st) (MAX size_x CHUNKSIZE) 0 0) in *.
      destruct (coalesced_last st bl p (proj1 HW) eq_refl eq_refl)
        as (l0 & B & Ec & EB & HBa & HBt & HBs & mid & Emid & Hmid & Hlen).
      rewrite Ec in HW1. rewrite <- EB in *.
      pose proof (block_bounds _ _ _ _ (proj1 HW1)) as (Bp & _).
      destruct (Z.eqb_spec (b_ptr B) NULL) as [E0|E0]; [unfold NULL in E0; lia|].
      destruct (place_heap fuel st1 l0 B [] size_x Hf0 HW1 HBa
                  ltac:(cbn [b_size p] in HBs; lia) Am) as (st2 & E2 & HW2 & K2).
      rewrite E2. exists st2, (b_ptr B). split; [reflexivity|]. right.
      exists l0, B, []. cbn [b_size p] in HBs.
      split; [reflexivity|]. split; [exact E0|]. split; [exact HBa|].
      split; [lia|]. split; [exact HBt|]. split; [|split; [exact HW2|]].
      * exists mid. rewrite app_nil_r. auto.
      * eapply keeps_trans; [exact K1|]. eapply keeps_sub; [|exact K2].
        intros a [Ha Haa]. split; [|exact Haa]. rewrite app_nil_r.
        rewrite Emid in Ha. apply in_app_or in Ha as [Ha|Ha]; [exact Ha|].
        rewrite (Hmid a Ha) in Haa. discriminate.
  - (* a listed block fits *)
    cbv iota. destruct (Z.eqb_spec r NULL) as [E0|_]; [contradiction|].
    destruct (search_lists_heap fuel st bl size_x r HW Er Hr) as (s & Hin & Hs).
    apply in_split in Hin as (l1 & l2 & ->).
    destruct (place_heap fuel st l1 (mkBlock r s 0 0) l2 size_x Hf0 HW eq_refl
                ltac:(cbn [b_size]; lia) Am) as (st2 & E2 & HW2 & K2).
    cbn [b_ptr] in E2. rewrite E2. exists st2, r. split; [reflexivity|]. right.
    exists l1, (mkBlock r s 0 0), l2.
    split; [reflexivity|]. split; [exact Hr|]. split; [reflexivity|].
    split; [exact Hs|]. split; [reflexivity|].
    split; [exists [mkBlock r s 0 0]; split; [reflexivity|];
            split; [intros m [<-|[]]; reflexivity|];
            split; [cbn [length]; lia|discriminate]|].
    split; [exact HW2|].
    eapply keeps_sub; [|exact K2]. alloc_sub.
Qed.

(** X13.  [mm_malloc] on a well-formed heap whose last block is not a
    tagged free block, for a request that does not overflow and with more
    fuel than the heap has blocks.  The call returns.  If it returns NULL,
    nothing has changed and the heap could not grow.  Otherwise the heap is
    well formed and holds an allocated block at the returned address, large
    enough for the payload and the boundary tags; every block that was
    allocated is still there, apart from the new block, and its payload is
    untouched. *)
Theorem malloc_allocates_fresh_block fuel st bl n :
  heap st bl -> (length bl < fuel)%nat -> 0 < n -> n + 15 < 2 ^ 32 ->
  prev_tagged_free bl = false ->
  exists st' q,
    mm_malloc fuel st n = Some (st', q) /\
    (q = NULL ->
     st' = st /\ mem_brk st + MAX (adjust_size n) CHUNKSIZE > mem_max_addr st) /\
    (q <> NULL ->
     exists bl' s t,
       heap st' bl' /\ In (mkBlock q s 1 t) bl' /\ n + DSIZE <= s /\
       (forall a, In a bl -> b_alloc a = 1 ->
          In a bl' /\ (b_ptr a + b_size a <= q \/ q + s <= b_ptr a)) /\
       keeps st st' (allocated_in bl)).
Proof.
  intros HW Hf Hn Hb Ht.
  destruct (adjust_size_bounds n Hn Hb) as (_ & _ & An & _).
  destruct (mm_malloc_heap fuel st bl n HW Hf Hn Hb (merge_slips_tagged _ _ Ht))
    as (st' & q & E & [(Hq & Hst & _ & Hfull)|(l1 & b & l2 & Eq & Hq & Hba & Hbs & _ &
                                               (mid & Emid & Hmid & _) & HW' & K)]).
  - exists st', q. split; [exact E|]. split; [auto|contradiction].
  - exists st', q. split; [exact E|]. split; [contradiction|]. intros _.
    destruct (placed_head b (adjust_size n) Hbs) as (s & tl & Epl & Hs & _ & _).
    rewrite Epl in HW'. rewrite <- Eq in *.
    exists (l1 ++ (mkBlock q s 1 (b_tag b) :: tl) ++ l2), s, (b_tag b).
    split; [exact HW'|]. split; [apply in_or_app; right; left; reflexivity|].
    split; [lia|]. split; [|exact K].
    intros a Ha Hal.
    assert (Hin : In a (l1 ++ l2)).
    { rewrite Emid in Ha. apply in_app_or in Ha as [Ha|Ha]; [apply in_or_app; auto|].
      apply in_app_or in Ha as [Ha|Ha]; [|apply in_or_app; auto].
      rewrite (Hmid a Ha) in Hal. discriminate. }
    assert (Hin' : In a (l1 ++ (mkBlock q s 1 (b_tag b) :: tl) ++ l2)).
    { apply in_app_or in Hin as [Hin|Hin]; apply in_or_app; [left; exact Hin|right].
      apply in_or_app. right. exact Hin. }
    split; [exact Hin'|].
    pose proof (stretch_apart st' l1 _ l2 a _ (proj1 HW') Hin (or_introl eq_refl)) as Hne.
    destruct (layout_sep _ _ _ _ _ _ (hl_blocks _ _ (proj1 HW')) Hin'
                (in_elt (mkBlock q s 1 (b_tag b)) l1 (tl ++ l2))) as [Es|Es].
    + subst a. cbn [b_ptr] in Hne. contradiction.
    + cbn [b_ptr b_size] in Es. exact Es.
Qed.

Lemma malloc_allocates_fresh_block_witness :
  match session 8 65536 1048576 [Alloc 0 16; Alloc 1 16; Alloc 2 16; Release 1] with
  | Some (st, t) =>
      let bl := [mkBlock 65552 24 1 0; mkBlock 65576 24 0 0; mkBlock 65600 24 1 0;
                 mkBlock 65624 4024 0 0] in
      (heap st bl /\ (length bl < 8)%nat /\ 0 < 100 /\ 100 + 15 < 2 ^ 32 /\
       prev_tagged_free bl = false) /\
      exists st' q,
        mm_malloc 8 st 100 = Some (st', q) /\
        (q = NULL ->
         st' = st /\ mem_brk st + MAX (adjust_size 100) CHUNKSIZE > mem_max_addr st) /\
        (q <> NULL ->
         exists bl' s t,
           heap st' bl' /\ In (mkBlock q s 1 t) bl' /\ 100 + DSIZE <= s /\
           (forall a, In a bl -> b_alloc a = 1 ->
              In a bl' /\ (b_ptr a + b_size a <= q \/ q + s <= b_ptr a)) /\
           keeps st st' (allocated_in bl))
  | None => False
  end.
Proof.
  on_session.
  match goal with
  | |- ?A /\ _ =>
      assert (H : A)
        by (split; [checked|split; [repeat constructor|repeat split]])
  end.
  split; [exact H|]. destruct H as (H0 & H1 & H2 & H3 & H4).
  exact (malloc_allocates_fresh_block 8 _ _ 100 H0 H1 H2 H3 H4).
Defined.

(** ** [mm_init] *)

(** Prologue and epilogue alone make a well-formed heap without blocks. *)
Lemma init_empty_heap st0 :
  8 <= mem_brk st0 -> mem_brk st0 + 16 <= mem_max_addr st0 -> mem_max_addr st0 < 2 ^ 31 ->
  let hb := mem_brk st0 in
  let st := mkState (mem st0) (fun _ => NULL) (prologue_block st0)
                    (hb + 4 * WSIZE) (mem_max_addr st0) in
  let st := CLEAR_PUT st hb 0 in
  let st := CLEAR_PUT st (hb + 1 * WSIZE) (PACK DSIZE 1) in
  let st := CLEAR_PUT st (hb + 2 * WSIZE) (PACK DSIZE 1) in
  let st := CLEAR_PUT st (hb + 3 * WSIZE) (PACK 0 1) in
  heap (mkState (mem st) (FREE_SEG_LISTS st) (hb + DSIZE) (mem_brk st) (mem_max_addr st)) [].
Proof.
  intros Hlo Hfit Hmax hb st st1 st2 st3 st4. unfold WSIZE, DSIZE in *.
  set (st5 := mkState _ _ _ _ _).
  assert (G : forall c, GET st5 c = GET st4 c) by reflexivity.
  assert (G1 : GET st5 (hb + 4) = 9).
  { rewrite G. unfold st4, st3. rewrite !GET_CLEAR_PUT_other by lia.
    change (hb + 1 * 4) with (hb + 4). unfold st2. rewrite GET_CLEAR_PUT_same. reflexivity. }
  assert (G2 : GET st5 (hb + 8) = 9).
  { rewrite G. unfold st4. rewrite !GET_CLEAR_PUT_other by lia.
    change (hb + 2 * 4) with (hb + 8). unfold st3. rewrite GET_CLEAR_PUT_same. reflexivity. }
  assert (G3 : GET st5 (hb + 12) = 1).
  { rewrite G. change (hb + 3 * 4) with (hb + 12) in *. unfold st4.
    rewrite GET_CLEAR_PUT_same. reflexivity. }
  assert (P5 : prologue_block st5 = hb + 8) by reflexivity.
  assert (B5 : mem_brk st5 = hb + 16) by reflexivity.
  assert (M5 : mem_max_addr st5 = mem_max_addr st0) by reflexivity.
  assert (L5 : forall i, FREE_SEG_LISTS st5 i = NULL) by reflexivity.
  clearbody st5. clear G st4 st3 st2 st1 st.
  split; [|split].
  - constructor; unfold first_block, HEAD, WSIZE, DSIZE, GET_SIZE, GET_ALLOC;
      rewrite ?P5, ?B5, ?M5; cbn [layout].
    + lia.
    + replace (hb + 8 - 4) with (hb + 4) by lia. exact G1.
    + exact G2.
    + lia.
    + replace (hb + 16 - 4) with (hb + 12) by lia. rewrite G3. reflexivity.
    + replace (hb + 16 - 4) with (hb + 12) by lia. rewrite G3. reflexivity.
    + exact Hfit.
    + exact Hmax.
  - constructor.
    + intros x s H. destruct (free_in_nil _ _ H).
    + intros x s H. destruct (free_in_nil _ _ H).
    + intros i _ H. rewrite L5 in H. contradiction.
    + intros x s H. destruct (free_in_nil _ _ H).
  - auto.
Qed.

(** [incr_heap] after an allocated last block, or on a heap without blocks:
    nothing is merged, and the new block is the head of its list. *)
Lemma incr_heap_listed fuel st bl size :
  (0 < fuel)%nat -> heap st bl -> 16 <= even_words size ->
  prev_alloc_of bl = 1 ->
  mem_brk st + even_words size <= mem_max_addr st ->
  exists st',
    incr_heap fuel st size = Some (st', mem_brk st) /\
    heap st' (bl ++ [mkBlock (mem_brk st) (even_words size) 0 0]) /\
    FREE_SEG_LISTS st' (bucket (even_words size)) = mem_brk st /\
    forall i, i <> bucket (even_words size) -> FREE_SEG_LISTS st' i = FREE_SEG_LISTS st i.
Proof.
  intros Hf HW Hs Hprev Hfit.
  pose proof (extend_heap st bl _ (even_words size) HW Hs (even_words_mod8 size) Hfit) as HW1.
  cbv zeta in HW1. destruct HW1 as [HW1 _].
  unfold incr_heap, mem_sbrk. cbv zeta.
  destruct (Z.gtb_spec (mem_brk st + even_words size) (mem_max_addr st)) as [C|_]; [lia|].
  cbv beta iota.
  match type of HW1 with
  | heap_with ?s _ _ =>
      assert (L4 : forall i, FREE_SEG_LISTS s i = FREE_SEG_LISTS st i) by reflexivity;
      generalize dependent s
  end.
  intros st4 HW1 L4.
  set (p := mkBlock (mem_brk st) (even_words size) 0 0) in *.
  assert (HW2 : heap_with st4 (bl ++ p :: []) (free_in (bl ++ []))).
  { eapply heap_with_ext; [|exact HW1]. intros x s. rewrite app_nil_r. reflexivity. }
  assert (Hfree : free_in (bl ++ p :: []) (b_ptr p) (b_size p)).
  { apply free_in_app. right. apply free_in_cons. left. auto. }
  destruct (insert_node_total fuel st4 _ _ _ _ Hf HW2 Hfree) as (st5 & E5).
  change (mem_brk st) with (b_ptr p) at 1 2. change (even_words size) with (b_size p) at 1.
  rewrite E5.
  pose proof (insert_mid_heap fuel st4 bl p [] st5 HW2 eq_refl E5) as HW5.
  destruct (insert_node_head _ _ _ _ _ _ _ HW2 Hfree E5) as [H5 H5'].
  destruct (merge_reads _ _ _ _ (proj1 HW5)) as (Epa & _ & Ena & _).
  unfold merge. cbv zeta. rewrite Epa, Ena, Hprev. cbn [next_alloc_of Z.eqb negb andb].
  exists st5. split; [reflexivity|]. split; [exact HW5|]. split; [exact H5|].
  intros i Hi. rewrite (H5' i Hi). apply L4.
Qed.

(** X14.  [mm_init] on an address space whose break is at least 8 and
    whose limit is below 2^31, with room for the prologue, the epilogue and
    one chunk: the call returns 0 and leaves a well-formed heap whose only
    block is a free block of [CHUNKSIZE] bytes, 16 bytes after the old
    break.  That block is the one entry of list 12, its two links being
    NULL, and every other list is empty. *)
Theorem mm_init_builds_heap fuel st0 :
  (0 < fuel)%nat -> 8 <= mem_brk st0 ->
  mem_brk st0 + 16 + CHUNKSIZE <= mem_max_addr st0 -> mem_max_addr st0 < 2 ^ 31 ->
  exists st,
    mm_init fuel st0 = Some (st, 0) /\
    heap st [mkBlock (mem_brk st0 + 16) CHUNKSIZE 0 0] /\
    (forall i, FREE_SEG_LISTS st i = if i =? 12 then mem_brk st0 + 16 else NULL) /\
    PRECEDE st (mem_brk st0 + 16) = NULL /\ SUCCEED st (mem_brk st0 + 16) = NULL.
Proof.
  intros Hf Hlo Hfit Hmax. change CHUNKSIZE with 4096 in Hfit.
  pose proof (init_empty_heap st0 Hlo ltac:(lia) Hmax) as HW. cbv zeta in HW.
  unfold mm_init, mem_sbrk. cbv zeta. cbn [mem_brk mem_max_addr].
  destruct (Z.gtb_spec (mem_brk st0 + 4 * WSIZE) (mem_max_addr st0)) as [C|_];
    [unfold WSIZE in C; lia|].
  cbv beta iota. cbn [mem FREE_SEG_LISTS prologue_block mem_brk mem_max_addr] in *.
  match type of HW with
  | heap ?s _ =>
      assert (B5 : mem_brk s = mem_brk st0 + 4 * WSIZE) by reflexivity;
      assert (M5 : mem_max_addr s = mem_max_addr st0) by reflexivity;
      assert (L5 : forall i, FREE_SEG_LISTS s i = NULL) by reflexivity;
      generalize dependent s
  end.
  intros st5. intros.
  assert (Hev : even_words CHUNKSIZE = 4096) by reflexivity.
  destruct (incr_heap_listed fuel st5 [] CHUNKSIZE Hf HW ltac:(rewrite Hev; lia) eq_refl
              ltac:(rewrite Hev; unfold WSIZE in *; lia)) as (st6 & E6 & HW6 & H6 & H6').
  rewrite E6, B5.
  destruct (Z.eqb_spec (mem_brk st0 + 4 * WSIZE) NULL) as [E|_];
    [unfold WSIZE, NULL in E; lia|].
  rewrite Hev, B5 in *. cbn [app] in HW6. change (4 * WSIZE) with 16 in *.
  change (bucket 4096) with 12 in *.
  set (x := mem_brk st0 + 16) in *.
  assert (Hone : forall y s, free_in [mkBlock x 4096 0 0] y s -> y = x).
  { intros y s [t [Hy|[]]]. injection Hy as -> _ _. reflexivity. }
  assert (Hx0 : x <> NULL) by (unfold x, NULL; lia).
  destruct HW6 as (HL6 & HK6 & HN6).
  assert (Hsucc : SUCCEED st6 x = NULL).
  { destruct (lk_head _ _ HK6 12 ltac:(unfold SEG_LISTS; lia) ltac:(rewrite H6; exact Hx0))
      as (s & _ & Hs & _). rewrite H6 in Hs. exact Hs. }
  exists st6. split; [reflexivity|]. split; [split; [exact HL6|split; assumption]|].
  split; [|split; [|exact Hsucc]].
  - intros i. destruct (Z.eqb_spec i 12) as [->|Hi]; [exact H6|].
    rewrite (H6' i Hi). apply L5.
  - destruct (Z.eq_dec (PRECEDE st6 x) NULL) as [E|E]; [exact E|exfalso].
    destruct (lk_precede _ _ HK6 x 4096 ltac:(exists 0; left; reflexivity) E)
      as (s' & Hs' & Hback & _).
    rewrite (Hone _ _ Hs') in Hback. rewrite Hsucc in Hback. auto.
Qed.

Lemma mm_init_builds_heap_witness :
  ((0 < 8)%nat /\ 8 <= mem_brk (boot 65536 1048576) /\
   mem_brk (boot 65536 1048576) + 16 + CHUNKSIZE <= mem_max_addr (boot 65536 1048576) /\
   mem_max_addr (boot 65536 1048576) < 2 ^ 31) /\
  exists st,
    mm_init 8 (boot 65536 1048576) = Some (st, 0) /\
    heap st [mkBlock (mem_brk (boot 65536 1048576) + 16) CHUNKSIZE 0 0] /\
    (forall i, FREE_SEG_LISTS st i =
               if i =? 12 then mem_brk (boot 65536 1048576) + 16 else NULL) /\
    PRECEDE st (mem_brk (boot 65536 1048576) + 16) = NULL /\
    SUCCEED st (mem_brk (boot 65536 1048576) + 16) = NULL.
Proof.
  assert (H : (0 < 8)%nat /\ 8 <= mem_brk (boot 65536 1048576) /\
              mem_brk (boot 65536 1048576) + 16 + CHUNKSIZE
                <= mem_max_addr (boot 65536 1048576) /\
              mem_max_addr (boot 65536 1048576) < 2 ^ 31).
  { split; [repeat constructor|]. repeat split; vm_compute; congruence. }
  split; [exact H|]. destruct H as (H0 & H1 & H2 & H3).
  exact (mm_init_builds_heap 8 _ H0 H1 H2 H3).
Defined.

(** X15.  Without that room [mm_init] returns -1; every free list is empty
    in the state it leaves. *)
Theorem mm_init_fails_without_room fuel st0 :
  mem_brk st0 + 16 + CHUNKSIZE > mem_max_addr st0 ->
  exists st, mm_init fuel st0 = Some (st, -1) /\ forall i, FREE_SEG_LISTS st i = NULL.
Proof.
  intros Hfit. change CHUNKSIZE with 4096 in Hfit.
  unfold mm_init, mem_sbrk. cbv zeta. cbn [mem_brk mem_max_addr].
  destruct (Z.gtb_spec (mem_brk st0 + 4 * WSIZE) (mem_max_addr st0)) as [C|C].
  - eexists. split; [reflexivity|]. reflexivity.
  - cbv beta iota. rewrite incr_heap_fails.
    + eexists. split; [reflexivity|]. reflexivity.
    + change (even_words CHUNKSIZE) with 4096. cbn [mem_brk mem_max_addr CLEAR_PUT with_mem].
      unfold WSIZE in *. lia.
Qed.

Lemma mm_init_fails_without_room_witness :
  mem_brk (boot 65536 69000) + 16 + CHUNKSIZE > mem_max_addr (boot 65536 69000) /\
  exists st, mm_init 8 (boot 65536 69000) = Some (st, -1) /\
             forall i, FREE_SEG_LISTS st i = NULL.
Proof.
  assert (H : mem_brk (boot 65536 69000) + 16 + CHUNKSIZE > mem_max_addr (boot 65536 69000))
    by reflexivity.
  split; [exact H|]. exact (mm_init_fails_without_room 8 _ H).
Defined.

(** ** Tagging the next block *)

Lemma free_in_tag_head l x s : free_in (tag_head l) x s <-> free_in l x s.
Proof.
  destruct l as [|n r]; [reflexivity|]. cbn [tag_head].
  rewrite !free_in_cons. reflexivity.
Qed.

(** "Tag the next block". *)
Lemma set_tag_next_heap st l1 b l2 N :
  heap_with st (l1 ++ b :: l2) N ->
  heap_with (SET_TAG st (HEAD (NEXT st (b_ptr b)))) (l1 ++ b :: tag_head l2) N.
Proof.
  intros HW. pose proof HW as (HL & _).
  rewrite (next_ptr _ _ _ _ HL), SET_TAG_eq.
  destruct (heap_layout_split _ _ _ _ HL) as (_ & _ & L2).
  destruct l2 as [|n r]; cbn [tag_head].
  - cbn [layout] in L2. rewrite L2.
    apply epilogue_word_heap; [exact HW| | |].
    + rewrite (proj1 (set_tag_fields _)). apply (hl_epilogue_size _ _ HL).
    + rewrite (proj2 (set_tag_fields _)). apply (hl_epilogue_alloc _ _ HL).
    + apply set_tag_range, GET_range.
  - cbn [layout] in L2. destruct L2 as (Hp & Hn & _). rewrite <- Hp.
    pose proof Hn as (Hs & Hm & Ha & Ht & Hh & _).
    rewrite Hh. unfold header. rewrite set_tag_word by assumption.
    change (l1 ++ b :: n :: r) with (l1 ++ [b] ++ n :: r) in HW.
    rewrite app_assoc in HW.
    change (l1 ++ b :: mkBlock (b_ptr n) (b_size n) (b_alloc n) 2 :: r)
      with (l1 ++ [b] ++ mkBlock (b_ptr n) (b_size n) (b_alloc n) 2 :: r).
    rewrite app_assoc.
    apply (retag_heap st (l1 ++ [b]) n r N 2 HW). right. reflexivity.
Qed.

(** ** [mm_realloc] in place *)

(** The allocated block [p] takes over its free successor [nb]: the
    successor leaves its list and the boundary tags of [p] span both. *)
Lemma absorb_next_heap st l1 p nb r :
  heap st (l1 ++ p :: nb :: r) -> b_alloc p = 1 -> b_alloc nb = 0 ->
  let size := b_size p + b_size nb in
  let st1 := remove_node st (b_ptr nb) in
  let st2 := CLEAR_PUT st1 (HEAD (b_ptr p)) (PACK size 1) in
  let st3 := CLEAR_PUT st2 (FOOT st2 (b_ptr p)) (PACK size 1) in
  heap st3 (l1 ++ mkBlock (b_ptr p) size 1 0 :: r) /\
  keeps st st3 (allocated_in (l1 ++ p :: r)).
Proof.
  intros HW Hp Hn size. pose proof HW as (HL & _).
  pose proof (block_bounds _ _ _ _ HL) as (Bp1 & Bp2 & Bp3 & Bp4 & Bp5).
  assert (HL' : heap_layout st ((l1 ++ [p]) ++ nb :: r))
    by (rewrite <- app_assoc; exact HL).
  pose proof (block_bounds _ _ _ _ HL') as (Bn1 & Bn2 & Bn3 & Bn4 & Bn5).
  destruct (heap_layout_split _ _ _ _ HL) as (L1 & Hpok & L2).
  cbn [layout] in L2. destruct L2 as (Hnp & _ & L2).
  assert (HWn : heap st ((l1 ++ [p]) ++ nb :: r)) by (rewrite <- app_assoc; exact HW).
  pose proof (remove_mid_heap _ _ _ _ HWn Hn) as HW1.
  assert (K1 : keeps st (remove_node st (b_ptr nb)) (allocated_in (l1 ++ p :: r))).
  { eapply keeps_sub; [|apply (remove_node_keeps st _ _ (b_ptr nb) (b_size nb) HW)].
    - alloc_sub.
    - apply free_in_app. right. apply free_in_cons. right. apply free_in_cons. left. auto. }
  rewrite <- app_assoc in HW1. cbn [app] in HW1.
  generalize dependent (remove_node st (b_ptr nb)). intros st1 HW1 K1 st1'. subst st1'.
  pose proof HW1 as (HL1 & _).
  assert (Hsz : 0 <= size < 2 ^ 31) by (unfold size; lia).
  assert (Hsm : size mod 8 = 0).
  { unfold size. rewrite Z.add_mod, Bp5, Bn5 by lia. reflexivity. }
  assert (H1 : flag 1) by (right; reflexivity).
  destruct (heap_layout_split _ _ _ _ HL1) as (L1' & Hpok1 & L2').
  cbn [layout] in L2'. destruct L2' as (_ & Hnok1' & L2').
  intros st2.
  assert (R1 : GET st2 (HEAD (b_ptr p)) = size + 1 + 0).
  { unfold st2. apply GET_CLEAR_PUT_PACK; assumption. }
  assert (EF : FOOT st2 (b_ptr p) = b_ptr p + size - 8).
  { unfold FOOT, GET_SIZE, DSIZE. rewrite R1.
    rewrite size_of_word by (auto; left; reflexivity). reflexivity. }
  rewrite EF. intros st3. split.
  - assert (HWc : heap_with st3 (l1 ++ [mkBlock (b_ptr p) size 1 0] ++ r)
                            (without (free_in (l1 ++ p :: nb :: r)) (b_ptr nb))).
    { change (l1 ++ p :: nb :: r) with (l1 ++ [p; nb] ++ r) in HW1.
      eapply heap_with_change with (st := st1) (mid := [p; nb]) (a := b_ptr p)
                                   (e := b_ptr nb + b_size nb);
        [exact HW1|exact L1'| |rewrite Hnp; exact L2'
        |reflexivity|reflexivity|reflexivity|reflexivity| | |].
      - lia.
      - intros c Hc. unfold st3, st2, HEAD, WSIZE. unfold size.
        rewrite !GET_CLEAR_PUT_other by lia. reflexivity.
      - apply layout_single. cbn [b_ptr b_size]. fold size.
        split; [reflexivity|split; [|unfold size; lia]].
        unfold block_ok, header. cbn [b_ptr b_size b_alloc b_tag]. fold size.
        unfold DSIZE.
        split; [unfold size; lia|]. split; [assumption|]. split; [assumption|].
        split; [left; reflexivity|]. split.
        + unfold st3. rewrite GET_CLEAR_PUT_other by (unfold HEAD, WSIZE, size; lia).
          exact R1.
        + unfold st3. rewrite GET_CLEAR_PUT_PACK by assumption.
          apply footer_fields; [assumption|assumption|left; reflexivity].
      - intros x s [Hx Hxn]. cbn [app] in Hx.
        rewrite free_in_app, !free_in_cons in Hx. apply free_in_app.
        destruct Hx as [Hx|[(_ & _ & Hx)|[(Hx & _)|Hx]]]; auto; [congruence|].
        symmetry in Hx. contradiction. }
    eapply heap_with_ext; [|exact HWc].
    intros x s. unfold without. rewrite !free_in_app, !free_in_cons. cbn [b_alloc b_ptr b_size].
    split.
    + intros [[Hx|[(_ & _ & Hx)|[(Hx & _)|Hx]]] Hne]; auto; try congruence.
    + intros [Hx|[(_ & _ & Hx)|Hx]]; [| discriminate |].
      * split; [auto|]. intros ->. apply (layout_before _ _ _ _ _ _ L1) in Hx. lia.
      * split; [auto|]. intros ->. apply (layout_before _ _ _ _ _ _ L2) in Hx. lia.
  - eapply keeps_trans; [exact K1|].
    eapply keeps_trans; apply keeps_write; intros b [Hb Ha];
      apply in_app_or in Hb as [Hb|[Hb|Hb]].
    + apply (around_outside st l1 p (nb :: r) b _ HL);
        [apply in_or_app; auto|unfold HEAD, WSIZE; lia|unfold HEAD, WSIZE; lia].
    + subst b. left. unfold HEAD, WSIZE. lia.
    + apply (around_outside st l1 p (nb :: r) b _ HL);
        [apply in_or_app; right; right; exact Hb|unfold HEAD, WSIZE; lia|unfold HEAD, WSIZE; lia].
    + apply (around_outside st (l1 ++ [p]) nb r b _ HL');
        [apply in_or_app; left; apply in_or_app; auto|unfold size; lia|unfold size; lia].
    + subst b. right. unfold DSIZE, size. lia.
    + apply (around_outside st (l1 ++ [p]) nb r b _ HL');
        [apply in_or_app; right; exact Hb|unfold size; lia|unfold size; lia].
Qed.

Lemma next_size_eq st l1 b l2 :
  heap_layout st (l1 ++ b :: l2) ->
  GET_SIZE st (HEAD (NEXT st (b_ptr b))) = next_size_of l2 /\
  GET_ALLOC st (HEAD (NEXT st (b_ptr b))) = next_alloc_of l2.
Proof.
  intros HL. destruct l2 as [|n r]; cbn [next_size_of next_alloc_of].
  - destruct (next_header_last _ _ _ HL) as [E Ea]. split; [|exact Ea].
    rewrite E. apply (hl_epilogue_size _ _ HL).
  - destruct (next_header_block _ _ _ _ _ HL) as [E Hn]. rewrite E.
    destruct (block_header_fields _ _ Hn) as (Es & Ea & _). auto.
Qed.

(** Tagging the next header leaves every payload alone. *)
Lemma set_tag_next_keeps st l1 b l2 :
  heap_layout st (l1 ++ b :: l2) ->
  keeps st (SET_TAG st (HEAD (NEXT st (b_ptr b)))) (fun a => In a (l1 ++ b :: l2)).
Proof.
  intros HL. rewrite (next_ptr _ _ _ _ HL), SET_TAG_eq.
  destruct (heap_layout_split _ _ _ _ HL) as (L1 & (Hs & _) & L2).
  pose proof (layout_bounds _ _ _ _ L1) as [_ B1].
  pose proof (layout_bounds _ _ _ _ L2) as [_ B2].
  apply keeps_write. intros a Ha. unfold HEAD, WSIZE, DSIZE.
  apply in_app_or in Ha as [Ha|[Ha|Ha]].
  - apply B1 in Ha. lia.
  - subst a. lia.
  - apply B2 in Ha. lia.
Qed.

Lemma realloc_tag_heap st l1 b l2 k :
  heap st (l1 ++ b :: l2) ->
  heap (fst (realloc_tag st (b_ptr b) k))
       (l1 ++ b :: (if k <? 2 * REALLOC_BUFFER then tag_head l2 else l2)) /\
  snd (realloc_tag st (b_ptr b) k) = b_ptr b /\
  keeps st (fst (realloc_tag st (b_ptr b) k)) (fun a => In a (l1 ++ b :: l2)).
Proof.
  intros HW. unfold realloc_tag. destruct (k <? 2 * REALLOC_BUFFER); cbn [fst snd].
  - split; [|split; [reflexivity|apply set_tag_next_keeps; apply HW]].
    eapply heap_with_ext; [|apply set_tag_next_heap; exact HW].
    intros x s. rewrite !free_in_app, !free_in_cons, free_in_tag_head. reflexivity.
  - split; [exact HW|split; [reflexivity|apply keeps_refl]].
Qed.

(** X16.  [mm_realloc] on a block of a well-formed heap that already has
    the adjusted size plus the 128-byte buffer: the call returns the same
    address and the heap stays well formed with the same blocks; the only
    change is the tag set on the next block when less than 256 bytes are to
    spare, and no payload is touched. *)
Theorem resize_with_room_stays fuel st l1 p l2 n :
  heap st (l1 ++ p :: l2) -> n <> 0 ->
  0 <= to_int (b_size p - realloc_size n) ->
  exists st',
    mm_realloc fuel st (b_ptr p) n = Some (st', b_ptr p) /\
    heap st' (l1 ++ p :: (if to_int (b_size p - realloc_size n) <? 2 * REALLOC_BUFFER
                          then tag_head l2 else l2)) /\
    keeps st st' (allocated_in (l1 ++ p :: l2)).
Proof.
  intros HW Hn Hroom. pose proof HW as (HL & _).
  destruct (heap_layout_split _ _ _ _ HL) as (_ & Hb & _).
  destruct (block_header_fields _ _ Hb) as (Esz & _).
  unfold mm_realloc. destruct (Z.eqb_spec n 0) as [E|_]; [contradiction|]. cbv zeta.
  rewrite Esz. destruct (Z.ltb_spec (to_int (b_size p - realloc_size n)) 0) as [C|_]; [lia|].
  destruct (realloc_tag_heap st l1 p l2 (to_int (b_size p - realloc_size n)) HW)
    as (HW' & Eq & K).
  destruct (realloc_tag st (b_ptr p) (to_int (b_size p - realloc_size n))) as [st' q].
  cbn [fst snd] in *. subst q. exists st'. split; [reflexivity|]. split; [exact HW'|].
  eapply keeps_sub; [|exact K]. intros a [Ha _]. exact Ha.
Qed.

Lemma resize_with_room_stays_witness :
  match session 8 65536 1048576 [Alloc 0 300; Alloc 1 50] with
  | Some (st, t) =>
      let p := mkBlock 65552 312 1 0 in
      let l2 := [mkBlock 65864 64 1 0; mkBlock 65928 3720 0 0] in
      (heap st ([] ++ p :: l2) /\ 40 <> 0 /\ 0 <= to_int (b_size p - realloc_size 40)) /\
      exists st',
        mm_realloc 8 st (b_ptr p) 40 = Some (st', b_ptr p) /\
        heap st' ([] ++ p :: (if to_int (b_size p - realloc_size 40) <? 2 * REALLOC_BUFFER
                              then tag_head l2 else l2)) /\
        keeps st st' (allocated_in ([] ++ p :: l2))
  | None => False
  end.
Proof.
  on_session.
  match goal with
  | |- ?A /\ _ =>
      assert (H : A)
        by (split; [checked|split; [discriminate|vm_compute; congruence]])
  end.
  split; [exact H|]. destruct H as (H0 & H1 & H2).
  exact (resize_with_room_stays 8 _ [] _ _ 40 H0 H1 H2).
Defined.

(** X17.  [mm_realloc] on an allocated block [p] that is too small and is
    followed by a free block [nb] that makes it large enough: the call
    returns the same address; [p] takes over the whole of [nb], which leaves
    its free list and is not split; the next block is tagged when less than
    256 bytes are to spare.  The heap is well formed, and the payloads of
    the allocated blocks, that of [p] included, are untouched. *)
Theorem resize_absorbs_free_successor fuel st l1 p nb r n :
  heap st (l1 ++ p :: nb :: r) -> b_alloc p = 1 -> b_alloc nb = 0 -> n <> 0 ->
  b_size p < realloc_size n <= b_size p + b_size nb ->
  exists st',
    mm_realloc fuel st (b_ptr p) n = Some (st', b_ptr p) /\
    heap st' (l1 ++ mkBlock (b_ptr p) (b_size p + b_size nb) 1 0 ::
              (if b_size p + b_size nb - realloc_size n <? 2 * REALLOC_BUFFER
               then tag_head r else r)) /\
    keeps st st' (allocated_in (l1 ++ p :: r)).
Proof.
  intros HW Hp Hnb Hn Hsz. pose proof HW as (HL & _).
  pose proof (block_bounds _ _ _ _ HL) as (Bp1 & Bp2 & Bp3 & Bp4 & Bp5).
  assert (HL' : heap_layout st ((l1 ++ [p]) ++ nb :: r))
    by (rewrite <- app_assoc; exact HL).
  pose proof (block_bounds _ _ _ _ HL') as (Bn1 & Bn2 & Bn3 & Bn4 & Bn5).
  destruct (heap_layout_split _ _ _ _ HL) as (_ & Hb & L2).
  cbn [layout] in L2. destruct L2 as (Hnp & _ & _).
  destruct (block_header_fields _ _ Hb) as (Esz & _).
  destruct (next_size_eq _ _ _ _ HL) as [Ens Ena]. cbn [next_size_of next_alloc_of] in *.
  destruct (next_header_block _ _ _ _ _ HL) as [En _].
  destruct (absorb_next_heap st l1 p nb r HW Hp Hnb) as [HW3 K3].
  revert HW3 K3. cbv zeta.
  unfold mm_realloc. destruct (Z.eqb_spec n 0) as [E|_]; [contradiction|]. cbv zeta.
  rewrite Esz, Ens, Ena, Hnb. cbn [Z.eqb orb].
  change (2 ^ 31) with 2147483648 in *.
  rewrite (to_int_small (b_size p - realloc_size n))
    by (change (2 ^ 31) with 2147483648; lia).
  destruct (Z.ltb_spec (b_size p - realloc_size n) 0) as [_|C]; [|lia].
  rewrite (to_int_small (b_size p + b_size nb - realloc_size n))
    by (change (2 ^ 31) with 2147483648; lia).
  destruct (Z.ltb_spec (b_size p + b_size nb - realloc_size n) 0) as [C|_]; [lia|].
  rewrite En.
  replace (realloc_size n + (b_size p + b_size nb - realloc_size n))
    with (b_size p + b_size nb) by lia.
  rewrite (wrap32_small (b_size p + b_size nb))
    by (change (2 ^ 32) with 4294967296; lia).
  set (P := mkBlock (b_ptr p) (b_size p + b_size nb) 1 0).
  generalize dependent
    (CLEAR_PUT (CLEAR_PUT (remove_node st (b_ptr nb)) (HEAD (b_ptr p))
                          (PACK (b_size p + b_size nb) 1))
               (FOOT (CLEAR_PUT (remove_node st (b_ptr nb)) (HEAD (b_ptr p))
                                (PACK (b_size p + b_size nb) 1)) (b_ptr p))
               (PACK (b_size p + b_size nb) 1)).
  intros st3 HW3 K3.
  destruct (heap_layout_split _ _ _ _ (proj1 HW3)) as (_ & HP & _).
  destruct (block_header_fields _ _ HP) as (EP & _). cbn [P b_ptr b_size] in EP.
  rewrite EP.
  rewrite (to_int_small (b_size p + b_size nb - realloc_size n))
    by (change (2 ^ 31) with 2147483648; lia).
  destruct (realloc_tag_heap st3 l1 P r (b_size p + b_size nb - realloc_size n) HW3)
    as (HW4 & Eq & K4).
  cbn [P b_ptr] in HW4, Eq, K4.
  destruct (realloc_tag st3 (b_ptr p) (b_size p + b_size nb - realloc_size n)) as [st4 q].
  cbn [fst snd] in *. subst q. exists st4. split; [reflexivity|]. split; [exact HW4|].
  eapply keeps_trans; [exact K3|].
  intros a c [Hin Ha] Hc1 Hc2. apply in_app_or in Hin as [Hin|[Hin|Hin]].
  - apply (K4 a c); [apply in_or_app; auto|exact Hc1|exact Hc2].
  - subst a. apply (K4 P c); [apply in_elt|exact Hc1|].
    cbn [P b_ptr b_size]. lia.
  - apply (K4 a c); [apply in_or_app; right; right; exact Hin|exact Hc1|exact Hc2].
Qed.

Lemma resize_absorbs_free_successor_witness :
  match session 8 65536 1048576 [Alloc 0 16] with
  | Some (st, _) =>
      let p := mkBlock 65552 24 1 0 in
      let nb := mkBlock 65576 4072 0 0 in
      (heap st ([] ++ p :: nb :: []) /\ b_alloc p = 1 /\ b_alloc nb = 0 /\ 100 <> 0 /\
       b_size p < realloc_size 100 <= b_size p + b_size nb) /\
      exists st',
        mm_realloc 8 st (b_ptr p) 100 = Some (st', b_ptr p) /\
        heap st' ([] ++ mkBlock (b_ptr p) (b_size p + b_size nb) 1 0 ::
                  (if b_size p + b_size nb - realloc_size 100 <? 2 * REALLOC_BUFFER
                   then tag_head [] else [])) /\
        keeps st st' (allocated_in ([] ++ p :: []))
  | None => False
  end.
Proof.
  on_session.
  match goal with
  | |- ?A /\ _ =>
      assert (H : A)
        by (split; [checked|split; [reflexivity|split; [reflexivity|split;
              [discriminate|split; vm_compute; congruence]]]])
  end.
  split; [exact H|]. destruct H as (H0 & H1 & H2 & H3 & H4).
  exact (resize_absorbs_free_successor 8 _ [] _ _ [] 100 H0 H1 H2 H3 H4).
Defined.

Lemma realloc_size_mod8 n : realloc_size n mod 8 = 0.
Proof.
  unfold realloc_size. apply wrap32_mod8. change REALLOC_BUFFER with 128.
  rewrite Z.add_mod, adjust_size_mod8 by lia. reflexivity.
Qed.

(** The end of the heap after [incr_heap], when the last block is an
    allocated block [p] or an untagged free block after [p]. *)
Lemma grown_tail l1 p tl new :
  b_alloc p = 1 ->
  tl = [] \/ (exists nb, tl = [nb] /\ b_alloc nb = 0 /\ b_tag nb = 0) ->
  exists X,
    coalesced (l1 ++ p :: tl) new [] = l1 ++ p :: X :: [] /\
    coalesced_ptr (l1 ++ p :: tl) new = b_ptr X /\
    b_size X = next_size_of tl + b_size new /\
    (b_alloc new = 0 -> b_alloc X = 0) /\
    merge_slips (l1 ++ p :: tl) [] = false.
Proof.
  intros Hp [->|(nb & -> & Ha & Ht)].
  - exists new. unfold coalesced, coalesced_ptr. cbn [next_free tl next_size_of].
    change (l1 ++ [p]) with (l1 ++ [p]). rewrite merge_slips_snoc, prev_mergeable_snoc, Hp.
    cbn [Z.eqb andb]. rewrite <- app_assoc. cbn [app]. repeat split; auto.
  - exists (joined nb new). unfold coalesced, coalesced_ptr. cbn [next_free tl next_size_of].
    change (l1 ++ [p; nb]) with (l1 ++ [p] ++ [nb]). rewrite app_assoc.
    rewrite merge_slips_snoc, prev_mergeable_snoc, Ha, Ht. cbn [Z.eqb andb negb].
    rewrite removelast_last, last_last, <- app_assoc. cbn [app joined b_ptr b_size b_alloc].
    repeat split; auto.
Qed.

(** X18.  [mm_realloc] on an allocated block [p] that is the last block
    of the heap, or is followed by a last block that is free and untagged,
    when [p] is too small even with that block.  The heap is asked for the
    missing bytes, at least [CHUNKSIZE].  If it cannot grow, the call
    returns NULL and changes nothing; otherwise the call returns the same
    address, [p] takes all the space up to the new end of the heap, the heap
    is well formed and the payloads of the allocated blocks are untouched. *)
Theorem resize_grows_heap_end fuel st l1 p tl n :
  (0 < fuel)%nat -> heap st (l1 ++ p :: tl) -> b_alloc p = 1 ->
  tl = [] \/ (exists nb, tl = [nb] /\ b_alloc nb = 0 /\ b_tag nb = 0) ->
  n <> 0 -> b_size p + next_size_of tl < realloc_size n -> realloc_size n < 2 ^ 31 ->
  let incr := MAX (realloc_size n - (b_size p + next_size_of tl)) CHUNKSIZE in
  (mem_brk st + incr > mem_max_addr st ->
   mm_realloc fuel st (b_ptr p) n = Some (st, NULL)) /\
  (mem_brk st + incr <= mem_max_addr st ->
   exists st',
     mm_realloc fuel st (b_ptr p) n = Some (st', b_ptr p) /\
     heap st' (l1 ++ [mkBlock (b_ptr p) (b_size p + next_size_of tl + incr) 1 0]) /\
     keeps st st' (allocated_in (l1 ++ [p]))).
Proof.
  intros Hf HW Hp Htl Hn Hsz Hrs incr. pose proof HW as (HL & _).
  pose proof (block_bounds _ _ _ _ HL) as (Bp1 & Bp2 & Bp3 & Bp4 & Bp5).
  destruct (heap_layout_split _ _ _ _ HL) as (_ & Hb & L2).
  destruct (block_header_fields _ _ Hb) as (Esz & _).
  destruct (next_size_eq _ _ _ _ HL) as [Ens Ena].
  pose proof (realloc_size_mod8 n) as Rm.
  assert (Hns : 0 <= next_size_of tl /\ next_size_of tl mod 8 = 0 /\
                b_size p + next_size_of tl < 2 ^ 31).
  { destruct tl as [|nb r]; cbn [next_size_of]; [split; [lia|split; [reflexivity|lia]]|].
    assert (HL' : heap_layout st ((l1 ++ [p]) ++ nb :: r))
      by (rewrite <- app_assoc; exact HL).
    pose proof (block_bounds _ _ _ _ HL') as (Bn1 & Bn2 & Bn3 & Bn4 & Bn5).
    cbn [layout] in L2. destruct L2 as (Hnp & _ & _). lia. }
  destruct Hns as (Hns0 & Hns8 & Hns31).
  assert (Hcond : (next_alloc_of tl =? 0) || (next_size_of tl =? 0) = true).
  { destruct Htl as [->|(nb & -> & Ha & _)]; cbn [next_alloc_of next_size_of];
      [reflexivity|rewrite Ha; reflexivity]. }
  change (2 ^ 31) with 2147483648 in *.
  assert (Hincr : 4096 <= incr < 2147483648 /\ incr mod 8 = 0 /\
                  realloc_size n - (b_size p + next_size_of tl) <= incr).
  { unfold incr. change CHUNKSIZE with 4096.
    destruct (MAX_cases (realloc_size n - (b_size p + next_size_of tl)) 4096)
      as [[-> H]|[-> H]]; (split; [lia|split; [|lia]]); [|reflexivity].
    rewrite Zminus_mod, Rm, (Z.add_mod (b_size p)), Bp5, Hns8 by lia. reflexivity. }
  destruct Hincr as (Hi1 & Hi8 & Himin).
  assert (Eev : even_words incr = incr)
    by (apply even_words_id; [exact Hi8|change (2 ^ 32) with 4294967296; lia]).
  assert (Estart :
      mm_realloc fuel st (b_ptr p) n =
      match
        match incr_heap fuel st incr with
        | None => None
        | Some (st, p0) =>
            Some (st, p0 =? NULL, incr - (realloc_size n - (b_size p + next_size_of tl)))
        end
      with
      | None => None
      | Some (st, failed, remainder) =>
          if failed then Some (st, NULL)
          else
            let st := remove_node st (NEXT st (b_ptr p)) in
            let st := CLEAR_PUT st (HEAD (b_ptr p))
                                (PACK (wrap32 (realloc_size n + remainder)) 1) in
            let st := CLEAR_PUT st (FOOT st (b_ptr p))
                                (PACK (wrap32 (realloc_size n + remainder)) 1) in
            Some (realloc_tag st (b_ptr p)
                              (to_int (GET_SIZE st (HEAD (b_ptr p)) - realloc_size n)))
      end).
  { unfold mm_realloc. destruct (Z.eqb_spec n 0) as [E|_]; [contradiction|]. cbv zeta.
    rewrite Esz, Ens, Ena, Hcond.
    rewrite (to_int_small (b_size p - realloc_size n))
      by (change (2 ^ 31) with 2147483648; lia).
    destruct (Z.ltb_spec (b_size p - realloc_size n) 0) as [_|C]; [|lia].
    rewrite (to_int_small (b_size p + next_size_of tl - realloc_size n))
      by (change (2 ^ 31) with 2147483648; lia).
    destruct (Z.ltb_spec (b_size p + next_size_of tl - realloc_size n) 0) as [_|C]; [|lia].
    rewrite (to_int_small (- (b_size p + next_size_of tl - realloc_size n)))
      by (change (2 ^ 31) with 2147483648; lia).
    replace (- (b_size p + next_size_of tl - realloc_size n))
      with (realloc_size n - (b_size p + next_size_of tl)) by lia.
    fold incr. rewrite (wrap32_small incr) by (change (2 ^ 32) with 4294967296; lia).
    rewrite (to_int_small (b_size p + next_size_of tl - realloc_size n + incr))
      by (change (2 ^ 31) with 2147483648; lia).
    replace (b_size p + next_size_of tl - realloc_size n + incr)
      with (incr - (realloc_size n - (b_size p + next_size_of tl))) by lia.
    reflexivity. }
  split.
  - intros Hfull. rewrite Estart, incr_heap_fails by (rewrite Eev; exact Hfull).
    reflexivity.
  - intros Hfit.
    destruct (grown_tail l1 p tl (mkBlock (mem_brk st) incr 0 0) Hp Htl)
      as (X & Ec & Eptr & EXs & EXa & Hslip).
    cbn [b_size b_alloc] in EXs, EXa. specialize (EXa eq_refl).
    destruct (incr_heap_heap fuel st (l1 ++ p :: tl) incr Hf HW
                ltac:(rewrite Eev; lia) Hslip ltac:(rewrite Eev; exact Hfit))
      as (st1 & E1 & HW1 & K1).
    rewrite Eev in E1, HW1. rewrite Ec in HW1. rewrite Eptr in E1.
    rewrite Estart, E1. pose proof HW1 as (HL1 & _).
    destruct (next_header_block _ _ _ _ _ HL1) as [En1 _].
    assert (HL1' : heap_layout st1 ((l1 ++ [p]) ++ X :: []))
      by (rewrite <- app_assoc; exact HL1).
    pose proof (block_bounds _ _ _ _ HL1') as (BX1 & BX2 & BX3 & BX4 & BX5).
    destruct (Z.eqb_spec (b_ptr X) NULL) as [C|_]; [unfold NULL in C; lia|].
    cbv zeta. rewrite En1.
    replace (realloc_size n + (incr - (realloc_size n - (b_size p + next_size_of tl))))
      with (b_size p + b_size X) by lia.
    pose proof (block_bounds _ _ _ _ HL1) as (Bq1 & Bq2 & Bq3 & Bq4 & Bq5).
    destruct (heap_layout_split _ _ _ _ HL1) as (_ & _ & L2').
    cbn [layout] in L2'. destruct L2' as (HXp & _ & HXe).
    change (2 ^ 31) with 2147483648 in *.
    rewrite (wrap32_small (b_size p + b_size X))
      by (change (2 ^ 32) with 4294967296; lia).
    destruct (absorb_next_heap st1 l1 p X [] HW1 Hp EXa) as [HW3 K3].
    revert HW3 K3. cbv zeta.
    set (P := mkBlock (b_ptr p) (b_size p + b_size X) 1 0).
    generalize dependent
      (CLEAR_PUT (CLEAR_PUT (remove_node st1 (b_ptr X)) (HEAD (b_ptr p))
                            (PACK (b_size p + b_size X) 1))
                 (FOOT (CLEAR_PUT (remove_node st1 (b_ptr X)) (HEAD (b_ptr p))
                                  (PACK (b_size p + b_size X) 1)) (b_ptr p))
                 (PACK (b_size p + b_size X) 1)).
    intros st3 HW3 K3.
    destruct (heap_layout_split _ _ _ _ (proj1 HW3)) as (_ & HP & _).
    destruct (block_header_fields _ _ HP) as (EP & _). cbn [P b_ptr b_size] in EP.
    rewrite EP.
    set (k := to_int (b_size p + b_size X - realloc_size n)).
    destruct (realloc_tag_heap st3 l1 P [] k HW3) as (HW4 & Eq & K4).
    cbn [P b_ptr] in HW4, Eq, K4.
    destruct (realloc_tag st3 (b_ptr p) k) as [st4 q].
    cbn [fst snd] in *. subst q. exists st4. split; [reflexivity|]. split.
    + replace (b_size p + next_size_of tl + incr) with (b_size p + b_size X) by lia.
      destruct (k <? 2 * REALLOC_BUFFER); exact HW4.
    + eapply keeps_trans; [eapply keeps_sub; [|exact K1]|].
      { intros a [Hin Ha]. split; [|exact Ha].
        apply in_app_or in Hin as [Hin|[Hin|[]]]; apply in_or_app; [left; exact Hin|].
        right. left. exact Hin. }
      eapply keeps_trans; [exact K3|].
      intros a c [Hin Ha] Hc1 Hc2. apply in_app_or in Hin as [Hin|[Hin|[]]].
      * apply (K4 a c); [apply in_or_app; auto|exact Hc1|exact Hc2].
      * subst a. apply (K4 P c); [apply in_elt|exact Hc1|].
        cbn [P b_ptr b_size]. lia.
Qed.

Lemma resize_grows_heap_end_witness :
  match session 8 65536 1048576 [Alloc 0 16] with
  | Some (st, _) =>
      let p := mkBlock 65552 24 1 0 in
      let tl := [mkBlock 65576 4072 0 0] in
      ((0 < 8)%nat /\ heap st ([] ++ p :: tl) /\ b_alloc p = 1 /\
       (tl = [] \/ (exists nb, tl = [nb] /\ b_alloc nb = 0 /\ b_tag nb = 0)) /\
       5000 <> 0 /\ b_size p + next_size_of tl < realloc_size 5000 /\
       realloc_size 5000 < 2 ^ 31) /\
      let incr := MAX (realloc_size 5000 - (b_size p + next_size_of tl)) CHUNKSIZE in
      (mem_brk st + incr > mem_max_addr st ->
       mm_realloc 8 st (b_ptr p) 5000 = Some (st, NULL)) /\
      (mem_brk st + incr <= mem_max_addr st ->
       exists st',
         mm_realloc 8 st (b_ptr p) 5000 = Some (st', b_ptr p) /\
         heap st' ([] ++ [mkBlock (b_ptr p) (b_size p + next_size_of tl + incr) 1 0]) /\
         keeps st st' (allocated_in ([] ++ [p])))
  | None => False
  end.
Proof.
  on_session.
  match goal with
  | |- ?A /\ _ =>
      assert (H : A)
        by (split; [repeat constructor|split; [checked|split; [reflexivity|split;
              [right; eexists; repeat split; reflexivity|split;
                [discriminate|split; reflexivity]]]]])
  end.
  split; [exact H|]. destruct H as (H0 & H1 & H2 & H3 & H4 & H5 & H6).
  exact (resize_grows_heap_end 8 _ [] _ _ 5000 H0 H1 H2 H3 H4 H5 H6).
Defined.

(** ** Resizing without moving *)





(** ** Copying a payload *)

Lemma load8_memmove_outside m dst src n x :
  x < dst \/ dst + n <= x -> load8 (memmove m dst src n) x = load8 m x.
Proof.
  intros H. unfold load8, memmove.
  destruct (Z.leb_spec dst x); destruct (Z.ltb_spec x (dst + n)); cbn [andb];
    try reflexivity; lia.
Qed.

Lemma load8_memmove_inside m dst src n x :
  dst <= x < dst + n -> load8 (memmove m dst src n) x = load8 m (src + (x - dst)).
Proof.
  intros H. unfold load8, memmove.
  destruct (Z.leb_spec dst x); destruct (Z.ltb_spec x (dst + n)); cbn [andb];
    try reflexivity; lia.
Qed.

Lemma GET_memmove_outside st dst src n c :
  c + 4 <= dst \/ dst + n <= c ->
  GET (with_mem st (memmove (mem st) dst src n)) c = GET st c.
Proof.
  intros H. unfold GET, with_mem. cbn [mem]. unfold load32.
  rewrite !load8_memmove_outside by lia. reflexivity.
Qed.

Lemma GET_memmove_inside st dst src n c :
  dst <= c -> c + 4 <= dst + n ->
  GET (with_mem st (memmove (mem st) dst src n)) c = GET st (src + (c - dst)).
Proof.
  intros H1 H2. unfold GET, with_mem. cbn [mem]. unfold load32.
  rewrite !load8_memmove_inside by lia.
  replace (src + (c + 1 - dst)) with (src + (c - dst) + 1) by lia.
  replace (src + (c + 2 - dst)) with (src + (c - dst) + 2) by lia.
  replace (src + (c + 3 - dst)) with (src + (c - dst) + 3) by lia.
  reflexivity.
Qed.

(** A heap stays well formed whatever is written into the payload of an
    allocated block. *)
Lemma heap_payload_change st st' bl N a :
  heap_with st bl N -> allocated_in bl a ->
  prologue_block st' = prologue_block st -> mem_brk st' = mem_brk st ->
  mem_max_addr st' = mem_max_addr st ->
  (forall i, FREE_SEG_LISTS st' i = FREE_SEG_LISTS st i) ->
  (forall c, c + 4 <= b_ptr a \/ b_ptr a + b_size a - DSIZE <= c -> GET st' c = GET st c) ->
  heap_with st' bl N.
Proof.
  intros (HL & HK & HN) Ha Ep Eb Em El Hag. pose proof Ha as [Hin Hal].
  pose proof (hl_blocks _ _ HL) as Lb.
  pose proof (proj2 (layout_bounds _ _ _ _ Lb) a Hin) as Ba.
  pose proof (layout_block _ _ _ _ _ Lb Hin) as (Has & _).
  unfold first_block, DSIZE in *.
  split; [|split; [|exact HN]].
  - apply (heap_layout_agree st st' bl Ep Eb Em); [|exact HL].
    intros c _ _ Hc. apply Hag. unfold HEAD, WSIZE, DSIZE in *.
    destruct Hc as [->|[->|[->|(b & Hb & Hc)]]]; [lia|lia|lia|].
    destruct (layout_sep _ _ _ _ _ _ Lb Hb Hin) as [E|[E|E]].
    + subst b. destruct Hc as [-> | ->]; lia.
    + pose proof (layout_block _ _ _ _ _ Lb Hb) as (Hbs & _).
      destruct Hc as [-> | ->]; lia.
    + pose proof (layout_block _ _ _ _ _ Lb Hb) as (Hbs & _).
      destruct Hc as [-> | ->]; lia.
  - apply (links_agree st st' N); [|exact El|exact HK].
    intros x s Hx. apply HN in Hx.
    split; apply Hag.
    + apply (link_outside st bl x s x a HL Hx); auto.
    + apply (link_outside st bl x s (x + 4) a HL Hx); auto.
Qed.

(** ** [mm_realloc] moving a block *)

(** *** Block sequences *)

Lemma prev_tagged_free_app l y :
  y <> [] -> prev_tagged_free (l ++ y) = prev_tagged_free y.
Proof.
  intros Hy. unfold prev_tagged_free. rewrite rev_app_distr.
  destruct (rev y) as [|c ry] eqn:E; [|reflexivity].
  apply (f_equal (@rev block)) in E. rewrite rev_involutive in E. contradiction.
Qed.

Lemma app_eq_mid {A} (X Y la rest : list A) p :
  X ++ Y = la ++ p :: rest ->
  (exists y, X = la ++ p :: y /\ rest = y ++ Y) \/
  (exists y, Y = y ++ p :: rest /\ la = X ++ y).
Proof.
  revert la. induction X as [|x X IH]; intros la H.
  - right. exists la. auto.
  - destruct la as [|a la]; cbn [app] in H.
    + injection H as -> <-. left. exists X. auto.
    + injection H as -> H. destruct (IH la H) as [(y & -> & ->)|(y & -> & ->)].
      * left. exists y. auto.
      * right. exists y. auto.
Qed.

(** Where an allocated block is, when a stretch of free blocks is set
    apart. *)
Lemma split_allocated l1 mid l2 la p rest :
  l1 ++ mid ++ l2 = la ++ p :: rest -> b_alloc p = 1 ->
  (forall m, In m mid -> b_alloc m = 0) ->
  (exists y, l1 = la ++ p :: y /\ rest = y ++ mid ++ l2) \/
  (exists y, l2 = y ++ p :: rest /\ la = l1 ++ mid ++ y).
Proof.
  intros H Hp Hmid. destruct (app_eq_mid _ _ _ _ _ H) as [(y & E1 & E2)|(y & E1 & E2)].
  - left. eauto.
  - destruct (app_eq_mid _ _ _ _ _ E1) as [(y' & E3 & E4)|(y' & E3 & E4)].
    + exfalso. assert (Hin : In p mid) by (rewrite E3; apply in_elt).
      rewrite (Hmid p Hin) in Hp. discriminate.
    + right. exists y'. subst. auto.
Qed.

(** *** Sizes *)

Lemma adjust_size_exact z :
  z mod 8 = 0 -> 24 <= z -> z + 7 < 2 ^ 32 -> adjust_size (z - DSIZE) = z.
Proof.
  intros Hm Hz Hb. unfold adjust_size, DSIZE. destruct (Z.leb_spec (z - 8) 8) as [C|_]; [lia|].
  rewrite (wrap32_small (z - 8 + 8 + (8 - 1))) by lia.
  pose proof (Z.div_mod z 8 ltac:(lia)) as D.
  replace (z - 8 + 8 + (8 - 1)) with (7 + (z / 8) * 8) by lia.
  rewrite Z.div_add by lia. change (7 / 8) with 0.
  rewrite wrap32_small by lia. lia.
Qed.

Lemma realloc_size_bounds n :
  0 < n -> n + 143 < 2 ^ 31 ->
  realloc_size n mod 8 = 0 /\ n + 136 <= realloc_size n /\ realloc_size n <= n + 143 /\
  realloc_size n = adjust_size n + 128.
Proof.
  intros Hn Hb. change (2 ^ 31) with 2147483648 in Hb.
  destruct (adjust_size_bounds n Hn ltac:(change (2 ^ 32) with 4294967296; lia))
    as (Am & A16 & An & Amax).
  unfold realloc_size. change REALLOC_BUFFER with 128. unfold DSIZE in *.
  rewrite wrap32_small by (change (2 ^ 32) with 4294967296; lia).
  split; [|lia].
  rewrite Z.add_mod, Am by lia. reflexivity.
Qed.

(** *** The new block *)

(** A block of a stretch and a block outside it start at different
    addresses. *)
(** [mm_malloc] inside [mm_realloc]: the block [p] is still there, what
    comes before it is still no tagged free block, and the new block [A]
    is another block. *)
Lemma malloc_beside fuel st la p rest m :
  heap st (la ++ p :: rest) -> b_alloc p = 1 ->
  (length (la ++ p :: rest) < fuel)%nat -> 0 < m -> m + 15 < 2 ^ 32 ->
  prev_tagged_free la = false -> prev_tagged_free (la ++ p :: rest) = false ->
  mem_brk st + MAX (adjust_size m) CHUNKSIZE <= mem_max_addr st ->
  exists st1 A l1' l2',
    mm_malloc fuel st m = Some (st1, b_ptr A) /\ b_ptr A <> NULL /\
    heap st1 (l1' ++ p :: l2') /\ prev_tagged_free l1' = false /\
    In A (l1' ++ l2') /\ b_alloc A = 1 /\ adjust_size m <= b_size A /\
    keeps st st1 (allocated_in (la ++ p :: rest)) /\
    (forall a, In a (la ++ rest) -> b_alloc a = 1 -> In a (l1' ++ l2') /\ a <> A).
Proof.
  intros HW Hp Hf Hm Hb Hpt Hlast Hgrow.
  destruct (mm_malloc_heap fuel st _ m HW Hf Hm Hb (merge_slips_tagged _ _ Hlast))
    as (st1 & q & E1 & [(_ & _ & _ & C)|(l1 & b & l2 & Eq & Hq & Hba & Hbs & _ &
                                          (mid & Emid & Hmid & _) & HW1 & K1)]); [lia|].
  destruct (placed_head b (adjust_size m) Hbs) as (s & tl & Epl & Hs & Hptf & Htl).
  rewrite Epl in HW1. set (A := mkBlock (b_ptr b) s 1 (b_tag b)) in *.
  assert (Hother : forall a, In a (la ++ rest) -> b_alloc a = 1 ->
                             In a (l1 ++ l2) /\ a <> A).
  { intros a Ha Hal.
    assert (Hin : In a (l1 ++ l2)).
    { assert (Hbl : In a (l1 ++ mid ++ l2)).
      { rewrite <- Emid. apply in_app_or in Ha as [Ha|Ha]; apply in_or_app;
          [left; exact Ha|right; right; exact Ha]. }
      apply in_app_or in Hbl as [Hbl|Hbl]; [apply in_or_app; auto|].
      apply in_app_or in Hbl as [Hbl|Hbl]; [|apply in_or_app; auto].
      rewrite (Hmid a Hbl) in Hal. discriminate. }
    split; [exact Hin|]. intros E.
    apply (stretch_apart st1 l1 (A :: tl) l2 a A (proj1 HW1) Hin (or_introl eq_refl)).
    rewrite E. reflexivity. }
  destruct (split_allocated _ _ _ _ _ _ (eq_sym Emid) Hp Hmid) as [(y & E11 & E12)|(y & E21 & E22)].
  - (* the new block comes after [p] *)
    exists st1, A, la, (y ++ (A :: tl) ++ l2).
    split; [rewrite E1, Eq; reflexivity|]. split; [rewrite Eq in Hq; exact Hq|].
    split; [rewrite E11, <- app_assoc in HW1; exact HW1|]. split; [exact Hpt|].
    split; [apply in_or_app; right; apply in_or_app; right; left; reflexivity|].
    split; [reflexivity|]. split; [exact Hs|]. split; [exact K1|].
    intros a Ha Hal. destruct (Hother a Ha Hal) as [Hin Hne]. split; [|exact Hne].
    rewrite E11 in Hin. rewrite <- app_assoc in Hin. cbn [app] in Hin.
    apply in_app_or in Hin as [Hin|[Hin|Hin]].
    + apply in_or_app. left. exact Hin.
    + exfalso. subst a.
      apply in_app_or in Ha as [Ha|Ha].
      * pose proof HW as (HL & _). destruct (heap_layout_split _ _ _ _ HL) as (L1 & (Hps & _) & _).
        pose proof (proj2 (layout_bounds _ _ _ _ L1) p Ha). lia.
      * pose proof HW as (HL & _). destruct (heap_layout_split _ _ _ _ HL) as (_ & (Hps & _) & L2).
        pose proof (proj2 (layout_bounds _ _ _ _ L2) p Ha). lia.
    + apply in_or_app. right. apply in_or_app.
      apply in_app_or in Hin as [Hin|Hin]; [left; exact Hin|right].
      apply in_or_app. right. exact Hin.
  - (* the new block comes before [p] *)
    exists st1, A, (l1 ++ (A :: tl) ++ y), rest.
    split; [rewrite E1, Eq; reflexivity|]. split; [rewrite Eq in Hq; exact Hq|].
    split; [rewrite E21 in HW1; rewrite <- !app_assoc; exact HW1|].
    split.
    { destruct y as [|y0 y].
      - rewrite app_nil_r. rewrite prev_tagged_free_app by discriminate. exact Hptf.
      - rewrite app_assoc, prev_tagged_free_app by discriminate.
        rewrite E22, app_assoc, prev_tagged_free_app in Hpt by discriminate. exact Hpt. }
    split; [apply in_or_app; left; apply in_or_app; right; apply in_or_app; left;
            left; reflexivity|].
    split; [reflexivity|]. split; [exact Hs|]. split; [exact K1|].
    intros a Ha Hal. destruct (Hother a Ha Hal) as [Hin Hne]. split; [|exact Hne].
    rewrite E21 in Hin.
    apply in_app_or in Hin as [Hin|Hin].
    + apply in_or_app. left. apply in_or_app. left. exact Hin.
    + apply in_app_or in Hin as [Hin|[Hin|Hin]].
      * apply in_or_app. left. apply in_or_app. right. apply in_or_app. right. exact Hin.
      * exfalso. subst a.
        apply in_app_or in Ha as [Ha|Ha].
        -- pose proof HW as (HL & _).
           destruct (heap_layout_split _ _ _ _ HL) as (L1 & (Hps & _) & _).
           pose proof (proj2 (layout_bounds _ _ _ _ L1) p Ha). lia.
        -- pose proof HW as (HL & _).
           destruct (heap_layout_split _ _ _ _ HL) as (_ & (Hps & _) & L2).
           pose proof (proj2 (layout_bounds _ _ _ _ L2) p Ha). lia.
      * apply in_or_app. right. exact Hin.
Qed.

(** *** The move *)

Lemma keeps_window st bl f w v :
  heap_layout st bl -> In f bl -> b_ptr f - 4 <= w -> w + 4 <= b_ptr f + b_size f ->
  keeps st (CLEAR_PUT st w v) (fun a => In a bl /\ a <> f).
Proof.
  intros HL Hf H1 H2. apply keeps_write. intros b [Hb Hne].
  apply (window_outside st bl f b w HL Hf Hb Hne H1 H2).
Qed.

Lemma keeps_memmove st bl f dst src n :
  heap_layout st bl -> In f bl -> b_ptr f <= dst -> dst + n <= b_ptr f + b_size f ->
  keeps st (with_mem st (memmove (mem st) dst src n)) (fun a => In a bl /\ a <> f).
Proof.
  intros HL Hf H1 H2 b c [Hb Hne] H3 H4. apply GET_memmove_outside. unfold DSIZE in H4.
  destruct (layout_sep _ _ _ _ _ _ (hl_blocks _ _ HL) Hb Hf) as [E|[E|E]];
    [contradiction|lia|lia].
Qed.

(** X19.  [mm_realloc] on an allocated block [p] that is too small and is
    followed by an allocated block, in a well-formed heap that can grow,
    when neither [p] nor the end of the heap follows a tagged free block.
    The call returns the address of an allocated block of at least the
    adjusted size plus the buffer; the words of the old payload are found
    at the same offsets of the new one, as far as the request reaches; the
    heap is well formed and the payloads of the other allocated blocks are
    untouched. *)
Theorem resize_moves_block_and_data fuel st la p nb r n :
  heap st (la ++ p :: nb :: r) -> b_alloc p = 1 -> b_alloc nb = 1 ->
  0 < n -> n + 143 < 2 ^ 31 -> b_size p < realloc_size n ->
  prev_tagged_free la = false -> prev_tagged_free (la ++ p :: nb :: r) = false ->
  mem_brk st + MAX (realloc_size n) CHUNKSIZE <= mem_max_addr st ->
  (length (la ++ p :: nb :: r) < fuel)%nat ->
  exists st' q bl' s t,
    mm_realloc fuel st (b_ptr p) n = Some (st', q) /\ q <> NULL /\
    heap st' bl' /\ In (mkBlock q s 1 t) bl' /\ realloc_size n <= s /\
    (forall c, 0 <= c -> c + 4 <= n -> c + 4 <= b_size p - DSIZE ->
               GET st' (q + c) = GET st (b_ptr p + c)) /\
    keeps st st' (allocated_in (la ++ nb :: r)).
Proof.
  intros HW Hp Hnb Hn Hb Hsmall Hpt Hlast Hgrow Hf.
  pose proof HW as (HL & _).
  destruct (realloc_size_bounds n Hn Hb) as (Rm & Rlo & Rhi & Req).
  destruct (heap_layout_split _ _ _ _ HL) as (_ & Hpok & _).
  destruct (block_header_fields _ _ Hpok) as (Esz & _).
  pose proof (block_bounds _ _ _ _ HL) as (B1 & B2 & B3 & B4 & B5).
  destruct (next_header_block _ _ _ _ _ HL) as [En Hnok].
  destruct (block_header_fields _ _ Hnok) as (Ens & Ena & _).
  pose proof Hnok as (Hnbs & _).
  change (2 ^ 31) with 2147483648 in *.
  assert (Ead : adjust_size (realloc_size n - DSIZE) = realloc_size n)
    by (apply adjust_size_exact; [exact Rm|lia|change (2 ^ 32) with 4294967296; lia]).
  (* the path taken *)
  unfold mm_realloc. destruct (Z.eqb_spec n 0) as [E|_]; [lia|]. cbv zeta.
  rewrite Esz, En, Ens, Ena, Hnb.
  rewrite (to_int_small (b_size p - realloc_size n))
    by (change (2 ^ 31) with 2147483648; lia).
  destruct (Z.ltb_spec (b_size p - realloc_size n) 0) as [_|C]; [|lia].
  change (1 =? 0) with false. destruct (Z.eqb_spec (b_size nb) 0) as [C|_]; [lia|].
  cbn [orb]. rewrite (wrap32_small (realloc_size n - DSIZE))
    by (unfold DSIZE; change (2 ^ 32) with 4294967296; lia).
  assert (EM : MIN n (realloc_size n) = n)
    by (unfold MIN; destruct (Z.ltb_spec n (realloc_size n)); lia).
  rewrite EM.
  (* the new block *)
  destruct (malloc_beside fuel st la p (nb :: r) (realloc_size n - DSIZE) HW Hp Hf
              ltac:(unfold DSIZE; lia)
              ltac:(unfold DSIZE; change (2 ^ 32) with 4294967296; lia)
              Hpt Hlast ltac:(rewrite Ead; exact Hgrow))
    as (st1 & A & l1' & l2' & E1 & Hq & HW1 & Hpt1 & HA & HAa & HAs & K1 & Hother).
  rewrite Ead in HAs. rewrite E1. clear E1.
  assert (HA1 : In A (l1' ++ p :: l2')).
  { apply in_app_or in HA as [HA|HA]; apply in_or_app; [left|right; right]; exact HA. }
  pose proof (heap_block _ _ _ (proj1 HW1) HA1) as HAok.
  (* the copy *)
  assert (HW2 : heap (with_mem st1 (memmove (mem st1) (b_ptr A) (b_ptr p) n))
                     (l1' ++ p :: l2')).
  { apply (heap_payload_change st1 _ _ _ A HW1 (conj HA1 HAa));
      try reflexivity.
    intros c Hc. apply GET_memmove_outside. unfold DSIZE in *. lia. }
  assert (D2 : forall c, 0 <= c -> c + 4 <= n ->
               GET (with_mem st1 (memmove (mem st1) (b_ptr A) (b_ptr p) n)) (b_ptr A + c)
               = GET st1 (b_ptr p + c)).
  { intros c H1 H2. rewrite GET_memmove_inside by lia. f_equal. lia. }
  pose proof (keeps_memmove st1 _ A (b_ptr A) (b_ptr p) n (proj1 HW1) HA1
                (Z.le_refl _) ltac:(lia)) as K2.
  generalize dependent (with_mem st1 (memmove (mem st1) (b_ptr A) (b_ptr p) n)).
  intros st2 HW2 D2 K2.
  (* the release *)
  assert (Hf0 : (0 < fuel)%nat) by lia.
  destruct (mm_free_heap fuel st2 l1' p l2' Hf0 HW2 Hp (merge_slips_tagged _ _ Hpt1))
    as (st3 & E3 & HW3).
  pose proof (mm_free_keeps fuel st2 l1' p l2' st3 HW2 Hp (merge_slips_tagged _ _ Hpt1) E3)
    as K3.
  rewrite E3. clear E3.
  destruct (released_allocated l1' p l2' A HA HAa) as (a' & Ha' & Ea1 & Ea2 & Ea3).
  apply in_split in Ha' as (X & Y & EXY). rewrite EXY in HW3.
  pose proof HW3 as (HL3 & _).
  destruct (heap_layout_split _ _ _ _ HL3) as (_ & Ha'ok & _).
  destruct (block_header_fields _ _ Ha'ok) as (Ga & _).
  rewrite Ea1, Ea2 in Ga. rewrite Ga.
  pose proof (next_ptr _ _ _ _ HL3) as ENx. rewrite Ea1, Ea2 in ENx.
  (* the tag *)
  assert (Hfin : exists st4 Y',
            realloc_tag st3 (b_ptr A) (to_int (b_size A - realloc_size n)) = (st4, b_ptr A) /\
            heap st4 (X ++ a' :: Y') /\
            (forall c, c + 4 <= b_ptr A + b_size A - 4 -> GET st4 c = GET st3 c) /\
            keeps st3 st4 (fun a => In a (X ++ a' :: Y) /\ a <> a')).
  { unfold realloc_tag.
    destruct (to_int (b_size A - realloc_size n) <? 2 * REALLOC_BUFFER).
    - exists (SET_TAG st3 (HEAD (NEXT st3 (b_ptr A)))), (tag_head Y).
      split; [reflexivity|]. split; [|split].
      + eapply heap_with_ext; [|rewrite <- Ea1; apply set_tag_next_heap; exact HW3].
        intros x s. rewrite !free_in_app, !free_in_cons, free_in_tag_head. reflexivity.
      + intros c Hc. rewrite ENx, SET_TAG_eq.
        apply GET_CLEAR_PUT_other. unfold HEAD, WSIZE. lia.
      + rewrite ENx, SET_TAG_eq.
        apply (keeps_window st3 _ a' _ _ HL3 (in_elt a' X Y));
          rewrite Ea1, ?Ea2; unfold HEAD, WSIZE; lia.
    - exists st3, Y. split; [reflexivity|]. split; [exact HW3|].
      split; [reflexivity|apply keeps_refl]. }
  destruct Hfin as (st4 & Y' & E4 & HW4 & G4 & K4). rewrite E4.
  exists st4, (b_ptr A), (X ++ a' :: Y'), (b_size A), (b_tag a').
  split; [reflexivity|]. split; [exact Hq|]. split; [exact HW4|].
  split; [|split; [exact HAs|split]].
  - apply in_or_app. right. left. destruct a'; cbn in *; subst; reflexivity.
  - (* the data *)
    intros c H1 H2 H3. pose proof HAok as (HAs16 & _). unfold DSIZE in *.
    rewrite G4 by lia.
    rewrite (K3 A (b_ptr A + c) (conj HA HAa)) by (unfold DSIZE; lia).
    rewrite D2 by lia.
    apply (K1 p (b_ptr p + c)); [split; [apply in_elt|exact Hp]|lia|unfold DSIZE; lia].
  - (* the other blocks *)
    intros a c [Ha Hal] H1 H2.
    assert (Ha0 : In a (la ++ nb :: r)) by exact Ha.
    destruct (Hother a Ha Hal) as [Hin HneA].
    assert (Hin1 : In a (l1' ++ p :: l2')).
    { apply in_app_or in Hin as [Hin|Hin]; apply in_or_app; [left|right; right]; exact Hin. }
    destruct (released_allocated l1' p l2' a Hin Hal) as (a2 & Ha2 & Eb1 & Eb2 & _).
    rewrite EXY in Ha2.
    assert (Hne2 : a2 <> a').
    { intros E. subst a2. apply HneA.
      apply (layout_ptr_inj _ _ _ _ _ _ (hl_blocks _ _ (proj1 HW1)) Hin1 HA1). congruence. }
    rewrite (K4 a2 c (conj Ha2 Hne2)) by (rewrite ?Eb1, ?Eb2; assumption).
    rewrite (K3 a c (conj Hin Hal)) by assumption.
    rewrite (K2 a c (conj Hin1 HneA)) by assumption.
    apply (K1 a c); [split; [|exact Hal]|assumption|assumption].
    apply in_app_or in Ha0 as [Ha0|Ha0]; apply in_or_app; [left|right; right]; exact Ha0.
Qed.

Lemma resize_moves_block_and_data_witness :
  match session 8 65536 1048576 [Alloc 0 16; Alloc 1 16; Store 0 0 305419896] with
  | Some (st, _) =>
      let p := mkBlock 65552 24 1 0 in
      let nb := mkBlock 65576 24 1 0 in
      let r := [mkBlock 65600 4048 0 0] in
      (heap st ([] ++ p :: nb :: r) /\ b_alloc p = 1 /\ b_alloc nb = 1 /\
       0 < 100 /\ 100 + 143 < 2 ^ 31 /\ b_size p < realloc_size 100 /\
       prev_tagged_free [] = false /\ prev_tagged_free ([] ++ p :: nb :: r) = false /\
       mem_brk st + MAX (realloc_size 100) CHUNKSIZE <= mem_max_addr st /\
       (length ([] ++ p :: nb :: r) < 8)%nat) /\
      exists st' q bl' s t,
        mm_realloc 8 st (b_ptr p) 100 = Some (st', q) /\ q <> NULL /\
        heap st' bl' /\ In (mkBlock q s 1 t) bl' /\ realloc_size 100 <= s /\
        (forall c, 0 <= c -> c + 4 <= 100 -> c + 4 <= b_size p - DSIZE ->
                   GET st' (q + c) = GET st (b_ptr p + c)) /\
        keeps st st' (allocated_in ([] ++ nb :: r))
  | None => False
  end.
Proof.
  on_session.
  match goal with
  | |- ?A /\ _ =>
      assert (H : A)
        by (split; [checked|];
            repeat (split; [first [reflexivity | vm_compute; congruence
                                  | repeat constructor]|]);
            repeat constructor)
  end.
  split; [exact H|]. destruct H as (H1 & H2 & H3 & H4 & H5 & H6 & H7 & H8 & H9 & H10).
  exact (resize_moves_block_and_data 8 _ [] _ _ _ 100 H1 H2 H3 H4 H5 H6 H7 H8 H9 H10).
Defined.

(** ** Heaps without reallocation tags

    Only [mm_realloc] sets the tag.  As long as no block carries it,
    [mm_malloc] and [mm_free] keep the heap well formed, free of tags and
    free of adjacent free blocks. *)

Lemma untagged_app l r : untagged (l ++ r) = untagged l && untagged r.
Proof. apply forallb_app. Qed.

Lemma untagged_cons b r : untagged (b :: r) = (b_tag b =? 0) && untagged r.
Proof. reflexivity. Qed.

Lemma untagged_prev l : untagged l = true -> prev_tagged_free l = false.
Proof.
  intros H. unfold prev_tagged_free.
  destruct (list_last_cases l) as [->|(l0 & c & ->)]; [reflexivity|].
  rewrite rev_unit. rewrite untagged_app, untagged_cons in H.
  apply andb_true_iff in H as [_ H]. apply andb_true_iff in H as [H _].
  rewrite H. apply andb_false_r.
Qed.

Lemma untagged_coalesced l1 p l2 :
  untagged l1 = true -> b_tag p = 0 -> untagged l2 = true ->
  untagged (coalesced l1 p l2) = true.
Proof.
  intros H1 Hp H2. unfold coalesced.
  set (p1 := match l2 with
             | n :: _ => if b_alloc n =? 0 then joined p n else p
             | [] => p
             end).
  assert (Hp1 : b_tag p1 = 0).
  { unfold p1. destruct l2 as [|n r]; [exact Hp|]. destruct (b_alloc n =? 0); exact Hp. }
  assert (H2' : untagged (if next_free l2 then tl l2 else l2) = true).
  { destruct (next_free l2); [|exact H2]. destruct l2 as [|n r]; [reflexivity|].
    rewrite untagged_cons in H2. apply andb_true_iff in H2 as [_ H2]. exact H2. }
  destruct (prev_mergeable l1) eqn:Em.
  - destruct (list_last_cases l1) as [->|(l0 & c & ->)]; [discriminate Em|].
    rewrite removelast_last, last_last. rewrite untagged_app, untagged_cons in *.
    apply andb_true_iff in H1 as [H0 Hc]. apply andb_true_iff in Hc as [Hc _].
    cbn [joined b_tag]. rewrite H0, Hc, H2'. reflexivity.
  - rewrite untagged_app, untagged_cons, H1, Hp1, H2'. reflexivity.
Qed.

Lemma untagged_untag_head l : untagged l = true -> untagged (untag_head l) = true.
Proof.
  destruct l as [|n r]; [reflexivity|]. cbn [untag_head]. rewrite !untagged_cons.
  intros H. apply andb_true_iff in H as [_ H]. exact H.
Qed.

Lemma untagged_placed b sx : b_tag b = 0 -> untagged (placed b sx) = true.
Proof.
  intros H. unfold placed. destruct (b_size b - sx >=? OVERHEAD);
    cbn [untagged forallb b_tag]; rewrite H; reflexivity.
Qed.

Lemma free_run_app_l f l r : free_run f (l ++ r) = false -> free_run f l = false.
Proof.
  revert f. induction l as [|a l IH]; intros f H; [reflexivity|].
  cbn [app free_run] in *. apply orb_false_iff in H as [H1 H2].
  rewrite H1, (IH _ H2). reflexivity.
Qed.

Lemma free_run_weaken f l : free_run true l = false -> free_run f l = false.
Proof.
  destruct l as [|a l]; [reflexivity|]. cbn [free_run]. intros H.
  apply orb_false_iff in H as [H1 H2]. cbn [andb] in H1. rewrite H2, H1.
  rewrite andb_false_r. reflexivity.
Qed.

(** Placing a request in a free block brings no two free blocks together. *)
Lemma placed_no_run l1 mid b sx l2 :
  free_run false (l1 ++ mid ++ l2) = false ->
  (forall m, In m mid -> b_alloc m = 0) -> (length mid <= 1)%nat ->
  (mid = [] -> l2 = []) ->
  free_run false (l1 ++ placed b sx ++ l2) = false.
Proof.
  intros H Hmid Hlen Hnil.
  assert (H1 : free_run false l1 = false) by (apply (free_run_app_l _ _ _ H)).
  assert (H2 : free_run true l2 = false).
  { destruct mid as [|m [|m' mid]]; [rewrite (Hnil eq_refl); reflexivity| |cbn [length] in Hlen; lia].
    cbn [app] in H. rewrite free_run_split, (Hmid m (or_introl eq_refl)) in H.
    apply orb_false_iff in H as [_ H]. exact H. }
  unfold placed. destruct (b_size b - sx >=? OVERHEAD); cbn [app].
  - rewrite free_run_split, free_run_snoc_alloc, H1 by reflexivity.
    cbn [b_alloc free_run orb andb]. change (0 =? 0) with true. exact H2.
  - rewrite free_run_split, free_run_snoc_alloc, H1 by reflexivity.
    cbn [b_alloc orb]. apply free_run_weaken. exact H2.
Qed.

(** X20.  On a well-formed heap without tags and without adjacent free
    blocks, [mm_malloc] returns and leaves such a heap again. *)
Theorem malloc_keeps_heap_tidy fuel st bl n :
  heap st bl -> (length bl < fuel)%nat -> 0 < n -> n + 15 < 2 ^ 32 ->
  untagged bl = true -> free_run false bl = false ->
  exists st' q bl',
    mm_malloc fuel st n = Some (st', q) /\
    heap st' bl' /\ untagged bl' = true /\ free_run false bl' = false.
Proof.
  intros HW Hf Hn Hb Hu Hr.
  destruct (mm_malloc_heap fuel st bl n HW Hf Hn Hb
              (merge_slips_tagged _ _ (untagged_prev _ Hu)))
    as (st' & q & E & [(_ & -> & _)|(l1 & b & l2 & _ & _ & _ & _ & Hbt &
                                      (mid & -> & Hmid & Hlen & Hnil) & HW' & _)]).
  - exists st, q, bl. auto.
  - exists st', q, (l1 ++ placed b (adjust_size n) ++ l2).
    split; [exact E|]. split; [exact HW'|]. split.
    + rewrite !untagged_app in *. apply andb_true_iff in Hu as [Hu1 Hu2].
      apply andb_true_iff in Hu2 as [_ Hu2].
      rewrite Hu1, Hu2, (untagged_placed _ _ Hbt). reflexivity.
    + apply (placed_no_run l1 mid b _ l2 Hr Hmid Hlen Hnil).
Qed.

Lemma malloc_keeps_heap_tidy_witness :
  match session 8 65536 1048576 [Alloc 0 16; Alloc 1 16; Alloc 2 16; Release 1] with
  | Some (st, _) =>
      let bl := [mkBlock 65552 24 1 0; mkBlock 65576 24 0 0; mkBlock 65600 24 1 0;
                 mkBlock 65624 4024 0 0] in
      (heap st bl /\ (length bl < 8)%nat /\ 0 < 16 /\ 16 + 15 < 2 ^ 32 /\
       untagged bl = true /\ free_run false bl = false) /\
      exists st' q bl',
        mm_malloc 8 st 16 = Some (st', q) /\
        heap st' bl' /\ untagged bl' = true /\ free_run false bl' = false
  | None => False
  end.
Proof.
  on_session.
  match goal with
  | |- ?A /\ _ =>
      assert (H : A) by (split; [checked|split; [repeat constructor|repeat split]])
  end.
  split; [exact H|]. destruct H as (H0 & H1 & H2 & H3 & H4 & H5).
  exact (malloc_keeps_heap_tidy 8 _ _ 16 H0 H1 H2 H3 H4 H5).
Defined.

(** X21.  On a well-formed heap without tags and without adjacent free
    blocks, [mm_free] on an allocated block returns and leaves such a heap
    again: the block is free and joined with its free neighbours. *)
Theorem free_keeps_heap_tidy fuel st l1 p l2 :
  (0 < fuel)%nat -> heap st (l1 ++ p :: l2) -> b_alloc p = 1 ->
  untagged (l1 ++ p :: l2) = true -> free_run false (l1 ++ p :: l2) = false ->
  exists st',
    mm_free fuel st (b_ptr p) = Some st' /\
    heap st' (released l1 p l2) /\
    untagged (released l1 p l2) = true /\ free_run false (released l1 p l2) = false.
Proof.
  intros Hf HW Hp Hu Hr.
  rewrite untagged_app, untagged_cons in Hu.
  apply andb_true_iff in Hu as [Hu1 Hu2]. apply andb_true_iff in Hu2 as [Hup Hu2].
  apply Z.eqb_eq in Hup.
  pose proof (untagged_prev _ Hu1) as Ht.
  destruct (mm_free_heap fuel st l1 p l2 Hf HW Hp (merge_slips_tagged _ _ Ht))
    as (st' & E & HW').
  exists st'. split; [exact E|]. split; [exact HW'|]. split.
  - apply untagged_coalesced; [exact Hu1|exact Hup|apply untagged_untag_head; exact Hu2].
  - apply released_no_run; assumption.
Qed.

Lemma free_keeps_heap_tidy_witness :
  match session 8 65536 1048576 [Alloc 0 16; Alloc 1 16; Alloc 2 16; Release 1] with
  | Some (st, _) =>
      let l1 := [mkBlock 65552 24 1 0; mkBlock 65576 24 0 0] in
      let p := mkBlock 65600 24 1 0 in
      let l2 := [mkBlock 65624 4024 0 0] in
      ((0 < 8)%nat /\ heap st (l1 ++ p :: l2) /\ b_alloc p = 1 /\
       untagged (l1 ++ p :: l2) = true /\ free_run false (l1 ++ p :: l2) = false) /\
      exists st',
        mm_free 8 st (b_ptr p) = Some st' /\
        heap st' (released l1 p l2) /\
        untagged (released l1 p l2) = true /\ free_run false (released l1 p l2) = false
  | None => False
  end.
Proof.
  on_session.
  match goal with
  | |- ?A /\ _ =>
      assert (H : A)
        by (split; [repeat constructor|split; [checked|split; [reflexivity|split; reflexivity]]])
  end.
  split; [exact H|]. destruct H as (H0 & H1 & H2 & H3 & H4).
  exact (free_keeps_heap_tidy 8 _ _ _ _ H0 H1 H2 H3 H4).
Defined.

(** ** Alignment on a well-formed heap *)

Lemma layout_aligned st bl : forall a e,
  layout st a bl e -> a mod 8 = 0 -> forall b, In b bl -> b_ptr b mod 8 = 0.
Proof.
  induction bl as [|c bl IH]; intros a e L Ha b Hb; [destruct Hb|].
  cbn [layout] in L. destruct L as (Hc & (_ & Hm & _) & L).
  destruct Hb as [<-|Hb]; [rewrite Hc; exact Ha|].
  apply (IH _ _ L); [|exact Hb]. rewrite Z.add_mod, Ha, Hm by lia. reflexivity.
Qed.

Lemma heap_blocks_aligned st bl b :
  heap_layout st bl -> prologue_block st mod 8 = 0 -> In b bl -> b_ptr b mod 8 = 0.
Proof.
  intros HL Hp Hb. apply (layout_aligned _ _ _ _ (hl_blocks _ _ HL)); [|exact Hb].
  unfold first_block, DSIZE. rewrite Z.add_mod, Hp by lia. reflexivity.
Qed.

Lemma heap_brk_aligned st bl :
  heap_layout st bl -> prologue_block st mod 8 = 0 -> mem_brk st mod 8 = 0.
Proof.
  intros HL Hp. pose proof (hl_blocks _ _ HL) as L.
  assert (Ha : first_block st mod 8 = 0)
    by (unfold first_block, DSIZE; rewrite Z.add_mod, Hp by lia; reflexivity).
  clear HL. revert L Ha. generalize (first_block st).
  induction bl as [|c bl IH]; intros a L Ha; cbn [layout] in L.
  - rewrite <- L. exact Ha.
  - destruct L as (_ & (_ & Hm & _) & L). apply (IH _ L).
    rewrite Z.add_mod, Ha, Hm by lia. reflexivity.
Qed.

Lemma entries_aligned_nodes n st N :
  links st N -> (forall x s, N x s -> x mod 8 = 0) ->
  forall p, p = NULL \/ (exists s, N p s) -> entries_aligned n st p = true.
Proof.
  intros HK Ha. induction n as [|n IH]; intros p Hp; [reflexivity|].
  cbn [entries_aligned]. destruct (Z.eqb_spec p NULL) as [E|E]; [reflexivity|].
  destruct Hp as [Hp|(s & Hp)]; [contradiction|]. cbn [orb].
  rewrite (Ha _ _ Hp). cbn [Z.eqb andb]. apply IH.
  destruct (Z.eq_dec (PRECEDE st p) NULL) as [E0|E0]; [left; exact E0|right].
  destruct (lk_precede _ _ HK _ _ Hp E0) as (s' & Hs' & _). exists s'. exact Hs'.
Qed.

Lemma heap_lists_aligned n st bl :
  heap st bl -> prologue_block st mod 8 = 0 -> lists_aligned n st = true.
Proof.
  intros (HL & HK & HN) Hp. unfold lists_aligned, all_lists.
  apply forallb_forall. intros i Hi. apply in_map_iff in Hi as (k & <- & Hk).
  apply in_seq in Hk.
  apply (entries_aligned_nodes n st _ HK).
  - intros x s Hx. apply HN in Hx as [t Hx].
    apply (heap_blocks_aligned st bl _ HL Hp Hx).
  - destruct (Z.eq_dec (FREE_SEG_LISTS st (Z.of_nat k)) NULL) as [E|E]; [left; exact E|right].
    destruct (lk_head _ _ HK (Z.of_nat k) ltac:(unfold SEG_LISTS; lia) E) as (s & Hs & _).
    exists s. exact Hs.
Qed.

(** X22.  In a well-formed heap whose prologue is 8-byte aligned, every
    payload address is 8-byte aligned, and so is every address that
    [mm_malloc], or [mm_realloc] on a block of the heap, returns. *)
Theorem heap_payloads_aligned fuel st bl n :
  heap st bl -> prologue_block st mod 8 = 0 ->
  (forall b, In b bl -> b_ptr b mod 8 = 0) /\
  (forall st' q, mm_malloc fuel st n = Some (st', q) -> q mod 8 = 0) /\
  (forall b st' q, In b bl -> mm_realloc fuel st (b_ptr b) n = Some (st', q) -> q mod 8 = 0).
Proof.
  intros HW Hp. pose proof HW as (HL & _).
  pose proof (heap_brk_aligned _ _ HL Hp) as Hb.
  pose proof (heap_lists_aligned fuel _ _ HW Hp) as Ha.
  split; [intros b; apply (heap_blocks_aligned _ _ _ HL Hp)|]. split.
  - intros st' q. apply (mm_malloc_aligned _ _ _ _ _ Hb Ha).
  - intros b st' q Hin. apply (mm_realloc_aligned _ _ _ _ _ _ Hb Ha).
    apply (heap_blocks_aligned _ _ _ HL Hp Hin).
Qed.

Lemma heap_payloads_aligned_witness :
  match session 8 65536 1048576 [Alloc 0 16; Alloc 1 16] with
  | Some (st, _) =>
      let bl := [mkBlock 65552 24 1 0; mkBlock 65576 24 1 0; mkBlock 65600 4048 0 0] in
      (heap st bl /\ prologue_block st mod 8 = 0) /\
      (forall b, In b bl -> b_ptr b mod 8 = 0) /\
      (forall st' q, mm_malloc 8 st 100 = Some (st', q) -> q mod 8 = 0) /\
      (forall b st' q, In b bl -> mm_realloc 8 st (b_ptr b) 100 = Some (st', q) ->
                       q mod 8 = 0)
  | None => False
  end.
Proof.
  on_session.
  match goal with
  | |- ?A /\ _ => assert (H : A) by (split; [checked|reflexivity])
  end.
  split; [exact H|]. destruct H as (H0 & H1).
  exact (heap_payloads_aligned 8 _ _ 100 H0 H1).
Defined.

(** ** Clients that only allocate and release *)

Lemma length_placed b sx : (length (placed b sx) <= 2)%nat.
Proof. unfold placed. destruct (b_size b - sx >=? OVERHEAD); cbn [length]; lia. Qed.

Lemma length_coalesced l1 p l2 :
  (length (coalesced l1 p l2) <= length (l1 ++ p :: l2))%nat.
Proof.
  unfold coalesced. rewrite length_app. cbn [length].
  assert (H2 : (length (if next_free l2 then tl l2 else l2) <= length l2)%nat).
  { destruct (next_free l2); [|lia]. destruct l2; cbn [tl length]; lia. }
  destruct (prev_mergeable l1) eqn:Em.
  - destruct (list_last_cases l1) as [->|(l0 & c & ->)]; [discriminate Em|].
    rewrite removelast_last, !length_app. cbn [length]. lia.
  - rewrite length_app. cbn [length]. lia.
Qed.

Lemma length_released l1 p l2 :
  (length (released l1 p l2) <= length (l1 ++ p :: l2))%nat.
Proof.
  unfold released. etransitivity; [apply length_coalesced|].
  rewrite !length_app. cbn [length]. destruct l2; cbn [untag_head length]; lia.
Qed.

Lemma live_spec id live : existsb (Nat.eqb id) live = true <-> In id live.
Proof.
  rewrite existsb_exists. split.
  - intros (j & Hj & E). apply Nat.eqb_eq in E. subst j. exact Hj.
  - intros H. exists id. split; [exact H|apply Nat.eqb_refl].
Qed.

Lemma released_spec id live j :
  In j (filter (fun j => negb (Nat.eqb id j)) live) <-> In j live /\ j <> id.
Proof.
  rewrite filter_In, negb_true_iff, Nat.eqb_neq. intuition congruence.
Qed.

Lemma bind_ptr_same t id q : bind_ptr t id q id = q.
Proof. unfold bind_ptr. rewrite Nat.eqb_refl. reflexivity. Qed.

Lemma bind_ptr_other t id q i : i <> id -> bind_ptr t id q i = t i.
Proof. intros H. unfold bind_ptr. apply Nat.eqb_neq in H. rewrite H. reflexivity. Qed.

(** One [Alloc] request. *)
Lemma alloc_step fuel st bl t live id n :
  heap st bl -> untagged bl = true -> free_run false bl = false -> holds bl t live ->
  (length bl < fuel)%nat -> 0 < n -> n + 15 < 2 ^ 32 -> ~ In id live ->
  exists st' q bl',
    mm_malloc fuel st n = Some (st', q) /\
    heap st' bl' /\ untagged bl' = true /\ free_run false bl' = false /\
    holds bl' (bind_ptr t id q) (if q =? NULL then live else id :: live) /\
    (length bl' <= length bl + 2)%nat.
Proof.
  intros HW Hu Hr [Hown Hinj] Hf Hn Hb Hid.
  assert (Hne : forall i, In i live -> i <> id) by (intros i Hi E; subst; contradiction).
  destruct (mm_malloc_heap fuel st bl n HW Hf Hn Hb
              (merge_slips_tagged _ _ (untagged_prev _ Hu)))
    as (st' & q & E & [(-> & -> & _)|(l1 & b & l2 & Eq & Hq & Hba & Hbs & Hbt &
                                       (mid & -> & Hmid & Hlen & Hnil) & HW' & _)]).
  - exists st, NULL, bl. change (NULL =? NULL) with true. cbv iota.
    split; [exact E|]. split; [exact HW|]. split; [exact Hu|]. split; [exact Hr|].
    split; [|lia]. split.
    + intros i Hi. rewrite bind_ptr_other by auto. auto.
    + intros i j Hi Hj. rewrite !bind_ptr_other by auto. auto.
  - destruct (placed_head b (adjust_size n) Hbs) as (s & tl & Epl & _ & _ & _).
    rewrite Hbt in Epl. rewrite <- Eq in Epl.
    assert (Hkeep : forall a, In a (l1 ++ mid ++ l2) -> b_alloc a = 1 -> In a (l1 ++ l2)).
    { intros a Ha Hal. apply in_app_or in Ha as [Ha|Ha]; [apply in_or_app; auto|].
      apply in_app_or in Ha as [Ha|Ha]; [|apply in_or_app; auto].
      rewrite (Hmid a Ha) in Hal. discriminate. }
    assert (Hin' : forall a, In a (l1 ++ l2) -> In a (l1 ++ placed b (adjust_size n) ++ l2)).
    { intros a Ha. apply in_app_or in Ha as [Ha|Ha]; apply in_or_app; [left; exact Ha|right].
      apply in_or_app. right. exact Ha. }
    assert (HA : In (mkBlock q s 1 0) (placed b (adjust_size n)))
      by (rewrite Epl; left; reflexivity).
    exists st', q, (l1 ++ placed b (adjust_size n) ++ l2).
    destruct (Z.eqb_spec q NULL) as [C|_]; [contradiction|].
    split; [exact E|]. split; [exact HW'|]. split; [|split; [|split]].
    + rewrite !untagged_app in *. apply andb_true_iff in Hu as [Hu1 Hu2].
      apply andb_true_iff in Hu2 as [_ Hu2].
      rewrite Hu1, Hu2, (untagged_placed _ _ Hbt). reflexivity.
    + apply (placed_no_run l1 mid b _ l2 Hr Hmid Hlen Hnil).
    + split.
      * intros i [<-|Hi].
        -- rewrite bind_ptr_same. exists s. apply in_or_app. right. apply in_or_app. auto.
        -- rewrite bind_ptr_other by auto. destruct (Hown i Hi) as (si & Hsi).
           exists si. apply Hin', (Hkeep _ Hsi). reflexivity.
      * assert (Hfresh : forall j, In j live -> t j <> q).
        { intros j Hj Ej. destruct (Hown j Hj) as (sj & Hsj).
          apply (stretch_apart st' l1 _ l2 _ _ (proj1 HW') (Hkeep _ Hsj eq_refl) HA).
          exact Ej. }
        intros i j [<-|Hi] [<-|Hj]; rewrite ?bind_ptr_same, ?bind_ptr_other by auto.
        -- reflexivity.
        -- intros Ej. destruct (Hfresh j Hj). auto.
        -- intros Ei. destruct (Hfresh i Hi). auto.
        -- auto.
    + rewrite !length_app. pose proof (length_placed b (adjust_size n)). lia.
Qed.

(** One [Release] request. *)
Lemma release_step fuel st bl t live id :
  heap st bl -> untagged bl = true -> free_run false bl = false -> holds bl t live ->
  (0 < fuel)%nat -> In id live ->
  exists st' bl',
    mm_free fuel st (t id) = Some st' /\
    heap st' bl' /\ untagged bl' = true /\ free_run false bl' = false /\
    holds bl' t (filter (fun j => negb (Nat.eqb id j)) live) /\
    (length bl' <= length bl)%nat.
Proof.
  intros HW Hu Hr [Hown Hinj] Hf Hid.
  destruct (Hown id Hid) as (s & Hs). apply in_split in Hs as (l1 & l2 & ->).
  set (p := mkBlock (t id) s 1 0) in *.
  pose proof Hu as Hu'. rewrite untagged_app, untagged_cons in Hu'.
  apply andb_true_iff in Hu' as [Hu1 Hu2]. apply andb_true_iff in Hu2 as [_ Hu2].
  pose proof (untagged_prev _ Hu1) as Ht.
  destruct (mm_free_heap fuel st l1 p l2 Hf HW eq_refl (merge_slips_tagged _ _ Ht))
    as (st' & E & HW').
  assert (Hu3 : untagged (released l1 p l2) = true)
    by (apply untagged_coalesced; [exact Hu1|reflexivity|apply untagged_untag_head; exact Hu2]).
  exists st', (released l1 p l2). split; [exact E|]. split; [exact HW'|].
  split; [exact Hu3|]. split; [apply released_no_run; auto|].
  split; [|apply length_released]. split.
  - intros j Hj. apply released_spec in Hj as [Hj Hne].
    destruct (Hown j Hj) as (sj & Hsj).
    assert (Hin : In (mkBlock (t j) sj 1 0) (l1 ++ l2)).
    { apply in_app_or in Hsj as [Hsj|[Hsj|Hsj]]; [apply in_or_app; auto| |apply in_or_app; auto].
      exfalso. apply Hne. apply (Hinj j id Hj Hid).
      apply (f_equal b_ptr) in Hsj. cbn [p b_ptr] in Hsj. auto. }
    destruct (released_allocated l1 p l2 _ Hin eq_refl) as (a' & Ha' & E1 & E2 & E3).
    exists sj. cbn [b_ptr b_size] in E1, E2.
    assert (E4 : b_tag a' = 0).
    { unfold untagged in Hu3. rewrite forallb_forall in Hu3.
      apply Z.eqb_eq. apply (Hu3 a' Ha'). }
    destruct a' as [x y z w]. cbn [b_ptr b_size b_alloc b_tag] in *. subst. exact Ha'.
  - intros i j Hi Hj. apply released_spec in Hi as [Hi _]. apply released_spec in Hj as [Hj _].
    auto.
Qed.

(** X23.  A client that only allocates and releases, starting from a
    well-formed heap without tags and without adjacent free blocks in which
    the ids of [live] stand for distinct allocated blocks: every request of
    a legal trace returns, and at the end the heap is again well formed,
    without tags and without adjacent free blocks.  The ids held at the
    end, [held], are those of [live] and those given a block by an [Alloc]
    that did not return NULL, less those released; they stand for allocated
    blocks of the final heap, at the addresses of the final table, and no
    two of them for the same block. *)
Theorem legal_session_keeps_heap_tidy fuel tr : forall st bl t live,
  heap st bl -> untagged bl = true -> free_run false bl = false -> holds bl t live ->
  legalb fuel st t live tr = true -> (length bl + 2 * length tr < fuel)%nat ->
  exists st' t' bl',
    replay fuel st t tr = Some (st', t') /\
    heap st' bl' /\ untagged bl' = true /\ free_run false bl' = false /\
    holds bl' t' (held fuel st t live tr).
Proof.
  induction tr as [|r tr IH]; intros st bl t live HW Hu Hr Hh Hl Hf.
  - exists st, t, bl. cbn [replay held]. auto.
  - cbn [length] in Hf. destruct r as [id n|id n|id|id o v]; cbn [legalb] in Hl;
      try discriminate Hl.
    + apply andb_true_iff in Hl as [Hl Hl']. apply andb_true_iff in Hl as [Hl Hid].
      apply andb_true_iff in Hl as [Hn Hb]. apply Z.ltb_lt in Hn, Hb.
      assert (Hid' : ~ In id live).
      { intros C. apply live_spec in C. rewrite C in Hid. discriminate. }
      destruct (alloc_step fuel st bl t live id n HW Hu Hr Hh ltac:(lia) Hn Hb Hid')
        as (st1 & q & bl1 & E & HW1 & Hu1 & Hr1 & Hh1 & Hlen).
      rewrite E in Hl'. cbn [replay serve held]. rewrite E.
      apply (IH st1 bl1 _ _ HW1 Hu1 Hr1 Hh1 Hl'). lia.
    + apply andb_true_iff in Hl as [Hid Hl']. apply live_spec in Hid.
      destruct (release_step fuel st bl t live id HW Hu Hr Hh ltac:(lia) Hid)
        as (st1 & bl1 & E & HW1 & Hu1 & Hr1 & Hh1 & Hlen).
      rewrite E in Hl'. cbn [replay serve held]. rewrite E.
      apply (IH st1 bl1 _ _ HW1 Hu1 Hr1 Hh1 Hl'). lia.
Qed.

Lemma legal_session_keeps_heap_tidy_witness :
  match session 16 65536 1048576 [] with
  | Some (st, t) =>
      let bl := [mkBlock 65552 4096 0 0] in
      let tr := [Alloc 0 16; Alloc 1 5000; Release 0; Alloc 2 8; Release 1] in
      (heap st bl /\ untagged bl = true /\ free_run false bl = false /\ holds bl t [] /\
       legalb 16 st t [] tr = true /\ (length bl + 2 * length tr < 16)%nat) /\
      exists st' t' bl',
        replay 16 st t tr = Some (st', t') /\
        heap st' bl' /\ untagged bl' = true /\ free_run false bl' = false /\
        holds bl' t' (held 16 st t [] tr)
  | None => False
  end.
Proof.
  on_session.
  match goal with
  | |- ?A /\ _ =>
      assert (H : A)
        by (split; [checked|split; [reflexivity|split; [reflexivity|split;
              [split; [intros ? []|intros ? ? []]|split;
                [vm_compute; reflexivity|repeat constructor]]]]])
  end.
  split; [exact H|]. destruct H as (H0 & H1 & H2 & H3 & H4 & H5).
  exact (legal_session_keeps_heap_tidy 16 _ _ _ _ _ H0 H1 H2 H3 H4 H5).
Defined.
